(* ===== verification/_CoqProject ===== *)
-Q . S2P
Prelude.v
Py.v
Json.v
JsonProps.v
Regex.v
Floats.v
Preflop.v
FlopTools.v
GameModels.v
PlayerModels.v
LlmPlayers.v
LogViewer.v
Evaluator.v
EvaluatorProps.v
ToolEvaluator.v
ToolProps.v
PreflopProps.v
FlopProps.v
DrawProps.v
GameHistory.v
HistoryProps.v
HistoryTool.v
HistoryToolProps.v
Game.v
GameLog.v
StateServer.v
GameProps.v
HandInvariant.v
StartHand.v
HandProps.v
Rules.v
ViewProps.v
Showdown.v
GameUi.v
ViewerUi.v
LogWindow.v
FletGame.v
AgentManager.v
SetupUi.v
Cli.v
CliGames.v
Main.v
ShowdownProps.v
HandHistory.v
ServerProps.v
Seating.v
CliProps.v
LlmProps.v
LogProps.v
LogWindowProps.v
PromptProps.v
ViewerProps.v
BettingProps.v
GameUiProps.v
FletProps.v
SetupProps.v
SpectatorProps.v
AgentsProps.v
AgentGames.v
Scenario.v
Witnesses.v
HistoryWitnesses.v
CliWitnesses.v
LlmWitnesses.v
LogWitnesses.v
WindowWitnesses.v
UiWitnesses.v
