(* ===== verification/Prelude.v ===== *)
(** * Verification of the ADK poker program

    The program plays Texas hold'em between people, random players and language
    model agents.  Its core is the game engine [src/poker/game.py]: an object
    with the players, the deck, the board, the pot and the order of play, changed
    by the methods a user interface calls in a loop: start a hand, ask the player
    on turn for an action, process it, go to the next phase when the betting is
    complete, and conduct the showdown.  The engine uses the cards and the deck
    ([src/poker/game_models.py]), the players ([src/poker/player_models.py]), the
    hand evaluator ([src/poker/evaluator.py]) and a database of played hands
    ([src/poker/game_history.py]).

    ** Files, models first

    - [Prelude.v]: this file; record update, exceptions, the state monad, tactics
      and the lemmas on sums and lists that the other files share.
    - [Py.v]: what the program uses of Python: strings as lists of code points,
      number printing and parsing, dictionaries as association lists in insertion
      order, stable sorting, [Counter], [combinations].
    - [Json.v]: JSON values, [dumps] in any layout of white space and [loads];
      a number with a fraction is its text, read as a double where it is used.
    - [GameModels.v]: cards, the deck, phases and the state given to a player.
    - [PlayerModels.v]: a player's chips, bets and status, and the decision of the
      random player.
    - [LlmPlayers.v]: the players that ask a language model: how an answer is
      searched, parsed and fitted to the offers, the handlers around the question,
      the polling of the reply.
    - [Evaluator.v]: the evaluation and the comparison of hands.
    - [GameHistory.v]: the database, a record of four tables.
    - [HistoryTool.v]: the tools of agents on the database: the example
      [src/docs/example_history_tool.py] and the tool of the history agent
      ([src/agents/simple_history_agent/tools/history_tools.py]).
    - [Game.v]: [PokerGame], one definition per method; a method that can raise is
      a computation in the monad [M], which keeps what was written before the
      exception, a method that cannot is a function.
    - [Showdown.v]: [conduct_showdown]: pot layers, winners, distribution.
    - [Cli.v], [CliGames.v]: the command line interface [src/poker/cli_ui.py]: its
      screens and the reading of choices; the parsing of the agents of a game and
      the loops that play a person against the computer ([run_game]), computer
      players ([run_cpu_only_game]) and agents ([run_agent_only_mode]) over the
      engine.
    - [StateServer.v]: the state shown to spectators ([src/poker/state_server.py],
      [src/poker/shared_state.py]).
    - [GameUi.v]: the screen of the graphical interface ([src/poker/game_ui.py]): what it
      shows of a game, the buttons at a person's turn and what they do, the dialog for a
      raise, and the overlays with the results.
    - [FletGame.v]: the pages of the graphical interface and the thread that plays its
      game, updates the screen and waits for the person ([src/poker/flet_ui.py]), with
      the gestures that act on the screen while it waits.
    - [AgentManager.v], [SetupUi.v]: the page of settings ([src/poker/agent_manager.py],
      [src/poker/setup_ui.py]): the agents that a server lists, their cards and tests,
      and the choices that become the configuration of a game.
    - [ViewerUi.v]: the page for spectators ([src/poker/viewer_ui.py]), which shows the
      answers of the state server, whatever JSON they are.
    - [GameLog.v]: what is written to the log that matters for the viewer: the format of
      a record, the description of the table, an accepted action, an agent's prompt.
    - [Regex.v]: the pieces that the patterns of the program are made of, as functions
      with a continuation.
    - [LogViewer.v]: the parser of the log viewer ([LogParser] of
      [src/log_viewer.py]): records, messages, the JSON of a prompt over many lines, and
      the state of the game it keeps.
    - [LogWindow.v]: its window ([LogViewerApp]): the list of the logs, the controls of
      the events, the state of the game as it is shown, the thread that follows a log
      and the timer that updates the window.
    - [Main.v]: the entry point [src/main.py]: the name of a log, the options and the
      choice of the interface.
    - [ToolEvaluator.v]: the hand evaluation tool of the tutorial agent
      ([src/tutorial_agents/agent_with_tool/hand_evaluator_tool.py]), a second
      implementation of the evaluation.
    - [Floats.v], [Preflop.v], [FlopTools.v]: Python's arithmetic on doubles, and the
      tools of team 1 that use it: the ranges of starting hands and the action
      recommended before the flop; bets, draws and a third evaluation of hands after.

    ** Files of theorems

    - [JsonProps.v]: what [dumps] writes, in any layout, [loads] reads back.
    - [EvaluatorProps.v]: the category of every five-card hand against an
      independent specification ([Ranking]), the best hand of any number of cards,
      the order on hands.
    - [ToolProps.v]: the tool agrees with the engine but for one hand, and reads
      every documented spelling of a card.
    - [PreflopProps.v], [FlopProps.v], [DrawProps.v]: the tools of team 1: two cards are
      in the range that lists them and are played from a threshold on; the flop tool
      agrees with the engine and scores a hand in the band of its category; the draws
      reported are the runs and suits of four with their outs.
    - [GameProps.v]: the accounts of the table and the effect of one action.
    - [HandInvariant.v]: the invariant [hand_ok] of a hand (seats, stacks, the pot
      as the sum of the bets, every card in one place, the board of the phase) and
      its preservation by actions and changes of phase.
    - [StartHand.v]: [start_new_hand] establishes the invariant.
    - [HandProps.v]: the theorems on the play of a hand, over the step relation
      [hand_step] of accepted actions and phase changes: the invariant of every
      reachable state, the exact acceptance condition and effect of each action,
      the order of play, when the betting closes, what is offered to a player.
    - [Rules.v]: an abstract specification of the betting, a table of seats with
      the moves the rules of poker allow, and the proof that the engine refines it.
    - [Seating.v]: no method of the engine changes who sits where.
    - [ViewProps.v]: the state given to a player reveals no other player's cards.
    - [ServerProps.v]: spectators are told the last action the engine accepted.
    - [ShowdownProps.v]: the layers hold what was contributed, the winners are the
      best hands, chips are conserved, and a payout is bounded by what the winner
      matched.
    - [CliProps.v]: a game of computer players raises no exception and creates no
      chips, over the invariants above; a turn ends in an accepted action; a
      person's choice is one of the offers and is accepted; the turn of a person
      in [run_game] raises a [TypeError].
    - [FletProps.v]: the thread of the graphical interface, with all it shows, raises no
      exception and creates no chips, whatever is decided, raised, clicked or typed, and a
      game that is over ends with the final ranking on the screen; that ranking stays over
      the next game.
    - [LlmProps.v]: a player that asks a model always decides, within the offers,
      whatever the model and the network do; an answer in the documented format is
      followed, unless its reasoning has a closing brace; the agent is sent exactly
      the state it may see.
    - [LogProps.v]: a log that grows is read piece by piece as it is read at once; of an
      accepted action the viewer reads the bets only.
    - [LogWindowProps.v]: whatever is clicked and however its threads take turns, the
      window shows all that has been read unless an update is pending; a log that is
      loaded is shown twice; the newest log is opened.
    - [PromptProps.v], [ViewerProps.v]: the lines of an indented JSON text, stripped and
      joined, are the JSON text without indentation, and its braces tell where it ends;
      so the record of a prompt tells the viewer the state of the engine.
    - [GameUiProps.v]: every hand can be shown, a person's screen depends on no other
      player's cards, the buttons are the offers and do what they say, and an accepted
      action is at the top of the history.
    - [SetupProps.v]: whatever the agent server answers and whatever is chosen, the page
      of settings starts a game as chosen, and the game is played to its end; a test of
      an agent shows on its card until the list is fetched again.
    - [SpectatorProps.v]: the page for spectators shows what the screens of the players
      show, each seat as its own player sees it.
    - [AgentGames.v]: a game of agents raises no exception and creates no chips,
      over the theorems on its players.
    - [BettingProps.v]: a hand comes to its end: the betting of a street closes
      within a number of turns given by the chips in play, when nobody has bet more
      than the bet to match.
    - [AgentsProps.v]: the agents of a game are parsed as documented and all else is
      refused; the results by agent add up.
    - [HistoryProps.v]: the invariant of the database, under which every query is answered.
    - [HandHistory.v]: what the database answers of a hand is what was played: its players,
      the accepted actions in order, the boards, and the cards and winnings of a showdown.
    - [HistoryToolProps.v]: the history agent reads what the newest database answers; the
      example tools, which ask a database of their own, know of no hand.
    - [Scenario.v]: concrete hands, and the runs on which the program departs from
      the rules of the game.
    - [Witnesses.v], [HistoryWitnesses.v], [CliWitnesses.v], [LlmWitnesses.v],
      [LogWitnesses.v], [UiWitnesses.v], [WindowWitnesses.v]: the general theorems applied to those hands,
      to whole games, to logs, to pages and to windows.

    ** Conventions

    Chips and ranks are unbounded integers, as in Python; seats and ids are
    natural numbers.  The shuffle of the deck and the random numbers are
    arguments; the theorems assume of a shuffle only that it is a permutation.
    What comes over the network is an argument too: the text of the runner's
    answer, the outcome of the request for a session, and a list of polls, each
    with the time passed and the reply if it is there.
    So is what a person does in each wait of the graphical interface, and the answers at
    the end of its hands; what is done while it does not wait is taken to be done in the
    next wait, and the end of a street to be confirmed at last.
    Log output has no effect on the state and is left out of the engine's definitions;
    what the viewer reads of it is in [GameLog.v].  The recursion of the
    JSON parser is bounded by fuel, the length of the text and one more, since every
    call consumes a character; that of the menu by the number of lines typed, and
    one more.  The betting loop of a game has a bound given from outside, because
    it need not end (see [short_big_blind_never_settles]): what is proved of the
    games holds for every bound, also in the state in which it is reached, and the
    five turns of the loop over the phases are always enough; [hand_terminates]
    gives a bound that suffices when no big blind is short.  Everything else is
    structurally recursive.

    ** Not modelled

    The layout of the pages, sizes and margins, and the transport of the HTTP servers and
    clients, which are input and output around the engine; a switch of threads within a
    turn of one; the parsing of the command line, which is a library's; the prompt texts,
    which go to libraries only; [save_game_state] of the engine, which nothing calls;
    Python's limits on the nesting of JSON and on the digits of an integer. *)
From stdpp Require Export base tactics decidable option list numbers gmap.
From stdpp Require Import strings.
From Stdlib Require Export ZArith Lia.

#[global] Set Default Goal Selector "!".

Declare Scope py_scope.
Delimit Scope py_scope with py.
Open Scope Z_scope.

(** ** Record update

    [r <| f := v |>] is the record [r] with field [f] replaced.  A record type
    opts in with an [Eta] instance: its constructor applied to all its
    projections.  The update function of one field is obtained by abstracting
    that projection in the eta expansion. *)

Class Eta (R : Type) := eta_expand : R → R.

Class Update {R T : Type} (proj : R → T) := update : (T → T) → R → R.
Arguments update {R T} proj {_} _ _ /.

Ltac derive_update proj :=
  lazymatch type of proj with
  | ?R → ?T =>
      let inst := constr:(ltac:(typeclasses eauto) : Eta R) in
      let body := eval hnf in inst in
      lazymatch eval pattern proj in body with
      | ?abs _ => exact (fun (f : T → T) => abs (fun r => f (proj r)))
      end
  end.

#[export] Hint Extern 1 (Update ?proj) => derive_update proj : typeclass_instances.

Notation "r <| proj := v |>" := (update proj (fun _ => v) r)
  (at level 12, left associativity, proj at next level, v at level 200,
   format "r  <| proj  :=  v |>").
Notation "r <| proj ::= f |>" := (update proj f r)
  (at level 12, left associativity, proj at next level, f at level 200,
   format "r  <| proj  ::=  f |>").

(** ** Exceptions and stateful computations

    [exn] lists the Python exceptions the modelled code raises or catches; the
    message is kept only where the code inspects it. *)

Inductive exn :=
  | ValueError | IndexError | KeyError | TypeError | AttributeError
  | NotImplementedError | ZeroDivisionError | JSONDecodeError | OverflowError
  | RequestException | OSError | EOFError | KeyboardInterrupt | OutOfFuel.

#[export] Instance exn_eq_dec : EqDecision exn.
Proof. solve_decision. Defined.

(** The exceptions that [except Exception] catches: an interrupt is none of
    them, and lack of fuel is no exception of the program. *)
Definition is_exception (e : exn) : bool :=
  match e with KeyboardInterrupt | OutOfFuel => false | _ => true end.

Inductive result (A : Type) :=
  | Ok (a : A)
  | Raise (e : exn).
Arguments Ok {A} _.
Arguments Raise {A} _.

#[export] Instance result_ret : MRet result := @Ok.
#[export] Instance result_bind : MBind result :=
  λ A B f m, match m with Ok a => f a | Raise e => Raise e end.
#[export] Instance result_fmap : FMap result :=
  λ A B f m, match m with Ok a => Ok (f a) | Raise e => Raise e end.

#[export] Instance result_eq_dec {A} `{EqDecision A} : EqDecision (result A).
Proof. solve_decision. Defined.

Definition is_Ok {A} (r : result A) : Prop := ∃ a, r = Ok a.

(** [l[i]] for a list index known to be non-negative: [IndexError] when it is
    out of range. *)
Definition nth_item {A} (l : list A) (i : nat) : result A :=
  match l !! i with Some x => Ok x | None => Raise IndexError end.

(** A computation over a mutable object of type [S].  As in Python, what was
    written before an exception stays written. *)
Definition M (S A : Type) : Type := S → result A * S.

Section StateMonad.
Context {S : Type}.

#[export] Instance M_ret : MRet (M S) := λ A a s, (Ok a, s).
#[export] Instance M_bind : MBind (M S) :=
  λ A B f m s, match m s with
               | (Ok a, s') => f a s'
               | (Raise e, s') => (Raise e, s')
               end.

Definition get : M S S := λ s, (Ok s, s).
Definition put (s : S) : M S () := λ _, (Ok tt, s).
Definition modify (f : S → S) : M S () := λ s, (Ok tt, f s).
Definition raise {A} (e : exn) : M S A := λ s, (Raise e, s).
Definition lift {A} (r : result A) : M S A := λ s, (r, s).

(** [try: m except E: h], for the exceptions that [handles] selects *)
Definition try_except {A} (m : M S A) (handles : exn → bool) (h : M S A) : M S A := λ s,
  match m s with
  | (Raise e, s') => if handles e then h s' else (Raise e, s')
  | r => r
  end.

(** [for x in l: f x] *)
Fixpoint for_each {A} (l : list A) (f : A → M S ()) : M S () :=
  match l with
  | [] => mret tt
  | x :: l' => f x ≫= λ _, for_each l' f
  end.

(** Partial-correctness triples and the total ones, which also exclude every
    exception. *)
Definition triple {A} (P : S → Prop) (m : M S A) (Q : A → S → Prop) : Prop :=
  ∀ s, P s → match m s with (Ok a, s') => Q a s' | (Raise _, _) => False end.

Lemma triple_ret {A} (P : S → Prop) (a : A) (Q : A → S → Prop) :
  (∀ s, P s → Q a s) → triple P (mret a) Q.
Proof. intros H s Hs. apply H, Hs. Qed.

Lemma triple_bind {A B} P (m : M S A) (f : A → M S B) R Q :
  triple P m R → (∀ a, triple (R a) (f a) Q) → triple P (m ≫= f) Q.
Proof.
  intros Hm Hf s Hs. unfold mbind, M_bind. specialize (Hm s Hs).
  destruct (m s) as [[a|e] s']; [by apply Hf | done].
Qed.

Lemma triple_modify P f (Q : () → S → Prop) :
  (∀ s, P s → Q tt (f s)) → triple P (modify f) Q.
Proof. intros H s Hs. apply H, Hs. Qed.

Lemma triple_get {A} P (f : S → M S A) Q :
  (∀ s0, P s0 → triple (λ s, s = s0) (f s0) Q) → triple P (get ≫= f) Q.
Proof. intros H s Hs. apply (H s Hs s eq_refl). Qed.

Lemma triple_weaken {A} (P P' : S → Prop) (m : M S A) (Q Q' : A → S → Prop) :
  triple P' m Q' → (∀ s, P s → P' s) → (∀ a s, Q' a s → Q a s) → triple P m Q.
Proof.
  intros Hm HP HQ s Hs. specialize (Hm s (HP s Hs)).
  destruct (m s) as [[a|e] s']; [by apply HQ | done].
Qed.

Lemma triple_for_each {A} (I : list A → S → Prop) l (f : A → M S ()) :
  (∀ x l', triple (I (x :: l')) (f x) (λ _, I l')) →
  triple (I l) (for_each l f) (λ _, I []).
Proof.
  intros Hf. induction l as [|x l IH]; [by apply triple_ret|].
  simpl. eapply triple_bind; [apply Hf | intros []; apply IH].
Qed.

(** [safe F P m Q]: from [P] the computation ends in [Q], or it runs out of fuel
    in [F]; it raises nothing else. *)
Definition safe {A} (F P : S → Prop) (m : M S A) (Q : A → S → Prop) : Prop :=
  ∀ s, P s → match m s with
             | (Ok a, s') => Q a s'
             | (Raise OutOfFuel, s') => F s'
             | (Raise _, _) => False
             end.

Lemma safe_ret {A} F (P : S → Prop) (a : A) (Q : A → S → Prop) :
  (∀ s, P s → Q a s) → safe F P (mret a) Q.
Proof. intros H s Hs. apply H, Hs. Qed.

Lemma safe_bind {A B} F P (m : M S A) (f : A → M S B) R Q :
  safe F P m R → (∀ a, safe F (R a) (f a) Q) → safe F P (m ≫= f) Q.
Proof.
  intros Hm Hf s Hs. unfold mbind, M_bind. specialize (Hm s Hs).
  destruct (m s) as [[a|e] s']; [by apply Hf | exact Hm].
Qed.

Lemma safe_get {A} F P (f : S → M S A) Q :
  (∀ s0, P s0 → safe F (λ s, s = s0) (f s0) Q) → safe F P (get ≫= f) Q.
Proof. intros H s Hs. apply (H s Hs s eq_refl). Qed.

Lemma safe_modify F P f (Q : () → S → Prop) :
  (∀ s, P s → Q tt (f s)) → safe F P (modify f) Q.
Proof. intros H s Hs. apply H, Hs. Qed.

Lemma safe_lift {A} F P (r : result A) (Q : A → S → Prop) a :
  r = Ok a → (∀ s, P s → Q a s) → safe F P (lift r) Q.
Proof. intros -> H s Hs. apply H, Hs. Qed.

Lemma safe_out {A} (F P : S → Prop) (Q : A → S → Prop) :
  (∀ s, P s → F s) → safe F P (raise OutOfFuel) Q.
Proof. intros H s Hs. apply H, Hs. Qed.

Lemma safe_weaken {A} F (P P' : S → Prop) (m : M S A) (Q Q' : A → S → Prop) :
  safe F P' m Q' → (∀ s, P s → P' s) → (∀ a s, Q' a s → Q a s) → safe F P m Q.
Proof.
  intros Hm HP HQ s Hs. specialize (Hm s (HP s Hs)).
  destruct (m s) as [[a|e] s']; [by apply HQ | exact Hm].
Qed.

(** [stable I m]: the computation keeps [I], also when it raises. *)
Definition stable {A} (I : S → Prop) (m : M S A) : Prop := ∀ s, I s → I (m s).2.

Lemma stable_ret {A} I (a : A) : stable I (mret a).
Proof. by intros s. Qed.
Lemma stable_get I : stable I get.
Proof. by intros s. Qed.
Lemma stable_lift {A} I (r : result A) : stable I (lift r).
Proof. by intros s. Qed.
Lemma stable_raise {A} I e : stable (A := A) I (raise e).
Proof. by intros s. Qed.
Lemma stable_modify I f : (∀ s, I s → I (f s)) → stable I (modify f).
Proof. intros H s. apply H. Qed.
Lemma stable_bind {A B} I (m : M S A) (f : A → M S B) :
  stable I m → (∀ a, stable I (f a)) → stable I (m ≫= f).
Proof.
  intros Hm Hf s Hs. unfold mbind, M_bind. specialize (Hm s Hs).
  destruct (m s) as [[a|e] s']; [by apply Hf|exact Hm].
Qed.

Lemma stable_for_each {A} I (l : list A) (f : A → M S ()) :
  (∀ x, stable I (f x)) → stable I (for_each l f).
Proof. intros H. induction l as [|x l IH]; [apply stable_ret|]. by apply stable_bind. Qed.

(** What a computation keeps can be added to its specification. *)
Lemma safe_frame {A} F (P : S → Prop) (m : M S A) (Q : A → S → Prop) (I : S → Prop) :
  safe F P m Q → stable I m →
  safe (λ s, F s ∧ I s) (λ s, P s ∧ I s) m (λ a s, Q a s ∧ I s).
Proof.
  intros Hm HI s [Hs Hi]. specialize (Hm s Hs). specialize (HI s Hi).
  destruct (m s) as [[a|e] s']; [done|]. by destruct e.
Qed.

Lemma safe_for_each {A} F (I : S → Prop) l (f : A → M S ()) :
  (∀ x, x ∈ l → safe F I (f x) (λ _, I)) → safe F I (for_each l f) (λ _, I).
Proof.
  induction l as [|x l IH]; intros Hf; [by apply safe_ret|]. simpl.
  eapply safe_bind; [apply Hf; by left|]. intros []. apply IH. intros y Hy. apply Hf. by right.
Qed.
End StateMonad.

Arguments M_ret _ _ _ /.

(** Running a computation step by step *)
Lemma bind_run {S A B} (m : M S A) (f : A → M S B) s a s' :
  m s = (Ok a, s') → (m ≫= f) s = f a s'.
Proof. intros H. unfold mbind, M_bind. by rewrite H. Qed.
Lemma lift_run {S A B} (r : result A) (f : A → M S B) s a : r = Ok a → (lift r ≫= f) s = f a s.
Proof. by intros ->. Qed.
Ltac step := erewrite bind_run; [|reflexivity]; cbv beta.

(** A loop that appends to a column *)
Lemma for_each_appends {S A B C} (f : C → M S ()) (enc : A → C) (add : list B → S → S) (h : A → B) l s :
  (∀ x s, x ∈ l → f (enc x) s = (Ok tt, add [h x] s)) →
  (∀ s, add [] s = s) → (∀ a b s, add b (add a s) = add (a ++ b) s) →
  for_each (enc <$> l) f s = (Ok tt, add (h <$> l) s).
Proof.
  intros Hf H0 Ha. revert s Hf. induction l as [|x l IH]; intros s Hf; [by rewrite H0|].
  rewrite fmap_cons. cbn [for_each]. erewrite bind_run; [|apply Hf; by left].
  rewrite IH; [by rewrite Ha|]. intros y s' Hy. apply Hf. by right.
Qed.

(** ** Checks over a list *)

Lemma forallb_elem {A} (f : A → bool) l x : forallb f l = true → x ∈ l → f x = true.
Proof. rewrite forallb_forall. intros H Hx. by apply H, list_elem_of_In. Qed.

Lemma forallb_ext {A} (f g : A → bool) l : (∀ x, f x = g x) → forallb f l = forallb g l.
Proof. intros H. induction l as [|x l IH]; [done|]. simpl. by rewrite H, IH. Qed.

(** ** Automation *)

Create HintDb poker.

#[export] Hint Resolve stable_ret stable_get stable_lift stable_raise stable_for_each : poker.

(** Computations made of parts that keep an invariant *)
Ltac stable_parts :=
  repeat first
    [ solve [auto with poker]
    | apply stable_bind; [|intros ?]
    | match goal with
      | |- stable _ (if ?b then _ else _) => destruct b
      | |- stable _ (let '(_, _) := ?x in _) => destruct x
      | |- stable _ (match ?x with _ => _ end) => destruct x
      end ].

(** Case analysis on the scrutinee of some [match] in the goal. *)
Ltac case_goal :=
  match goal with
  | |- context [match ?x with _ => _ end] => destruct x eqn:?
  end.

(** Case analysis on the scrutinee of some [match] in hypothesis [H]. *)
Ltac case_hyp H :=
  match type of H with
  | context [match ?x with _ => _ end] => destruct x eqn:?
  end.

(** Boolean tests on integers become propositions. *)
Ltac zbool :=
  repeat match goal with
  | H : (_ =? _)%Z = true |- _ => apply Z.eqb_eq in H
  | H : (_ =? _)%Z = false |- _ => apply Z.eqb_neq in H
  | H : (_ <=? _)%Z = true |- _ => apply Z.leb_le in H
  | H : (_ <=? _)%Z = false |- _ => apply Z.leb_gt in H
  | H : (_ <? _)%Z = true |- _ => apply Z.ltb_lt in H
  | H : (_ <? _)%Z = false |- _ => apply Z.ltb_ge in H
  end.

(** ** Sums over lists *)

Definition sum_by {A} (f : A → Z) (l : list A) : Z :=
  foldr (λ x acc, f x + acc) 0 l.

Section SumBy.
Context {A : Type}.
Implicit Types (f g : A → Z) (l : list A).

Lemma sum_by_nil f : sum_by f [] = 0.
Proof. done. Qed.

Lemma sum_by_cons f x l : sum_by f (x :: l) = f x + sum_by f l.
Proof. done. Qed.

Lemma sum_by_app f l k : sum_by f (l ++ k) = sum_by f l + sum_by f k.
Proof. induction l as [|x l IH]; simpl; [done | rewrite IH; lia]. Qed.

Lemma sum_by_ext f g l : (∀ x, x ∈ l → f x = g x) → sum_by f l = sum_by g l.
Proof.
  induction l as [|x l IH]; intros H; [done|]. simpl.
  rewrite (H x), IH; [done | intros y Hy; apply H; by right | by left].
Qed.

Lemma sum_by_add f g l : sum_by (λ x, f x + g x) l = sum_by f l + sum_by g l.
Proof. induction l as [|x l IH]; simpl; [done | lia]. Qed.

Lemma sum_by_const c l : sum_by (λ _, c) l = c * Z.of_nat (length l).
Proof. induction l as [|x l IH]; simpl; lia. Qed.

Lemma sum_by_mul_l c f l : sum_by (λ x, c * f x) l = c * sum_by f l.
Proof. induction l as [|x l IH]; simpl; lia. Qed.

Lemma sum_by_nonneg f l : (∀ x, x ∈ l → 0 ≤ f x) → 0 ≤ sum_by f l.
Proof.
  induction l as [|x l IH]; intros H; [done|]. simpl.
  pose proof (H x ltac:(by left)). enough (0 ≤ sum_by f l) by lia.
  apply IH. intros y Hy. apply H. by right.
Qed.

Lemma sum_by_le f g l : (∀ x, x ∈ l → f x ≤ g x) → sum_by f l ≤ sum_by g l.
Proof.
  induction l as [|x l IH]; intros H; [done|]. simpl.
  pose proof (H x ltac:(by left)). enough (sum_by f l ≤ sum_by g l) by lia.
  apply IH. intros y Hy. apply H. by right.
Qed.

Lemma sum_by_elem_le f l x :
  (∀ y, y ∈ l → 0 ≤ f y) → x ∈ l → f x ≤ sum_by f l.
Proof.
  intros H Hx. apply list_elem_of_split in Hx as (l1 & l2 & ->).
  rewrite sum_by_app, sum_by_cons.
  pose proof (sum_by_nonneg f l1 ltac:(set_solver)).
  pose proof (sum_by_nonneg f l2 ltac:(set_solver)). lia.
Qed.

(** The sum changes by the difference at the one updated index. *)
Lemma sum_by_insert f l i x y :
  l !! i = Some x → sum_by f (<[i := y]> l) = sum_by f l - f x + f y.
Proof.
  revert i. induction l as [|z l IH]; intros [|i] H; simplify_eq/=; [lia|].
  rewrite (IH i H). lia.
Qed.

Lemma sum_by_filter_split (P : A → Prop) `{∀ x, Decision (P x)} f l :
  sum_by f l = sum_by f (filter P l) + sum_by f (filter (λ x, ¬ P x) l).
Proof.
  induction l as [|x l IH]; [done|].
  rewrite !filter_cons. repeat case_decide; simpl; try tauto; lia.
Qed.

Lemma sum_by_Permutation f l k : l ≡ₚ k → sum_by f l = sum_by f k.
Proof. induction 1; simpl; lia. Qed.
End SumBy.

Lemma sum_by_fmap {A B} (h : A → B) (f : B → Z) l :
  sum_by f (h <$> l) = sum_by (λ x, f (h x)) l.
Proof. induction l as [|x l IH]; [done | by rewrite fmap_cons, !sum_by_cons, IH]. Qed.

(** Exchange of the order of two nested sums. *)
Lemma sum_by_swap {A B} (f : A → B → Z) l k :
  sum_by (λ x, sum_by (f x) k) l = sum_by (λ y, sum_by (λ x, f x y) l) k.
Proof.
  induction l as [|x l IH]; simpl.
  - induction k as [|y k IHk]; simpl; lia.
  - rewrite IH, <- sum_by_add. done.
Qed.

#[export] Hint Rewrite @sum_by_nil @sum_by_cons @sum_by_app : poker.

(** ** Lists *)

(** [l.pop()]: the last element and the list without it. *)
Fixpoint pop_last {A} (l : list A) : option (A * list A) :=
  match l with
  | [] => None
  | x :: l' => match pop_last l' with
               | None => Some (x, [])
               | Some (y, r) => Some (y, x :: r)
               end
  end.

Lemma pop_last_None {A} (l : list A) : pop_last l = None ↔ l = [].
Proof.
  destruct l as [|x l]; simpl; [done|].
  destruct (pop_last l) as [[]|]; done.
Qed.

Lemma pop_last_Some {A} (l r : list A) x :
  pop_last l = Some (x, r) ↔ l = r ++ [x].
Proof.
  revert r. induction l as [|y l IH]; intros r; simpl.
  { by destruct r. }
  destruct (pop_last l) as [[z r']|] eqn:E.
  - split.
    + intros [= <- <-]. simpl. f_equal. by apply IH.
    + intros H. destruct r as [|a r].
      * injection H as -> ->. done.
      * injection H as -> H. apply IH in H. congruence.
  - apply pop_last_None in E as ->. split.
    + by intros [= <- <-].
    + intros H. destruct r as [|a r]; [by injection H as ->|].
      injection H as _ H. by destruct r.
Qed.

Lemma mod_succ_ne a n : (1 < n)%nat → (a mod n)%nat ≠ (S a mod n)%nat.
Proof.
  intros Hn H. pose proof (Nat.div_mod_eq a n) as E1. pose proof (Nat.div_mod_eq (S a) n) as E2.
  rewrite <- H in E2. assert (n * (S a / n) = n * (a / n) + 1)%nat as E by lia.
  destruct (Nat.le_gt_cases (S a / n) (a / n)) as [L|L].
  - apply (Nat.mul_le_mono_l _ _ n) in L. lia.
  - apply (Nat.mul_le_mono_l (S (a / n)) _ n) in L. lia.
Qed.

(** The seats in the order they are visited from seat [k] on, [k] last. *)
Definition seats_after (k n : nat) : list nat :=
  (λ i, ((k + i) mod n)%nat) <$> seq 1 n.

Lemma seats_after_bound k n i : i ∈ seats_after k n → (i < n)%nat.
Proof.
  unfold seats_after. intros (j & -> & Hj%elem_of_seq)%list_elem_of_fmap.
  apply Nat.mod_upper_bound. lia.
Qed.
