(* ===== verification/Py.v ===== *)
(** * Python builtins

    The part of Python's built-in types and functions that the modelled code
    uses: strings as sequences of code points, [int] and [str] conversions,
    insertion-ordered dictionaries, [sorted], [Counter], [combinations]. *)
From stdpp Require Import strings.
From Stdlib Require Import Decimal DecimalN Sorted.
From S2P Require Import Prelude.

(** ** Strings *)

(** A Python [str] is a list of code points, so that [s[-1]] and [s[:-1]] of
    ["A♠"] are what they are in Python. *)
Notation pystr := (list N).

(** The text of a Rocq string literal, whose bytes are UTF-8. *)
Fixpoint utf8_decode (l : list N) : pystr :=
  match l with
  | [] => []
  | a :: r =>
      if (a <? 128)%N then a :: utf8_decode r
      else match r with
           | [] => [a]
           | b :: r2 =>
               if (a <? 224)%N then ((a - 192) * 64 + (b - 128))%N :: utf8_decode r2
               else match r2 with
                    | [] => [a; b]
                    | c :: r3 =>
                        if (a <? 240)%N
                        then ((a - 224) * 4096 + (b - 128) * 64 + (c - 128))%N
                               :: utf8_decode r3
                        else match r3 with
                             | [] => [a; b; c]
                             | d :: r4 =>
                                 ((a - 240) * 262144 + (b - 128) * 4096
                                  + (c - 128) * 64 + (d - 128))%N :: utf8_decode r4
                             end
                    end
           end
  end.

Definition u (s : string) : pystr :=
  utf8_decode (Ascii.N_of_ascii <$> String.list_ascii_of_string s).
Arguments u : simpl never.

Notation "s =? t" := (bool_decide (s = t)) (at level 70) : py_scope.

Definition is_space (c : N) : bool :=
  ((9 <=? c) && (c <=? 13) || (28 <=? c) && (c <=? 32) || (c =? 133) || (c =? 160)
   || (c =? 5760) || (8192 <=? c) && (c <=? 8202) || (c =? 8232) || (c =? 8233)
   || (c =? 8239) || (c =? 8287) || (c =? 12288))%N.

Definition is_digit (c : N) : bool := ((48 <=? c) && (c <=? 57))%N.

(** [str.lower] and [str.upper] on ASCII letters, and on the Kelvin sign, the
    one other code point that is an ASCII letter in lower case; other code
    points, whose case the modelled code never relies on, stay. *)
Definition lower (s : pystr) : pystr :=
  (λ c, if ((65 <=? c) && (c <=? 90))%N then (c + 32)%N
        else if (c =? 8490)%N then 107%N else c) <$> s.
Definition upper (s : pystr) : pystr :=
  (λ c, if ((97 <=? c) && (c <=? 122))%N then (c - 32)%N else c) <$> s.

(** [str.title] of ASCII text: a letter after a letter is in lower case, any other
    letter in upper case. *)
Definition is_letter (c : N) : bool :=
  ((65 <=? c) && (c <=? 90) || (97 <=? c) && (c <=? 122))%N.
Fixpoint title_from (after_letter : bool) (s : pystr) : pystr :=
  match s with
  | [] => []
  | c :: r => (if after_letter then lower [c] else upper [c]) ++ title_from (is_letter c) r
  end.
Definition title : pystr → pystr := title_from false.

Fixpoint lstrip (s : pystr) : pystr :=
  match s with
  | c :: r => if is_space c then lstrip r else s
  | [] => []
  end.
Definition strip (s : pystr) : pystr := reverse (lstrip (reverse (lstrip s))).

(** [s.startswith(t)] *)
Fixpoint startswith (s t : pystr) : bool :=
  match t, s with
  | [], _ => true
  | c :: t', d :: s' => bool_decide (c = d) && startswith s' t'
  | _, _ => false
  end.

(** [s.find(t)], [None] for -1 *)
Fixpoint find_sub (t s : pystr) : option nat :=
  if startswith s t then Some O
  else match s with
       | [] => None
       | _ :: s' => S <$> find_sub t s'
       end.

(** [t in s] *)
Definition contains (s t : pystr) : bool := bool_decide (is_Some (find_sub t s)).

(** [s.split(sep, n)] *)
Fixpoint split_max (n : nat) (sep s : pystr) : list pystr :=
  match n with
  | O => [s]
  | S n' => match find_sub sep s with
            | None => [s]
            | Some i => take i s :: split_max n' sep (drop (i + length sep) s)
            end
  end.

(** [s.split(sep)]: every separator found consumes at least one code point. *)
Definition split (sep s : pystr) : list pystr := split_max (length s) sep s.

(** [sep.join(l)] *)
Fixpoint join (sep : pystr) (l : list pystr) : pystr :=
  match l with
  | [] => []
  | [s] => s
  | s :: l' => s ++ sep ++ join sep l'
  end.

(** [s.replace(old, new)] for a non-empty [old] *)
Definition replace (old new s : pystr) : pystr := join new (split old s).

(** [s[-1]] and [s[:-1]] *)
Definition last_char (s : pystr) : result N :=
  match last s with Some c => Ok c | None => Raise IndexError end.
Definition but_last (s : pystr) : pystr := take (length s - 1) s.

(** ** Integers as text *)

Fixpoint str_of_uint (d : Decimal.uint) : pystr :=
  match d with
  | Nil => []
  | D0 d => 48%N :: str_of_uint d | D1 d => 49%N :: str_of_uint d
  | D2 d => 50%N :: str_of_uint d | D3 d => 51%N :: str_of_uint d
  | D4 d => 52%N :: str_of_uint d | D5 d => 53%N :: str_of_uint d
  | D6 d => 54%N :: str_of_uint d | D7 d => 55%N :: str_of_uint d
  | D8 d => 56%N :: str_of_uint d | D9 d => 57%N :: str_of_uint d
  end.

Definition uint_cons (c : N) (d : Decimal.uint) : Decimal.uint :=
  match (c - 48)%N with
  | 0 => D0 d | 1 => D1 d | 2 => D2 d | 3 => D3 d | 4 => D4 d
  | 5 => D5 d | 6 => D6 d | 7 => D7 d | 8 => D8 d | _ => D9 d
  end%N.

(** A non-empty sequence of digits in which single underscores may separate
    digits. *)
Fixpoint uint_of_str (s : pystr) : option Decimal.uint :=
  match s with
  | [] => None
  | c :: r =>
      if is_digit c then
        match r with
        | [] => Some (uint_cons c Nil)
        | c' :: r' => if bool_decide (c' = 95%N) then uint_cons c <$> uint_of_str r'
                      else uint_cons c <$> uint_of_str r
        end
      else None
  end.

Definition str_of_N (n : N) : pystr := str_of_uint (N.to_uint n).

(** [str(z)] *)
Definition str_of_Z (z : Z) : pystr :=
  if (z <? 0)%Z then 45%N :: str_of_N (Z.to_N (- z)) else str_of_N (Z.to_N z).
Definition str_of_nat (n : nat) : pystr := str_of_N (N.of_nat n).

(** [int(s)] *)
Definition int_of_str (s : pystr) : result Z :=
  let conv r := match uint_of_str r with
                | Some d => Ok (Z.of_N (N.of_uint d))
                | None => Raise ValueError
                end in
  match strip s with
  | [] => Raise ValueError
  | c :: r => if bool_decide (c = 45%N) then Z.opp <$> conv r
              else if bool_decide (c = 43%N) then conv r
              else conv (c :: r)
  end.

(** *** [int] inverts [str] *)

Lemma str_of_uint_digits d : Forall (λ c, is_digit c = true) (str_of_uint d).
Proof. induction d; simpl; constructor; done. Qed.

Lemma str_of_uint_nil d : str_of_uint d = [] → d = Nil.
Proof. by destruct d. Qed.

Lemma uint_of_str_of_uint d : d ≠ Nil → uint_of_str (str_of_uint d) = Some d.
Proof.
  assert (∀ c e, is_digit c = true →
            (e ≠ Nil → uint_of_str (str_of_uint e) = Some e) →
            uint_of_str (c :: str_of_uint e) = Some (uint_cons c e)) as Hstep.
  { intros c e Hc IH. cbn [uint_of_str]. rewrite Hc.
    pose proof (str_of_uint_digits e) as He.
    destruct (str_of_uint e) as [|c' r] eqn:E.
    { by apply str_of_uint_nil in E as ->. }
    rewrite bool_decide_false.
    2:{ intros ->. inversion He as [|? ? Hd]. done. }
    rewrite IH; [done|]. by intros ->. }
  induction d; intros Hd; try done; cbn [str_of_uint];
    rewrite Hstep by done; done.
Qed.

Lemma N_to_uint_not_Nil n : N.to_uint n ≠ Nil.
Proof.
  intros H. pose proof (DecimalN.Unsigned.to_of (N.to_uint n)) as E.
  rewrite DecimalN.Unsigned.of_to, H in E. done.
Qed.

Lemma digit_not_space c : is_digit c = true → is_space c = false.
Proof.
  unfold is_digit, is_space. intros H.
  apply andb_true_iff in H as [H1%N.leb_le H2%N.leb_le].
  repeat (apply orb_false_iff; split); try apply andb_false_iff;
    first [apply N.eqb_neq; lia | left; apply N.leb_gt; lia | right; apply N.leb_gt; lia].
Qed.

Lemma lstrip_id c s : is_space c = false → lstrip (c :: s) = c :: s.
Proof. intros H. simpl. by rewrite H. Qed.

Lemma strip_id s c d :
  head s = Some c → last s = Some d → is_space c = false → is_space d = false →
  strip s = s.
Proof.
  intros Hc Hd Sc Sd. unfold strip. destruct s as [|c' s]; [done|].
  simplify_eq/=. change (is_space c = false) in Sc.
  rewrite Sc. apply last_Some in Hd as [r Hr]. rewrite Hr, reverse_snoc.
  rewrite lstrip_id by done. by rewrite <- reverse_snoc, reverse_involutive.
Qed.

Lemma str_of_N_shape n : ∃ c r, str_of_N n = c :: r ∧ Forall (λ c, is_digit c = true) (c :: r).
Proof.
  unfold str_of_N. pose proof (str_of_uint_digits (N.to_uint n)) as H.
  destruct (str_of_uint (N.to_uint n)) as [|c r] eqn:E; [|by eauto].
  by apply str_of_uint_nil, N_to_uint_not_Nil in E.
Qed.

Lemma last_Forall {A} (P : A → Prop) l x : Forall P l → last l = Some x → P x.
Proof.
  intros H [r ->]%last_Some. apply Forall_app in H as [_ H]. by inversion H.
Qed.

Lemma strip_digits s :
  s ≠ [] → Forall (λ c, is_digit c = true) s → strip s = s.
Proof.
  intros Hne H. destruct s as [|c s]; [done|].
  destruct (last (c :: s)) as [d|] eqn:Hd.
  2:{ by apply last_None in Hd. }
  eapply strip_id; [done | done | |]; apply digit_not_space.
  - by inversion H.
  - by apply (last_Forall _ _ _ H Hd).
Qed.

Lemma int_of_str_of_N n : int_of_str (str_of_N n) = Ok (Z.of_N n).
Proof.
  destruct (str_of_N_shape n) as (c & r & E & H).
  unfold int_of_str. rewrite E, strip_digits by done.
  assert (c ≠ 45 ∧ c ≠ 43)%N as [H45 H43].
  { inversion H as [|? ? Hc]. by split; intros ->. }
  assert (uint_of_str (c :: r) = Some (N.to_uint n)) as Hu.
  { rewrite <- E. unfold str_of_N. apply uint_of_str_of_uint, N_to_uint_not_Nil. }
  rewrite !bool_decide_false by done.
  by rewrite Hu, DecimalN.Unsigned.of_to.
Qed.

Lemma str_of_Z_shape z :
  ∃ c r, str_of_Z z = c :: r ∧ (z < 0 → c = 45%N ∧ r = str_of_N (Z.to_N (- z))) ∧
         (0 ≤ z → str_of_Z z = str_of_N (Z.to_N z)).
Proof.
  unfold str_of_Z. destruct (Z.ltb_spec z 0).
  - exists 45%N, (str_of_N (Z.to_N (- z))). split; [done|]. split; [done | lia].
  - destruct (str_of_N_shape (Z.to_N z)) as (c & r & E & _).
    exists c, r. split; [done|]. split; [lia | done].
Qed.

(** Parsing a printed integer gives it back. *)
Lemma int_of_str_of_Z z : int_of_str (str_of_Z z) = Ok z.
Proof.
  unfold str_of_Z. destruct (Z.ltb_spec z 0) as [Hz|Hz].
  - destruct (str_of_N_shape (Z.to_N (- z))) as (c & r & E & H).
    unfold int_of_str. rewrite E.
    destruct (last (c :: r)) as [d|] eqn:Hd; [|by apply last_None in Hd].
    rewrite (strip_id _ 45%N d).
    + rewrite bool_decide_true by done. rewrite <- E. unfold str_of_N.
      rewrite uint_of_str_of_uint by apply N_to_uint_not_Nil.
      rewrite DecimalN.Unsigned.of_to. unfold fmap, result_fmap. f_equal. lia.
    + done.
    + by rewrite <- Hd.
    + done.
    + apply digit_not_space. by apply (last_Forall _ _ _ H Hd).
  - rewrite int_of_str_of_N. f_equal. lia.
Qed.

Lemma str_of_Z_inj z1 z2 : str_of_Z z1 = str_of_Z z2 → z1 = z2.
Proof.
  intros H. pose proof (int_of_str_of_Z z1) as E. rewrite H, int_of_str_of_Z in E.
  by injection E.
Qed.

Lemma str_of_nat_Z n : str_of_nat n = str_of_Z (Z.of_nat n).
Proof.
  unfold str_of_nat, str_of_Z. destruct (Z.ltb_spec (Z.of_nat n) 0); [lia|].
  f_equal. lia.
Qed.

(** ** Dictionaries

    A [dict] keeps its keys in insertion order; assigning to a present key
    keeps its position. *)
Section Dict.
Context {K V : Type} `{EqDecision K}.
Implicit Types (d : list (K * V)) (k : K) (v : V).

Fixpoint dict_get k d : option V :=
  match d with
  | [] => None
  | (k', v) :: d' => if decide (k = k') then Some v else dict_get k d'
  end.

Fixpoint dict_set k v d : list (K * V) :=
  match d with
  | [] => [(k, v)]
  | (k', v') :: d' => if decide (k = k') then (k', v) :: d'
                      else (k', v') :: dict_set k v d'
  end.

(** [d[k]] *)
Definition dict_item k d : result V :=
  match dict_get k d with Some v => Ok v | None => Raise KeyError end.

(** [d.get(k, default)] *)
Definition dict_get_default k (dflt : V) d : V := default dflt (dict_get k d).

Lemma dict_get_set_eq k v d : dict_get k (dict_set k v d) = Some v.
Proof.
  induction d as [|[k' v'] d IH]; simpl; [by rewrite decide_True|].
  by destruct (decide (k = k')); simpl; [rewrite decide_True | rewrite decide_False].
Qed.

Lemma dict_get_set_ne k k' v d :
  k ≠ k' → dict_get k' (dict_set k v d) = dict_get k' d.
Proof.
  intros Hne. induction d as [|[k0 v0] d IH]; simpl.
  { by rewrite decide_False. }
  destruct (decide (k = k0)) as [->|]; simpl; [|by rewrite IH].
  by rewrite !decide_False.
Qed.

Lemma dict_set_new k v d : k ∉ d.*1 → dict_set k v d = d ++ [(k, v)].
Proof.
  induction d as [|[k' v'] d IH]; intros H; [done|]. cbn [dict_set]. cbn in H.
  rewrite not_elem_of_cons in H. destruct H as [Hne H].
  rewrite decide_False by done. by rewrite IH.
Qed.

Lemma dict_set_keys_elem k v d x :
  x ∈ (dict_set k v d).*1 ↔ x = k ∨ x ∈ d.*1.
Proof.
  induction d as [|[k0 v0] d IH]; simpl; [set_solver|].
  destruct (decide (k = k0)) as [->|]; simpl; [set_solver|].
  rewrite !elem_of_cons, IH. tauto.
Qed.

Lemma dict_set_NoDup k v d : NoDup d.*1 → NoDup (dict_set k v d).*1.
Proof.
  induction d as [|[k0 v0] d IH]; simpl; intros H.
  { apply NoDup_singleton. }
  apply NoDup_cons in H as [H0 H].
  destruct (decide (k = k0)) as [->|]; simpl; apply NoDup_cons; split; auto.
  rewrite dict_set_keys_elem. intros [->|]; done.
Qed.

Lemma dict_get_None k d : dict_get k d = None ↔ k ∉ d.*1.
Proof.
  induction d as [|[k0 v0] d IH]; simpl; [set_solver|].
  destruct (decide (k = k0)) as [->|]; [set_solver|].
  rewrite IH. set_solver.
Qed.

Lemma dict_get_elem k v d : dict_get k d = Some v → (k, v) ∈ d.
Proof.
  induction d as [|[k0 v0] d IH]; simpl; [done|].
  destruct (decide (k = k0)) as [->|]; intros H; simplify_eq; [by left|].
  right. auto.
Qed.

Lemma elem_dict_get k v d : NoDup d.*1 → (k, v) ∈ d → dict_get k d = Some v.
Proof.
  induction d as [|[k0 v0] d IH]; simpl; intros Hnd Hin; [set_solver|].
  apply NoDup_cons in Hnd as [H0 Hnd].
  apply elem_of_cons in Hin as [[= <- <-]|Hin]; [by rewrite decide_True|].
  rewrite decide_False; [auto|]. intros ->. apply H0.
  apply list_elem_of_fmap. by exists (k0, v).
Qed.

Lemma dict_get_here k v d : dict_get k ((k, v) :: d) = Some v.
Proof. simpl. by rewrite decide_True. Qed.

Lemma dict_get_next k k' v d : k ≠ k' → dict_get k ((k', v) :: d) = dict_get k d.
Proof. intros H. simpl. by rewrite decide_False. Qed.

(** Sum of a measure of the values before and after an assignment. *)
Lemma sum_by_dict_set (f : V → Z) k v d :
  sum_by (λ x, f x.2) (dict_set k v d)
  = sum_by (λ x, f x.2) d - from_option f 0 (dict_get k d) + f v.
Proof.
  induction d as [|[k0 v0] d IH]; simpl; [lia|].
  destruct (decide (k = k0)); simpl; lia.
Qed.
End Dict.

(** Inequality of string literals, and look-ups of literal keys. *)
Ltac str_ne := let H := fresh in intros H; vm_compute in H; discriminate H.
Ltac dict_lookup :=
  repeat first [ rewrite dict_get_here | rewrite dict_get_next by str_ne ].

(** ** Sorting

    [sorted] is stable; [before x y] says that [x] may stand before [y]. *)
Section Sorting.
Context {A : Type} (before : A → A → bool).

Fixpoint insert_sorted (x : A) (l : list A) : list A :=
  match l with
  | [] => [x]
  | y :: l' => if before x y then x :: l else y :: insert_sorted x l'
  end.

Definition sort_with (l : list A) : list A := foldr insert_sorted [] l.

Lemma insert_sorted_Permutation x l : insert_sorted x l ≡ₚ x :: l.
Proof.
  induction l as [|y l IH]; simpl; [done|].
  case_match; [done|]. rewrite IH. apply Permutation_swap.
Qed.

Lemma sort_with_Permutation l : sort_with l ≡ₚ l.
Proof.
  induction l as [|x l IH]; simpl; [done|].
  rewrite insert_sorted_Permutation. by f_equiv.
Qed.

Hypothesis before_total : ∀ x y, before x y = false → before y x = true.
Hypothesis before_trans :
  ∀ x y z, before x y = true → before y z = true → before x z = true.

Lemma insert_sorted_Sorted x l :
  StronglySorted (λ a b, before a b = true) l →
  StronglySorted (λ a b, before a b = true) (insert_sorted x l).
Proof.
  induction 1 as [|y l Hl IH Hy]; simpl; [repeat constructor|].
  case_match eqn:E.
  - constructor; [by constructor|]. constructor; [done|].
    eapply Forall_impl; [exact Hy|]. eauto.
  - constructor; [done|]. rewrite insert_sorted_Permutation.
    constructor; [by apply before_total | done].
Qed.

Lemma sort_with_Sorted l : StronglySorted (λ a b, before a b = true) (sort_with l).
Proof. induction l; simpl; [constructor | by apply insert_sorted_Sorted]. Qed.

Lemma sort_with_id l :
  StronglySorted (λ a b, before a b = true) l → sort_with l = l.
Proof.
  induction 1 as [|x l Hl IH Hx]; simpl; [done|]. rewrite IH.
  destruct l as [|y l]; simpl; [done|]. inversion Hx as [|? ? E]; subst.
  by rewrite E.
Qed.
End Sorting.

(** [sorted(l, reverse=True)] and [sorted(l)] on integers, and [sorted] by an
    integer key. *)
Definition sort_desc (l : list Z) : list Z := sort_with (λ x y, (y <=? x)) l.
Definition sort_asc (l : list Z) : list Z := sort_with (λ x y, (x <=? y)) l.
Definition sort_desc_by {A} (key : A → Z) (l : list A) : list A :=
  sort_with (λ x y, (key y <=? key x)) l.
Definition sort_asc_by {A} (key : A → Z) (l : list A) : list A :=
  sort_with (λ x y, (key x <=? key y)) l.

Notation Descending := (StronglySorted (λ a b : Z, b ≤ a)).

Lemma StronglySorted_impl {A} (R R' : A → A → Prop) l :
  (∀ x y, R x y → R' x y) → StronglySorted R l → StronglySorted R' l.
Proof.
  intros H. induction 1 as [|x l _ IH Hx]; constructor; [done|].
  eapply Forall_impl; [exact Hx|]. eauto.
Qed.

Lemma sort_desc_by_Sorted {A} (key : A → Z) l :
  StronglySorted (λ a b, key b ≤ key a) (sort_desc_by key l).
Proof.
  eapply StronglySorted_impl; [|apply sort_with_Sorted].
  - by intros x y ?%Z.leb_le.
  - intros x y ?%Z.leb_gt. apply Z.leb_le. lia.
  - intros x y z ?%Z.leb_le ?%Z.leb_le. apply Z.leb_le. lia.
Qed.

Lemma sort_asc_by_Sorted {A} (key : A → Z) l :
  StronglySorted (λ a b, key a ≤ key b) (sort_asc_by key l).
Proof.
  eapply StronglySorted_impl; [|apply sort_with_Sorted].
  - by intros x y ?%Z.leb_le.
  - intros x y ?%Z.leb_gt. apply Z.leb_le. lia.
  - intros x y z ?%Z.leb_le ?%Z.leb_le. apply Z.leb_le. lia.
Qed.

Lemma sort_desc_Sorted l : Descending (sort_desc l).
Proof. apply (sort_desc_by_Sorted (λ x, x)). Qed.

Lemma sort_desc_id l : Descending l → sort_desc l = l.
Proof.
  intros H. apply sort_with_id. eapply StronglySorted_impl; [|exact H].
  intros x y ?. by apply Z.leb_le.
Qed.

(** Two descending lists with the same elements are equal. *)
Lemma Descending_Permutation_eq l k : Descending l → Descending k → l ≡ₚ k → l = k.
Proof.
  intros Hl. revert k. induction Hl as [|x l Hl IH Hx]; intros k Hk HP.
  { by apply Permutation_nil_l in HP. }
  destruct Hk as [|y k Hk Hy]; [by apply Permutation_nil_r in HP|].
  assert (x = y) as ->.
  { rewrite Forall_forall in Hx, Hy.
    assert (x ∈ y :: k) as [->|Hxk]%elem_of_cons by (rewrite <- HP; by left); [done|].
    assert (y ∈ x :: l) as [->|Hyl]%elem_of_cons by (rewrite HP; by left); [done|].
    specialize (Hx _ Hyl). specialize (Hy _ Hxk). lia. }
  f_equal. apply IH; [done|]. by apply Permutation_cons_inv in HP.
Qed.

Lemma sort_desc_Permutation_eq l k : l ≡ₚ k → sort_desc l = sort_desc k.
Proof.
  intros H. apply Descending_Permutation_eq; try apply sort_desc_Sorted.
  unfold sort_desc. by rewrite !sort_with_Permutation.
Qed.

Lemma fmap_insert_sorted {A} (key : A → Z) x l :
  key <$> insert_sorted (λ x y, (key y <=? key x)) x l
  = insert_sorted (λ x y, (y <=? x)) (key x) (key <$> l).
Proof.
  induction l as [|y l IH]; [done|]. cbn [insert_sorted fmap list_fmap].
  destruct (key y <=? key x); [done|]. cbn [fmap list_fmap]. by f_equal.
Qed.

Lemma fmap_sort_desc_by {A} (key : A → Z) l :
  key <$> sort_desc_by key l = sort_desc (key <$> l).
Proof.
  unfold sort_desc_by, sort_desc, sort_with.
  induction l as [|x l IH]; [done|]. cbn [foldr fmap list_fmap].
  rewrite fmap_insert_sorted. f_equal. exact IH.
Qed.

(** ** [collections.Counter] and [itertools.combinations] *)

(** The counter as a dictionary in order of first occurrence. *)
Definition counter {A} `{EqDecision A} (l : list A) : list (A * Z) :=
  foldl (λ d x, dict_set x (default 0 (dict_get x d) + 1) d) [] l.

(** [max(l, key=key)]: the first of the largest *)
Fixpoint max_by {A} (key : A → Z) (l : list A) : option A :=
  match l with
  | [] => None
  | x :: l => match max_by key l with
              | Some y => if key x <? key y then Some y else Some x
              | None => Some x
              end
  end.

(** All sub-sequences of length [k], in the lexicographic order of positions. *)
Fixpoint combinations {A} (k : nat) (l : list A) : list (list A) :=
  match k, l with
  | O, _ => [[]]
  | S _, [] => []
  | S k', x :: l' => ((x ::.) <$> combinations k' l') ++ combinations k l'
  end.

Lemma elem_of_combinations {A} k (l c : list A) :
  c ∈ combinations k l ↔ c `sublist_of` l ∧ length c = k.
Proof.
  revert k c. induction l as [|x l IH]; intros [|k] c; cbn [combinations].
  - rewrite list_elem_of_singleton. split; [intros ->; split; [constructor | done]|].
    intros [_ H]. by apply nil_length_inv.
  - split; [set_solver|]. intros [H Hl]. inversion H; subst. done.
  - rewrite list_elem_of_singleton.
    split; [intros ->; split; [apply sublist_nil_l | done]|].
    intros [_ H]. by apply nil_length_inv.
  - rewrite elem_of_app, list_elem_of_fmap. split.
    + intros [(c' & -> & [Hs Hl]%IH)|[Hs Hl]%IH].
      * split; [by constructor | simpl; lia].
      * split; [by constructor | done].
    + intros [Hs Hl]. inversion Hs as [|? ? ? Hs'|? ? ? Hs']; subst.
      * left. eexists. split; [done|]. apply IH. simpl in Hl. split; [done | lia].
      * right. by apply IH.
Qed.

Lemma combinations_nonempty {A} k (l : list A) :
  (k ≤ length l)%nat → combinations k l ≠ [].
Proof.
  intros Hk Hn. assert (take k l ∈ combinations k l) as H.
  { apply elem_of_combinations. split; [apply sublist_take|].
    rewrite length_take. lia. }
  rewrite Hn in H. set_solver.
Qed.

(** [sorted(set(l), reverse=True)] *)
Definition sorted_set_desc (l : list Z) : list Z := sort_desc (remove_dups l).

(** [range(a, b)] *)
Definition range (a b : Z) : list Z := (λ i, a + Z.of_nat i) <$> seq 0 (Z.to_nat (b - a)).

Lemma elem_of_range a b x : x ∈ range a b ↔ a ≤ x < b.
Proof.
  unfold range. rewrite list_elem_of_fmap. split.
  - intros (i & -> & Hi%elem_of_seq). lia.
  - intros H. exists (Z.to_nat (x - a)). split; [lia|]. apply elem_of_seq. lia.
Qed.

(** [k1 > k2] on lists of integers *)
Fixpoint list_gtb (k1 k2 : list Z) : bool :=
  match k1, k2 with
  | a :: k1, b :: k2 => if a =? b then list_gtb k1 k2 else b <? a
  | _ :: _, [] => true
  | [], _ => false
  end.

(** ** Searching in text *)

Lemma startswith_app s t : startswith (t ++ s) t = true.
Proof. induction t as [|c t IH]; simpl; [by destruct s|]. by rewrite bool_decide_true. Qed.

Lemma startswith_spec s t : startswith s t = true ↔ ∃ r, s = t ++ r.
Proof.
  split; [|intros [r ->]; apply startswith_app].
  revert s. induction t as [|c t IH]; intros s H; [by exists s|].
  destruct s as [|d s]; [done|]. simpl in H. apply andb_true_iff in H as [H1 H2].
  apply bool_decide_eq_true in H1 as ->. destruct (IH s H2) as [r ->]. by exists r.
Qed.

(** A text that extends another is compared on the part they share. *)
Lemma startswith_extend s r t :
  (length t ≤ length s)%nat → startswith (s ++ r) t = startswith s t.
Proof.
  revert s. induction t as [|c t IH]; intros [|d s] L; try done.
  - by destruct r.
  - cbn [length] in L. lia.
  - cbn [length] in L. cbn [startswith app]. by rewrite IH by lia.
Qed.

Lemma find_sub_length t s i : find_sub t s = Some i → (i + length t ≤ length s)%nat.
Proof.
  revert i. induction s as [|c s IH]; intros i; cbn [find_sub].
  - destruct t; [|done]. intros H. injection H as <-. simpl. lia.
  - destruct (startswith (c :: s) t) eqn:E.
    + intros H. injection H as <-. apply startswith_spec in E as [r E]. apply (f_equal length) in E.
      rewrite length_app in E. simpl in *. lia.
    + destruct (find_sub t s) as [j|]; [|done]. intros H. injection H as <-.
      specialize (IH j eq_refl). simpl. lia.
Qed.

(** What is found in a text is found at the same place in its extensions. *)
Lemma find_sub_extend t s r i : find_sub t s = Some i → find_sub t (s ++ r) = Some i.
Proof.
  revert i. induction s as [|c s IH]; intros i.
  - destruct t; [|done]. intros H. injection H as <-. by destruct r.
  - intros H. assert (length t ≤ length (c :: s))%nat as L
      by (apply find_sub_length in H; lia).
    pose proof (startswith_extend (c :: s) r t L) as E.
    cbn [find_sub app] in *. cbn [app] in E. rewrite E.
    destruct (startswith (c :: s) t); [done|].
    destruct (find_sub t s) as [j|]; [|done]. by rewrite (IH j eq_refl).
Qed.

Lemma find_sub_absent c t s : c ∉ s → find_sub (c :: t) s = None.
Proof.
  induction s as [|d s IH]; intros H; [done|]. apply not_elem_of_cons in H as [H1 H2].
  cbn [find_sub startswith]. rewrite bool_decide_false by done. simpl. by rewrite IH.
Qed.

Lemma find_sub_char c pre post : c ∉ pre → find_sub [c] (pre ++ c :: post) = Some (length pre).
Proof.
  induction pre as [|d pre IH]; intros H.
  - simpl. rewrite bool_decide_true by done. by destruct post.
  - apply not_elem_of_cons in H as [H1 H2]. cbn [find_sub startswith app].
    rewrite bool_decide_false by done. simpl. by rewrite IH.
Qed.

Lemma split_absent c t s : c ∉ s → split (c :: t) s = [s].
Proof.
  intros H. unfold split. destruct (length s); [done|]. cbn [split_max].
  by rewrite find_sub_absent.
Qed.

Lemma split_max_absent n c t s : c ∉ s → split_max n (c :: t) s = [s].
Proof. intros H. destruct n; [done|]. cbn [split_max]. by rewrite find_sub_absent. Qed.

(** The part after the first separator, when there is no other *)
Lemma split_once sep pre c t s :
  sep = c :: t → find_sub sep (pre ++ sep) = Some (length pre) → c ∉ s →
  split sep (pre ++ sep ++ s) = [pre; s].
Proof.
  intros Hsep Hf Hc. unfold split.
  destruct (length (pre ++ sep ++ s)) as [|n] eqn:L.
  { rewrite !length_app, Hsep in L. simpl in L. lia. }
  cbn [split_max]. rewrite (assoc_L (++)), (find_sub_extend _ _ s _ Hf).
  rewrite <- (assoc_L (++)), take_app_length. f_equal.
  rewrite (assoc_L (++)), <- (length_app pre sep), drop_app_length, Hsep.
  by apply split_max_absent.
Qed.

Lemma split_char_head c pre post :
  c ∉ pre → ∃ r, split [c] (pre ++ c :: post) = pre :: r.
Proof.
  intros H. unfold split. rewrite length_app. simpl length. rewrite Nat.add_succ_r.
  cbn [split_max]. rewrite find_sub_char by done. rewrite take_app_length. eauto.
Qed.

(** A printed number has digits and perhaps a sign. *)
Lemma str_of_Z_chars z : Forall (λ c, is_digit c = true ∨ c = 45%N) (str_of_Z z).
Proof.
  unfold str_of_Z. assert (∀ k, Forall (λ c, is_digit c = true ∨ c = 45%N) (str_of_N k)) as H.
  { intros k. destruct (str_of_N_shape k) as (c & r & -> & H).
    eapply Forall_impl; [exact H|]. auto. }
  destruct (z <? 0)%Z; [constructor; auto|apply H].
Qed.

Lemma str_of_Z_not_elem c z : is_digit c = false → c ≠ 45%N → c ∉ str_of_Z z.
Proof.
  intros H1 H2 Hin. pose proof (str_of_Z_chars z) as H. rewrite Forall_forall in H.
  destruct (H c Hin); congruence.
Qed.
