(* ===== verification/Json.v ===== *)
(** * JSON values

    The values that [json.dumps] and [json.loads] exchange with the modelled
    code, and that [to_dict] methods build. *)
From stdpp Require Import strings.
From Stdlib Require Import Floats.SpecFloat.
From S2P Require Import Prelude Py.

(** A JSON value as the Python object it becomes.  A float is kept as the text
    that denotes it. *)
Inductive json :=
  | JNull
  | JBool (b : bool)
  | JInt (z : Z)
  | JFloat (lexeme : pystr)
  | JStr (s : pystr)
  | JList (l : list json)
  | JDict (d : list (pystr * json)).

#[export] Instance json_eq_dec : EqDecision json.
Proof.
  refine (fix go (v w : json) : Decision (v = w) :=
    let _ : EqDecision json := go in
    match v, w with
    | JNull, JNull => left eq_refl
    | JBool a, JBool b => cast_if (decide (a = b))
    | JInt a, JInt b => cast_if (decide (a = b))
    | JFloat a, JFloat b => cast_if (decide (a = b))
    | JStr a, JStr b => cast_if (decide (a = b))
    | JList a, JList b => cast_if (decide (a = b))
    | JDict a, JDict b => cast_if (decide (a = b))
    | _, _ => right _
    end); abstract congruence.
Defined.

(** [d.get(key)] of a dictionary with string keys *)
Notation jget key d := (dict_get (u key) d).

(** Views of a JSON value at the type the code expects. *)
Definition as_int (v : json) : result Z :=
  match v with JInt z => Ok z | _ => Raise TypeError end.
Definition as_str (v : json) : result pystr :=
  match v with JStr s => Ok s | _ => Raise TypeError end.
Definition as_list (v : json) : result (list json) :=
  match v with JList l => Ok l | _ => Raise TypeError end.
Definition as_dict (v : json) : result (list (pystr * json)) :=
  match v with JDict d => Ok d | _ => Raise TypeError end.

(** A key of a dictionary: lists and dictionaries have no hash, and the booleans are
    the integers 0 and 1.  Floats are compared by their numerals. *)
Definition hash_key (v : json) : result json :=
  match v with
  | JList _ | JDict _ => Raise TypeError
  | JBool b => Ok (JInt (Z.b2z b))
  | _ => Ok v
  end.

Fixpoint map_result {A B} (f : A → result B) (l : list A) : result (list B) :=
  match l with
  | [] => Ok []
  | x :: l' => y ← f x; ys ← map_result f l'; Ok (y :: ys)
  end.

Lemma map_result_Forall {A B C} (f : B → result C) (g : A → B) (h : A → C) l :
  Forall (λ x, f (g x) = Ok (h x)) l → map_result f (g <$> l) = Ok (h <$> l).
Proof.
  induction 1 as [|x l Hx _ IH]; [done|].
  rewrite !fmap_cons. cbn [map_result]. by rewrite Hx, IH.
Qed.

Lemma map_result_fmap {A B C} (f : B → result C) (g : A → B) (h : A → C) l :
  (∀ x, f (g x) = Ok (h x)) → map_result f (g <$> l) = Ok (h <$> l).
Proof. intros H. by apply map_result_Forall, Forall_true. Qed.

Lemma map_result_ok {A B} (f : A → result B) (h : A → B) l :
  (∀ x, f x = Ok (h x)) → map_result f l = Ok (h <$> l).
Proof. intros H. induction l as [|x l IH]; [done|]. cbn [map_result]. by rewrite H, IH. Qed.

Lemma map_result_all {A B} (f : A → result B) (P : A → B → Prop) l :
  (∀ x, x ∈ l → ∃ y, f x = Ok y ∧ P x y) →
  ∃ ys, map_result f l = Ok ys ∧ Forall2 P l ys.
Proof.
  induction l as [|x l IH]; intros H; [by exists []|].
  destruct (H x ltac:(by left)) as (y & E & Hy).
  destruct IH as (ys & Es & Hys); [intros; apply H; by right|].
  exists (y :: ys). cbn [map_result]. rewrite E. cbn [mbind result_bind].
  by rewrite Es; split; [|constructor].
Qed.

(** A map that never raises *)
Lemma map_total {A B} (f : A → result B) l :
  (∀ x, x ∈ l → ∃ y, f x = Ok y) → ∃ ys, map_result f l = Ok ys.
Proof.
  intros H. destruct (map_result_all f (λ _ _, True) l) as (ys & E & _); [|by exists ys].
  intros x Hx. destruct (H x Hx) as [y E]. by exists y.
Qed.

Lemma map_result_Ok_length {A B} (f : A → result B) l k :
  map_result f l = Ok k → length k = length l.
Proof.
  revert k. induction l as [|x l IH]; intros k H; cbn in H; [by simplify_eq|].
  destruct (f x); [|done]. cbn in H.
  destruct (map_result f l) as [ys|]; [|done]. cbn in H. simplify_eq/=.
  by rewrite (IH ys).
Qed.

(** ** [json.dumps(v, ensure_ascii=False)], with and without [indent] *)

Definition hex_digit (n : N) : N := if (n <? 10)%N then (48 + n)%N else (87 + n)%N.

(** The escapes of the C encoder: the quote, the backslash and the control
    characters. *)
Definition escape_char (c : N) : pystr :=
  if bool_decide (c = 34%N) then [92; 34]%N
  else if bool_decide (c = 92%N) then [92; 92]%N
  else if bool_decide (c = 10%N) then [92; 110]%N
  else if bool_decide (c = 13%N) then [92; 114]%N
  else if bool_decide (c = 9%N) then [92; 116]%N
  else if bool_decide (c = 12%N) then [92; 102]%N
  else if bool_decide (c = 8%N) then [92; 98]%N
  else if (c <? 32)%N then [92; 117; 48; 48; hex_digit (c / 16); hex_digit (c mod 16)]%N
  else [c].

Definition dumps_str (s : pystr) : pystr := 34%N :: (s ≫= escape_char) ++ [34%N].

Section Dumps.
(** What is written after an opening and before a closing bracket, and after a
    comma, by the depth of the value *)
Variables brk after_comma : nat → pystr.

Fixpoint dump (depth : nat) (v : json) : pystr :=
  let enclose open close (items : list pystr) :=
    match items with
    | [] => [open; close]
    | _ => open :: brk (S depth) ++ join (44%N :: after_comma (S depth)) items
             ++ brk depth ++ [close]
    end in
  match v with
  | JNull => u "null"
  | JBool true => u "true"
  | JBool false => u "false"
  | JInt z => str_of_Z z
  | JFloat x => x
  | JStr s => dumps_str s
  | JList l => enclose 91%N 93%N (dump (S depth) <$> l)
  | JDict d => enclose 123%N 125%N
                 ((λ kv, dumps_str kv.1 ++ u ": " ++ dump (S depth) kv.2) <$> d)
  end.
End Dumps.

Definition dumps : json → pystr := dump (λ _, []) (λ _, [32%N]) 0.

(** [indent=n] *)
Definition new_line (n depth : nat) : pystr := 10%N :: replicate (n * depth) 32%N.
Definition dumps_indent (n : nat) : json → pystr := dump (new_line n) (new_line n) 0.

(** ** [json.loads] *)

Definition is_json_space (c : N) : bool :=
  ((c =? 32) || (c =? 9) || (c =? 10) || (c =? 13))%N.

Fixpoint skip_space (s : pystr) : pystr :=
  match s with
  | c :: r => if is_json_space c then skip_space r else s
  | [] => []
  end.

Definition hex_value (c : N) : option N :=
  if is_digit c then Some (c - 48)%N
  else if ((97 <=? c) && (c <=? 102))%N then Some (c - 87)%N
  else if ((65 <=? c) && (c <=? 70))%N then Some (c - 55)%N
  else None.

Definition hex4 (a b c d : N) : option N :=
  a ← hex_value a; b ← hex_value b; c ← hex_value c; d ← hex_value d;
  Some (a * 4096 + b * 256 + c * 16 + d)%N.

Definition simple_escape (c : N) : option N :=
  if bool_decide (c = 34%N) then Some 34%N
  else if bool_decide (c = 92%N) then Some 92%N
  else if bool_decide (c = 47%N) then Some 47%N
  else if bool_decide (c = 98%N) then Some 8%N
  else if bool_decide (c = 102%N) then Some 12%N
  else if bool_decide (c = 110%N) then Some 10%N
  else if bool_decide (c = 114%N) then Some 13%N
  else if bool_decide (c = 116%N) then Some 9%N
  else None.

Definition is_high_surrogate (n : N) : bool := ((55296 <=? n) && (n <=? 56319))%N.
Definition is_low_surrogate (n : N) : bool := ((56320 <=? n) && (n <=? 57343))%N.

(** The rest of a string literal after its opening quote, and what follows its
    closing one.  A pair of escaped surrogates is one code point. *)
Fixpoint parse_str (s : pystr) : option (pystr * pystr) :=
  match s with
  | [] => None
  | c :: r =>
      if bool_decide (c = 34%N) then Some ([], r)
      else if bool_decide (c = 92%N) then
        match r with
        | [] => None
        | e :: r1 =>
            if bool_decide (e = 117%N) then
              match r1 with
              | h1 :: h2 :: h3 :: h4 :: r2 =>
                  n ← hex4 h1 h2 h3 h4;
                  let plain := '(t, rest) ← parse_str r2; Some (n :: t, rest) in
                  match r2 with
                  | b :: v :: l1 :: l2 :: l3 :: l4 :: r3 =>
                      if bool_decide (b = 92%N) && bool_decide (v = 117%N)
                         && is_high_surrogate n
                      then match hex4 l1 l2 l3 l4 with
                           | Some m =>
                               if is_low_surrogate m then
                                 '(t, rest) ← parse_str r3;
                                 Some ((65536 + (n - 55296) * 1024 + (m - 56320))%N :: t, rest)
                               else plain
                           | None => plain
                           end
                      else plain
                  | _ => plain
                  end
              | _ => None
              end
            else
              x ← simple_escape e;
              '(t, rest) ← parse_str r1; Some (x :: t, rest)
        end
      else if (c <? 32)%N then None
      else '(t, rest) ← parse_str r; Some (c :: t, rest)
  end.

Fixpoint span_digits (s : pystr) : pystr * pystr :=
  match s with
  | c :: r => if is_digit c then let '(d, rest) := span_digits r in (c :: d, rest)
              else ([], s)
  | [] => ([], [])
  end.

Definition uint_of_digits (ds : pystr) : Decimal.uint := foldr uint_cons Decimal.Nil ds.
Definition Z_of_digits (ds : pystr) : Z := Z.of_N (N.of_uint (uint_of_digits ds)).

(** The optional fraction and exponent of a number: their text and the rest. *)
Definition parse_frac (s : pystr) : pystr * pystr :=
  match s with
  | c :: r => if bool_decide (c = 46%N)
              then match span_digits r with
                   | ([], _) => ([], s)
                   | (ds, rest) => (46%N :: ds, rest)
                   end
              else ([], s)
  | [] => ([], [])
  end.

Definition parse_exp (s : pystr) : pystr * pystr :=
  match s with
  | e :: r =>
      if bool_decide (e = 101%N) || bool_decide (e = 69%N) then
        let '(sign, r') := match r with
                           | c :: r' => if bool_decide (c = 43%N) || bool_decide (c = 45%N)
                                        then ([c], r') else ([], r)
                           | [] => ([], [])
                           end in
        match span_digits r' with
        | ([], _) => ([], s)
        | (ds, rest) => (e :: sign ++ ds, rest)
        end
      else ([], s)
  | [] => ([], [])
  end.

Definition parse_number (s : pystr) : option (json * pystr) :=
  let '(neg, r) := match s with
                   | c :: r => if bool_decide (c = 45%N) then (true, r) else (false, s)
                   | [] => (false, [])
                   end in
  match span_digits r with
  | ([], _) => None
  | (c :: ds, rest) =>
      (* a leading zero stands alone *)
      let '(int, rest) := if bool_decide (c = 48%N) then ([c], ds ++ rest)
                          else (c :: ds, rest) in
      let '(frac, rest) := parse_frac rest in
      let '(ex, rest) := parse_exp rest in
      let sign := if neg then [45%N] else [] in
      match frac ++ ex with
      | [] => let n := Z_of_digits int in
              Some (JInt (if neg then - n else n), rest)
      | fe => Some (JFloat (sign ++ int ++ fe), rest)
      end
  end.

(** The literal names, the non-finite floats included. *)
Definition json_literals : list (pystr * json) :=
  [(u "null", JNull); (u "true", JBool true); (u "false", JBool false);
   (u "NaN", JFloat (u "NaN")); (u "Infinity", JFloat (u "Infinity"));
   (u "-Infinity", JFloat (u "-Infinity"))].

Fixpoint parse_literal (lits : list (pystr * json)) (s : pystr) : option (json * pystr) :=
  match lits with
  | [] => None
  | (name, v) :: rest => if startswith s name then Some (v, drop (length name) s)
                         else parse_literal rest s
  end.

(** A value at the head of the text; the items of a list and the members of an
    object from the first one on, up to the closing bracket.  A repeated key
    keeps its first position and its last value. *)
Fixpoint parse_value (n : nat) (s : pystr) : option (json * pystr) :=
  match n with
  | O => None
  | S n =>
      match s with
      | [] => None
      | c :: r =>
          if bool_decide (c = 34%N) then
            '(t, rest) ← parse_str r; Some (JStr t, rest)
          else if bool_decide (c = 91%N) then
            match skip_space r with
            | [] => None
            | c' :: r' => if bool_decide (c' = 93%N) then Some (JList [], r')
                          else '(l, rest) ← parse_items n (c' :: r'); Some (JList l, rest)
            end
          else if bool_decide (c = 123%N) then
            match skip_space r with
            | [] => None
            | c' :: r' => if bool_decide (c' = 125%N) then Some (JDict [], r')
                          else '(d, rest) ← parse_members n [] (c' :: r');
                               Some (JDict d, rest)
            end
          else match parse_literal json_literals s with
               | Some vr => Some vr
               | None => parse_number s
               end
      end
  end
with parse_items (n : nat) (s : pystr) : option (list json * pystr) :=
  match n with
  | O => None
  | S n =>
      '(v, rest) ← parse_value n s;
      match skip_space rest with
      | c :: r =>
          if bool_decide (c = 93%N) then Some ([v], r)
          else if bool_decide (c = 44%N) then
            '(vs, rest') ← parse_items n (skip_space r); Some (v :: vs, rest')
          else None
      | [] => None
      end
  end
with parse_members (n : nat) (acc : list (pystr * json)) (s : pystr) :
    option (list (pystr * json) * pystr) :=
  match n with
  | O => None
  | S n =>
      match s with
      | q :: r =>
          if bool_decide (q = 34%N) then
            '(key, r1) ← parse_str r;
            match skip_space r1 with
            | colon :: r2 =>
                if bool_decide (colon = 58%N) then
                  '(v, r3) ← parse_value n (skip_space r2);
                  let acc := dict_set key v acc in
                  match skip_space r3 with
                  | c :: r4 =>
                      if bool_decide (c = 125%N) then Some (acc, r4)
                      else if bool_decide (c = 44%N) then parse_members n acc (skip_space r4)
                      else None
                  | [] => None
                  end
                else None
            | [] => None
            end
          else None
      | [] => None
      end
  end.

(** Each value or item list consumes a code point for every two levels of
    recursion, so the fuel never runs out. *)
Definition loads (s : pystr) : result json :=
  match parse_value (2 * length s + 2) (skip_space s) with
  | Some (v, rest) => match skip_space rest with
                      | [] => Ok v
                      | _ => Raise JSONDecodeError
                      end
  | None => Raise JSONDecodeError
  end.


(** ** Numbers as Python objects

    A float is the IEEE double nearest to the decimal numeral it is read from;
    its conversion to an integer and its comparison with one are exact. *)

Definition float_of_decimal (neg : bool) (m e : Z) : spec_float :=
  match m with
  | Zpos p =>
      if 0 <=? e then binary_normalize 53 1024 (cond_Zopp neg (m * 10 ^ e)) 0 neg
      else SFdiv 53 1024 (S754_finite neg p 0) (S754_finite false (Z.to_pos (10 ^ (- e))) 0)
  | _ => S754_zero neg
  end.

(** The exponent part of a numeral *)
Definition exponent (s : pystr) : Z :=
  match s with
  | _ :: c :: r => if bool_decide (c = 45%N) then - Z_of_digits r
                   else if bool_decide (c = 43%N) then Z_of_digits r
                   else Z_of_digits (c :: r)
  | _ => 0
  end.

(** [float(lexeme)] for what [json.loads] takes for a float *)
Definition float_of_lexeme (lexeme : pystr) : spec_float :=
  if bool_decide (lexeme = u "NaN") then S754_nan
  else if bool_decide (lexeme = u "Infinity") then S754_infinity false
  else if bool_decide (lexeme = u "-Infinity") then S754_infinity true
  else
    let '(neg, r) := match lexeme with
                     | c :: r => if bool_decide (c = 45%N) then (true, r) else (false, lexeme)
                     | [] => (false, [])
                     end in
    let '(int, rest) := span_digits r in
    let '(frac, rest) := parse_frac rest in
    let digits := drop 1 frac in
    float_of_decimal neg (Z_of_digits (int ++ digits)) (exponent rest - Z.of_nat (length digits)).

(** [int(x)] *)
Definition int_of_float (x : spec_float) : result Z :=
  match x with
  | S754_zero _ => Ok 0
  | S754_infinity _ => Raise OverflowError
  | S754_nan => Raise ValueError
  | S754_finite s m e =>
      Ok (cond_Zopp s (if 0 <=? e then Zpos m * 2 ^ e else Zpos m / 2 ^ (- e)))
  end.

(** [x < n] *)
Definition float_lt_int (x : spec_float) (n : Z) : bool :=
  match x with
  | S754_zero _ => 0 <? n
  | S754_infinity s => s
  | S754_nan => false
  | S754_finite s m e =>
      if 0 <=? e then cond_Zopp s (Zpos m * 2 ^ e) <? n
      else cond_Zopp s (Zpos m) <? n * 2 ^ (- e)
  end.

(** [int(v)] of a JSON value: numbers, booleans and numerals in strings. *)
Definition int_of_json (v : json) : result Z :=
  match v with
  | JInt z => Ok z
  | JBool b => Ok (Z.b2z b)
  | JFloat x => int_of_float (float_of_lexeme x)
  | JStr s => int_of_str s
  | _ => Raise TypeError
  end.

(** [v < n] for an integer [n] *)
Definition json_lt_int (v : json) (n : Z) : result bool :=
  match v with
  | JInt z => Ok (z <? n)
  | JBool b => Ok (Z.b2z b <? n)
  | JFloat x => Ok (float_lt_int (float_of_lexeme x) n)
  | _ => Raise TypeError
  end.

(** [bool(v)] *)
Definition truthy (v : json) : bool :=
  match v with
  | JNull => false
  | JBool b => b
  | JInt z => negb (z =? 0)
  | JFloat x => match float_of_lexeme x with S754_zero _ => false | _ => true end
  | JStr s => negb (bool_decide (s = []))
  | JList l => match l with [] => false | _ => true end
  | JDict d => match d with [] => false | _ => true end
  end.

(** [v[-1]], [v[0]] and [v[key]] *)
Definition json_last (v : json) : result json :=
  match v with
  | JList l => match last l with Some x => Ok x | None => Raise IndexError end
  | JStr s => (λ c, JStr [c]) <$> last_char s
  | JDict _ => Raise KeyError
  | _ => Raise TypeError
  end.
Definition json_first (v : json) : result json :=
  match v with
  | JList l => nth_item l 0
  | JStr s => (λ c, JStr [c]) <$> nth_item s 0
  | JDict _ => Raise KeyError
  | _ => Raise TypeError
  end.
Definition json_item (key : pystr) (v : json) : result json :=
  match v with JDict d => dict_item key d | _ => Raise TypeError end.

(** ** [str] and [repr] of a JSON value

    A float is its numeral; characters beyond ASCII are taken as printable. *)
Definition repr_char (quote c : N) : pystr :=
  if bool_decide (c = 92%N) || bool_decide (c = quote) then [92%N; c]
  else if bool_decide (c = 10%N) then u "\n"
  else if bool_decide (c = 13%N) then u "\r"
  else if bool_decide (c = 9%N) then u "\t"
  else if (c <? 32)%N || bool_decide (c = 127%N)
  then u "\x" ++ [hex_digit (c / 16); hex_digit (c mod 16)]%N
  else [c].
Definition repr_str (s : pystr) : pystr :=
  let quote := if bool_decide (39%N ∈ s) && negb (bool_decide (34%N ∈ s)) then 34%N else 39%N in
  quote :: (s ≫= repr_char quote) ++ [quote].

Fixpoint json_repr (v : json) : pystr :=
  match v with
  | JNull => u "None"
  | JBool b => if b then u "True" else u "False"
  | JInt z => str_of_Z z
  | JFloat x => x
  | JStr s => repr_str s
  | JList l => u "[" ++ join (u ", ") (json_repr <$> l) ++ u "]"
  | JDict d => u "{" ++ join (u ", ") ((λ kv, repr_str kv.1 ++ u ": " ++ json_repr kv.2) <$> d) ++ u "}"
  end.
Definition json_str (v : json) : pystr := match v with JStr s => s | _ => json_repr v end.

(** [a or b] *)
Definition or_else (a b : json) : json := if truthy a then a else b.

(** [v.get(key, dflt)] of any value, and [for x in v] *)
Definition json_get (key : pystr) (dflt v : json) : result json :=
  match v with JDict d => Ok (dict_get_default key dflt d) | _ => Raise AttributeError end.
Definition json_iter (v : json) : result (list json) :=
  match v with
  | JList l => Ok l
  | JDict d => Ok (JStr <$> d.*1)
  | JStr s => Ok ((λ c, JStr [c]) <$> s)
  | _ => Raise TypeError
  end.

(** [v > 0] *)
Definition json_positive (v : json) : result bool :=
  match v with
  | JInt z => Ok (0 <? z)
  | JBool b => Ok b
  | JFloat x => Ok (SFltb (S754_zero false) (float_of_lexeme x))
  | _ => Raise TypeError
  end.

Lemma json_get_here key dflt v d : json_get key dflt (JDict ((key, v) :: d)) = Ok v.
Proof. unfold json_get, dict_get_default. by rewrite dict_get_here. Qed.
Lemma json_get_next key dflt k v d :
  key ≠ k → json_get key dflt (JDict ((k, v) :: d)) = json_get key dflt (JDict d).
Proof. intros H. unfold json_get, dict_get_default. by rewrite dict_get_next. Qed.
Lemma json_get_absent key dflt : json_get key dflt (JDict []) = Ok dflt.
Proof. done. Qed.

(** Evaluates look-ups of literal keys. *)
Ltac json_lookup :=
  repeat first [ rewrite json_get_here | rewrite json_get_next by str_ne
               | rewrite json_get_absent
               | progress cbn [mbind result_bind mret result_ret] ].
