(* ===== verification/JsonProps.v ===== *)
(** * The JSON round trip

    [json.loads] reads back what [json.dumps] writes: strings with their escapes,
    numbers, and the nesting of lists and objects. *)
From stdpp Require Import strings.
From Stdlib Require Import DecimalFacts DecimalN.
From S2P Require Import Prelude Py Json.

(** ** Values that survive the round trip *)

(** Induction on a value, with the hypothesis for every part of it *)
Section JsonInd.
Variable P : json → Prop.
Hypothesis HNull : P JNull.
Hypothesis HBool : ∀ b, P (JBool b).
Hypothesis HInt : ∀ z, P (JInt z).
Hypothesis HFloat : ∀ x, P (JFloat x).
Hypothesis HStr : ∀ s, P (JStr s).
Hypothesis HList : ∀ l, Forall P l → P (JList l).
Hypothesis HDict : ∀ d, Forall (λ kv, P kv.2) d → P (JDict d).

Definition json_nested_ind : ∀ v, P v :=
  fix go v :=
    match v with
    | JNull => HNull | JBool b => HBool b | JInt z => HInt z
    | JFloat x => HFloat x | JStr s => HStr s
    | JList l => HList l ((fix gos l : Forall P l :=
        match l with [] => Forall_nil_2 _ | v :: l => Forall_cons_2 _ _ _ (go v) (gos l) end) l)
    | JDict d => HDict d ((fix gos d : Forall (λ kv, P kv.2) d :=
        match d with
        | [] => Forall_nil_2 _
        | kv :: d => Forall_cons_2 _ kv d (go kv.2) (gos d)
        end) d)
    end.
End JsonInd.

(** No floats, whose text is not unique, and no key twice in an object *)
Fixpoint plain (v : json) : Prop :=
  match v with
  | JFloat _ => False
  | JList l => foldr (λ v P, plain v ∧ P) True l
  | JDict d => NoDup d.*1 ∧ foldr (λ kv P, plain kv.2 ∧ P) True d
  | _ => True
  end.

Lemma plain_list l : plain (JList l) ↔ Forall plain l.
Proof.
  cbn [plain]. induction l as [|v l IH]; cbn [foldr]; [by rewrite Forall_nil|].
  by rewrite Forall_cons, IH.
Qed.

Lemma plain_dict d : plain (JDict d) ↔ NoDup d.*1 ∧ Forall (λ kv, plain kv.2) d.
Proof.
  cbn [plain]. apply and_iff_compat_l.
  induction d as [|kv d IH]; cbn [foldr]; [by rewrite Forall_nil|].
  by rewrite Forall_cons, IH.
Qed.

(** ** Strings *)

Lemma control_escape (c : N) : (c < 32)%N →
  hex4 48 48 (hex_digit (c / 16)) (hex_digit (c mod 16)) = Some c
  ∧ is_high_surrogate c = false.
Proof.
  intros H.
  assert (forallb (λ i, bool_decide
    (hex4 48 48 (hex_digit (N.of_nat i / 16)) (hex_digit (N.of_nat i mod 16))
       = Some (N.of_nat i)) && negb (is_high_surrogate (N.of_nat i))) (seq 0 32) = true) as A
    by (vm_compute; reflexivity).
  rewrite forallb_forall in A. specialize (A (N.to_nat c)).
  rewrite N2Nat.id in A. rewrite in_seq in A.
  apply andb_true_iff in A as [A1%bool_decide_eq_true A2%negb_true_iff]; [done|lia].
Qed.

Lemma parse_str_control (c : N) t s rest : (c < 32)%N → parse_str t = Some (s, rest) →
  parse_str (92 :: 117 :: 48 :: 48 :: hex_digit (c / 16) :: hex_digit (c mod 16) :: t)%N
  = Some (c :: s, rest).
Proof.
  intros Hc Ht. destruct (control_escape c Hc) as [H1 H2].
  cbn [parse_str]. rewrite bool_decide_false, !bool_decide_true by done.
  rewrite H1. cbn [mbind option_bind]. rewrite Ht, H2. cbn [mbind option_bind].
  destruct t as [|b [|v [|? [|? [|? [|? ?]]]]]]; try done.
  by rewrite andb_false_r.
Qed.

Lemma parse_str_escape_char c t s rest :
  parse_str t = Some (s, rest) → parse_str (escape_char c ++ t) = Some (c :: s, rest).
Proof.
  intros Ht. unfold escape_char.
  repeat match goal with
  | |- context [bool_decide (c = ?k)] =>
      destruct (decide (c = k)) as [->|];
      [rewrite bool_decide_true by done; cbn; by rewrite Ht
      |rewrite (bool_decide_false (c = k)) by done]
  end.
  destruct (N.ltb_spec c 32) as [Hc|Hc].
  - cbn [app]. by apply parse_str_control.
  - cbn [app parse_str]. rewrite !bool_decide_false by done.
    assert ((c <? 32)%N = false) as -> by (by apply N.ltb_ge). by rewrite Ht.
Qed.

Lemma parse_str_dumps s rest :
  parse_str ((s ≫= escape_char) ++ 34%N :: rest) = Some (s, rest).
Proof.
  induction s as [|c s IH]; [done|].
  rewrite bind_cons, <- (assoc_L (++)). by apply parse_str_escape_char.
Qed.

(** ** Numbers *)

(** What may follow a number without being read as a part of it *)
Definition number_stop (rest : pystr) : bool :=
  match rest with
  | c :: _ => negb (is_digit c || bool_decide (c = 46%N) || bool_decide (c = 101%N)
                    || bool_decide (c = 69%N))
  | [] => true
  end.

Lemma span_digits_app ds rest :
  Forall (λ c, is_digit c = true) ds → number_stop rest = true →
  span_digits (ds ++ rest) = (ds, rest).
Proof.
  intros H Hr. induction H as [|c ds Hc _ IH].
  - destruct rest as [|c r]; [done|]. cbn in Hr |- *. by destruct (is_digit c).
  - cbn. by rewrite Hc, IH.
Qed.

Lemma uint_of_digits_str d : uint_of_digits (str_of_uint d) = d.
Proof. induction d; cbn; [done|..]; unfold uint_of_digits in *; cbn; by rewrite IHd. Qed.

Lemma Z_of_digits_str n : Z_of_digits (str_of_N n) = Z.of_N n.
Proof. unfold Z_of_digits, str_of_N. by rewrite uint_of_digits_str, Unsigned.of_to. Qed.

(** Only zero is printed with a leading zero. *)
Lemma str_of_N_zero n r : str_of_N n = 48%N :: r → r = [].
Proof.
  unfold str_of_N. intros H. pose proof (Unsigned.to_of (N.to_uint n)) as E.
  rewrite Unsigned.of_to in E.
  destruct (N.to_uint n) as [|d|d|d|d|d|d|d|d|d|d] eqn:D; try done.
  cbn in H. injection H as <-. unfold Decimal.unorm in E. cbn in E.
  destruct (Decimal.nzhead d) as [|d'| | | | | | | | |] eqn:Hz; try done.
  - by injection E as ->.
  - by apply nzhead_nonzero in Hz.
Qed.

Lemma number_stop_no_fraction rest :
  number_stop rest = true → parse_frac rest = ([], rest) ∧ parse_exp rest = ([], rest).
Proof.
  destruct rest as [|c r]; [done|]. cbn. intros H.
  destruct (bool_decide (c = 46%N)), (bool_decide (c = 101%N)), (bool_decide (c = 69%N)),
    (is_digit c); done.
Qed.

Lemma parse_number_dumps z rest :
  number_stop rest = true → parse_number (str_of_Z z ++ rest) = Some (JInt z, rest).
Proof.
  intros Hr. destruct (number_stop_no_fraction rest Hr) as [Hf He].
  assert (∀ n, ∃ c ds, str_of_N n = c :: ds ∧ is_digit c = true ∧
            span_digits (str_of_N n ++ rest) = (c :: ds, rest) ∧
            (if bool_decide (c = 48%N) then ([c], ds ++ rest) else (c :: ds, rest))
              = (str_of_N n, rest)) as A.
  { intros n. destruct (str_of_N_shape n) as (c & ds & E & H). exists c, ds.
    split; [done|]. split; [by inversion H|]. rewrite E.
    split; [by apply span_digits_app|].
    case_bool_decide as Hc; [|done]. subst c. by rewrite (str_of_N_zero _ _ E). }
  unfold str_of_Z. destruct (Z.ltb_spec z 0) as [Hz|Hz].
  - destruct (A (Z.to_N (- z))) as (c & ds & E & _ & Hs & Hl).
    unfold parse_number. cbn [app]. rewrite bool_decide_true by done.
    rewrite Hs, Hl, Hf, He. cbn [app]. rewrite Z_of_digits_str.
    do 3 f_equal. lia.
  - destruct (A (Z.to_N z)) as (c & ds & E & Hd & Hs & Hl).
    unfold parse_number.
    assert (match str_of_N (Z.to_N z) ++ rest with
            | [] => (false, [])
            | c :: r => if bool_decide (c = 45%N) then (true, r)
                        else (false, str_of_N (Z.to_N z) ++ rest)
            end = (false, str_of_N (Z.to_N z) ++ rest)) as ->.
    { rewrite E. cbn [app]. rewrite bool_decide_false; [done|]. by intros ->. }
    rewrite Hs, Hl, Hf, He. cbn [app]. rewrite Z_of_digits_str. do 3 f_equal. lia.
Qed.

(** ** Values *)

Lemma parse_literal_number c r :
  is_digit c = true ∨ c = 45%N ∧ (∃ d r', r = d :: r' ∧ is_digit d = true) →
  parse_literal json_literals (c :: r) = None.
Proof.
  assert (∀ a b, is_digit a = true → is_digit b = false → bool_decide (b = a) = false) as D.
  { intros a b Ha Hb. apply bool_decide_false. intros ->. congruence. }
  let lits := eval vm_compute in json_literals in change json_literals with lits.
  intros [Hc|(-> & d & r' & -> & Hd)]; cbn [parse_literal startswith].
  - by rewrite !(D c) by done.
  - by rewrite !(D d) by done.
Qed.

Lemma parse_value_literal n (name : pystr) v rest :
  (name, v) ∈ [(u "null", JNull); (u "true", JBool true); (u "false", JBool false)] →
  parse_value (S n) (name ++ rest) = Some (v, rest).
Proof.
  rewrite !elem_of_cons, elem_of_nil.
  assert (parse_literal json_literals (name ++ rest) = Some (v, rest) →
          match name ++ rest with
          | c :: _ => c ≠ 34%N ∧ c ≠ 91%N ∧ c ≠ 123%N
          | [] => False
          end → parse_value (S n) (name ++ rest) = Some (v, rest)) as A.
  { intros H. destruct (name ++ rest) as [|c r]; [done|]. intros (H1 & H2 & H3).
    cbn [parse_value]. rewrite !bool_decide_false by done. by rewrite H. }
  unfold json_literals in A. cbn [parse_literal] in A.
  intros [[= -> ->]|[[= -> ->]|[[= -> ->]|[]]]]; (apply A; [|done]).
  - by rewrite startswith_app, drop_app_length.
  - change (startswith (u "true" ++ rest) (u "null")) with false. cbv beta iota.
    by rewrite startswith_app, drop_app_length.
  - change (startswith (u "false" ++ rest) (u "null")) with false.
    change (startswith (u "false" ++ rest) (u "true")) with false. cbv beta iota.
    by rewrite startswith_app, drop_app_length.
Qed.

Lemma str_of_Z_head z :
  ∃ c r, str_of_Z z = c :: r
    ∧ (is_digit c = true ∨ c = 45%N ∧ (∃ d r', r = d :: r' ∧ is_digit d = true)).
Proof.
  unfold str_of_Z. destruct (z <? 0)%Z.
  - destruct (str_of_N_shape (Z.to_N (- z))) as (c & r & -> & H).
    eexists _, _. split; [done|]. right. split; [done|]. exists c, r. by inversion H.
  - destruct (str_of_N_shape (Z.to_N z)) as (c & r & -> & H).
    eexists _, _. split; [done|]. left. by inversion H.
Qed.

Lemma parse_value_int n z rest :
  number_stop rest = true → parse_value (S n) (str_of_Z z ++ rest) = Some (JInt z, rest).
Proof.
  intros Hr. rewrite <- (parse_number_dumps z rest Hr).
  destruct (str_of_Z_head z) as (c & r & -> & H). cbn [app parse_value].
  assert (∀ k, is_digit k = false → k ≠ 45%N → bool_decide (c = k) = false) as D.
  { intros k Hk Hk'. apply bool_decide_false. intros ->. destruct H as [H|[H _]]; congruence. }
  rewrite !D by done. rewrite parse_literal_number; [done|].
  destruct H as [H|(-> & d & r' & -> & Hd)]; [by left|].
  right. split; [done|]. by exists d, (r' ++ rest).
Qed.

(** White space *)
Definition spaces (s : pystr) : Prop := Forall (λ c, is_json_space c = true) s.

Lemma skip_spaces ws s : spaces ws → skip_space (ws ++ s) = skip_space s.
Proof. induction 1 as [|c ws H _ IH]; [done|]. cbn. by rewrite H. Qed.

Lemma number_stop_spaces ws s :
  spaces ws → number_stop s = true → number_stop (ws ++ s) = true.
Proof.
  intros H Hs. destruct H as [|c ws H _]; [done|]. cbn. unfold is_json_space in H.
  rewrite !orb_true_iff, !N.eqb_eq in H. by destruct H as [[[-> | ->] | ->] | ->].
Qed.

Lemma skip_non_space c s : is_json_space c = false → skip_space (c :: s) = c :: s.
Proof. intros H. cbn. by rewrite H. Qed.

Section Layout.
(** Any layout that writes white space only *)
Context (brk after_comma : nat → pystr).
Context (brk_spaces : ∀ k, spaces (brk k)) (after_comma_spaces : ∀ k, spaces (after_comma k)).
Notation dump := (dump brk after_comma).
Notation comma k := (44%N :: after_comma k).

(** A value is printed from a character that no scanner skips and that closes no
    bracket. *)
Lemma dump_head k v : plain v →
  ∃ c r, dump k v = c :: r ∧ is_json_space c = false ∧ c ≠ 93%N ∧ c ≠ 125%N.
Proof.
  destruct v as [|[]|z| |s|l|d]; intros H; try done;
    try (eexists _, _; split; [done|]; done).
  - destruct (str_of_Z_head z) as (c & r & E & Hc). exists c, r. split; [exact E|].
    destruct Hc as [Hc|[-> _]]; [|done].
    assert (∀ k, is_digit k = false → c ≠ k) as D by (intros k' Hk ->; congruence).
    repeat split; try by apply D.
    unfold is_json_space. rewrite !orb_false_iff, !N.eqb_neq. repeat split; by apply D.
  - destruct l; eexists _, _; (split; [done|]); done.
  - destruct d; eexists _, _; (split; [done|]); done.
Qed.

Lemma skip_space_dump k v rest : plain v → skip_space (dump k v ++ rest) = dump k v ++ rest.
Proof.
  intros H. destruct (dump_head k v H) as (c & r & -> & Hc & _). by apply skip_non_space.
Qed.

(** One printed value is read with this much fuel. *)
Definition reads (v : json) : Prop := ∀ k n rest,
  plain v → (2 * length (dump k v) ≤ n)%nat → number_stop rest = true →
  parse_value n (dump k v ++ rest) = Some (v, rest).

Lemma reads_use k v n rest :
  reads v → plain v → (2 * length (dump k v) ≤ n)%nat → number_stop rest = true →
  parse_value n (dump k v ++ rest) = Some (v, rest).
Proof. intros H. apply H. Qed.

Lemma join_cons2 (sep x y : pystr) l :
  join sep (x :: y :: l) = x ++ sep ++ join sep (y :: l).
Proof. done. Qed.

(** The first item stands at the head of the text. *)
Lemma join_head sep (x : pystr) l : ∃ t, join sep (x :: l) = x ++ t.
Proof. destruct l; [exists []; by rewrite (right_id_L [] (++)) | by eexists]. Qed.

Lemma skip_to_items k v l rest : plain v →
  ∃ c r, join (comma k) (dump k <$> v :: l) ++ rest = c :: r
    ∧ is_json_space c = false ∧ c ≠ 93%N.
Proof.
  intros H. rewrite fmap_cons. destruct (dump_head k v H) as (c & r & E & Hs & Hc & _).
  destruct (join_head (comma k) (dump k v) (dump k <$> l)) as [t ->].
  rewrite E. by exists c, ((r ++ t) ++ rest).
Qed.

Lemma parse_items_dump k v l n ws rest :
  Forall reads (v :: l) → Forall plain (v :: l) → spaces ws →
  (2 * length (join (comma k) (dump k <$> v :: l)) + 1 ≤ n)%nat →
  parse_items n (join (comma k) (dump k <$> v :: l) ++ ws ++ 93%N :: rest)
  = Some (v :: l, rest).
Proof.
  revert v n. induction l as [|w l IH]; intros v n HR HP Hws Hn;
    apply Forall_cons in HR as [HR HRs], HP as [HP HPs]; destruct n as [|n]; try lia;
    cbn [parse_items].
  - cbn [fmap list_fmap join] in *.
    rewrite reads_use by (done || lia || by apply number_stop_spaces). cbn [mbind option_bind].
    by rewrite skip_spaces.
  - rewrite !fmap_cons, join_cons2 in Hn |- *. rewrite <- !fmap_cons in Hn |- *.
    rewrite !length_app in Hn. cbn [length] in Hn.
    rewrite <- !(assoc_L (++)), reads_use by (done || lia). cbn [mbind option_bind].
    cbn [app]. rewrite skip_non_space by done.
    rewrite (bool_decide_false (44 = 93)%N), (bool_decide_true (44 = 44)%N) by done.
    rewrite skip_spaces by done.
    destruct (skip_to_items k w l (ws ++ 93%N :: rest)) as (c & r & E & Hs & _);
      [by apply Forall_cons in HPs as [? _]|].
    rewrite E, skip_non_space, <- E by done. rewrite IH by (done || lia). done.
Qed.

(** The loop over the members, from the members read so far on *)
Definition member k (kv : pystr * json) : pystr := dumps_str kv.1 ++ u ": " ++ dump k kv.2.

Lemma member_cons k kv rest :
  member k kv ++ rest
  = 34%N :: (kv.1 ≫= escape_char) ++ 34%N :: 58%N :: 32%N :: dump k kv.2 ++ rest.
Proof.
  unfold member, dumps_str. cbn [app]. rewrite <- !(assoc_L (++)). done.
Qed.

Lemma length_member k kv : (length (dump k kv.2) + 4 ≤ length (member k kv))%nat.
Proof.
  unfold member, dumps_str. rewrite !length_app. cbn [length]. rewrite !length_app.
  change (length (u ": ")) with 2%nat. cbn [length]. lia.
Qed.

Lemma skip_to_members k kv d rest :
  ∃ r, join (comma k) (member k <$> kv :: d) ++ rest = 34%N :: r.
Proof.
  rewrite fmap_cons. destruct (join_head (comma k) (member k kv) (member k <$> d)) as [t ->].
  rewrite <- (assoc_L (++)), member_cons. eauto.
Qed.

(** The step of the loop: a member, up to what follows its value *)
Lemma parse_member k kv n acc rest :
  reads kv.2 → plain kv.2 → (2 * length (member k kv) ≤ n)%nat → number_stop rest = true →
  kv.1 ∉ acc.*1 →
  parse_members (S n) acc (member k kv ++ rest)
  = match skip_space rest with
    | c :: r => if bool_decide (c = 125%N) then Some (acc ++ [kv], r)
                else if bool_decide (c = 44%N)
                     then parse_members n (acc ++ [kv]) (skip_space r)
                     else None
    | [] => None
    end.
Proof.
  intros HR HP Hn Hr Hk. pose proof (length_member k kv) as Hl.
  rewrite member_cons. cbn [parse_members]. rewrite bool_decide_true by done.
  rewrite parse_str_dumps. cbn [mbind option_bind].
  rewrite (skip_non_space 58%N) by done. rewrite bool_decide_true by done.
  change (skip_space (32%N :: ?x)) with (skip_space x).
  rewrite skip_space_dump, reads_use by (done || lia). cbn [mbind option_bind].
  rewrite dict_set_new by done. by destruct kv.
Qed.

(** A member that another one follows *)
Lemma parse_member_comma k kv n acc ws r :
  reads kv.2 → plain kv.2 → (2 * length (member k kv) ≤ n)%nat → spaces ws →
  kv.1 ∉ acc.*1 →
  parse_members (S n) acc (member k kv ++ 44%N :: ws ++ 34%N :: r)
  = parse_members n (acc ++ [kv]) (34%N :: r).
Proof.
  intros HR HP Hn Hws Hk. rewrite parse_member by done. rewrite skip_non_space by done.
  rewrite (bool_decide_false (44 = 125)%N), (bool_decide_true (44 = 44)%N) by done.
  by rewrite skip_spaces, skip_non_space.
Qed.

(** The members of an object that has some *)
Lemma parse_object n ws r :
  spaces ws →
  parse_value (S n) (123%N :: ws ++ 34%N :: r)
  = '(d, rest) ← parse_members n [] (34%N :: r); Some (JDict d, rest).
Proof.
  intros Hws. cbn [parse_value].
  rewrite (bool_decide_false (123 = 34)%N), (bool_decide_false (123 = 91)%N),
    bool_decide_true by done.
  rewrite skip_spaces, skip_non_space by done. by rewrite bool_decide_false.
Qed.

Lemma parse_members_dump k kv d n acc ws rest :
  Forall (λ kv, reads kv.2) (kv :: d) → Forall (λ kv, plain kv.2) (kv :: d) →
  NoDup (acc ++ kv :: d).*1 → spaces ws →
  (2 * length (join (comma k) (member k <$> kv :: d)) + 1 ≤ n)%nat →
  parse_members n acc (join (comma k) (member k <$> kv :: d) ++ ws ++ 125%N :: rest)
  = Some (acc ++ kv :: d, rest).
Proof.
  revert kv n acc. induction d as [|kv' d IH]; intros kv n acc HR HP HD Hws Hn;
    apply Forall_cons in HR as [HR HRs], HP as [HP HPs]; destruct n as [|n]; try lia;
    (assert (kv.1 ∉ acc.*1) as Hk
      by (rewrite fmap_app, fmap_cons in HD; apply NoDup_app in HD as (_ & HD & _);
          intros Hin; apply (HD _ Hin); by left)).
  - cbn [fmap list_fmap join] in *.
    rewrite parse_member by (done || lia || by apply number_stop_spaces).
    by rewrite skip_spaces.
  - rewrite !fmap_cons, join_cons2 in Hn |- *. rewrite <- !fmap_cons in Hn |- *.
    rewrite !length_app in Hn. cbn [length] in Hn.
    rewrite <- !(assoc_L (++)). cbn [app].
    destruct (skip_to_members k kv' d (ws ++ 125%N :: rest)) as [r E].
    rewrite E, parse_member_comma, <- E by (done || lia).
    rewrite IH by (done || lia || by rewrite <- (assoc_L (++))).
    by rewrite <- (assoc_L (++)).
Qed.

Lemma dump_list k v l :
  dump k (JList (v :: l))
  = 91%N :: brk (S k) ++ join (comma (S k)) (dump (S k) <$> v :: l) ++ brk k ++ [93%N].
Proof. done. Qed.
Lemma dump_dict k kv d :
  dump k (JDict (kv :: d))
  = 123%N :: brk (S k) ++ join (comma (S k)) (member (S k) <$> kv :: d) ++ brk k ++ [125%N].
Proof. done. Qed.

Lemma parse_value_dump v : reads v.
Proof.
  induction v as [|b|z|x|s|l IH|d IH] using json_nested_ind; intros k n rest HP Hn Hr;
    destruct n as [|n];
    try (destruct (dump_head k _ HP) as (c & r & E & _); rewrite E in Hn; cbn in Hn; lia).
  - apply parse_value_literal. set_solver.
  - destruct b; apply parse_value_literal; set_solver.
  - by apply parse_value_int.
  - done.
  - cbn [Json.dump dumps_str app parse_value].
    rewrite bool_decide_true by done.
    rewrite <- (assoc_L (++)). cbn [app]. by rewrite parse_str_dumps.
  - apply plain_list in HP. destruct l as [|v l]; [done|].
    rewrite dump_list in Hn |- *. cbn [length app parse_value] in *.
    rewrite (bool_decide_false (91 = 34)%N), bool_decide_true by done.
    rewrite !length_app in Hn. rewrite <- !(assoc_L (++)), skip_spaces by done. cbn [app].
    destruct (skip_to_items (S k) v l (brk k ++ 93%N :: rest)) as (c & r & E & Hs & Hc);
      [by apply Forall_cons in HP as [? _]|].
    rewrite E, skip_non_space, bool_decide_false, <- E by done.
    rewrite parse_items_dump by (done || lia). done.
  - apply plain_dict in HP as [HD HP]. destruct d as [|kv d]; [done|].
    rewrite dump_dict in Hn |- *. cbn [length app] in *.
    rewrite !length_app in Hn. rewrite <- !(assoc_L (++)). cbn [app].
    destruct (skip_to_members (S k) kv d (brk k ++ 125%N :: rest)) as (r & E).
    rewrite E, parse_object, <- E by done.
    rewrite (parse_members_dump (S k) kv d n []) by (done || lia). done.
Qed.

Lemma loads_dump k v : plain v → loads (dump k v) = Ok v.
Proof.
  intros H. unfold loads.
  pose proof (skip_space_dump k v [] H) as E. rewrite (right_id_L [] (++)) in E. rewrite E.
  pose proof (parse_value_dump v k (2 * length (dump k v) + 2)%nat [] H) as P.
  rewrite (right_id_L [] (++)) in P. rewrite P by (done || lia). done.
Qed.
End Layout.

Lemma loads_dumps_eq v : plain v → loads (dumps v) = Ok v.
Proof. apply loads_dump; intros k; repeat constructor. Qed.

Lemma new_line_spaces n k : spaces (new_line n k).
Proof. constructor; [done|]. by apply Forall_replicate. Qed.

Lemma loads_dumps_indent n v : plain v → loads (dumps_indent n v) = Ok v.
Proof. apply loads_dump; apply new_line_spaces. Qed.
