(* ===== verification/Regex.v ===== *)
(** * Regular expressions

    The parts of the patterns of [src/log_viewer.py] and [src/poker/game_ui.py], on
    ASCII digits and words.  A part is followed by the rest of the pattern, [k], and
    gives what the whole finds from here on; a part that can match in several ways
    tries them in the order of Python's [re]. *)
From stdpp Require Import strings.
From S2P Require Import Prelude Py Json.

(** A literal at the head of the text *)
Definition literal {A} (t : pystr) (k : pystr → option A) (s : pystr) : option A :=
  if startswith s t then k (drop (length t) s) else None.

(** [(\w+)] *)
Definition is_word (c : N) : bool := is_digit c || is_letter c || (c =? 95)%N.
Fixpoint span_word (s : pystr) : pystr * pystr :=
  match s with
  | c :: r => if is_word c then let '(w, rest) := span_word r in (c :: w, rest) else ([], s)
  | [] => ([], [])
  end.
Definition word {A} (k : pystr → pystr → option A) (s : pystr) : option A :=
  match span_word s with
  | ([], _) => None
  | (w, r) => k w r
  end.

(** [(\d+)], as an integer *)
Definition number {A} (k : Z → pystr → option A) (s : pystr) : option A :=
  match span_digits s with
  | ([], _) => None
  | (ds, r) => k (Z_of_digits ds) r
  end.

(** [(.+?)]: as little as [k] allows *)
Fixpoint some_text {A} (k : pystr → pystr → option A) (before s : pystr) : option A :=
  match s with
  | [] => None
  | c :: r =>
      if bool_decide (c = 10%N) then None
      else match k (before ++ [c]) r with
           | Some x => Some x
           | None => some_text k (before ++ [c]) r
           end
  end.

(** [(.+)] at the end of a pattern *)
Fixpoint line_rest (s : pystr) : pystr :=
  match s with
  | c :: r => if bool_decide (c = 10%N) then [] else c :: line_rest r
  | [] => []
  end.
Definition rest_text {A} (k : pystr → option A) (s : pystr) : option A :=
  match line_rest s with [] => None | t => k t end.

(** [\s*] before a literal *)
Definition spaces_then {A} (t : pystr) (k : pystr → option A) (s : pystr) : option A :=
  literal t k (lstrip s).
