(* ===== verification/Floats.v ===== *)
(** * Arithmetic on doubles

    What the tools of the agents use of Python's floats: the operations of IEEE 754
    binary64 of the Standard Library, conversions from integers, the division of
    integers, and [round]. *)
From Stdlib Require Export Floats.SpecFloat.
From S2P Require Import Prelude Py Json.

(** The decimal [m * 10^e] of a literal of the program *)
Definition decimal (m e : Z) : spec_float := float_of_decimal (m <? 0) (Z.abs m) e.

Definition float_mul : spec_float → spec_float → spec_float := SFmul 53 1024.
Definition float_add : spec_float → spec_float → spec_float := SFadd 53 1024.

(** [float(z)]; an integer too large for a double raises. *)
Definition finite (x : spec_float) : result spec_float :=
  match x with S754_infinity _ => Raise OverflowError | _ => Ok x end.
Definition float_of_int (z : Z) : result spec_float :=
  finite (binary_normalize 53 1024 z 0 false).

(** [a / b] on integers, rounded once *)
Definition int_div_int (a b : Z) : result spec_float :=
  match a, b with
  | _, Z0 => Raise ZeroDivisionError
  | Z0, _ => Ok (S754_zero (b <? 0))
  | _, _ => finite (SFdiv 53 1024 (S754_finite (a <? 0) (Z.to_pos (Z.abs a)) 0)
                                 (S754_finite (b <? 0) (Z.to_pos (Z.abs b)) 0))
  end.

(** [a / b] on finite floats other than a zero [b] *)
Definition float_div : spec_float → spec_float → spec_float := SFdiv 53 1024.

(** [x >= y] *)
Definition float_ge (x y : spec_float) : bool := SFleb y x.

(** [x > y] *)
Definition float_gt (x y : spec_float) : bool := SFltb y x.

(** [sum] of floats, which keeps the error of every addition and adds the errors in
    the end *)
Fixpoint float_sum (total error : spec_float) (l : list spec_float) : spec_float :=
  match l with
  | [] => float_add total error
  | x :: l =>
      let t := float_add total x in
      let lost := if float_ge (SFabs total) (SFabs x)
                  then float_add (float_add total (SFopp t)) x
                  else float_add (float_add x (SFopp t)) total in
      float_sum t (float_add error lost) l
  end.

(** The integer nearest to [n / d], the even one of two *)
Definition round_half_even (n d : Z) : Z :=
  let q := n / d in
  match 2 * (n mod d) ?= d with
  | Lt => q
  | Gt => q + 1
  | Eq => if Z.even q then q else q + 1
  end.

(** [round(x, digits)]: the double nearest to the decimal with that many digits
    that is nearest to [x] *)
Definition round_digits (digits : Z) (x : spec_float) : spec_float :=
  match x with
  | S754_finite s m e =>
      let scaled := Zpos m * 10 ^ digits in
      let q := if 0 <=? e then scaled * 2 ^ e else round_half_even scaled (2 ^ (- e)) in
      float_of_decimal s q (- digits)
  | _ => x
  end.

(** The float in an operation with one: of the values of JSON only numbers and
    booleans have one. *)
Definition float_of_json (v : json) : result spec_float :=
  match v with
  | JInt z => float_of_int z
  | JBool b => float_of_int (Z.b2z b)
  | JFloat x => Ok (float_of_lexeme x)
  | _ => Raise TypeError
  end.
