(* ===== verification/Preflop.v ===== *)
(** * The preflop tools of team 1

    Models [src/agents/team1_agent/preflop/tools/]: the ranges of starting hands, the
    classification of two cards, its value at a position, and the action recommended
    against the raises so far.  An answer with an ["error"] is the exception whose
    text it has, or the refusal of a number of cards other than two. *)
From stdpp Require Import strings.
From S2P Require Import Prelude Py Json Floats.

(** ** The ranges *)

Inductive HandCategory := NAVY | RED | YELLOW | GREEN | BLUE | WHITE | GRAY.

#[export] Instance HandCategory_eq_dec : EqDecision HandCategory.
Proof. solve_decision. Defined.

(** In the order of the class *)
Definition all_categories : list HandCategory := [NAVY; RED; YELLOW; GREEN; BLUE; WHITE; GRAY].

Definition category_value (c : HandCategory) : pystr :=
  match c with
  | NAVY => u "AA, KK, AKs, AKo, QQ"
  | RED => u "JJ, TT, 99, AQs, AJs, ATs, KQs, AQo, KQo, AJo"
  | YELLOW => u "88, 77, KJs, QJs, JTs, ATo, KTs, A9s, A8s"
  | GREEN => u "66, 55, A7s, A6s, A5s, A4s, A3s, A2s, K9s, QTs, T9s, KJo"
  | BLUE => u "44, 33, 22, Q9s, J9s, T8s, 98s, QJo, KTo, JTo, A9o, QTo, K8s"
  | WHITE => u "K7s, K6s, K5s, K4s, K3s, K2s, Q8s, Q7s, Q6s, J8s, J7s, 97s, 87s, 76s, 65s, K9o, Q9o, J9o, T9o, A8o, K8o, A7o, A6o, A5o, A4o, A3o, A2o, T8o, 98o, Q5s, Q4s, Q3s, Q2s, J6s, T7s, 96s, 86s, 75s, 64s, 54s"
  | GRAY => u "それ以外"
  end.

Module Preflop.
Definition category_score (c : HandCategory) : Z :=
  match c with
  | NAVY => 6 | RED => 5 | YELLOW => 4 | GREEN => 3 | BLUE => 2 | WHITE => 1 | GRAY => 0
  end.

(** ** Classification *)

Definition rank_strength : list (pystr * Z) :=
  [(u "A", 14); (u "K", 13); (u "Q", 12); (u "J", 11); (u "T", 10); (u "9", 9); (u "8", 8);
   (u "7", 7); (u "6", 6); (u "5", 5); (u "4", 4); (u "3", 3); (u "2", 2)].

(** The rank and the suit of a card's text *)
Definition split_card (card : pystr) : result (pystr * N) :=
  let card := strip card in
  let rank_raw := upper (but_last card) in
  let rank := if bool_decide (rank_raw = u "10") then u "T" else rank_raw in
  suit ← last_char card;
  Ok (rank, suit).

Definition convert_to_hand_notation (card1 card2 : pystr) : result pystr :=
  '(rank1, suit1) ← split_card card1;
  '(rank2, suit2) ← split_card card2;
  if bool_decide (rank1 = rank2) then Ok (rank1 ++ rank2)
  else
    let rank1_strength := dict_get_default rank1 0 rank_strength in
    let rank2_strength := dict_get_default rank2 0 rank_strength in
    let '(rank1, rank2) := if rank1_strength <? rank2_strength then (rank2, rank1)
                           else (rank1, rank2) in
    let suited_suffix := if (suit1 =? suit2)%N then u "s" else u "o" in
    Ok (rank1 ++ rank2 ++ suited_suffix).

(** The loop over the categories *)
Definition in_range (hand_notation : pystr) (c : HandCategory) : bool :=
  contains (replace (u " ") [] (category_value c)) hand_notation.
Fixpoint find_category (hand_notation : pystr) (l : list HandCategory) : option HandCategory :=
  match l with
  | [] => None
  | c :: l => if in_range hand_notation c then Some c else find_category hand_notation l
  end.

Inductive refusal := NotTwoCards | Failed (e : exn).
Inductive answer (A : Type) := Answer (a : A) | Error (why : refusal).
Arguments Answer {A} _.
Arguments Error {A} _.

(** [try: ... except Exception as e: return {"error": str(e), ...}] *)
Definition guard {A} (r : result A) : answer A :=
  match r with Ok a => Answer a | Raise e => Error (Failed e) end.

Record classification := Classification {
  cl_hole_cards : list pystr; cl_category : HandCategory; cl_category_score : Z;
  cl_position : pystr }.

Definition classify_hand (hole_cards : list pystr) (position : pystr) : answer classification :=
  match hole_cards with
  | [card1; card2] =>
      guard
        (hand_notation ← convert_to_hand_notation card1 card2;
         match find_category hand_notation all_categories with
         | Some c => Ok (Classification hole_cards c (category_score c) position)
         | None => Ok (Classification hole_cards GRAY 0 position)
         end)
  | _ => Error NotTwoCards
  end.

(** ** The value at a position *)

Definition position_multiplier : list (pystr * spec_float) :=
  [(u "UTG", decimal 10 (-1)); (u "CO", decimal 11 (-1)); (u "BTN", decimal 12 (-1));
   (u "SB", decimal 10 (-1)); (u "BB", decimal 11 (-1))].

Definition multiplier (position : pystr) : spec_float :=
  dict_get_default position (decimal 9 (-1)) position_multiplier.

(** [round(category_score * pos_mult, 1)] *)
Definition adjusted (category_score pos_mult : spec_float) : spec_float :=
  round_digits 1 (float_mul category_score pos_mult).

Record position_value := PositionValue {
  pv_hole_cards : list pystr; pv_position : pystr; pv_position_multiplier : spec_float;
  pv_base_score : Z; pv_position_adjusted_score : spec_float; pv_hand_category : HandCategory;
  pv_recommendation : pystr }.

Definition recommendation (score : spec_float) : pystr :=
  if float_ge score (decimal 5 0) then u "レイズ or 3bet or 4bet"
  else if float_ge score (decimal 4 0) then u "レイズ or 3bet"
  else if float_ge score (decimal 1 0) then u "レイズ"
  else u "フォールド推奨".

Definition analyze_preflop_position_value (hole_cards : list pystr) (position : pystr) :
    answer position_value :=
  match classify_hand hole_cards position with
  | Error why => Error why
  | Answer hand_class =>
      guard
        (score ← float_of_int (cl_category_score hand_class);
         let pos_mult := multiplier position in
         let position_adjusted_score := adjusted score pos_mult in
         Ok (PositionValue hole_cards position pos_mult (cl_category_score hand_class)
               position_adjusted_score (cl_category hand_class)
               (recommendation position_adjusted_score)))
  end.

(** ** The recommended action *)

(** [position_multiplier.get(v, 0.9)]: a list or a dictionary has no hash. *)
Definition json_multiplier (v : json) : result spec_float :=
  match v with
  | JStr s => Ok (multiplier s)
  | JList _ | JDict _ => Raise TypeError
  | _ => Ok (decimal 9 (-1))
  end.

(** The score from the classification of the previous step *)
Definition classified_score (hand_classification : list (pystr * json)) (position : pystr) :
    result spec_float :=
  let category_score := dict_get_default (u "category_score") (JInt 0) hand_classification in
  let given := dict_get_default (u "position") (JStr position) hand_classification in
  let position_for_calc := if truthy given then given else JStr position in
  pos_mult ← json_multiplier position_for_calc;
  score ← float_of_json category_score;
  Ok (adjusted score pos_mult).

Definition count_raises (action_before_you : list pystr) : Z :=
  Z.of_nat (length (filter (λ a, contains (lower a) (u "raise")) action_before_you)).

(** The action and its amount *)
Definition recommend (raise_count : Z) (adj_score : spec_float)
    (your_stack to_call blind_size : Z) : pystr * Z :=
  if 4 <=? raise_count then
    if float_ge adj_score (decimal 55 (-1)) then (u "call", Z.min your_stack to_call)
    else (u "fold", 0)
  else if raise_count =? 3 then
    if float_ge adj_score (decimal 50 (-1)) then (u "call", Z.min your_stack to_call)
    else (u "fold", 0)
  else if raise_count =? 2 then
    if float_ge adj_score (decimal 50 (-1)) then (u "4bet", Z.min (blind_size * 10) your_stack)
    else (u "fold", 0)
  else if raise_count =? 1 then
    if float_ge adj_score (decimal 35 (-1)) then (u "3bet", blind_size * 3)
    else if float_ge adj_score (decimal 1 0) then (u "call", to_call)
    else (u "fold", 0)
  else
    if float_ge adj_score (decimal 1 0) then (u "raise", blind_size * 3)
    else (u "fold", 0).

Record evaluation := Evaluation {
  ev_hole_cards : list pystr; ev_position : pystr; ev_strength_score : spec_float;
  ev_prior_raises : Z; ev_to_call : Z; ev_your_stack : Z;
  ev_recommended_action : pystr; ev_recommended_amount : Z }.

(** [hand_classification] is [None] where the argument is no dictionary. *)
Definition evaluate_preflop_action (hole_cards : list pystr) (position : pystr)
    (action_before_you : list pystr) (your_stack to_call blind_size : Z)
    (hand_classification : option (list (pystr * json))) : answer evaluation :=
  let score :=
    match hand_classification with
    | Some d => guard (classified_score d position)
    | None =>
        match analyze_preflop_position_value hole_cards position with
        | Error why => Error why
        | Answer v => Answer (pv_position_adjusted_score v)
        end
    end in
  match score with
  | Error why => Error why
  | Answer adj_score =>
      let raise_count := count_raises action_before_you in
      let '(action, amount) := recommend raise_count adj_score your_stack to_call blind_size in
      Answer (Evaluation hole_cards position adj_score raise_count to_call your_stack
                action amount)
  end.
End Preflop.
