(* ===== verification/FlopTools.v ===== *)
(** * The flop tools of team 1

    Models [src/agents/team1_agent/flop_strategy_agent/tools/]: the size of a bet
    against the pot, the draws of a hand, and a third evaluation of hands with a
    strength score.  A number of an answer is a double; the scores that the code
    leaves integers (90 and 100) are the doubles of the same value. *)
From stdpp Require Import strings.
From S2P Require Import Prelude Py Json Floats.

(** [RANKS] and [RANK_MAP] *)
Definition RANKS : pystr := u "23456789TJQKA".
Definition RANK_MAP : list (pystr * Z) := imap (λ i c, ([c], Z.of_nat i)) RANKS.

Module BetSituation.
Record t := BetSituation {
  pot_size : Z; to_call : Z; bet_as_pot_percentage : spec_float; threat_level : pystr }.

Definition threat (bet_percentage : spec_float) : pystr :=
  if float_ge bet_percentage (decimal 100 0) then u "EXTREME"
  else if float_ge bet_percentage (decimal 75 0) then u "HIGH"
  else if float_ge bet_percentage (decimal 30 0) then u "MEDIUM"
  else u "LOW".

Definition analyze_bet_situation (pot_size to_call : Z) : result t :=
  if to_call =? 0 then Ok (BetSituation pot_size to_call (decimal 0 0) (u "NONE"))
  else
    let pot_size := if pot_size =? 0 then to_call else pot_size in
    q ← int_div_int to_call pot_size;
    let bet_percentage := round_digits 2 (float_mul q (decimal 100 0)) in
    Ok (BetSituation pot_size to_call bet_percentage (threat bet_percentage)).
End BetSituation.

Module DrawAnalyzer.
Inductive draw_type := FLUSH_DRAW | OESD.

Definition parse_card (card_str : pystr) : result (pystr * pystr) :=
  let rank_str := but_last card_str in
  suit_str ← last_char card_str;
  let rank := upper rank_str in
  let suit := lower [suit_str] in
  Ok (if bool_decide (rank = u "10") then u "T" else rank, suit).

Definition rank_index (card : pystr * pystr) : result Z := dict_item card.1 RANK_MAP.

(** The loop over the suits.  It also collects the cards that are out, which nothing
    reads; what it looks up for them can raise. *)
Fixpoint flush_draws (parsed_cards : list (pystr * pystr)) (suit_counts : list (pystr * Z)) :
    result (list (draw_type * Z)) :=
  match suit_counts with
  | [] => Ok []
  | (suit, count) :: rest =>
      if count =? 4 then
        _ ← map_result rank_index (filter (λ c, c.2 = suit) parsed_cards);
        draws ← flush_draws parsed_cards rest;
        Ok ((FLUSH_DRAW, 9) :: draws)
      else flush_draws parsed_cards rest
  end.

(** One window of the loop over the sorted ranks *)
Definition window_draw (sub_sequence : list Z) : list (draw_type * Z) :=
  match sub_sequence with
  | [low_end; _; _; high_end] =>
      if high_end - low_end =? 3 then
        let outs := (if 0 <? low_end then 4 else 0) + (if high_end <? 12 then 4 else 0) in
        if 0 <? outs then [(OESD, outs)] else []
      else []
  | _ => []
  end.

(** [for i in range(len(unique_ranks) - 2)] *)
Definition straight_draws (unique_ranks : list Z) : list (draw_type * Z) :=
  i ← seq 0 (length unique_ranks - 2);
  window_draw (take 4 (drop i unique_ranks)).

Definition analyze_draw_potential (hole_cards community_cards : list pystr) :
    result (list (draw_type * Z) * Z) :=
  let all_cards := hole_cards ++ community_cards in
  if (length all_cards <? 4)%nat || (6 <? length all_cards)%nat then Ok ([], 0)
  else
    parsed_cards ← map_result parse_card all_cards;
    flushes ← flush_draws parsed_cards (counter (snd <$> parsed_cards));
    ranks ← map_result rank_index parsed_cards;
    let unique_ranks := sort_asc (remove_dups ranks) in
    let draws := flushes ++ straight_draws unique_ranks in
    Ok (draws, sum_by snd draws).
End DrawAnalyzer.

Module FlopEvaluator.
Definition SUITS : pystr := u "shdc".
Definition suit_map : list (N * N) :=
  [(9824, 115); (9829, 104); (9830, 100); (9827, 99);
   (115, 115); (104, 104); (100, 100); (99, 99)]%N.

(** In the order of [HAND_RANKS], whose values are the positions *)
Definition hand_names : list pystr :=
  [u "HIGH_CARD"; u "ONE_PAIR"; u "TWO_PAIR"; u "THREE_OF_A_KIND"; u "STRAIGHT"; u "FLUSH";
   u "FULL_HOUSE"; u "FOUR_OF_A_KIND"; u "STRAIGHT_FLUSH"].

(** A rank and a suit; both tests are for a part of a text. *)
Definition parse_card (card_str : pystr) : result (pystr * pystr) :=
  let rank_str := but_last card_str in
  suit_str ← last_char card_str;
  let rank := upper rank_str in
  let suit := match dict_get suit_str suit_map with
              | Some c => [c]
              | None => lower [suit_str]
              end in
  let rank := if bool_decide (rank = u "10") then u "T" else rank in
  if negb (contains RANKS rank) || negb (contains SUITS suit) then Raise ValueError
  else Ok (rank, suit).

Definition rank_index (card : pystr * pystr) : result Z := dict_item card.1 RANK_MAP.

Record details := Details { d_rank : Z; d_primary : Z; d_secondary : Z; d_kickers : list Z }.

#[export] Instance details_eq_dec : EqDecision details.
Proof. solve_decision. Defined.

(** [all(ranks[i] - ranks[i+1] == 1 for i in range(4))], for five ranks *)
Fixpoint consecutive (ranks : list Z) : bool :=
  match ranks with
  | r0 :: (r1 :: _) as rest => (r0 - r1 =? 1) && consecutive rest
  | _ => true
  end.

(** [sorted(keys, key=lambda k: (rank_counts[k], k), reverse=True)] *)
Definition by_count (rank_counts : list (Z * Z)) : list Z :=
  fst <$> sort_with (λ x y, (y.2 <? x.2) || ((y.2 =? x.2) && (y.1 <=? x.1))) rank_counts.

Definition others (r : Z) (sorted_ranks : list Z) : list Z :=
  sort_desc (filter (λ x, x ≠ r) sorted_ranks).

(** The rank of five cards, from the flush test and the ranks, highest first *)
Definition rank_details (is_flush : bool) (ranks : list Z) : result details :=
  let is_wheel := negb (consecutive ranks) && bool_decide (ranks = [12; 3; 2; 1; 0]) in
  let is_straight := consecutive ranks || is_wheel in
  let ranks := if is_wheel then [3; 2; 1; 0; 12] else ranks in
  high ← nth_item ranks 0;
  if is_straight && is_flush then Ok (Details 8 high 0 [])
  else
    let rank_counts := counter ranks in
    let sorted_ranks := by_count rank_counts in
    let counts := sort_desc (snd <$> rank_counts) in
    count0 ← nth_item counts 0;
    first ← nth_item sorted_ranks 0;
    if count0 =? 4 then
      kicker ← nth_item sorted_ranks 1;
      Ok (Details 7 first kicker [])
    else if bool_decide (counts = [3; 2]) then
      pair_rank ← nth_item sorted_ranks 1;
      Ok (Details 6 first pair_rank [])
    else if is_flush then Ok (Details 5 0 0 ranks)
    else if is_straight then Ok (Details 4 high 0 [])
    else if count0 =? 3 then Ok (Details 3 first 0 (others first sorted_ranks))
    else if bool_decide (counts = [2; 2; 1]) then
      p2 ← nth_item sorted_ranks 1;
      kicker ← nth_item sorted_ranks 2;
      Ok (Details 2 (Z.max first p2) (Z.min first p2) [kicker])
    else if count0 =? 2 then Ok (Details 1 first 0 (others first sorted_ranks))
    else Ok (Details 0 0 0 ranks).

Definition get_hand_rank_and_kickers (hand : list (pystr * pystr)) : result details :=
  if negb (length hand =? 5)%nat then Raise ValueError
  else
    indices ← map_result rank_index hand;
    let is_flush := (length (remove_dups (snd <$> hand)) =? 1)%nat in
    rank_details is_flush (sort_desc indices).

(** ** The strength score *)

(** [k / 12 * w] for a small integer [k] *)
Definition part (k d : Z) : spec_float := float_div (decimal k 0) (decimal d 0).
Definition weighted (k w e : Z) : spec_float := float_mul (part k 12) (decimal w e).
Definition plus (base : Z) (x : spec_float) : spec_float := float_add (decimal base 0) x.

(** [sum(k / (13 * (i + 1)) for i, k in enumerate(kickers))] *)
Definition flush_rank_score (kickers : list Z) : spec_float :=
  float_sum (decimal 0 0) (decimal 0 0)
    (imap (λ i k, part k (13 * (Z.of_nat i + 1))) kickers).

Definition first_kicker (kickers : list Z) : Z := default 0 (head kickers).

(** The case of a pair, which depends on the board and on whether the hole cards are
    the pair *)
Definition pair_score (pair_rank kicker_rank max_community_rank : Z) (is_pocket_pair : bool) :
    spec_float :=
  if is_pocket_pair && (max_community_rank <? pair_rank) then plus 75 (weighted pair_rank 10 0)
  else if pair_rank =? max_community_rank then
    if 10 <=? kicker_rank then plus 70 (weighted kicker_rank 15 0)
    else plus 60 (weighted kicker_rank 10 0)
  else float_add (plus 30 (weighted pair_rank 10 0)) (weighted kicker_rank 5 0).

Definition base_score (d : details) (max_community_rank : Z) (is_pocket_pair : bool) : spec_float :=
  let k := first_kicker (d_kickers d) in
  match d_rank d with
  | 8 => if d_primary d =? 12 then decimal 100 0 else plus 98 (weighted (d_primary d) 199 (-2))
  | 7 => plus 96 (weighted (d_primary d) 199 (-2))
  | 6 => plus 94 (weighted (d_primary d) 199 (-2))
  | 5 => plus 92 (float_mul (flush_rank_score (d_kickers d)) (decimal 199 (-2)))
  | 4 => plus 90 (weighted (d_primary d) 199 (-2))
  | 3 => decimal 90 0
  | 2 => float_add (float_add (plus 80 (weighted (d_primary d) 5 0)) (weighted (d_secondary d) 3 0))
           (weighted k 1 0)
  | 1 => pair_score (d_primary d) k max_community_rank is_pocket_pair
  | _ => plus 0 (weighted k 25 0)
  end.

(** [round(min(base_score, 100.0), 2)] *)
Definition calculate_strength_score (d : details) (hole_cards community_cards : list (pystr * pystr)) :
    spec_float :=
  let max_community_rank :=
    match map_result rank_index community_cards with
    | Ok (r :: l) => foldl Z.max r l
    | _ => 0
    end in
  let is_pocket_pair :=
    match hole_cards with
    | c1 :: c2 :: _ => bool_decide (c1.1 = c2.1)
    | _ => false
    end in
  let base := base_score d max_community_rank is_pocket_pair in
  round_digits 2 (if SFltb (decimal 100 0) base then decimal 100 0 else base).

(** ** The best hand *)

(** The tuple of a hand, filled up to seven *)
Definition padded (d : details) : list Z :=
  let score := [d_rank d; d_primary d; d_secondary d] ++ d_kickers d in
  score ++ replicate (7 - length score) (-1).

Definition no_details : details := Details (-1) (-1) (-1) [-1; -1; -1; -1; -1].

(** The loop over the combinations.  The ranks of a combination that raises a
    [ValueError] are skipped. *)
Fixpoint best_of (combos : list (list (pystr * pystr)))
    (best : details * option (list (pystr * pystr))) :
    result (details * option (list (pystr * pystr))) :=
  match combos with
  | [] => Ok best
  | hand :: rest =>
      match get_hand_rank_and_kickers hand with
      | Raise ValueError => best_of rest best
      | Raise e => Raise e
      | Ok d => best_of rest (if list_gtb (padded d) (padded best.1) then (d, Some hand) else best)
      end
  end.

Record answer := Answer {
  an_hand_name : pystr; an_hand_rank : Z; an_best_5_cards : list pystr;
  an_strength_score : spec_float; an_details : details }.

(** [None] for an answer with an error *)
Definition evaluate_hand (hole_cards community_cards : list pystr) : result (option answer) :=
  if negb (length hole_cards =? 2)%nat then Ok None
  else if negb ((3 <=? length community_cards)%nat && (length community_cards <=? 5)%nat)
  then Ok None
  else
    match (parsed_hole ← map_result parse_card hole_cards;
           parsed_community ← map_result parse_card community_cards;
           Ok (parsed_hole, parsed_community)) with
    | Raise ValueError => Ok None
    | Raise e => Raise e
    | Ok (parsed_hole, parsed_community) =>
        '(d, cards) ← best_of (combinations 5 (parsed_hole ++ parsed_community)) (no_details, None);
        match cards with
        | None => Ok None
        | Some best_hand_cards =>
            hand_name ← nth_item hand_names (Z.to_nat (d_rank d));
            Ok (Some (Answer hand_name (d_rank d)
                        ((λ c, c.1 ++ c.2) <$> best_hand_cards)
                        (calculate_strength_score d parsed_hole parsed_community) d))
        end
    end.
End FlopEvaluator.
