(* ===== verification/GameModels.v ===== *)
(** * Cards, the deck and the game state given to players

    Models [src/poker/game_models.py]. *)
From stdpp Require Import strings.
From S2P Require Import Prelude Py Json.

(** ** Suits and cards *)

Inductive Suit := HEARTS | DIAMONDS | CLUBS | SPADES.

#[export] Instance Suit_eq_dec : EqDecision Suit.
Proof. solve_decision. Defined.

(** [for suit in Suit] goes through the members in this order. *)
Definition all_suits : list Suit := [HEARTS; DIAMONDS; CLUBS; SPADES].

Definition suit_value (s : Suit) : pystr :=
  match s with
  | HEARTS => u "hearts" | DIAMONDS => u "diamonds"
  | CLUBS => u "clubs" | SPADES => u "spades"
  end.

Module Card.
Record t := Card { rank : Z; suit : Suit }.

#[global] Instance eq_dec : EqDecision t.
Proof. solve_decision. Defined.

Definition SUIT_SYMBOLS (s : Suit) : pystr :=
  match s with
  | HEARTS => u "♥" | DIAMONDS => u "♦" | CLUBS => u "♣" | SPADES => u "♠"
  end.

Definition RANK_NAMES : list (Z * pystr) :=
  [(2, u "2"); (3, u "3"); (4, u "4"); (5, u "5"); (6, u "6"); (7, u "7");
   (8, u "8"); (9, u "9"); (10, u "10"); (11, u "J"); (12, u "Q");
   (13, u "K"); (14, u "A")].

(** [Card(rank, suit)] *)
Definition new (rank : Z) (suit : Suit) : result t :=
  if (rank <? 2) || (14 <? rank) then Raise ValueError else Ok (Card rank suit).

(** What the constructor guarantees of every card object. *)
Definition valid (c : t) : Prop := 2 ≤ rank c ≤ 14.

(** [RANK_NAMES[r]]: the ranks of card objects are always keys. *)
Definition name_of_rank (r : Z) : pystr := default [] (dict_get r RANK_NAMES).

Definition rank_name (c : t) : pystr := name_of_rank (rank c).
Definition suit_symbol (c : t) : pystr := SUIT_SYMBOLS (suit c).

(** [str(card)] *)
Definition str (c : t) : pystr := rank_name c ++ suit_symbol c.

(** [repr(card)] *)
Definition repr (c : t) : pystr :=
  u "Card(" ++ rank_name c ++ u ", " ++ suit_value (suit c) ++ u ")".

(** [card == other] for a card [other] *)
Definition eqb (c d : t) : bool :=
  (rank c =? rank d) && bool_decide (suit c = suit d).
End Card.

Notation card := Card.t.

(** ** The deck *)

Module Deck.
(** The cards in list order; the next card dealt is the last one. *)
Abbreviation t := (list card).

(** The 52 cards in the order [reset] appends them. *)
Definition full : t :=
  suit ← all_suits; (λ r, Card.Card r suit) <$> range 2 15.

(** [reset]: [random.shuffle] permutes the list in place; [shuffle] is what
    it does on this call. *)
Definition reset (shuffle : t → t) : t := shuffle full.

(** [deal_card] *)
Definition deal_card : M t card := λ d,
  match pop_last d with
  | None => (Raise ValueError, d)
  | Some (c, d') => (Ok c, d')
  end.

Definition cards_remaining (d : t) : nat := length d.
End Deck.

(** ** Phases *)

Inductive GamePhase := PREFLOP | FLOP | TURN | RIVER | SHOWDOWN | FINISHED.

#[export] Instance GamePhase_eq_dec : EqDecision GamePhase.
Proof. solve_decision. Defined.

Definition phase_value (p : GamePhase) : pystr :=
  match p with
  | PREFLOP => u "preflop" | FLOP => u "flop" | TURN => u "turn"
  | RIVER => u "river" | SHOWDOWN => u "showdown" | FINISHED => u "finished"
  end.

(** ** The state handed to a player *)

Module PlayerInfo.
Record t := PlayerInfo { id : Z; chips : Z; bet : Z; status : pystr }.

Definition to_dict (p : t) : json :=
  JDict [(u "id", JInt (id p)); (u "chips", JInt (chips p));
         (u "bet", JInt (bet p)); (u "status", JStr (status p))].

(** [PlayerInfo(id=p["id"], ...)] of one entry of the [players] list *)
Definition from_dict (v : json) : result t :=
  p ← as_dict v;
  id ← dict_item (u "id") p ≫= as_int;
  chips ← dict_item (u "chips") p ≫= as_int;
  bet ← dict_item (u "bet") p ≫= as_int;
  status ← dict_item (u "status") p ≫= as_str;
  Ok (PlayerInfo id chips bet status).
End PlayerInfo.

Module GameState.
Record t := GameState {
  your_id : Z;
  phase : pystr;
  your_cards : list pystr;
  community : list pystr;
  your_chips : Z;
  your_bet_this_round : Z;
  your_total_bet_this_hand : Z;
  pot : Z;
  to_call : Z;
  dealer_button : Z;
  current_turn : Z;
  players : list PlayerInfo.t;
  actions : list pystr;
  history : list pystr }.

Definition to_dict (g : t) : list (pystr * json) :=
  [(u "your_id", JInt (your_id g));
   (u "phase", JStr (phase g));
   (u "your_cards", JList (JStr <$> your_cards g));
   (u "community", JList (JStr <$> community g));
   (u "your_chips", JInt (your_chips g));
   (u "your_bet_this_round", JInt (your_bet_this_round g));
   (u "your_total_bet_this_hand", JInt (your_total_bet_this_hand g));
   (u "pot", JInt (pot g));
   (u "to_call", JInt (to_call g));
   (u "dealer_button", JInt (dealer_button g));
   (u "current_turn", JInt (current_turn g));
   (u "players", JList (PlayerInfo.to_dict <$> players g));
   (u "actions", JList (JStr <$> actions g));
   (u "history", JList (JStr <$> history g))].

(** [data.get(key, default)] read at the field's type.  Python does not check
    the types of the other fields; on data of other types the model raises
    [TypeError] instead of building an ill-typed object. *)
Definition get_int (key : pystr) (data : list (pystr * json)) : result Z :=
  as_int (dict_get_default key (JInt 0) data).
Definition get_str (key : pystr) (data : list (pystr * json)) : result pystr :=
  as_str (dict_get_default key (JStr []) data).
Definition get_strs (key : pystr) (data : list (pystr * json)) : result (list pystr) :=
  as_list (dict_get_default key (JList []) data) ≫= map_result as_str.

Definition from_dict (data : list (pystr * json)) : result t :=
  players ← as_list (dict_get_default (u "players") (JList []) data)
            ≫= map_result PlayerInfo.from_dict;
  your_id ← int_of_json (dict_get_default (u "your_id") (JInt 0) data);
  phase ← get_str (u "phase") data;
  your_cards ← get_strs (u "your_cards") data;
  community ← get_strs (u "community") data;
  your_chips ← get_int (u "your_chips") data;
  your_bet ← get_int (u "your_bet_this_round") data;
  your_total ← get_int (u "your_total_bet_this_hand") data;
  pot ← get_int (u "pot") data;
  to_call ← get_int (u "to_call") data;
  dealer_button ← get_int (u "dealer_button") data;
  current_turn ← get_int (u "current_turn") data;
  actions ← get_strs (u "actions") data;
  history ← get_strs (u "history") data;
  Ok (GameState your_id phase your_cards community your_chips your_bet your_total
        pot to_call dealer_button current_turn players actions history).
End GameState.

(** ** Lemmas *)

Lemma full_deck_length : length Deck.full = 52%nat.
Proof. reflexivity. Qed.

Lemma full_deck_NoDup : NoDup Deck.full.
Proof. apply (bool_decide_unpack _). vm_compute. done. Qed.

Lemma elem_of_full_deck c : c ∈ Deck.full ↔ Card.valid c.
Proof.
  split.
  - intros H. assert (Forall (λ c, 2 ≤ Card.rank c ≤ 14) Deck.full) as Hf.
    { apply (bool_decide_unpack _). vm_compute. done. }
    rewrite Forall_forall in Hf. by apply Hf.
  - destruct c as [r s]. unfold Card.valid. simpl. intros Hr.
    unfold Deck.full. apply list_elem_of_bind. exists s. split.
    + apply list_elem_of_fmap. exists r. split; [done|]. unfold range.
      apply list_elem_of_fmap. exists (Z.to_nat (r - 2)).
      rewrite elem_of_seq. lia.
    + destruct s; set_solver.
Qed.

Lemma Card_new_valid r s c : Card.new r s = Ok c → Card.valid c.
Proof.
  unfold Card.new, Card.valid. destruct (Z.ltb_spec r 2); [done|].
  destruct (Z.ltb_spec 14 r); [done|]. intros [= <-]. simpl. lia.
Qed.

(** [==] on cards is equality of rank and suit. *)
Lemma Card_eqb_eq c d : Card.eqb c d = true ↔ c = d.
Proof.
  destruct c as [r s], d as [r' s']. unfold Card.eqb. simpl.
  rewrite andb_true_iff, Z.eqb_eq, bool_decide_eq_true. split; [naive_solver | by intros [= -> ->]].
Qed.

Lemma deal_card_nonempty d :
  d ≠ [] → ∃ c d', Deck.deal_card d = (Ok c, d') ∧ d = d' ++ [c].
Proof.
  intros Hd. unfold Deck.deal_card.
  destruct (pop_last d) as [[c d']|] eqn:E.
  - exists c, d'. by apply pop_last_Some in E.
  - by apply pop_last_None in E.
Qed.

(** The printed names of valid cards tell the cards apart. *)
Lemma Card_str_inj c d : Card.valid c → Card.valid d → Card.str c = Card.str d → c = d.
Proof.
  rewrite <- !elem_of_full_deck. intros Hc Hd Heq.
  assert (Forall (λ x, Forall (λ y, Card.str x = Card.str y → x = y) Deck.full) Deck.full)
    as H.
  { apply (bool_decide_unpack _). vm_compute. done. }
  rewrite Forall_forall in H. specialize (H c Hc). rewrite Forall_forall in H. auto.
Qed.

Lemma PlayerInfo_from_to_dict p : PlayerInfo.from_dict (PlayerInfo.to_dict p) = Ok p.
Proof. by destruct p. Qed.

Lemma map_result_as_str l : map_result as_str (JStr <$> l) = Ok l.
Proof. rewrite (map_result_fmap _ _ id) by done. by rewrite list_fmap_id. Qed.

Lemma map_result_PlayerInfo l :
  map_result PlayerInfo.from_dict (PlayerInfo.to_dict <$> l) = Ok l.
Proof.
  rewrite (map_result_fmap _ _ id) by apply PlayerInfo_from_to_dict.
  by rewrite list_fmap_id.
Qed.

(** A game state rebuilt from its dictionary is the same. *)
Theorem GameState_from_to_dict g : GameState.from_dict (GameState.to_dict g) = Ok g.
Proof.
  destruct g as [i ph yc co ch b1 b2 po tc db ct pl ac hi].
  unfold GameState.from_dict, GameState.to_dict, GameState.get_int, GameState.get_str,
    GameState.get_strs, dict_get_default. cbn [GameState.your_id GameState.phase
    GameState.your_cards GameState.community GameState.your_chips
    GameState.your_bet_this_round GameState.your_total_bet_this_hand GameState.pot
    GameState.to_call GameState.dealer_button GameState.current_turn GameState.players
    GameState.actions GameState.history].
  dict_lookup. cbn.
  rewrite map_result_PlayerInfo, !map_result_as_str. reflexivity.
Qed.
