(* ===== verification/PlayerModels.v ===== *)
(** * Players

    Models the state and the chip operations of [src/poker/player_models.py]
    and the decision procedure of [RandomPlayer]. *)
From stdpp Require Import strings.
From S2P Require Import Prelude Py Json GameModels.

Inductive PlayerStatus := ACTIVE | FOLDED | ALL_IN | BUSTED.

#[export] Instance PlayerStatus_eq_dec : EqDecision PlayerStatus.
Proof. solve_decision. Defined.

Definition status_value (s : PlayerStatus) : pystr :=
  match s with
  | ACTIVE => u "active" | FOLDED => u "folded"
  | ALL_IN => u "all_in" | BUSTED => u "busted"
  end.

(** The subclass of a player object, with the attributes it adds. *)
Inductive PlayerKind :=
  | HumanPlayer
  | RandomPlayer
  | LLMPlayer (model : pystr)
  | LLMApiPlayer (app_name user_id : pystr).

#[export] Instance PlayerKind_eq_dec : EqDecision PlayerKind.
Proof. solve_decision. Defined.

(** What [make_decision] returns. *)
Record decision := Decision { d_action : pystr; d_amount : Z }.

#[export] Instance decision_eq_dec : EqDecision decision.
Proof. solve_decision. Defined.

Module Player.
Record t := Player {
  id : nat;
  name : pystr;
  kind : PlayerKind;
  chips : Z;
  hole_cards : list card;
  current_bet : Z;
  total_bet_this_hand : Z;
  status : PlayerStatus;
  is_dealer : bool;
  is_small_blind : bool;
  is_big_blind : bool;
  (** [None] where the subclass has no such attribute; what a model gives as its
      reasoning may be any JSON value *)
  last_decision_reasoning : option json }.

#[global] Instance eta : Eta t := λ p,
  Player (id p) (name p) (kind p) (chips p) (hole_cards p) (current_bet p)
    (total_bet_this_hand p) (status p) (is_dealer p) (is_small_blind p)
    (is_big_blind p) (last_decision_reasoning p).

#[global] Instance eq_dec : EqDecision t.
Proof. solve_decision. Defined.

(** [__init__] of the class [kind] *)
Definition new (kind : PlayerKind) (player_id : nat) (name : pystr)
    (initial_chips : Z) : t :=
  Player player_id name kind initial_chips [] 0 0 ACTIVE false false false
    (match kind with LLMPlayer _ | LLMApiPlayer _ _ => Some (JStr []) | _ => None end).

(** The base class's method, then the LLM subclasses' clearing of the last
    reasoning. *)
Definition reset_for_new_hand (p : t) : t :=
  let p := p <| hole_cards := [] |> <| current_bet := 0 |>
             <| total_bet_this_hand := 0 |>
             <| status := if 0 <? chips p then ACTIVE else BUSTED |>
             <| is_dealer := false |> <| is_small_blind := false |>
             <| is_big_blind := false |> in
  match kind p with
  | LLMPlayer _ | LLMApiPlayer _ _ => p <| last_decision_reasoning := Some (JStr []) |>
  | _ => p
  end.

Definition reset_for_new_betting_round (p : t) : t := p <| current_bet := 0 |>.

Definition add_hole_card (c : card) : M t () :=
  p ← get;
  if (2 <=? length (hole_cards p))%nat then raise ValueError
  else put (p <| hole_cards := hole_cards p ++ [c] |>).

(** [bet] returns the amount actually bet. *)
Definition bet (amount : Z) (p : t) : Z * t :=
  if amount <=? 0 then (0, p)
  else
    let actual_bet := Z.min amount (chips p) in
    let p := p <| chips ::= λ c, c - actual_bet |>
               <| current_bet ::= λ b, b + actual_bet |>
               <| total_bet_this_hand ::= λ b, b + actual_bet |> in
    let p := if chips p =? 0 then p <| status := ALL_IN |> else p in
    (actual_bet, p).

Definition fold (p : t) : t := p <| status := FOLDED |>.

Definition can_bet (amount : Z) (p : t) : bool :=
  (amount <=? chips p) && bool_decide (status p = ACTIVE).

(** [str(player)] *)
Definition str (p : t) : pystr :=
  name p ++ u " (ID: " ++ str_of_nat (id p) ++ u ", Chips: "
    ++ str_of_Z (chips p) ++ u ")".
End Player.

Notation player := Player.t.

(** ** The random player *)

Module RandomPlayerDecision.
(** [self.action_weights] *)
Definition weight_fold : Z := 30.
Definition weight_check_call : Z := 50.
Definition weight_raise : Z := 15.
Definition weight_all_in : Z := 5.

(** [int(action.split(sep)[1].split(")")[0])] *)
Definition bracketed_int (sep action : pystr) : result Z :=
  rest ← nth_item (split sep action) 1;
  digits ← nth_item (split (u ")") rest) 0;
  int_of_str digits.

(** One turn of the loop over the available actions: the option it appends,
    if any.  [randint] is what [random.randint(1, 3)] returns here. *)
Definition option_of_action (randint chips : Z) (action : pystr) :
    result (option (decision * Z)) :=
  if bool_decide (action = u "fold") then
    Ok (Some (Decision (u "fold") 0, weight_fold))
  else if startswith action (u "check") then
    Ok (Some (Decision (u "check") 0, weight_check_call))
  else if startswith action (u "call") then
    amount ← bracketed_int (u "(") action;
    Ok (Some (Decision (u "call") amount, weight_check_call))
  else if startswith action (u "raise") then
    amount ← bracketed_int (u "min ") action;
    Ok (Some (Decision (u "raise") (Z.min (amount * randint) chips), weight_raise))
  else if startswith action (u "all-in") then
    Ok (Some (Decision (u "all_in") chips, weight_all_in))
  else Ok None.

Fixpoint action_options (randint : nat → Z) (chips : Z) (actions : list pystr) :
    result (list (decision * Z)) :=
  match actions with
  | [] => Ok []
  | a :: rest =>
      o ← option_of_action (randint O) chips a;
      os ← action_options (λ i, randint (S i)) chips rest;
      Ok (match o with Some d => d :: os | None => os end)
  end.

(** [make_decision]: [choice] is the position [random.choices] draws for some
    weights. *)
Definition make_decision (randint : nat → Z) (choice : list Z → nat) (p : player)
    (game_state : GameState.t) : result decision :=
  match GameState.actions game_state with
  | [] => Ok (Decision (u "fold") 0)
  | available_actions =>
      options ← action_options randint (Player.chips p) available_actions;
      fst <$> nth_item options (choice (snd <$> options))
  end.
End RandomPlayerDecision.

(** ** Lemmas on the chip operations *)

Section PlayerLemmas.
Implicit Type p : player.

(** The chips of a player, in hand and in the pot this hand. *)
Definition stake p : Z := Player.chips p + Player.total_bet_this_hand p.

Lemma bet_spec amount p :
  let a := if amount <=? 0 then 0 else Z.min amount (Player.chips p) in
  (Player.bet amount p).1 = a ∧
  Player.chips (Player.bet amount p).2 = Player.chips p - a ∧
  Player.current_bet (Player.bet amount p).2 = Player.current_bet p + a ∧
  Player.total_bet_this_hand (Player.bet amount p).2 = Player.total_bet_this_hand p + a ∧
  Player.status (Player.bet amount p).2 =
    (if amount <=? 0 then Player.status p
     else if Player.chips p - a =? 0 then ALL_IN else Player.status p).
Proof.
  unfold Player.bet. destruct (amount <=? 0); cbn.
  - repeat split; lia.
  - destruct (_ =? 0); cbn; repeat split; lia.
Qed.

(** [bet] leaves the rest of the player alone. *)
Lemma bet_frame amount p :
  let p' := (Player.bet amount p).2 in
  Player.id p' = Player.id p ∧ Player.hole_cards p' = Player.hole_cards p ∧
  Player.kind p' = Player.kind p ∧ Player.name p' = Player.name p ∧
  Player.is_dealer p' = Player.is_dealer p ∧
  Player.is_small_blind p' = Player.is_small_blind p ∧
  Player.is_big_blind p' = Player.is_big_blind p.
Proof.
  unfold Player.bet. destruct (amount <=? 0); cbn; [done|].
  destruct (_ =? 0); done.
Qed.

Lemma bet_stake amount p : stake (Player.bet amount p).2 = stake p.
Proof. unfold stake. destruct (bet_spec amount p) as (? & -> & _ & -> & _). lia. Qed.

Lemma bet_nonneg amount p :
  0 ≤ Player.chips p →
  0 ≤ (Player.bet amount p).1 ≤ Player.chips p ∧
  0 ≤ Player.chips (Player.bet amount p).2.
Proof.
  destruct (bet_spec amount p) as (-> & -> & _).
  destruct (Z.leb_spec amount 0); lia.
Qed.
End PlayerLemmas.
