(* ===== verification/LlmPlayers.v ===== *)
(** * Players that ask a language model

    Models the decisions of [LLMPlayer] and [LLMApiPlayer] and the reading of a
    model's answer, [_parse_llm_response], in [src/poker/player_models.py].  What
    comes over the network is an argument: the text of the answer of the ADK
    runner, or the session request, the times at which the reply is polled and the
    reply of the agent server. *)
From stdpp Require Import strings.
From Stdlib Require Import Floats.SpecFloat.
From S2P Require Import Prelude Py Json GameModels PlayerModels.

(** ** The regular expressions

    [re.search] tries the positions of the text from the left, and a greedy
    repetition from its longest match down. *)

(** A literal followed by what [k] matches *)
Fixpoint search {A} (literal : pystr) (k : pystr → option A) (s : pystr) : option A :=
  match (if startswith s literal then k (drop (length literal) s) else None) with
  | Some x => Some x
  | None => match s with [] => None | _ :: r => search literal k r end
  end.

(** [.*] followed by what [k] matches; the dot stops at the end of a line. *)
Fixpoint any_text {A} (k : pystr → option A) (s : pystr) : option A :=
  match s with
  | [] => k []
  | c :: r => if bool_decide (c = 10%N) then k s
              else match any_text k r with Some x => Some x | None => k s end
  end.

(** [(\d+)] followed by what [k] accepts *)
Definition number_then (k : pystr → bool) (s : pystr) : option Z :=
  match span_digits s with
  | ([], _) => None
  | (ds, r) => if k r then Some (Z_of_digits ds) else None
  end.

(** [call.*\((\d+)\)] *)
Definition call_match : pystr → option Z :=
  search (u "call") (any_text (λ s,
    match s with
    | c :: r => if bool_decide (c = 40%N) then number_then (λ r, startswith r (u ")")) r
                else None
    | [] => None
    end)).

(** [raise.*min (\d+)] *)
Definition raise_match : pystr → option Z :=
  search (u "raise") (any_text (λ s,
    if startswith s (u "min ") then number_then (λ _, true) (drop 4 s) else None)).

(** [\s*\n(.*?)\n```], where the dot matches every character *)
Definition fence_end : pystr := 10%N :: u "```".
Fixpoint fence_body (s : pystr) : option pystr :=
  match s with
  | [] => None
  | c :: r =>
      if is_space c then
        match fence_body r with
        | Some x => Some x
        | None => if bool_decide (c = 10%N) then (λ i, take i r) <$> find_sub fence_end r
                  else None
        end
      else None
  end.
Definition markdown_match : pystr → option pystr := search (u "```json") fence_body.

(** [\{[^}]*"action"[^}]*\}] *)
Definition quoted_action : pystr := 34%N :: u "action" ++ [34%N].
Definition object_body (s : pystr) : option pystr :=
  i ← find_sub (u "}") s;
  if contains (take i s) quoted_action then Some (u "{" ++ take i s ++ u "}") else None.
Definition json_match : pystr → option pystr := search (u "{") object_body.

Module LLM.
(** ** Reading an answer *)

(** The text of the first fenced block, if there is one *)
Definition cleaned (response : pystr) : pystr :=
  if contains response (u "```json") then default response (markdown_match response)
  else response.

(** The loop of the action [call]: the first offer that speaks of a call ends it. *)
Fixpoint call_amount (amount : json) (available_actions : list pystr) : json :=
  match available_actions with
  | [] => amount
  | act :: rest =>
      if contains (lower act) (u "call") then
        match call_match act with Some n => JInt n | None => amount end
      else call_amount amount rest
  end.

(** The loop of the action [raise] *)
Fixpoint min_raise (available_actions : list pystr) : Z :=
  match available_actions with
  | [] => 0
  | act :: rest =>
      if contains (lower act) (u "raise") then
        match raise_match act with Some n => n | None => min_raise rest end
      else min_raise rest
  end.

(** The normalisation of the action and its amount *)
Definition normalise (chips : Z) (available_actions : list pystr) (action : pystr)
    (amount : json) : result (pystr * json) :=
  if bool_decide (action = u "fold") || bool_decide (action = u "check") then
    Ok (action, JInt 0)
  else if bool_decide (action = u "call") then
    Ok (action, call_amount amount available_actions)
  else if bool_decide (action = u "all_in") || bool_decide (action = u "all-in") then
    Ok (u "all_in", JInt chips)
  else if bool_decide (action = u "raise") then
    let min_raise := min_raise available_actions in
    low ← (if 0 <? min_raise then json_lt_int amount min_raise else Ok false);
    Ok (action, if low : bool then JInt min_raise else amount)
  else Ok (action, amount).

Definition no_reasoning : json := JStr (u "理由が提供されませんでした").
Definition parse_failure : json := JStr (u "レスポンスのパースに失敗したため、フォールドします").
Definition timed_out : json := JStr (u "40秒経過しても応答がないため、フォールドします").
Definition fold_decision : decision := Decision (u "fold") 0.

(** [if hasattr(self, "last_decision_reasoning"): ...] *)
Definition set_reasoning (reasoning : json) : M player () :=
  modify (λ p, match Player.last_decision_reasoning p with
               | Some _ => p <| Player.last_decision_reasoning := Some reasoning |>
               | None => p
               end).

(** [s.lower()] of what should be a string *)
Definition json_lower (v : json) : result pystr :=
  match v with JStr s => Ok (lower s) | _ => Raise AttributeError end.

(** The decision in an object of the answer *)
Definition decide_from (json_str : pystr) (game_state : GameState.t) : M player decision :=
  v ← lift (loads json_str);
  d ← lift (match v with JDict d => Ok d | _ => Raise AttributeError end);
  action ← lift (json_lower (default (JStr (u "fold")) (jget "action" d)));
  let amount := default (JInt 0) (jget "amount" d) in
  set_reasoning (default no_reasoning (jget "reasoning" d)) ;;
  p ← get;
  '(action, amount) ←
    lift (normalise (Player.chips p) (GameState.actions game_state) action amount);
  amount ← lift (int_of_json amount);
  mret (Decision action amount).

(** The body of the [try]; [None] where it falls through without a match *)
Definition find_decision (response : json) (game_state : GameState.t) :
    M player (option decision) :=
  text ← lift (as_str response);
  match json_match (cleaned text) with
  | Some json_str => d ← decide_from json_str game_state; mret (Some d)
  | None => mret None
  end.

(** [except (json.JSONDecodeError, ValueError, AttributeError)] *)
Definition parse_error (e : exn) : bool :=
  match e with JSONDecodeError | ValueError | AttributeError => true | _ => false end.

(** [response] is a string unless the server sent another value. *)
Definition parse_llm_response (response : json) (game_state : GameState.t) :
    M player decision :=
  d ← try_except (find_decision response game_state) parse_error (mret None);
  match d with
  | Some d => mret d
  | None => set_reasoning parse_failure ;; mret fold_decision
  end.

(** [get_last_reasoning] *)
Definition get_last_reasoning (p : player) : result json :=
  match Player.last_decision_reasoning p with
  | Some r => Ok (if truthy r then r else JStr (u "理由が記録されていません"))
  | None => Raise AttributeError
  end.

Section Decisions.
(** The draws of the random player that stands in after an error *)
Variable randint : nat → Z.
Variable choice : list Z → nat.

(** [RandomPlayer(self.id, self.name, self.chips).make_decision(game_state)] *)
Definition random_decision (game_state : GameState.t) : M player decision :=
  p ← get;
  lift (RandomPlayerDecision.make_decision randint choice
          (Player.new RandomPlayer (Player.id p) (Player.name p) (Player.chips p)) game_state).

(** ** [LLMPlayer]

    [has_agent] is false where the agent could not be set up; [answer] is the text
    of the final response of the runner, [JNull] when there is none. *)
Definition llm_make_decision (has_agent : bool) (answer : result json)
    (game_state : GameState.t) : M player decision :=
  if negb has_agent then random_decision game_state
  else
    try_except
      (response_content ← lift answer;
       parse_llm_response response_content game_state)
      is_exception (random_decision game_state).

(** ** [LLMApiPlayer] *)

(** What the thread of the request returns: the exception, [None], or a response
    with its status and its body as JSON. *)
Inductive reply :=
  | ReplyError
  | NoReply
  | Reply (status_code : Z) (body : result json).

(** The polling loop: each poll has the milliseconds since the start and the
    reply, if it is there by the end of the poll.  [None] after 40 seconds. *)
Fixpoint wait_for_reply (polls : list (Z * option reply)) : M player (option reply) :=
  match polls with
  | [] => raise OutOfFuel
  | (_, Some response) :: _ => mret (Some response)
  | (elapsed, None) :: polls =>
      if 40000 <=? elapsed then set_reasoning timed_out ;; mret None
      else wait_for_reply polls
  end.

(** [response.json()[-1]["content"]["parts"][0]["text"]] *)
Definition answer_text (body : result json) : result json :=
  v ← body;
  event ← json_last v;
  content ← json_item (u "content") event;
  parts ← json_item (u "parts") content;
  part ← json_first parts;
  json_item (u "text") part.

Definition handle_reply (response : reply) (game_state : GameState.t) : M player decision :=
  match response with
  | ReplyError => random_decision game_state
  | NoReply => mret fold_decision
  | Reply status_code body =>
      if negb (status_code =? 200) then mret fold_decision
      else
        text ← lift (answer_text body);
        parse_llm_response text game_state
  end.

(** A session that cannot be created is no obstacle if it is the request that
    fails. *)
Definition create_session (outcome : result ()) : M player () :=
  try_except (lift outcome) (λ e, bool_decide (e = RequestException)) (mret tt).

Definition api_make_decision (session : result ()) (polls : list (Z * option reply))
    (game_state : GameState.t) : M player decision :=
  try_except
    (create_session session ;;
     response ← wait_for_reply polls;
     match response with
     | None => mret fold_decision
     | Some response => handle_reply response game_state
     end)
    is_exception (random_decision game_state).

(** ** The decision of any player *)

(** What one decision meets outside of the program *)
Record network := Network {
  has_agent : bool;
  runner_answer : result json;
  session_outcome : result ();
  reply_polls : list (Z * option reply) }.

(** [player.make_decision(game_state)], by the class of the player *)
Definition make_decision (net : network) (game_state : GameState.t) : M player decision :=
  p ← get;
  match Player.kind p with
  | HumanPlayer => raise NotImplementedError
  | RandomPlayer => lift (RandomPlayerDecision.make_decision randint choice p game_state)
  | LLMPlayer _ => llm_make_decision (has_agent net) (runner_answer net) game_state
  | LLMApiPlayer _ _ => api_make_decision (session_outcome net) (reply_polls net) game_state
  end.
End Decisions.

(** The request to the agent server: its body, with the game state as text *)
Definition input_json (game_state : GameState.t) : pystr :=
  dumps_indent 2 (JDict (GameState.to_dict game_state)).
Definition run_request (app_name user_id session_id : pystr) (game_state : GameState.t) : json :=
  JDict [(u "app_name", JStr app_name); (u "user_id", JStr user_id);
         (u "session_id", JStr session_id);
         (u "new_message",
          JDict [(u "role", JStr (u "user"));
                 (u "parts", JList [JDict [(u "text", JStr (input_json game_state))]])])].
End LLM.
