(* ===== verification/LogViewer.v ===== *)
(** * The log viewer

    Models [LogParser] of [src/log_viewer.py]: the reading of the lines of a log file
    into events, and the state of the game that the viewer keeps from them.  The
    matching of its regular expressions is on ASCII digits and words.  The time of a
    record is its text; the dictionaries of an event and of a player are records.
    Widgets are left out. *)
From stdpp Require Import strings.
From S2P Require Import Prelude Py Json Regex Floats LlmPlayers.

(** ** The records of the log *)

Module LogRecord.
(** [\d{4}-\d{2}-\d{2} \d{2}:\d{2}:\d{2},\d{3}], with zeros for the digits *)
Definition timestamp_shape : pystr := u "0000-00-00 00:00:00,000".

Fixpoint fits (shape s : pystr) : bool :=
  match shape, s with
  | [], _ => true
  | t :: shape, c :: s =>
      (if bool_decide (t = 48%N) then is_digit c else bool_decide (c = t)) && fits shape s
  | _, [] => false
  end.

Definition is_record (line : pystr) : bool := fits timestamp_shape line.

(** The groups of the pattern of a record: time, level, message *)
Definition record_match (line : pystr) : option (pystr * pystr * pystr) :=
  if is_record line then
    literal (u " - poker_game - ") (word (λ level,
      literal (u " - ") (rest_text (λ message, Some (take 23 line, level, message)))))
      (drop 23 line)
  else None.

(** [datetime.strptime(timestamp_str, "%Y-%m-%d %H:%M:%S,%f")] *)
Definition field (i n : nat) (timestamp : pystr) : Z := Z_of_digits (take n (drop i timestamp)).
Definition is_leap (y : Z) : bool :=
  (y mod 4 =? 0) && negb (y mod 100 =? 0) || (y mod 400 =? 0).
Definition days_in_month (y m : Z) : Z :=
  if m =? 2 then (if is_leap y then 29 else 28)
  else if (m =? 4) || (m =? 6) || (m =? 9) || (m =? 11) then 30 else 31.
Definition strptime (timestamp : pystr) : result pystr :=
  let y := field 0 4 timestamp in
  let m := field 5 2 timestamp in
  let d := field 8 2 timestamp in
  if (1 <=? y) && (1 <=? m) && (m <=? 12) && (1 <=? d) && (d <=? days_in_month y m)
     && (field 11 2 timestamp <? 24) && (field 14 2 timestamp <? 60)
     && (field 17 2 timestamp <? 60)
  then Ok timestamp else Raise ValueError.
End LogRecord.
Import LogRecord.

Module LogParser.
(** ** Events *)

(** The reasoning of a decision: a text, or the summary of a prompt as its parts *)
Inductive reasoning :=
  | Text (text : pystr)
  | Summary (parts : list (pystr * json)).

(** What an event has besides its time, the hand and the message *)
Inductive event_data :=
  | HAND_START (hand_number : Z)
  | HAND_END
  | PHASE_CHANGE (from_phase to_phase : pystr)
  | PLAYER_ACTION (player_id : Z) (player_name action : pystr) (amount : Z)
  | GAME_STATE (pot current_bet : Z)
  | SHOWDOWN
  | LLM_DECISION (player action : pystr) (amount : Z) (why : reasoning)
      (full_prompt : option pystr).

Record event := Event {
  ev_timestamp : pystr; ev_hand_number : option Z; ev_message : pystr; ev_data : event_data }.

(** ** The state kept *)

(** A number from a prompt is any value of JSON, or the float of a sum. *)
Inductive value := Json (v : json) | Float (x : spec_float).

(** [a + b] *)
Definition json_add (a b : json) : result value :=
  match a, b with
  | JInt x, JInt y => Ok (Json (JInt (x + y)))
  | JInt x, JBool y | JBool y, JInt x => Ok (Json (JInt (x + Z.b2z y)))
  | JBool x, JBool y => Ok (Json (JInt (Z.b2z x + Z.b2z y)))
  | JStr s, JStr t => Ok (Json (JStr (s ++ t)))
  | JList l, JList k => Ok (Json (JList (l ++ k)))
  | _, _ => x ← float_of_json a; y ← float_of_json b; Ok (Float (float_add x y))
  end.

Record player := Player {
  name : pystr; chips : json; current_bet : json; cards : list json; status : json;
  last_action : option pystr; last_amount : option Z }.

#[global] Instance player_eta : Eta player := λ p,
  Player (name p) (chips p) (current_bet p) (cards p) (status p) (last_action p) (last_amount p).

(** A player id is an integer, unless a prompt has another. *)
Record game_state := GameState {
  gs_current_hand : option Z; gs_current_phase : pystr; gs_pot : json; gs_current_bet : value;
  gs_community_cards : list json; gs_players : list (json * player);
  gs_last_updated : option pystr }.

#[global] Instance game_state_eta : Eta game_state := λ g,
  GameState (gs_current_hand g) (gs_current_phase g) (gs_pot g) (gs_current_bet g)
    (gs_community_cards g) (gs_players g) (gs_last_updated g).

Definition new_game_state : game_state :=
  GameState None (u "waiting") (JInt 0) (Json (JInt 0)) [] [] None.

Record t := LogParser {
  events : list event; current_hand : option Z; state : game_state;
  last_file_position : nat }.

#[global] Instance parser_eta : Eta t := λ p,
  LogParser (events p) (current_hand p) (state p) (last_file_position p).

Definition new : t := LogParser [] None new_game_state 0.

Definition set_state (f : game_state → game_state) : M t () := modify (λ p, p <| state ::= f |>).

(** [players[pid][...] = ...] for a player that is there *)
Definition set_player (pid : json) (f : player → player) : M t () :=
  p ← get;
  v ← lift (dict_item pid (gs_players (state p)));
  set_state (λ g, g <| gs_players ::= dict_set pid (f v) |>).

(** ** Prompts *)

(** [s.find("{")] and [s.rfind("}") + 1], and the text between *)
Definition rfind (c : N) (s : pystr) : option nat :=
  (λ i, (length s - 1 - i)%nat) <$> find_sub [c] (reverse s).
Definition object_text (message : pystr) : option pystr :=
  json_start ← find_sub (u "{") message;
  last_brace ← rfind 125%N message;
  let json_end := S last_brace in
  if (json_start <? json_end)%nat
  then Some (take (json_end - json_start) (drop json_start message)) else None.

Definition count (c : N) (s : pystr) : Z := Z.of_nat (length (filter (λ x, x = c) s)).
Definition brace_count (s : pystr) : Z := count 123%N s - count 125%N s.

(** [_collect_multi_line_json]: the loop, over the lines after the first *)
Fixpoint collect_lines (braces : Z) (lines : list pystr) : list pystr :=
  match lines with
  | [] => []
  | l :: lines =>
      if 0 <? braces then
        let line := strip l in
        if is_record line then []
        else line :: collect_lines (braces + brace_count line) lines
      else []
  end.
Definition collect_multi_line_json (lines : list pystr) (first_line : pystr) : pystr :=
  join [10%N] (first_line :: collect_lines (brace_count first_line) lines).

(** The id of the player of a prompt that is not among the players by name;
    [None] where the method returns. *)
Definition new_player_id (player_name : pystr) (prompt_data : list (pystr * json)) :
    result (option json) :=
  if startswith player_name (u "Agent") then
    match int_of_str (replace (u "Agent") [] player_name) with
    | Ok z => Ok (Some (JInt z))
    | Raise ValueError => Ok None
    | Raise e => Raise e
    end
  else if bool_decide (player_name = u "You") then
    match jget "current_turn" prompt_data with
    | Some v => pid ← hash_key v; Ok (Some pid)
    | None => Ok None
    end
  else Ok None.

Definition default_player (player_name : pystr) : player :=
  Player player_name (JInt 2000) (JInt 0) [] (JStr (u "active")) None None.

Definition find_by_name (player_name : pystr) (l : list (json * player)) : option json :=
  fst <$> find (λ x, bool_decide (name x.2 = player_name)) l.

Definition target_player (player_name : pystr) (prompt_data : list (pystr * json)) :
    M t (option json) :=
  p ← get;
  match find_by_name player_name (gs_players (state p)) with
  | Some pid => mret (Some pid)
  | None =>
      pid ← lift (new_player_id player_name prompt_data);
      match pid with
      | None => mret None
      | Some pid =>
          set_state (λ g, g <| gs_players ::= dict_set pid (default_player player_name) |>) ;;
          mret (Some pid)
      end
  end.

(** The text of a value in a name; a float is its numeral. *)
Definition str_of_json (v : json) : pystr :=
  match v with
  | JInt z => str_of_Z z
  | JStr s => s
  | JFloat x => x
  | JBool true => u "True"
  | JBool false => u "False"
  | _ => u "None"
  end.

(** One entry of the players of a prompt; [in] is a search where the entry is a text
    or a list, which has no item at a key. *)
Definition update_player (entry : json) : M t () :=
  match entry with
  | JDict player_info =>
      match jget "id" player_info with
      | None => mret tt
      | Some id =>
          pid ← lift (hash_key id);
          p ← get;
          match dict_get pid (gs_players (state p)) with
          | None =>
              set_state (λ g, g <| gs_players ::= dict_set pid
                (Player (u "Player" ++ str_of_json id)
                   (default (JInt 2000) (jget "chips" player_info))
                   (default (JInt 0) (jget "bet" player_info)) []
                   (default (JStr (u "active")) (jget "status" player_info)) None None) |>)
          | Some q =>
              set_player pid (λ _, q
                <| chips := default (chips q) (jget "chips" player_info) |>
                <| current_bet := default (current_bet q) (jget "bet" player_info) |>
                <| status := default (status q) (jget "status" player_info) |>)
          end
      end
  | JStr s => if contains s (u "id") then raise TypeError else mret tt
  | JList l => if bool_decide (JStr (u "id") ∈ l) then raise TypeError else mret tt
  | _ => raise TypeError
  end.

(** What a prompt tells of the game *)
Definition learn_cards (target : json) (prompt_data : list (pystr * json)) : M t () :=
  (match jget "your_cards" prompt_data with
   | Some (JList l) => if (length l =? 2)%nat then set_player target (λ q, q <| cards := l |>)
                       else mret tt
   | _ => mret tt
   end) ;;
  match jget "community" prompt_data with
  | Some (JList l) => set_state (λ g, g <| gs_community_cards := l |>)
  | _ => mret tt
  end.
Definition learn_players (prompt_data : list (pystr * json)) : M t () :=
  match jget "players" prompt_data with
  | Some (JList l) => for_each l update_player
  | _ => mret tt
  end.
Definition learn_bets (prompt_data : list (pystr * json)) : M t () :=
  (match jget "pot" prompt_data with
   | Some v => set_state (λ g, g <| gs_pot := v |>)
   | None => mret tt
   end) ;;
  match jget "to_call" prompt_data with
  | Some to_call =>
      sum ← lift (json_add (default (JInt 0) (jget "your_bet_this_round" prompt_data)) to_call);
      set_state (λ g, g <| gs_current_bet := sum |>)
  | None => mret tt
  end.

(** [_extract_cards_from_json_message] *)
Definition extraction_error (e : exn) : bool :=
  match e with JSONDecodeError | KeyError | IndexError => true | _ => false end.
Definition extract_cards_from_json_message (full_message player_name : pystr) : M t () :=
  try_except
    (match object_text full_message with
     | None => mret tt
     | Some json_str =>
         prompt_data ← lift (loads json_str ≫= as_dict);
         target ← target_player player_name prompt_data;
         match target with
         | None => mret tt
         | Some target =>
             learn_cards target prompt_data ;;
             learn_players prompt_data ;;
             learn_bets prompt_data
         end
     end)
    extraction_error (mret tt).

(** The summary of a prompt for the list of events *)
Definition summary_keys : list (string * pystr) :=
  [("your_cards", u "カード"); ("phase", u "フェーズ"); ("pot", u "ポット");
   ("to_call", u "コール額"); ("your_chips", u "所持チップ")]%string.
Definition prompt_summary (prompt_data : list (pystr * json)) : list (pystr * json) :=
  omap (λ k, (λ v, (k.2, v)) <$> dict_get (u k.1) prompt_data) summary_keys.
Definition prompt_content (full_message : pystr) : reasoning :=
  match object_text full_message with
  | None => Text (u "プロンプト送信")
  | Some json_str =>
      match loads json_str ≫= as_dict with
      | Raise _ => Text (u "プロンプト解析エラー")
      | Ok prompt_data =>
          match prompt_summary prompt_data with
          | [] => Text (if (100 <? length json_str)%nat then take 100 json_str ++ u "..."
                        else json_str)
          | parts => Summary parts
          end
      end
  end.

(** ** Messages *)

(** [HAND #(\d+)] *)
Definition hand_match : pystr → option Z := search (u "HAND #") (number (λ n _, Some n)).

(** [Phase changed: (\w+) -> (\w+)] *)
Definition phase_match : pystr → option (pystr * pystr) :=
  search (u "Phase changed: ") (word (λ from_phase,
    literal (u " -> ") (word (λ to_phase _, Some (from_phase, to_phase))))).

(** [LLM Prompt for (\w+):] *)
Definition prompt_match : pystr → option pystr :=
  search (u "LLM Prompt for ") (word (λ player, literal (u ":") (λ _, Some player))).

(** [\[(.+?)\] Successfully parsed decision: (.+?), (\d+), (.+)] *)
Definition decision_match : pystr → option (pystr * pystr * Z * pystr) :=
  search (u "[") (some_text (λ player, literal (u "] Successfully parsed decision: ")
    (some_text (λ action, literal (u ", ") (number (λ amount, literal (u ", ")
      (rest_text (λ reasoning, Some (player, action, amount, reasoning))))))
    [])) []).

(** [Pot: (\d+)] and [Current bet: (\d+)] *)
Definition pot_match : pystr → option Z := search (u "Pot: ") (number (λ n _, Some n)).
Definition bet_match : pystr → option Z := search (u "Current bet: ") (number (λ n _, Some n)).

(** ** Actions *)

(** What follows the name in a pattern of an action: the third group, and the fourth
    if there is one *)
Definition one_of (words : list string) (k : pystr → pystr → option (pystr * option Z)) (s : pystr) :
    option (pystr * option Z) :=
  head (omap (λ w, literal (u w) (k (u w)) s) words).
Definition optional_number (action s : pystr) : option (pystr * option Z) :=
  match literal (u " ") (number (λ n _, Some n)) s with
  | Some n => Some (action, Some n)
  | None => Some (action, None)
  end.
Definition last_number (s : pystr) : option (pystr * option Z) :=
  match span_digits s with
  | ([], _) => None
  | (ds, _) => Some (ds, None)
  end.

(** The four patterns, without the player at the head *)
Definition patterns : list (pystr → option (pystr * option Z)) :=
  [ one_of ["folds"; "checks"; "calls"; "raises to"; "goes all-in"]%string optional_number;
    one_of ["folds"; "checks"; "calls"]%string
      (λ action, literal (u " ") (number (λ n _, Some (action, Some n))));
    literal (u "raises to ") last_number;
    literal (u "goes all-in for ") last_number ].

(** [Player (\d+) \((.+?)\) ] and the rest *)
Definition player_match (k : pystr → option (pystr * option Z)) :
    pystr → option (Z * pystr * (pystr * option Z)) :=
  search (u "Player ") (number (λ id, literal (u " (")
    (some_text (λ name s, (λ a, (id, name, a)) <$> literal (u ") ") k s) []))).

(** [_parse_action]: the first pattern that matches *)
Definition parse_action (message : pystr) : option event_data :=
  '(id, name, (action, amount)) ← head (omap (λ k, player_match k message) patterns);
  Some (PLAYER_ACTION id name action (default 0 amount)).

(** [message.split(":")[0].split()[-1]], which is printed: there is a word before the
    first colon. *)
Definition word_before_colon (message : pystr) : result () :=
  if bool_decide (Exists (λ c, is_space c = false) (default [] (head (split (u ":") message))))
  then Ok tt else Raise IndexError.

(** [_parse_message], without the fields that all events have *)
Definition parse_message (message log_level : pystr) (next_lines : list pystr) :
    M t (option event_data) :=
  if contains message (u "=== STARTING NEW HAND #") then
    match hand_match message with
    | Some n => modify (λ p, p <| current_hand := Some n |>) ;; mret (Some (HAND_START n))
    | None => mret None
    end
  else if contains message (u "=== HAND COMPLETE ===") then mret (Some HAND_END)
  else if contains message (u "Phase changed:") then
    mret ((λ x, PHASE_CHANGE x.1 x.2) <$> phase_match message)
  else if contains message (u "ACTION_EXECUTED:") then mret (parse_action message)
  else if contains message (u "SHOWDOWN results:") || contains message (u "Winner:") then
    mret (Some SHOWDOWN)
  else if contains message (u "LLM Prompt for")
          && bool_decide (log_level ∈ [u "DEBUG"; u "INFO"]) then
    lift (word_before_colon message) ;;
    match prompt_match message with
    | Some player_name =>
        let full_message := collect_multi_line_json next_lines message in
        extract_cards_from_json_message full_message player_name ;;
        mret (Some (LLM_DECISION player_name (u "prompt") 0 (prompt_content full_message)
                      (Some full_message)))
    | None => mret None
    end
  else if contains message (u "Successfully parsed decision:") then
    mret ((λ '(player_name, action, amount, why),
             LLM_DECISION player_name action amount (Text why) None)
            <$> decision_match message)
  else if contains message (u "Pot:") && contains message (u "Current bet:") then
    mret (match pot_match message, bet_match message with
          | Some pot, Some bet => Some (GAME_STATE pot bet)
          | _, _ => None
          end)
  else mret None.

(** ** The state of the game *)

(** [P(\d+)\(([^)]+)\):\s*chips=(\d+),\s*bet=(\d+),\s*status=(\w+)] at the head of
    the text, after the [P], and what follows the match *)
Definition info : Type := Z * pystr * Z * Z * pystr.
Definition player_pattern : pystr → option (info * pystr) :=
  number (λ id, literal (u "(") (λ s,
    i ← find_sub (u ")") s;
    if (i =? 0)%nat then None
    else
      literal (u "):") (spaces_then (u "chips=") (number (λ chips,
        literal (u ",") (spaces_then (u "bet=") (number (λ bet,
          literal (u ",") (spaces_then (u "status=") (word (λ status rest,
            Some ((id, take i s, chips, bet, status), rest))))))))))
        (drop i s))).

(** [re.findall]: every match is not empty. *)
Fixpoint find_players (fuel : nat) (line : pystr) : list info :=
  match fuel with
  | O => []
  | S fuel =>
      match search (u "P") player_pattern line with
      | Some (x, rest) => x :: find_players fuel rest
      | None => []
      end
  end.

Definition player_of_info (x : info) (l : list (json * player)) : list (json * player) :=
  let '(id, player_name, c, b, st) := x in
  let pid := JInt id in
  match dict_get pid l with
  | None => dict_set pid (Player player_name (JInt c) (JInt b) [] (JStr st) None None) l
  | Some q => dict_set pid (q <| chips := JInt c |> <| current_bet := JInt b |>
                              <| status := JStr st |> <| name := player_name |>) l
  end.

(** [_extract_player_info_from_message] *)
Definition extract_player_info_from_message (message : pystr) (l : list (json * player)) :
    list (json * player) :=
  foldl (λ l line,
    let line := strip line in
    if bool_decide (line = []) || negb (contains line (u "P")) || negb (contains line (u "chips="))
    then l
    else foldl (λ l x, player_of_info x l) l (find_players (length line) line))
    l (split [10%N] message).

Definition status_after (action : pystr) : json :=
  JStr (if bool_decide (action = u "folds") then u "folded"
        else if bool_decide (action = u "goes all-in") then u "all_in"
        else u "active").

Definition act (id : Z) (player_name action : pystr) (amount : Z) (l : list (json * player)) :
    list (json * player) :=
  let pid := JInt id in
  let q := default (default_player player_name) (dict_get pid l) in
  dict_set pid (q <| last_action := Some action |> <| last_amount := Some amount |>
                  <| status := status_after action |>) l.

(** [_update_game_state] *)
Definition update_game_state (e : event) (g : game_state) : game_state :=
  match ev_data e with
  | HAND_START n =>
      g <| gs_current_hand := Some n |> <| gs_current_phase := u "preflop" |>
        <| gs_community_cards := [] |>
        <| gs_players ::= fmap (λ x, (x.1, x.2 <| cards := [] |>)) |>
        <| gs_last_updated := Some (ev_timestamp e) |>
  | PHASE_CHANGE _ to_phase =>
      g <| gs_current_phase := lower to_phase |> <| gs_last_updated := Some (ev_timestamp e) |>
  | GAME_STATE pot bet =>
      g <| gs_players ::= extract_player_info_from_message (ev_message e) |>
        <| gs_pot := JInt pot |> <| gs_current_bet := Json (JInt bet) |>
        <| gs_last_updated := Some (ev_timestamp e) |>
  | PLAYER_ACTION id player_name action amount =>
      g <| gs_players ::= act id player_name action amount |>
        <| gs_last_updated := Some (ev_timestamp e) |>
  | _ => g
  end.

(** ** The lines of a file *)

(** One turn of the loop over the lines *)
Definition parse_line (l : pystr) (next_lines : list pystr) : M t (list event) :=
  match record_match (strip l) with
  | None => mret []
  | Some (timestamp_str, log_level, message) =>
      timestamp ← lift (strptime timestamp_str);
      data ← parse_message message log_level next_lines;
      match data with
      | None => mret []
      | Some data =>
          p ← get;
          let e := Event timestamp (current_hand p) message data in
          modify (λ p, p <| events ::= λ l, l ++ [e] |> <| state ::= update_game_state e |>) ;;
          mret [e]
      end
  end.

Fixpoint parse_lines (lines : list pystr) : M t (list event) :=
  match lines with
  | [] => mret []
  | l :: lines =>
      es ← parse_line l lines;
      rest ← parse_lines lines;
      mret (es ++ rest)
  end.

(** [f.readlines()] *)
Fixpoint readlines (s : pystr) : list pystr :=
  match s with
  | [] => []
  | c :: r =>
      if bool_decide (c = 10%N) then [c] :: readlines r
      else match readlines r with
           | [] => [[c]]
           | l :: ls => (c :: l) :: ls
           end
  end.

(** [parse_file], of a file with this text *)
Definition parse_file (text : pystr) : M t (list event) :=
  modify (λ p, p <| events := [] |> <| current_hand := None |>) ;;
  _ ← parse_lines (readlines text);
  p ← get;
  mret (events p).

(** [parse_new_lines]; [None] where the file is missing.  Positions count characters. *)
Definition parse_new_lines (file : option pystr) : M t (list event) :=
  match file with
  | None => mret []
  | Some text =>
      p ← get;
      let rest := drop (last_file_position p) text in
      modify (λ p, p <| last_file_position ::= Nat.add (length rest) |>) ;;
      parse_lines (readlines rest)
  end.
End LogParser.
