(* ===== verification/Evaluator.v ===== *)
(** * Hand evaluation

    Models [src/poker/evaluator.py]. *)
From stdpp Require Import strings.
From S2P Require Import Prelude Py GameModels.

Inductive HandRank :=
  | ROYAL_FLUSH | STRAIGHT_FLUSH | FOUR_OF_A_KIND | FULL_HOUSE | FLUSH
  | STRAIGHT | THREE_OF_A_KIND | TWO_PAIR | ONE_PAIR | HIGH_CARD.

#[export] Instance HandRank_eq_dec : EqDecision HandRank.
Proof. solve_decision. Defined.

Definition hand_rank_value (r : HandRank) : Z :=
  match r with
  | ROYAL_FLUSH => 10 | STRAIGHT_FLUSH => 9 | FOUR_OF_A_KIND => 8
  | FULL_HOUSE => 7 | FLUSH => 6 | STRAIGHT => 5 | THREE_OF_A_KIND => 4
  | TWO_PAIR => 3 | ONE_PAIR => 2 | HIGH_CARD => 1
  end.

Module HandResult.
Record t := HandResult {
  rank : HandRank; cards : list card; kickers : list Z; description : pystr }.

#[global] Instance eq_dec : EqDecision t.
Proof. solve_decision. Defined.

(** The loop over [zip(self.kickers, other.kickers)]. *)
Fixpoint kickers_lt (k1 k2 : list Z) : bool :=
  match k1, k2 with
  | a :: k1, b :: k2 => if a =? b then kickers_lt k1 k2 else a <? b
  | _, _ => false
  end.

(** [h < other] *)
Definition ltb (h other : t) : bool :=
  if hand_rank_value (rank h) =? hand_rank_value (rank other)
  then kickers_lt (kickers h) (kickers other)
  else hand_rank_value (rank h) <? hand_rank_value (rank other).

(** [h == other] *)
Definition eqb (h other : t) : bool :=
  bool_decide (rank h = rank other) && bool_decide (kickers h = kickers other).

(** [str(h)] *)
Definition str (h : t) : pystr :=
  description h ++ u " - " ++ join (u ", ") (Card.str <$> cards h).
End HandResult.

Notation hand_result := HandResult.t.

Module HandEvaluator.
Import HandResult.

Definition is_straight (ranks : list Z) : bool :=
  let sorted_ranks := sorted_set_desc ranks in
  match sorted_ranks with
  | [r0; _; _; _; r4] =>
      if r0 - r4 =? 4 then true
      else bool_decide (sorted_ranks = [14; 5; 4; 3; 2])
  | _ => false
  end.

(** [[rank for rank, count in rank_counts.items() if count == n]] *)
Definition ranks_with_count (n : Z) (rank_counts : list (Z * Z)) : list Z :=
  fst <$> filter (λ kv, kv.2 = n) rank_counts.

Definition straight_high (ranks : list Z) : result Z :=
  r0 ← nth_item ranks 0;
  Ok (if bool_decide (ranks = [14; 5; 4; 3; 2]) then 5 else r0).

(** The name of the first sorted card, as the descriptions print it. *)
Definition first_card_str (sorted_cards : list card) : result pystr :=
  Card.str <$> nth_item sorted_cards 0.

Definition evaluate_five_cards (cards : list card) : result hand_result :=
  if negb (length cards =? 5)%nat then Raise ValueError
  else
    let sorted_cards := sort_desc_by Card.rank cards in
    let ranks := Card.rank <$> sorted_cards in
    let suits := Card.suit <$> sorted_cards in
    let rank_counts := counter ranks in
    let count_values := sort_desc (snd <$> rank_counts) in
    let is_flush := (length (remove_dups suits) =? 1)%nat in
    let is_straight := is_straight ranks in
    first ← first_card_str sorted_cards;
    r0 ← nth_item ranks 0;
    if is_flush && is_straight && (r0 =? 14) then
      Ok (HandResult ROYAL_FLUSH sorted_cards [14] (u "Royal Flush"))
    else if is_flush && is_straight then
      high_card ← straight_high ranks;
      Ok (HandResult STRAIGHT_FLUSH sorted_cards [high_card]
            (u "Straight Flush: " ++ first ++ u "-high"))
    else if bool_decide (count_values = [4; 1]) then
      four_rank ← nth_item (ranks_with_count 4 rank_counts) 0;
      kicker ← nth_item (ranks_with_count 1 rank_counts) 0;
      Ok (HandResult FOUR_OF_A_KIND sorted_cards [four_rank; kicker]
            (u "Four of a Kind: " ++ Card.name_of_rank four_rank ++ u "s"))
    else if bool_decide (count_values = [3; 2]) then
      three_rank ← nth_item (ranks_with_count 3 rank_counts) 0;
      pair_rank ← nth_item (ranks_with_count 2 rank_counts) 0;
      Ok (HandResult FULL_HOUSE sorted_cards [three_rank; pair_rank]
            (u "Full House: " ++ Card.name_of_rank three_rank ++ u "s over "
             ++ Card.name_of_rank pair_rank ++ u "s"))
    else if is_flush then
      Ok (HandResult FLUSH sorted_cards ranks (u "Flush: " ++ first ++ u "-high"))
    else if is_straight then
      high_card ← straight_high ranks;
      Ok (HandResult STRAIGHT sorted_cards [high_card]
            (u "Straight: " ++ Card.name_of_rank high_card ++ u "-high"))
    else if bool_decide (count_values = [3; 1; 1]) then
      three_rank ← nth_item (ranks_with_count 3 rank_counts) 0;
      let kickers := sort_desc (ranks_with_count 1 rank_counts) in
      Ok (HandResult THREE_OF_A_KIND sorted_cards (three_rank :: kickers)
            (u "Three of a Kind: " ++ Card.name_of_rank three_rank ++ u "s"))
    else if bool_decide (count_values = [2; 2; 1]) then
      let pairs := sort_desc (ranks_with_count 2 rank_counts) in
      kicker ← nth_item (ranks_with_count 1 rank_counts) 0;
      pair0 ← nth_item pairs 0;
      pair1 ← nth_item pairs 1;
      Ok (HandResult TWO_PAIR sorted_cards (pairs ++ [kicker])
            (u "Two Pair: " ++ Card.name_of_rank pair0 ++ u "s and "
             ++ Card.name_of_rank pair1 ++ u "s"))
    else if bool_decide (count_values = [2; 1; 1; 1]) then
      pair_rank ← nth_item (ranks_with_count 2 rank_counts) 0;
      let kickers := sort_desc (ranks_with_count 1 rank_counts) in
      Ok (HandResult ONE_PAIR sorted_cards (pair_rank :: kickers)
            (u "One Pair: " ++ Card.name_of_rank pair_rank ++ u "s"))
    else
      Ok (HandResult HIGH_CARD sorted_cards ranks (u "High Card: " ++ first)).

(** Whether [hand_result] replaces the best hand so far. *)
Definition replaces (hand_result : t) (best_hand : option t) : bool :=
  match best_hand with
  | None => true
  | Some best =>
      (hand_rank_value (rank best) <? hand_rank_value (rank hand_result))
      || (bool_decide (rank hand_result = rank best) && negb (ltb hand_result best))
  end.

(** The loop over the five-card combinations. *)
Fixpoint best_of (combos : list (list card)) (best_hand : option t) :
    result (option t) :=
  match combos with
  | [] => Ok best_hand
  | five_cards :: rest =>
      hand_result ← evaluate_five_cards five_cards;
      best_of rest (if replaces hand_result best_hand then Some hand_result else best_hand)
  end.

(** [evaluate_hand] returns [None] for no combination, which five or more
    cards exclude. *)
Definition evaluate_hand_opt (hole_cards community_cards : list card) :
    result (option t) :=
  let all_cards := hole_cards ++ community_cards in
  if (length all_cards <? 5)%nat then
    let sorted_cards := sort_desc_by Card.rank all_cards in
    first ← first_card_str sorted_cards;
    Ok (Some (HandResult HIGH_CARD sorted_cards (Card.rank <$> sorted_cards)
                (u "High Card: " ++ first)))
  else best_of (combinations 5 all_cards) None.

Definition evaluate_hand (hole_cards community_cards : list card) : result t :=
  best ← evaluate_hand_opt hole_cards community_cards;
  match best with Some h => Ok h | None => Raise AttributeError end.

(** The loop over [zip(hand1.kickers, hand2.kickers)]. *)
Fixpoint compare_kickers (k1 k2 : list Z) : Z :=
  match k1, k2 with
  | a :: k1, b :: k2 => if b <? a then 1 else if a <? b then -1 else compare_kickers k1 k2
  | _, _ => 0
  end.

Definition compare_hands (hand1 hand2 : t) : Z :=
  if hand_rank_value (rank hand2) <? hand_rank_value (rank hand1) then 1
  else if hand_rank_value (rank hand1) <? hand_rank_value (rank hand2) then -1
  else compare_kickers (kickers hand1) (kickers hand2).

Definition get_hand_strength_description (h : t) : pystr :=
  match rank h with
  | ROYAL_FLUSH => u "ロイヤルフラッシュ"
  | STRAIGHT_FLUSH => u "ストレートフラッシュ"
  | FOUR_OF_A_KIND => u "フォーカード"
  | FULL_HOUSE => u "フルハウス"
  | FLUSH => u "フラッシュ"
  | STRAIGHT => u "ストレート"
  | THREE_OF_A_KIND => u "スリーカード"
  | TWO_PAIR => u "ツーペア"
  | ONE_PAIR => u "ワンペア"
  | HIGH_CARD => u "ハイカード"
  end.
End HandEvaluator.
