(* ===== verification/EvaluatorProps.v ===== *)
(** * Properties of the hand evaluation

    The order on evaluated hands, the category of every five-card hand against
    an independent specification, and the best hand among seven cards. *)
From stdpp Require Import strings.
From Stdlib Require Import Sorted.
From S2P Require Import Prelude Py GameModels Evaluator.
Import HandEvaluator.

(** ** The order on kickers and on hands *)

Section Kickers.
Implicit Types k : list Z.

Lemma compare_kickers_range k1 k2 :
  compare_kickers k1 k2 = -1 ∨ compare_kickers k1 k2 = 0 ∨ compare_kickers k1 k2 = 1.
Proof.
  revert k2. induction k1 as [|a k1 IH]; intros [|b k2]; simpl; auto.
  repeat case_match; auto.
Qed.

Lemma compare_kickers_antisym k1 k2 : compare_kickers k1 k2 = - compare_kickers k2 k1.
Proof.
  revert k2. induction k1 as [|a k1 IH]; intros [|b k2]; simpl; auto.
  destruct (Z.ltb_spec a b), (Z.ltb_spec b a); auto; lia.
Qed.

Lemma compare_kickers_eq k1 k2 :
  length k1 = length k2 → compare_kickers k1 k2 = 0 ↔ k1 = k2.
Proof.
  revert k2. induction k1 as [|a k1 IH]; intros [|b k2] Hl; simplify_eq/=; [done|].
  destruct (Z.ltb_spec b a); [split; [lia | intros [= -> ->]; lia]|].
  destruct (Z.ltb_spec a b); [split; [lia | intros [= -> ->]; lia]|].
  rewrite (IH k2 Hl). assert (a = b) by lia. naive_solver.
Qed.

Lemma compare_kickers_trans k1 k2 k3 :
  length k1 = length k2 → length k2 = length k3 →
  0 ≤ compare_kickers k1 k2 → 0 ≤ compare_kickers k2 k3 → 0 ≤ compare_kickers k1 k3.
Proof.
  revert k2 k3. induction k1 as [|a k1 IH]; intros [|b k2] [|c k3] H1 H2;
    simplify_eq/=; [done|].
  destruct (Z.ltb_spec b a), (Z.ltb_spec a b), (Z.ltb_spec c b), (Z.ltb_spec b c),
    (Z.ltb_spec c a), (Z.ltb_spec a c); try lia. eauto.
Qed.

(** [__lt__] and the list comparison of the showdown are the same order. *)
Lemma kickers_lt_compare k1 k2 :
  HandResult.kickers_lt k1 k2 = (compare_kickers k1 k2 =? -1).
Proof.
  revert k2. induction k1 as [|a k1 IH]; intros [|b k2]; simpl; auto.
  rewrite IH.
  destruct (Z.eqb_spec a b), (Z.ltb_spec a b), (Z.ltb_spec b a); auto; lia.
Qed.
End Kickers.

Section HandOrder.
Implicit Types h : hand_result.

(** How many kickers a hand of five cards has. *)
Definition kicker_count (r : HandRank) : nat :=
  match r with
  | ROYAL_FLUSH | STRAIGHT_FLUSH | STRAIGHT => 1
  | FOUR_OF_A_KIND | FULL_HOUSE => 2
  | THREE_OF_A_KIND | TWO_PAIR => 3
  | ONE_PAIR => 4
  | FLUSH | HIGH_CARD => 5
  end.
Definition well_formed h : Prop :=
  length (HandResult.kickers h) = kicker_count (HandResult.rank h).

Lemma hand_rank_value_inj r1 r2 : hand_rank_value r1 = hand_rank_value r2 → r1 = r2.
Proof. by destruct r1, r2. Qed.

Lemma hand_rank_value_range r : 1 ≤ hand_rank_value r ≤ 10.
Proof. by destruct r. Qed.

Lemma compare_hands_antisym_l h1 h2 : compare_hands h1 h2 = - compare_hands h2 h1.
Proof.
  unfold compare_hands. rewrite (compare_kickers_antisym (HandResult.kickers h2)).
  repeat case_match; zbool; lia.
Qed.

Lemma compare_hands_range h1 h2 :
  compare_hands h1 h2 = -1 ∨ compare_hands h1 h2 = 0 ∨ compare_hands h1 h2 = 1.
Proof.
  unfold compare_hands. repeat case_match; auto using compare_kickers_range.
Qed.

Lemma compare_hands_ge_iff h1 h2 :
  0 ≤ compare_hands h1 h2 ↔
  hand_rank_value (HandResult.rank h2) < hand_rank_value (HandResult.rank h1) ∨
  (HandResult.rank h1 = HandResult.rank h2 ∧
   0 ≤ compare_kickers (HandResult.kickers h1) (HandResult.kickers h2)).
Proof.
  unfold compare_hands.
  destruct (Z.ltb_spec (hand_rank_value (HandResult.rank h2))
              (hand_rank_value (HandResult.rank h1))) as [L|L].
  { split; [by left | lia]. }
  destruct (Z.ltb_spec (hand_rank_value (HandResult.rank h1))
              (hand_rank_value (HandResult.rank h2))) as [L'|L'].
  { split; [lia|]. intros [|[Hr _]]; [lia|]. rewrite Hr in L'. lia. }
  split; [|by intros [|[_ ?]]; [lia|]].
  intros ?. right. split; [apply hand_rank_value_inj; lia | done].
Qed.

Lemma compare_hands_trans_ge h1 h2 h3 :
  well_formed h1 → well_formed h2 → well_formed h3 →
  0 ≤ compare_hands h1 h2 → 0 ≤ compare_hands h2 h3 → 0 ≤ compare_hands h1 h3.
Proof.
  unfold well_formed. intros W1 W2 W3. rewrite !compare_hands_ge_iff.
  intros [?|[R12 K12]] [?|[R23 K23]]; try (rewrite ?R12, <- ?R23; lia);
    try (left; rewrite ?R12, <- ?R23 in *; lia).
  right. split; [congruence|].
  apply (compare_kickers_trans _ (HandResult.kickers h2)); congruence || done.
Qed.

Lemma compare_hands_zero h1 h2 :
  well_formed h1 → well_formed h2 →
  compare_hands h1 h2 = 0 ↔
  HandResult.rank h1 = HandResult.rank h2 ∧ HandResult.kickers h1 = HandResult.kickers h2.
Proof.
  unfold well_formed. intros W1 W2. split.
  - intros H. assert (0 ≤ compare_hands h1 h2) as H12%compare_hands_ge_iff by lia.
    assert (0 ≤ compare_hands h2 h1) as H21%compare_hands_ge_iff
      by (rewrite compare_hands_antisym_l; lia).
    assert (HandResult.rank h1 = HandResult.rank h2) as R.
    { destruct H12 as [|[R _]]; [|done]. destruct H21 as [|[R _]]; [lia | done]. }
    destruct H12 as [L|[_ K]]; [rewrite R in L; lia|].
    destruct H21 as [L|[_ K']]; [rewrite R in L; lia|].
    split; [done|]. apply compare_kickers_eq; [congruence|].
    rewrite compare_kickers_antisym in K'. lia.
  - intros [R K]. unfold compare_hands. rewrite R, K, !Z.ltb_irrefl.
    by apply compare_kickers_eq.
Qed.

(** [h1 < h2] of the class agrees with [compare_hands]. *)
Lemma ltb_compare h1 h2 : HandResult.ltb h1 h2 = (compare_hands h1 h2 =? -1).
Proof.
  unfold HandResult.ltb, compare_hands. rewrite kickers_lt_compare.
  destruct (Z.eqb_spec (hand_rank_value (HandResult.rank h1))
              (hand_rank_value (HandResult.rank h2))) as [->|].
  { by rewrite !Z.ltb_irrefl. }
  destruct (Z.ltb_spec (hand_rank_value (HandResult.rank h1))
              (hand_rank_value (HandResult.rank h2)));
    destruct (Z.ltb_spec (hand_rank_value (HandResult.rank h2))
              (hand_rank_value (HandResult.rank h1))); auto; lia.
Qed.

(** The test of the search for the best hand: it prefers the later of two
    equal hands. *)
Lemma replaces_compare h best :
  replaces h (Some best) = (0 <=? compare_hands h best).
Proof.
  unfold replaces. rewrite ltb_compare. unfold compare_hands.
  destruct (Z.ltb_spec (hand_rank_value (HandResult.rank best))
              (hand_rank_value (HandResult.rank h))); [done|]. simpl.
  case_bool_decide as Hr.
  - rewrite Hr, Z.ltb_irrefl. simpl.
    destruct (compare_kickers_range (HandResult.kickers h) (HandResult.kickers best))
      as [->|[->| ->]]; done.
  - destruct (Z.ltb_spec (hand_rank_value (HandResult.rank h))
              (hand_rank_value (HandResult.rank best))); [done|].
    exfalso. apply Hr, hand_rank_value_inj. lia.
Qed.
End HandOrder.

#[export] Hint Resolve compare_hands_trans_ge : poker.

(** ** The category of five cards

    [Ranking flush ranks r ks]: five cards with these ranks, all of one suit
    when [flush], are a hand of category [r] whose tie-breaking ranks are [ks]. *)

Inductive Ranking (flush : bool) (ranks : list Z) : HandRank → list Z → Prop :=
  | rk_four a k :
      ranks ≡ₚ [a; a; a; a; k] → a ≠ k → Ranking flush ranks FOUR_OF_A_KIND [a; k]
  | rk_full a b :
      ranks ≡ₚ [a; a; a; b; b] → a ≠ b → Ranking flush ranks FULL_HOUSE [a; b]
  | rk_three a b c :
      ranks ≡ₚ [a; a; a; b; c] → c < b → a ≠ b → a ≠ c →
      Ranking flush ranks THREE_OF_A_KIND [a; b; c]
  | rk_two_pair a b k :
      ranks ≡ₚ [a; a; b; b; k] → b < a → k ≠ a → k ≠ b →
      Ranking flush ranks TWO_PAIR [a; b; k]
  | rk_pair a b c d :
      ranks ≡ₚ [a; a; b; c; d] → d < c < b → a ≠ b → a ≠ c → a ≠ d →
      Ranking flush ranks ONE_PAIR [a; b; c; d]
  | rk_straight h :
      flush = false → ranks ≡ₚ [h; h - 1; h - 2; h - 3; h - 4] →
      Ranking flush ranks STRAIGHT [h]
  | rk_wheel :
      flush = false → ranks ≡ₚ [14; 5; 4; 3; 2] → Ranking flush ranks STRAIGHT [5]
  | rk_straight_flush h :
      flush = true → ranks ≡ₚ [h; h - 1; h - 2; h - 3; h - 4] → h ≠ 14 →
      Ranking flush ranks STRAIGHT_FLUSH [h]
  | rk_royal :
      flush = true → ranks ≡ₚ [14; 13; 12; 11; 10] → Ranking flush ranks ROYAL_FLUSH [14]
  | rk_steel_wheel :
      flush = true → ranks ≡ₚ [14; 5; 4; 3; 2] → Ranking flush ranks ROYAL_FLUSH [14]
  | rk_flush a b c d e :
      flush = true → ranks ≡ₚ [a; b; c; d; e] → e < d < c → c < b < a →
      a - e ≠ 4 → [a; b; c; d; e] ≠ [14; 5; 4; 3; 2] →
      Ranking flush ranks FLUSH [a; b; c; d; e]
  | rk_high_card a b c d e :
      flush = false → ranks ≡ₚ [a; b; c; d; e] → e < d < c → c < b < a →
      a - e ≠ 4 → [a; b; c; d; e] ≠ [14; 5; 4; 3; 2] →
      Ranking flush ranks HIGH_CARD [a; b; c; d; e].

(** All the cards have one suit. *)
Definition one_suit (cs : list card) : bool :=
  (length (remove_dups (Card.suit <$> cs)) =? 1)%nat.

(** The category and the tie-breaking ranks, without the cards and the text *)
Definition outcome (h : hand_result) : HandRank * list Z :=
  (HandResult.rank h, HandResult.kickers h).

(** Two five-card hands with the same sorted ranks and the same flush test have
    the same outcome: the cards only enter the description. *)
Lemma evaluate_five_cards_agree cs1 cs2 :
  length cs1 = 5%nat → length cs2 = 5%nat →
  Card.rank <$> sort_desc_by Card.rank cs1 = Card.rank <$> sort_desc_by Card.rank cs2 →
  one_suit (sort_desc_by Card.rank cs1) = one_suit (sort_desc_by Card.rank cs2) →
  outcome <$> evaluate_five_cards cs1 = outcome <$> evaluate_five_cards cs2.
Proof.
  unfold one_suit. intros L1 L2 R S. unfold evaluate_five_cards.
  rewrite L1, L2, R, S. simpl (negb _).
  assert (∀ cs, length cs = 5%nat →
    ∃ t, first_card_str (sort_desc_by Card.rank cs) = Ok t) as F.
  { intros cs L. unfold first_card_str, nth_item.
    destruct (sort_desc_by Card.rank cs) as [|c l] eqn:E; [|eauto].
    pose proof (sort_with_Permutation (λ x y, Card.rank y <=? Card.rank x) cs) as P.
    unfold sort_desc_by in E. rewrite E in P. by rewrite <- P in L. }
  destruct (F _ L1) as [t1 ->], (F _ L2) as [t2 ->].
  cbv [mbind result_bind fmap result_fmap].
  repeat (case_match; simplify_eq; try done).
Qed.

(** [Ranking] as a test, on descending ranks. *)
Definition unpaired_ranks (l : list Z) : bool :=
  match l with
  | [a; b; c; d; e] =>
      (e <? d) && (d <? c) && (c <? b) && (b <? a) && negb (a - e =? 4)
      && negb (bool_decide (l = [14; 5; 4; 3; 2]))
  | _ => false
  end.

Definition is_ranking (flush : bool) (l : list Z) (r : HandRank) (ks : list Z) : bool :=
  match r, ks with
  | FOUR_OF_A_KIND, [a; k] => bool_decide (l = sort_desc [a; a; a; a; k]) && negb (a =? k)
  | FULL_HOUSE, [a; b] => bool_decide (l = sort_desc [a; a; a; b; b]) && negb (a =? b)
  | THREE_OF_A_KIND, [a; b; c] =>
      bool_decide (l = sort_desc [a; a; a; b; c]) && (c <? b) && negb (a =? b) && negb (a =? c)
  | TWO_PAIR, [a; b; k] =>
      bool_decide (l = sort_desc [a; a; b; b; k]) && (b <? a) && negb (k =? a) && negb (k =? b)
  | ONE_PAIR, [a; b; c; d] =>
      bool_decide (l = sort_desc [a; a; b; c; d]) && (d <? c) && (c <? b)
      && negb (a =? b) && negb (a =? c) && negb (a =? d)
  | STRAIGHT, [h] =>
      negb flush && (bool_decide (l = [h; h - 1; h - 2; h - 3; h - 4])
                     || (h =? 5) && bool_decide (l = [14; 5; 4; 3; 2]))
  | STRAIGHT_FLUSH, [h] =>
      flush && bool_decide (l = [h; h - 1; h - 2; h - 3; h - 4]) && negb (h =? 14)
  | ROYAL_FLUSH, [h] =>
      flush && (h =? 14) && (bool_decide (l = [14; 13; 12; 11; 10])
                             || bool_decide (l = [14; 5; 4; 3; 2]))
  | FLUSH, _ => flush && unpaired_ranks ks && bool_decide (l = ks)
  | HIGH_CARD, _ => negb flush && unpaired_ranks ks && bool_decide (l = ks)
  | _, _ => false
  end.

(** Boolean connectives in the hypotheses become the propositional ones. *)
Ltac split_bool :=
  repeat match goal with
  | H : _ && _ = true |- _ => apply andb_true_iff in H as [? ?]
  | H : _ || _ = true |- _ => apply orb_true_iff in H as [?|?]
  | H : negb _ = true |- _ => apply negb_true_iff in H
  | H : negb _ = false |- _ => apply negb_false_iff in H
  | H : bool_decide _ = true |- _ => apply bool_decide_eq_true in H
  | H : bool_decide _ = false |- _ => apply bool_decide_eq_false in H
  end; zbool.

Lemma unpaired_ranks_spec l :
  unpaired_ranks l = true →
  ∃ a b c d e, l = [a; b; c; d; e] ∧ e < d < c ∧ c < b < a ∧ a - e ≠ 4 ∧
               [a; b; c; d; e] ≠ [14; 5; 4; 3; 2].
Proof.
  destruct l as [|a [|b [|c [|d [|e [|f l]]]]]]; try done.
  unfold unpaired_ranks. intros H. split_bool. exists a, b, c, d, e. auto.
Qed.

Lemma is_ranking_sound flush l r ks : is_ranking flush l r ks = true → Ranking flush l r ks.
Proof.
  assert (∀ k, sort_desc k ≡ₚ k) as P by (intros k; apply sort_with_Permutation).
  unfold is_ranking. destruct r; intros H;
    [destruct ks as [|a [|]] | destruct ks as [|a [|]] | destruct ks as [|a [|b [|]]]
    |destruct ks as [|a [|b [|]]] | | destruct ks as [|a [|]]
    |destruct ks as [|a [|b [|c [|]]]] | destruct ks as [|a [|b [|c [|]]]]
    |destruct ks as [|a [|b [|c [|d [|]]]]] | ];
    cbv match in H;
    lazymatch type of H with
    | false = true => discriminate H
    | _ => idtac
    end; split_bool; subst.
  all: try match goal with H : unpaired_ranks _ = true |- _ =>
    apply unpaired_ranks_spec in H as (? & ? & ? & ? & ? & -> & ? & ? & ? & ?) end.
  all: constructor; done || lia.
Qed.

(** The descending rank lists of length [n] with ranks in [2, top]. *)
Fixpoint descending_lists (n : nat) (top : Z) : list (list Z) :=
  match n with
  | O => [[]]
  | S n => r ← range 2 (top + 1); cons r <$> descending_lists n r
  end.

Lemma elem_of_descending_lists top l :
  Descending l → Forall (λ r, 2 ≤ r ≤ top) l → l ∈ descending_lists (length l) top.
Proof.
  intros H. revert top. induction H as [|r l Hl IH Hr]; intros top Hb; simpl.
  { by apply list_elem_of_singleton. }
  inversion_clear Hb as [|? ? Hrb Hlb]. apply list_elem_of_bind. exists r. split.
  - apply list_elem_of_fmap. exists l. split; [done|]. apply IH.
    apply Forall_forall. intros x Hx. rewrite Forall_forall in Hr, Hlb.
    specialize (Hr x Hx). specialize (Hlb x Hx). lia.
  - apply elem_of_range. lia.
Qed.

(** Cards with the given ranks, of one suit or of two. *)
Definition cards_of (flush : bool) (l : list Z) : list card :=
  imap (λ i r, Card.Card r (if flush || (0 <? i)%nat then SPADES else HEARTS)) l.

Definition outcome_ok (flush : bool) (l : list Z) : bool :=
  match evaluate_five_cards (cards_of flush l) with
  | Ok h => is_ranking flush l (HandResult.rank h) (HandResult.kickers h)
  | Raise _ => false
  end.

(** No hand has five cards of one rank, and no flush has a pair. *)
Definition possible (flush : bool) (l : list Z) : bool :=
  negb (bool_decide (l = repeat (default 0 (head l)) 5))
  && (negb flush || bool_decide (NoDup l)).

(** Every possible list of ranks is checked. *)
Lemma outcome_ok_all :
  forallb (λ l, forallb (λ f, negb (possible f l) || outcome_ok f l) [true; false])
    (descending_lists 5 14) = true.
Proof. vm_compute. reflexivity. Qed.

Lemma sort_desc_by_Permutation {A} (key : A → Z) l : sort_desc_by key l ≡ₚ l.
Proof. apply sort_with_Permutation. Qed.

Lemma one_suit_Permutation cs1 cs2 : cs1 ≡ₚ cs2 → one_suit cs1 = one_suit cs2.
Proof.
  intros P. unfold one_suit. f_equal. apply Permutation_length, NoDup_Permutation.
  - apply NoDup_remove_dups.
  - apply NoDup_remove_dups.
  - intros s. by rewrite !elem_of_remove_dups, P.
Qed.

Lemma one_suit_spec cs :
  one_suit cs = true → ∃ s, ∀ c, c ∈ cs → Card.suit c = s.
Proof.
  unfold one_suit. intros H%Nat.eqb_eq.
  destruct (remove_dups (Card.suit <$> cs)) as [|s [|]] eqn:E; try done.
  exists s. intros c Hc. apply list_elem_of_singleton. rewrite <- E.
  apply elem_of_remove_dups, list_elem_of_fmap. eauto.
Qed.

(** Distinct cards of one suit have distinct ranks, and the other way round. *)
Lemma NoDup_ranks cs s :
  NoDup cs → (∀ c, c ∈ cs → Card.suit c = s) → NoDup (Card.rank <$> cs).
Proof.
  intros Hn Hs. apply NoDup_fmap_2_strong; [|done]. intros [r1 s1] [r2 s2] H1 H2 E.
  apply Hs in H1, H2. simpl in *. congruence.
Qed.

Lemma NoDup_suits cs r :
  NoDup cs → (∀ c, c ∈ cs → Card.rank c = r) → NoDup (Card.suit <$> cs).
Proof.
  intros Hn Hs. apply NoDup_fmap_2_strong; [|done]. intros [r1 s1] [r2 s2] H1 H2 E.
  apply Hs in H1, H2. simpl in *. congruence.
Qed.

Lemma distinct_cards_possible cs :
  length cs = 5%nat → NoDup cs →
  possible (one_suit cs) (sort_desc (Card.rank <$> cs)) = true.
Proof.
  intros L N. unfold possible. apply andb_true_iff. split.
  - apply negb_true_iff, bool_decide_eq_false. set (r := default 0 _). intros E.
    assert (Card.rank <$> cs ≡ₚ repeat r 5) as P.
    { rewrite <- E. symmetry. apply sort_with_Permutation. }
    assert (NoDup (Card.suit <$> cs)) as NS.
    { apply (NoDup_suits _ r); [done|]. intros c Hc.
      assert (Card.rank c ∈ [r; r; r; r; r]); [|set_solver].
      change [r; r; r; r; r] with (repeat r 5). rewrite <- P. apply list_elem_of_fmap. eauto. }
    assert (Card.suit <$> cs ⊆+ all_suits) as Hs%submseteq_length.
    { apply NoDup_submseteq; [done|]. intros [] _; vm_compute; set_solver. }
    rewrite length_fmap, L in Hs. simpl in Hs. lia.
  - apply orb_true_iff. destruct (one_suit cs) eqn:S; [right|by left].
    apply bool_decide_eq_true. apply one_suit_spec in S as [s Hs].
    unfold sort_desc. rewrite sort_with_Permutation. by apply (NoDup_ranks _ s).
Qed.

Lemma cards_of_ranks f l : Card.rank <$> cards_of f l = l.
Proof.
  unfold cards_of. rewrite fmap_imap. unfold compose. simpl.
  induction l as [|r l IH] using rev_ind; [done|]. rewrite imap_app, IH. done.
Qed.

Lemma cards_of_one_suit f l : length l = 5%nat → one_suit (cards_of f l) = f.
Proof. destruct l as [|a [|b [|c [|d [|e [|]]]]]]; try done. by destruct f. Qed.

Lemma sort_desc_Forall (P : Z → Prop) l : Forall P l → Forall P (sort_desc l).
Proof. intros H. unfold sort_desc. by rewrite sort_with_Permutation. Qed.

Lemma Ranking_Permutation f l l' r ks : l ≡ₚ l' → Ranking f l r ks → Ranking f l' r ks.
Proof. intros P H. destruct H; econstructor; try done; by rewrite <- P. Qed.

Lemma evaluate_five_cards_outcome cs :
  length cs = 5%nat → NoDup cs → Forall Card.valid cs →
  ∃ h, evaluate_five_cards cs = Ok h ∧
       Ranking (one_suit cs) (Card.rank <$> cs) (HandResult.rank h) (HandResult.kickers h).
Proof.
  intros L N V. set (l := sort_desc (Card.rank <$> cs)). set (f := one_suit cs).
  assert (l ≡ₚ Card.rank <$> cs) as P by apply sort_with_Permutation.
  assert (length l = 5%nat) as Ll by (by rewrite P, length_fmap).
  assert (outcome_ok f l = true) as O.
  { pose proof outcome_ok_all as H. rewrite forallb_forall in H.
    assert (l ∈ descending_lists 5 14) as Hl%list_elem_of_In.
    { rewrite <- Ll. apply elem_of_descending_lists; [apply sort_desc_Sorted|].
      apply sort_desc_Forall, Forall_fmap. exact V. }
    specialize (H l Hl). rewrite forallb_forall in H.
    specialize (H f). unfold l, f in *. rewrite distinct_cards_possible in H by done.
    apply H. by destruct (one_suit cs); [left | right; left]. }
  assert (outcome <$> evaluate_five_cards cs
          = outcome <$> evaluate_five_cards (cards_of f l)) as E.
  { apply evaluate_five_cards_agree; [done | | |].
    - by rewrite <- (length_fmap Card.rank), cards_of_ranks.
    - rewrite !fmap_sort_desc_by, cards_of_ranks. fold l.
      symmetry. apply sort_desc_id, sort_desc_Sorted.
    - rewrite !(one_suit_Permutation _ _ (sort_desc_by_Permutation _ _)).
      by rewrite cards_of_one_suit. }
  unfold outcome_ok in O.
  destruct (evaluate_five_cards (cards_of f l)) as [h'|] eqn:E'; [|done].
  destruct (evaluate_five_cards cs) as [h|]; [|done].
  injection E as Er Ek. exists h. split; [done|]. rewrite Er, Ek.
  eapply Ranking_Permutation; [exact P|]. by apply is_ranking_sound.
Qed.

(** The cards of an evaluated hand are the five cards, highest first. *)
Lemma evaluate_five_cards_cards cs h :
  evaluate_five_cards cs = Ok h → HandResult.cards h = sort_desc_by Card.rank cs.
Proof.
  unfold evaluate_five_cards, first_card_str. intros H.
  unfold mbind, result_bind, fmap, result_fmap in H.
  repeat (case_hyp H; try done); by injection H as <-.
Qed.

Lemma Ranking_well_formed f l h :
  Ranking f l (HandResult.rank h) (HandResult.kickers h) → well_formed h.
Proof. unfold well_formed. by destruct 1. Qed.

(** ** The best hand *)

Lemma compare_hands_refl h : compare_hands h h = 0.
Proof.
  pose proof (compare_hands_antisym_l h h). lia.
Qed.

(** [h] is at least as good as every one of the combinations. *)
Definition dominates (h : hand_result) (combos : list (list card)) : Prop :=
  ∀ c h', c ∈ combos → evaluate_five_cards c = Ok h' → 0 ≤ compare_hands h h'.

Definition evaluable (combos : list (list card)) : Prop :=
  ∀ c, c ∈ combos → ∃ h, evaluate_five_cards c = Ok h ∧ well_formed h.

Lemma best_of_Some combos b :
  evaluable combos → well_formed b →
  ∃ h, best_of combos (Some b) = Ok (Some h) ∧ well_formed h ∧
       (h = b ∨ ∃ c, c ∈ combos ∧ evaluate_five_cards c = Ok h) ∧
       0 ≤ compare_hands h b ∧ dominates h combos.
Proof.
  revert b. induction combos as [|c combos IH]; intros b He Hb; cbn [best_of].
  { exists b. split_and!; auto; [rewrite compare_hands_refl; lia|]. intros c h' []%elem_of_nil. }
  destruct (He c ltac:(by left)) as (hc & Ec & Wc).
  assert (evaluable combos) as He' by (intros d Hd; apply He; by right).
  rewrite Ec. cbn [mbind result_bind]. rewrite replaces_compare.
  destruct (Z.leb_spec 0 (compare_hands hc b)) as [Hge|Hlt].
  - destruct (IH hc He' Wc) as (h & -> & Wh & Hin & Hcmp & Hdom).
    exists h. split_and!; eauto with poker.
    + destruct Hin as [->|(d & Hd & Ed)]; right; [|set_solver].
      exists c. split; [by left | done].
    + intros d h' [->|Hd]%elem_of_cons Ed; [congruence | eauto].
  - destruct (IH b He' Hb) as (h & -> & Wh & Hin & Hcmp & Hdom).
    exists h. split_and!; auto.
    + destruct Hin as [->|(d & Hd & Ed)]; [by left | right; set_solver].
    + intros d h' [->|Hd]%elem_of_cons Ed; [|eauto].
      rewrite Ec in Ed. injection Ed as <-. pose proof (compare_hands_antisym_l b hc).
      apply (compare_hands_trans_ge _ b); auto. lia.
Qed.

Lemma best_of_None combos :
  combos ≠ [] → evaluable combos →
  ∃ h, best_of combos None = Ok (Some h) ∧ well_formed h ∧
       (∃ c, c ∈ combos ∧ evaluate_five_cards c = Ok h) ∧ dominates h combos.
Proof.
  destruct combos as [|c combos]; intros Hne He; [done|]. cbn [best_of].
  destruct (He c ltac:(by left)) as (hc & Ec & Wc).
  assert (evaluable combos) as He' by (intros d Hd; apply He; by right).
  rewrite Ec. cbn [mbind result_bind replaces].
  destruct (best_of_Some combos hc He' Wc) as (h & -> & Wh & Hin & Hcmp & Hdom).
  exists h. split_and!; auto.
  - destruct Hin as [->|(d & Hd & Ed)]; [exists c; set_solver | set_solver].
  - intros d h' [->|Hd]%elem_of_cons Ed; [congruence | eauto].
Qed.

(** What a set of cards is worth: the best of its five-card subsets. *)
Definition best_hand_of (cards : list card) (h : hand_result) : Prop :=
  (∃ c, c ⊆+ cards ∧ length c = 5%nat ∧ evaluate_five_cards c = Ok h) ∧
  (∀ c, c ⊆+ cards → length c = 5%nat →
        ∃ h', evaluate_five_cards c = Ok h' ∧ 0 ≤ compare_hands h h').

Lemma submseteq_NoDup {A} (l k : list A) : l ⊆+ k → NoDup k → NoDup l.
Proof. intros [r ->]%submseteq_Permutation [? _]%NoDup_app. done. Qed.

Section Hands.
Context (cards : list card) (Hn : NoDup cards) (Hv : Forall Card.valid cards).

Lemma subset_evaluates c :
  c ⊆+ cards → length c = 5%nat →
  ∃ h, evaluate_five_cards c = Ok h ∧
       Ranking (one_suit c) (Card.rank <$> c) (HandResult.rank h) (HandResult.kickers h).
Proof.
  intros Hc L. apply evaluate_five_cards_outcome; [done | by eapply submseteq_NoDup |].
  apply Forall_forall. intros x Hx. rewrite Forall_forall in Hv. apply Hv.
  by eapply elem_of_submseteq.
Qed.

Lemma combinations_evaluable : evaluable (combinations 5 cards).
Proof.
  intros c [Hs%sublist_submseteq L]%elem_of_combinations.
  destruct (subset_evaluates c Hs L) as (h & E & R%Ranking_well_formed). eauto.
Qed.

Lemma outcome_Permutation c d h :
  c ≡ₚ d → length c = 5%nat → evaluate_five_cards c = Ok h →
  ∃ h', evaluate_five_cards d = Ok h' ∧ outcome h' = outcome h.
Proof.
  intros P L E.
  assert (outcome <$> evaluate_five_cards c = outcome <$> evaluate_five_cards d) as A.
  { apply evaluate_five_cards_agree; [done | by rewrite <- P | |].
    - rewrite !fmap_sort_desc_by. apply sort_desc_Permutation_eq. by rewrite P.
    - apply one_suit_Permutation. unfold sort_desc_by.
      by rewrite !sort_with_Permutation. }
  rewrite E in A. destruct (evaluate_five_cards d) as [h'|]; [|done].
  injection A as A1 A2. exists h'. unfold outcome. by rewrite A1, A2.
Qed.

Lemma compare_hands_outcome h h1 h2 :
  outcome h1 = outcome h2 → compare_hands h h1 = compare_hands h h2.
Proof. intros [= R K]. unfold compare_hands. by rewrite R, K. Qed.

Lemma best_of_all :
  (5 ≤ length cards)%nat →
  ∃ h, best_of (combinations 5 cards) None = Ok (Some h) ∧ well_formed h ∧
       best_hand_of cards h.
Proof.
  intros L. destruct (best_of_None (combinations 5 cards)) as (h & E & W & Hin & Hdom).
  - by apply combinations_nonempty.
  - apply combinations_evaluable.
  - exists h. split_and!; [done..|split].
    + destruct Hin as (c & [Hs%sublist_submseteq Lc]%elem_of_combinations & Ec). eauto.
    + intros c Hc Lc. destruct (subset_evaluates c Hc Lc) as (h' & Eh & _).
      exists h'. split; [done|].
      apply submseteq_sublist_r in Hc as (d & P & Hs).
      destruct (outcome_Permutation c d h') as (h'' & Ed & O); [done..|].
      rewrite <- (compare_hands_outcome h _ _ O).
      apply (Hdom d); [|done]. apply elem_of_combinations.
      split; [done | by rewrite <- (Permutation_length P)].
Qed.
End Hands.

Lemma evaluate_hand_best_of hole community :
  (5 ≤ length (hole ++ community))%nat →
  evaluate_hand hole community =
    (best ← best_of (combinations 5 (hole ++ community)) None;
     match best with Some h => Ok h | None => Raise AttributeError end).
Proof.
  intros L. unfold evaluate_hand, evaluate_hand_opt.
  destruct (Nat.ltb_spec (length (hole ++ community)) 5); [lia | done].
Qed.

Lemma evaluate_hand_total hole community :
  NoDup (hole ++ community) → Forall Card.valid (hole ++ community) →
  (5 ≤ length (hole ++ community))%nat →
  ∃ h, evaluate_hand hole community = Ok h ∧ well_formed h ∧
       best_hand_of (hole ++ community) h.
Proof.
  intros N V L. destruct (best_of_all _ N V L) as (h & E & W & B).
  exists h. by rewrite evaluate_hand_best_of, E.
Qed.

(** Two best hands, of cards of which the first include the second *)
Lemma best_hand_of_mono cards1 cards2 h1 h2 :
  cards1 ⊆+ cards2 → best_hand_of cards1 h1 → best_hand_of cards2 h2 →
  0 ≤ compare_hands h2 h1.
Proof.
  intros Hsub [(c & Hc & Lc & Ec) _] [_ Hdom].
  destruct (Hdom c) as (h' & E' & Hge); [by etrans | done|]. congruence.
Qed.

(** ** The properties *)

(** C19: five distinct cards are always evaluated, without an exception, and the
    result is the one the rules of the game give: the category and the
    tie-breaking ranks are those of [Ranking], the specification by the shape
    of the multiset of ranks, and the cards are the five cards, highest first.
    The specification records the one place where the code leaves the rules:
    the suited A-2-3-4-5 is called a royal flush. *)
Theorem evaluate_five_cards_correct cs :
  length cs = 5%nat → NoDup cs → Forall Card.valid cs →
  ∃ h, evaluate_five_cards cs = Ok h ∧
       HandResult.cards h = sort_desc_by Card.rank cs ∧
       Ranking (one_suit cs) (Card.rank <$> cs) (HandResult.rank h) (HandResult.kickers h).
Proof.
  intros L N V. destruct (evaluate_five_cards_outcome cs L N V) as (h & E & R).
  exists h. eauto using evaluate_five_cards_cards.
Qed.

(** Four aces and a king *)
Definition quads : list card :=
  [Card.Card 14 HEARTS; Card.Card 14 DIAMONDS; Card.Card 13 SPADES; Card.Card 14 CLUBS;
   Card.Card 14 SPADES].

Lemma evaluate_five_cards_correct_witness :
  ∃ h, evaluate_five_cards quads = Ok h ∧
       HandResult.cards h = sort_desc_by Card.rank quads ∧
       Ranking (one_suit quads) (Card.rank <$> quads) (HandResult.rank h) (HandResult.kickers h).
Proof.
  apply evaluate_five_cards_correct; [done | |]; by apply (bool_decide_unpack _).
Defined.

(** C18: with five or more distinct cards [evaluate_hand] returns a hand, and it
    is the best one: it is the evaluation of five of the cards, and no five of
    the cards evaluate to a hand that beats it. *)
Theorem evaluate_hand_correct hole community :
  NoDup (hole ++ community) → Forall Card.valid (hole ++ community) →
  (5 ≤ length (hole ++ community))%nat →
  ∃ h, evaluate_hand hole community = Ok h ∧
    (∃ c, c ⊆+ hole ++ community ∧ length c = 5%nat ∧ evaluate_five_cards c = Ok h) ∧
    (∀ c, c ⊆+ hole ++ community → length c = 5%nat →
          ∃ h', evaluate_five_cards c = Ok h' ∧ 0 ≤ compare_hands h h').
Proof.
  intros N V L. destruct (evaluate_hand_total _ _ N V L) as (h & E & _ & B1 & B2). eauto.
Qed.

Definition board : list card :=
  [Card.Card 13 SPADES; Card.Card 14 CLUBS; Card.Card 14 SPADES; Card.Card 2 CLUBS;
   Card.Card 3 CLUBS].
Definition aces : list card := [Card.Card 14 HEARTS; Card.Card 14 DIAMONDS].

Lemma evaluate_hand_correct_witness :
  ∃ h, evaluate_hand aces board = Ok h ∧
    (∃ c, c ⊆+ aces ++ board ∧ length c = 5%nat ∧ evaluate_five_cards c = Ok h) ∧
    (∀ c, c ⊆+ aces ++ board → length c = 5%nat →
          ∃ h', evaluate_five_cards c = Ok h' ∧ 0 ≤ compare_hands h h').
Proof.
  apply evaluate_hand_correct; [by apply (bool_decide_unpack _)..|]. simpl. lia.
Defined.

(** Which cards are in the hole and the order of the cards do not matter to
    the category and the tie-breaking ranks. *)
Theorem evaluate_hand_order_irrelevant hole1 community1 hole2 community2 h1 h2 :
  hole1 ++ community1 ≡ₚ hole2 ++ community2 →
  NoDup (hole1 ++ community1) → Forall Card.valid (hole1 ++ community1) →
  (5 ≤ length (hole1 ++ community1))%nat →
  evaluate_hand hole1 community1 = Ok h1 → evaluate_hand hole2 community2 = Ok h2 →
  HandResult.rank h1 = HandResult.rank h2 ∧ HandResult.kickers h1 = HandResult.kickers h2.
Proof.
  intros P N V L E1 E2. destruct (evaluate_hand_total _ _ N V L) as (? & F1 & W1 & B1).
  rewrite P in N, V, L. destruct (evaluate_hand_total _ _ N V L) as (? & F2 & W2 & B2).
  rewrite E1 in F1. injection F1 as <-. rewrite E2 in F2. injection F2 as <-.
  apply compare_hands_zero; [done..|].
  pose proof (Permutation_submseteq _ _ P). symmetry in P.
  pose proof (Permutation_submseteq _ _ P).
  assert (0 ≤ compare_hands h1 h2) by (by eapply best_hand_of_mono; [|apply B2|apply B1]).
  assert (0 ≤ compare_hands h2 h1) by (by eapply best_hand_of_mono; [|apply B1|apply B2]).
  pose proof (compare_hands_antisym_l h1 h2). lia.
Qed.

Definition aces_hand : hand_result :=
  match evaluate_hand aces board with
  | Ok h => h
  | Raise _ => HandResult.HandResult HIGH_CARD [] [] []
  end.
Definition board_hand : hand_result :=
  match evaluate_hand board aces with
  | Ok h => h
  | Raise _ => HandResult.HandResult HIGH_CARD [] [] []
  end.

Lemma evaluate_hand_order_irrelevant_witness :
  HandResult.rank aces_hand = HandResult.rank board_hand ∧
  HandResult.kickers aces_hand = HandResult.kickers board_hand.
Proof.
  apply (evaluate_hand_order_irrelevant aces board board aces).
  - apply Permutation_app_comm.
  - by apply (bool_decide_unpack _).
  - by apply (bool_decide_unpack _).
  - simpl. lia.
  - vm_compute. reflexivity.
  - vm_compute. reflexivity.
Defined.

(** Another community card never makes a hand worse. *)
Theorem evaluate_hand_monotone hole community more h1 h2 :
  NoDup (hole ++ community ++ more) → Forall Card.valid (hole ++ community ++ more) →
  (5 ≤ length (hole ++ community))%nat →
  evaluate_hand hole community = Ok h1 → evaluate_hand hole (community ++ more) = Ok h2 →
  0 ≤ compare_hands h2 h1.
Proof.
  intros N V L E1 E2.
  assert (hole ++ community ⊆+ hole ++ community ++ more) as S.
  { rewrite (assoc_L (++)). by apply submseteq_inserts_r. }
  destruct (evaluate_hand_total hole (community ++ more)) as (? & F2 & _ & B2); [done..| |].
  { apply submseteq_length in S. lia. }
  destruct (evaluate_hand_total hole community) as (? & F1 & _ & B1); [| |done|].
  - by eapply submseteq_NoDup.
  - apply Forall_forall. intros c Hc. rewrite Forall_forall in V. apply V.
    by eapply elem_of_submseteq.
  - rewrite E1 in F1. injection F1 as <-. rewrite E2 in F2. injection F2 as <-.
    by eapply best_hand_of_mono.
Qed.

Definition flop_hand : hand_result :=
  match evaluate_hand aces (take 3 board) with
  | Ok h => h
  | Raise _ => HandResult.HandResult HIGH_CARD [] [] []
  end.

Lemma evaluate_hand_monotone_witness : 0 ≤ compare_hands aces_hand flop_hand.
Proof.
  apply (evaluate_hand_monotone aces (take 3 board) (drop 3 board)).
  - by apply (bool_decide_unpack _).
  - by apply (bool_decide_unpack _).
  - simpl. lia.
  - vm_compute. reflexivity.
  - vm_compute. reflexivity.
Defined.

(** C28: on evaluated hands [compare_hands] is a total preorder whose equivalence
    is having the same category and tie-breaking ranks, and the class's [<] is
    the same order. *)
Theorem compare_hands_order h1 h2 h3 :
  well_formed h1 → well_formed h2 → well_formed h3 →
  compare_hands h1 h2 = - compare_hands h2 h1 ∧
  (compare_hands h1 h2 = 0 ↔
   HandResult.rank h1 = HandResult.rank h2 ∧ HandResult.kickers h1 = HandResult.kickers h2) ∧
  (0 ≤ compare_hands h1 h2 → 0 ≤ compare_hands h2 h3 → 0 ≤ compare_hands h1 h3) ∧
  HandResult.ltb h1 h2 = (compare_hands h1 h2 =? -1).
Proof.
  intros W1 W2 W3. split_and!.
  - apply compare_hands_antisym_l.
  - by apply compare_hands_zero.
  - eauto with poker.
  - apply ltb_compare.
Qed.

Lemma compare_hands_order_witness :
  compare_hands aces_hand flop_hand = - compare_hands flop_hand aces_hand ∧
  (compare_hands aces_hand flop_hand = 0 ↔
   HandResult.rank aces_hand = HandResult.rank flop_hand ∧
   HandResult.kickers aces_hand = HandResult.kickers flop_hand) ∧
  (0 ≤ compare_hands aces_hand flop_hand → 0 ≤ compare_hands flop_hand board_hand →
   0 ≤ compare_hands aces_hand board_hand) ∧
  HandResult.ltb aces_hand flop_hand = (compare_hands aces_hand flop_hand =? -1).
Proof. apply compare_hands_order; vm_compute; reflexivity. Defined.

Definition cards_of_suit (s : Suit) (l : list Z) : list card := (λ r, Card.Card r s) <$> l.

(** The suited A-2-3-4-5 is called a royal flush and beats every straight
    flush, the king-high one included; by the rules it is the lowest straight
    flush. *)
Theorem steel_wheel_is_royal s s' :
  ∃ wheel king_high,
    evaluate_five_cards (cards_of_suit s [14; 2; 3; 4; 5]) = Ok wheel ∧
    evaluate_five_cards (cards_of_suit s' [13; 12; 11; 10; 9]) = Ok king_high ∧
    HandResult.rank wheel = ROYAL_FLUSH ∧ HandResult.rank king_high = STRAIGHT_FLUSH ∧
    compare_hands wheel king_high = 1.
Proof. destruct s, s'; eexists _, _; split_and!; vm_compute; reflexivity. Qed.
