(* ===== verification/ToolEvaluator.v ===== *)
(** * The hand evaluation tool of the tutorial agent

    Models [src/tutorial_agents/agent_with_tool/hand_evaluator_tool.py].  The
    module repeats the classes [Card], [HandRank] and [HandResult] of the engine
    with the same fields; the model uses the engine's.  The evaluation is
    written out again, as the module does, and compared with the engine's. *)
From stdpp Require Import strings.
From Stdlib Require Import Sorted.
From S2P Require Import Prelude Py GameModels Evaluator EvaluatorProps.

Module SimpleHandEvaluator.
Import HandEvaluator.

Definition is_straight (ranks : list Z) : bool :=
  let unique := sorted_set_desc ranks in
  match unique with
  | [u0; _; _; _; u4] =>
      if u0 - u4 =? 4 then true else bool_decide (unique = [14; 5; 4; 3; 2])
  | _ => false
  end.

(** [set(ranks) == {10, 11, 12, 13, 14}] *)
Definition is_broadway (ranks : list Z) : bool :=
  bool_decide (sorted_set_desc ranks = [14; 13; 12; 11; 10]).

Definition eval_five (cards : list card) : result hand_result :=
  if negb (length cards =? 5)%nat then Raise ValueError
  else
    let sorted_cards := sort_desc_by Card.rank cards in
    let ranks := Card.rank <$> sorted_cards in
    let suits := Card.suit <$> sorted_cards in
    let rank_counts := counter ranks in
    let counts := sort_desc (snd <$> rank_counts) in
    let is_flush := (length (remove_dups suits) =? 1)%nat in
    let is_straight := is_straight ranks in
    first ← first_card_str sorted_cards;
    r0 ← nth_item ranks 0;
    if is_flush && is_straight && (r0 =? 14) && is_broadway ranks then
      Ok (HandResult.HandResult ROYAL_FLUSH sorted_cards [14] (u "Royal Flush"))
    else if is_flush && is_straight then
      high ← straight_high ranks;
      Ok (HandResult.HandResult STRAIGHT_FLUSH sorted_cards [high]
            (u "Straight Flush: " ++ first ++ u "-high"))
    else if bool_decide (counts = [4; 1]) then
      four_rank ← nth_item (ranks_with_count 4 rank_counts) 0;
      kicker ← nth_item (ranks_with_count 1 rank_counts) 0;
      Ok (HandResult.HandResult FOUR_OF_A_KIND sorted_cards [four_rank; kicker]
            (u "Four of a Kind: " ++ Card.name_of_rank four_rank ++ u "s"))
    else if bool_decide (counts = [3; 2]) then
      three ← nth_item (ranks_with_count 3 rank_counts) 0;
      pair ← nth_item (ranks_with_count 2 rank_counts) 0;
      Ok (HandResult.HandResult FULL_HOUSE sorted_cards [three; pair]
            (u "Full House: " ++ Card.name_of_rank three ++ u "s over "
             ++ Card.name_of_rank pair ++ u "s"))
    else if is_flush then
      Ok (HandResult.HandResult FLUSH sorted_cards ranks (u "Flush: " ++ first ++ u "-high"))
    else if is_straight then
      high ← straight_high ranks;
      Ok (HandResult.HandResult STRAIGHT sorted_cards [high]
            (u "Straight: " ++ Card.name_of_rank high ++ u "-high"))
    else if bool_decide (counts = [3; 1; 1]) then
      three ← nth_item (ranks_with_count 3 rank_counts) 0;
      let kickers := sort_desc (ranks_with_count 1 rank_counts) in
      Ok (HandResult.HandResult THREE_OF_A_KIND sorted_cards (three :: kickers)
            (u "Three of a Kind: " ++ Card.name_of_rank three ++ u "s"))
    else if bool_decide (counts = [2; 2; 1]) then
      let pairs := sort_desc (ranks_with_count 2 rank_counts) in
      kicker ← nth_item (ranks_with_count 1 rank_counts) 0;
      pair0 ← nth_item pairs 0;
      pair1 ← nth_item pairs 1;
      Ok (HandResult.HandResult TWO_PAIR sorted_cards (pairs ++ [kicker])
            (u "Two Pair: " ++ Card.name_of_rank pair0 ++ u "s and "
             ++ Card.name_of_rank pair1 ++ u "s"))
    else if bool_decide (counts = [2; 1; 1; 1]) then
      pair ← nth_item (ranks_with_count 2 rank_counts) 0;
      let kickers := sort_desc (ranks_with_count 1 rank_counts) in
      Ok (HandResult.HandResult ONE_PAIR sorted_cards (pair :: kickers)
            (u "One Pair: " ++ Card.name_of_rank pair ++ u "s"))
    else
      Ok (HandResult.HandResult HIGH_CARD sorted_cards ranks (u "High Card: " ++ first)).

Fixpoint best_of (combos : list (list card)) (best : option hand_result) :
    result (option hand_result) :=
  match combos with
  | [] => Ok best
  | five :: rest =>
      hr ← eval_five five;
      best_of rest (if replaces hr best then Some hr else best)
  end.

(** [None], which [evaluate_hand] returns for no combination, has no rank for
    the tool to read. *)
Definition evaluate_hand (hole_cards community_cards : list card) : result hand_result :=
  let all_cards := hole_cards ++ community_cards in
  if (length all_cards <? 5)%nat then
    let sorted_cards := sort_desc_by Card.rank all_cards in
    first ← first_card_str sorted_cards;
    Ok (HandResult.HandResult HIGH_CARD sorted_cards (Card.rank <$> sorted_cards)
          (u "High Card: " ++ first))
  else
    best ← best_of (combinations 5 all_cards) None;
    match best with Some h => Ok h | None => Raise AttributeError end.
End SimpleHandEvaluator.

Module Tool.
(** ** Reading cards *)

Definition suit_symbol_map : list (pystr * Suit) :=
  [(u "♠", SPADES); (u "♤", SPADES); (u "♥", HEARTS); (u "♡", HEARTS);
   (u "♦", DIAMONDS); (u "♢", DIAMONDS); (u "♣", CLUBS); (u "♧", CLUBS)].

Definition suit_ascii_map : list (pystr * Suit) :=
  [(u "s", SPADES); (u "h", HEARTS); (u "d", DIAMONDS); (u "c", CLUBS)].

Definition rank_map : list (pystr * Z) :=
  [(u "2", 2); (u "3", 3); (u "4", 4); (u "5", 5); (u "6", 6); (u "7", 7); (u "8", 8);
   (u "9", 9); (u "10", 10); (u "T", 10); (u "J", 11); (u "Q", 12); (u "K", 13); (u "A", 14)].

(** The loop over the symbols: the first one in the text *)
Fixpoint find_symbol (symbols : list (pystr * Suit)) (text : pystr) : option (Suit * pystr) :=
  match symbols with
  | [] => None
  | (sym, suit) :: rest =>
      if contains text sym then Some (suit, replace sym [] text) else find_symbol rest text
  end.

(** [rank_str.lstrip("0") or "0"] *)
Fixpoint lstrip_zeros (s : pystr) : pystr :=
  match s with
  | 48%N :: r => lstrip_zeros r
  | _ => s
  end.
Definition normalize_rank (rank_str : pystr) : pystr :=
  if startswith rank_str (u "0") then
    match lstrip_zeros rank_str with [] => u "0" | s => s end
  else rank_str.

Definition parse_card (card_text : pystr) : result card :=
  let text := replace (u " ") [] (strip card_text) in
  '(suit, rank_str) ← match find_symbol suit_symbol_map text with
                      | Some sr => Ok sr
                      | None =>
                          match last text with
                          | None => Raise ValueError
                          | Some c => match dict_get (lower [c]) suit_ascii_map with
                                      | None => Raise ValueError
                                      | Some suit => Ok (suit, but_last text)
                                      end
                          end
                      end;
  match rank_str with
  | [] => Raise ValueError
  | _ => match dict_get (normalize_rank (upper rank_str)) rank_map with
         | None => Raise ValueError
         | Some rank_val => Card.new rank_val suit
         end
  end.

Fixpoint parse_all (cards : list pystr) : result (list card) :=
  match cards with
  | [] => Ok []
  | raw :: rest => c ← parse_card raw; cs ← parse_all rest; Ok (c :: cs)
  end.

(** [None] and the empty list both give no cards. *)
Definition parse_cards (cards : option (list pystr)) : result (list card) :=
  match cards with
  | None | Some [] => Ok []
  | Some l =>
      parsed ← parse_all l;
      if (length (remove_dups parsed) =? length parsed)%nat then Ok parsed else Raise ValueError
  end.

(** ** The tool *)

(** [round((clamp(rank_value) - 1) / 9.0, 4)] in ten-thousandths: the quotient
    is never half-way between two of them. *)
Definition score_from_rank_value (rank_value : Z) : Z :=
  let rank_value := Z.max 1 (Z.min rank_value 10) in
  (20000 * (rank_value - 1) + 9) / 18.

Record answer := Answer {
  an_rank : HandRank; an_rank_value : Z; an_strength_score : Z; an_description : pystr;
  an_best_five_cards : list pystr; an_kickers : list Z;
  an_your_cards : list pystr; an_community_cards : list pystr }.

Definition hand_evaluator_tool (your_cards : list pystr)
    (community_cards : option (list pystr)) : result answer :=
  hole ← parse_cards (Some your_cards);
  board ← parse_cards community_cards;
  if negb (length hole =? 2)%nat then Raise ValueError
  else
    h ← SimpleHandEvaluator.evaluate_hand hole board;
    Ok (Answer (HandResult.rank h) (hand_rank_value (HandResult.rank h))
          (score_from_rank_value (hand_rank_value (HandResult.rank h)))
          (HandEvaluator.get_hand_strength_description h)
          (Card.str <$> HandResult.cards h) (HandResult.kickers h)
          (Card.str <$> hole) (Card.str <$> board)).
End Tool.
