(* ===== verification/ToolProps.v ===== *)
(** * Properties of the hand evaluation tool

    The tool reads every way of writing a card it documents, and evaluates hands
    as the engine does, but for the suited A-2-3-4-5. *)
From stdpp Require Import strings.
From Stdlib Require Import Sorted.
From S2P Require Import Prelude Py GameModels Evaluator EvaluatorProps ToolEvaluator.
Import HandEvaluator.

(** Five cards of one suit with the ranks of the wheel *)
Definition steel_wheel (cards : list card) : bool :=
  one_suit cards && bool_decide (sort_desc (Card.rank <$> cards) = [14; 5; 4; 3; 2]).

(** ** Straights from the ace *)

Lemma sorted_set_desc_NoDup l : NoDup (sorted_set_desc l).
Proof.
  unfold sorted_set_desc, sort_desc. rewrite sort_with_Permutation. apply NoDup_remove_dups.
Qed.

Lemma elem_of_sorted_set_desc l x : x ∈ sorted_set_desc l ↔ x ∈ l.
Proof.
  unfold sorted_set_desc, sort_desc. rewrite sort_with_Permutation. apply elem_of_remove_dups.
Qed.

(** A straight with an ace is the wheel or has the five highest ranks. *)
Lemma ace_straight ranks :
  Descending ranks → length ranks = 5%nat → head ranks = Some 14 →
  is_straight ranks = true → ranks ≠ [14; 5; 4; 3; 2] →
  SimpleHandEvaluator.is_broadway ranks = true.
Proof.
  intros Hd L Hh Hs Hw. unfold SimpleHandEvaluator.is_broadway, is_straight in *.
  pose proof (sorted_set_desc_NoDup ranks) as Hn.
  pose proof (sort_desc_Sorted (remove_dups ranks)) as Hsort. fold (sorted_set_desc ranks) in Hsort.
  assert (∀ x, x ∈ ranks → x <= 14) as Hmax.
  { destruct ranks as [|r l]; [done|]. injection Hh as ->. inversion_clear Hd as [|? ? _ HF].
    rewrite Forall_forall in HF. intros x [->|Hx]%elem_of_cons; [lia|]. by apply HF. }
  assert (14 ∈ sorted_set_desc ranks) as H14.
  { apply elem_of_sorted_set_desc. destruct ranks; [done|]. injection Hh as ->. by left. }
  assert (∀ x, x ∈ sorted_set_desc ranks → x <= 14) as Hmax'.
  { intros x Hx. apply Hmax. by apply elem_of_sorted_set_desc. }
  destruct (sorted_set_desc ranks) as [|a [|b [|c [|d [|e [|]]]]]] eqn:E; try done.
  assert (a = 14) as ->.
  { assert (a <= 14) by (apply Hmax'; by left). inversion_clear Hsort as [|? ? _ HF].
    rewrite Forall_forall in HF. apply elem_of_cons in H14 as [|H14]; [lia|].
    specialize (HF 14 H14). cbn in HF. lia. }
  assert (14 > b ∧ b > c ∧ c > d ∧ d > e) as (? & ? & ? & ?).
  { clear - Hsort Hn. repeat match goal with
    | H : StronglySorted _ (_ :: _) |- _ => inversion_clear H
    | H : Forall _ (_ :: _) |- _ => inversion_clear H
    | H : NoDup (_ :: _) |- _ => apply NoDup_cons in H as [? ?]
    end. set_unfold. repeat split; apply Z.lt_gt, Z.le_neq; split; try done; intros ->; tauto. }
  destruct (Z.eqb_spec (14 - e) 4) as [H4|H4].
  - apply bool_decide_eq_true. repeat f_equal; lia.
  - apply bool_decide_eq_true in Hs. exfalso. apply Hw.
    apply Descending_Permutation_eq; [done|rewrite Hs in Hsort; exact Hsort|].
    symmetry. apply submseteq_length_Permutation; [|rewrite L; simpl; lia].
    apply NoDup_submseteq; [by rewrite <- Hs|]. intros x Hx. rewrite <- Hs, <- E in Hx.
    by apply elem_of_sorted_set_desc.
Qed.

(** ** Five cards *)

Lemma sorted_ranks cards :
  Card.rank <$> sort_desc_by Card.rank cards = sort_desc (Card.rank <$> cards).
Proof. apply fmap_sort_desc_by. Qed.

(** The two flush tests agree: the order of the cards does not matter. *)
Lemma flush_sorted cards :
  (length (remove_dups (Card.suit <$> sort_desc_by Card.rank cards)) =? 1)%nat = one_suit cards.
Proof. apply (one_suit_Permutation _ _ (sort_desc_by_Permutation _ _)). Qed.

Lemma broadway_if cards r0 :
  length cards = 5%nat → steel_wheel cards = false →
  nth_item (sort_desc (Card.rank <$> cards)) 0 = Ok r0 →
  one_suit cards && is_straight (sort_desc (Card.rank <$> cards)) && (r0 =? 14)
    && SimpleHandEvaluator.is_broadway (sort_desc (Card.rank <$> cards))
  = one_suit cards && is_straight (sort_desc (Card.rank <$> cards)) && (r0 =? 14).
Proof.
  intros L Hw H0. destruct (one_suit cards && _ && _) eqn:E; [|done]. simpl.
  apply andb_true_iff in E as [[E1 E2]%andb_true_iff E3%Z.eqb_eq]. subst r0.
  apply ace_straight; [apply sort_desc_Sorted| | |done|].
  - unfold sort_desc. by rewrite sort_with_Permutation, length_fmap.
  - unfold nth_item in H0. destruct (sort_desc _) as [|r l]; [done|]. cbn in H0 |- *. congruence.
  - intros E. unfold steel_wheel in Hw. rewrite E1, E in Hw. done.
Qed.

Lemma eval_five_eq cards :
  steel_wheel cards = false → SimpleHandEvaluator.eval_five cards = evaluate_five_cards cards.
Proof.
  intros Hw. unfold SimpleHandEvaluator.eval_five, evaluate_five_cards.
  destruct (Nat.eqb_spec (length cards) 5) as [L|]; [|done]. simpl (negb _).
  change SimpleHandEvaluator.is_straight with is_straight.
  rewrite flush_sorted, sorted_ranks.
  destruct (first_card_str _) as [first|e]; [|done]. cbn [mbind result_bind].
  destruct (nth_item (sort_desc (Card.rank <$> cards)) 0) as [r0|e] eqn:H0; [|done]. cbn [mbind result_bind].
  by rewrite (broadway_if cards r0).
Qed.

Lemma eval_five_steel_wheel cards :
  length cards = 5%nat → steel_wheel cards = true →
  ∃ h, SimpleHandEvaluator.eval_five cards = Ok h ∧ outcome h = (STRAIGHT_FLUSH, [5]).
Proof.
  intros L [H1 H2%bool_decide_eq_true]%andb_true_iff. unfold SimpleHandEvaluator.eval_five.
  rewrite L. simpl (negb _). rewrite flush_sorted, sorted_ranks, H1, H2.
  unfold first_card_str. destruct (sort_desc_by Card.rank cards) as [|c l] eqn:E.
  - apply (f_equal length) in E. unfold sort_desc_by in E.
    rewrite sort_with_Permutation, L in E. done.
  - cbn [nth_item lookup list_lookup fmap result_fmap mbind result_bind].
    eexists. split; reflexivity.
Qed.

Lemma best_of_eq combos best :
  (∀ c, c ∈ combos → steel_wheel c = false) →
  SimpleHandEvaluator.best_of combos best = HandEvaluator.best_of combos best.
Proof.
  revert best. induction combos as [|c combos IH]; intros best H; [done|].
  cbn [SimpleHandEvaluator.best_of HandEvaluator.best_of].
  rewrite eval_five_eq by (apply H; by left).
  destruct (evaluate_five_cards c) as [h|]; [|done]. cbn [mbind result_bind].
  apply IH. intros d Hd. apply H. by right.
Qed.

Lemma tool_evaluate_hand_eq hole board :
  (∀ c, c ∈ combinations 5 (hole ++ board) → steel_wheel c = false) →
  SimpleHandEvaluator.evaluate_hand hole board = HandEvaluator.evaluate_hand hole board.
Proof.
  intros H. unfold SimpleHandEvaluator.evaluate_hand, HandEvaluator.evaluate_hand,
    evaluate_hand_opt.
  destruct (_ <? _)%nat.
  - by destruct (first_card_str _).
  - rewrite best_of_eq by done. by destruct (HandEvaluator.best_of _ _) as [[h|]|].
Qed.

(** ** Reading cards *)

(** The ways of writing a card: its rank, [T] for ten included, then the suit
    as one of its two symbols or as a letter of either case. *)
Definition rank_texts (r : Z) : list pystr :=
  Card.name_of_rank r :: lower (Card.name_of_rank r) ::
  (if r =? 10 then [u "T"; u "t"] else []) ++ [u "0" ++ Card.name_of_rank r].
Definition suit_texts (s : Suit) : list pystr :=
  match s with
  | HEARTS => [u "♥"; u "♡"; u "h"; u "H"] | DIAMONDS => [u "♦"; u "♢"; u "d"; u "D"]
  | CLUBS => [u "♣"; u "♧"; u "c"; u "C"] | SPADES => [u "♠"; u "♤"; u "s"; u "S"]
  end.
Definition spellings (c : card) : list pystr :=
  r ← rank_texts (Card.rank c); s ← suit_texts (Card.suit c); [r ++ s; u " " ++ r ++ u " " ++ s].

Lemma parse_spellings c s : Card.valid c → s ∈ spellings c → Tool.parse_card s = Ok c.
Proof.
  intros Hc Hs. apply elem_of_full_deck in Hc.
  assert (Forall (λ c, Forall (λ s, Tool.parse_card s = Ok c) (spellings c)) Deck.full) as H.
  { apply (bool_decide_unpack _). vm_compute. done. }
  rewrite Forall_forall in H. specialize (H c Hc). rewrite Forall_forall in H. auto.
Qed.

Lemma parse_all_str cs : Forall Card.valid cs → Tool.parse_all (Card.str <$> cs) = Ok cs.
Proof.
  induction 1 as [|c cs Hc _ IH]; [done|]. rewrite fmap_cons. cbn [Tool.parse_all].
  rewrite (parse_spellings c), IH; [done|done|]. destruct c as [r s]. unfold spellings.
  apply list_elem_of_bind. exists (Card.name_of_rank r). split; [|by left].
  apply list_elem_of_bind. exists (Card.SUIT_SYMBOLS s). split; [by left|]. by destruct s; left.
Qed.

Lemma remove_dups_id {A} `{EqDecision A} (l : list A) : NoDup l → remove_dups l = l.
Proof.
  induction 1 as [|x l Hx _ IH]; [done|]. cbn [remove_dups].
  case_decide; [done|]. by rewrite IH.
Qed.

Lemma parse_cards_str cs :
  Forall Card.valid cs → NoDup cs → Tool.parse_cards (Some (Card.str <$> cs)) = Ok cs.
Proof.
  intros Hv Hn. unfold Tool.parse_cards. destruct cs as [|c cs]; [done|].
  rewrite fmap_cons, <- fmap_cons, parse_all_str by done. cbn [mbind result_bind].
  by rewrite remove_dups_id, Nat.eqb_refl.
Qed.

(** ** Theorems *)

(** C31: on any cards among which no five are a suited A-2-3-4-5, the tool's
    evaluation is the engine's, exceptions and texts included; on a suited
    A-2-3-4-5 the tool gives the straight flush to the five. *)
Theorem tool_evaluator_agrees hole board :
  ((∀ c, c ∈ combinations 5 (hole ++ board) → steel_wheel c = false) →
   SimpleHandEvaluator.evaluate_hand hole board = HandEvaluator.evaluate_hand hole board) ∧
  (∀ c, length c = 5%nat → steel_wheel c = true →
   ∃ h, SimpleHandEvaluator.eval_five c = Ok h ∧
        HandResult.rank h = STRAIGHT_FLUSH ∧ HandResult.kickers h = [5]).
Proof.
  split; [apply tool_evaluate_hand_eq|]. intros c L H.
  destruct (eval_five_steel_wheel c L H) as (h & E & [= R K]). eauto.
Qed.

(** Every documented spelling of a card is read back as that card: ranks in
    either case, [T] for ten, a leading zero, both symbols of a suit and its
    letter in either case, with and without spaces; the engine's own text of a
    card is one of them. *)
Theorem parse_card_spellings c :
  Card.valid c →
  Card.str c ∈ spellings c ∧ Forall (λ s, Tool.parse_card s = Ok c) (spellings c).
Proof.
  intros Hc. split.
  - destruct c as [r s]. unfold spellings. apply list_elem_of_bind.
    exists (Card.name_of_rank r). split; [|by left]. apply list_elem_of_bind.
    exists (Card.SUIT_SYMBOLS s). split; [by left|]. by destruct s; left.
  - apply Forall_forall. intros s Hs. by apply parse_spellings.
Qed.

(** The tool called with the texts of two hole cards and a board, all
    different, answers with the engine's evaluation of them. *)
Theorem hand_evaluator_tool_correct hole board h :
  length hole = 2%nat → NoDup (hole ++ board) → Forall Card.valid (hole ++ board) →
  (∀ c, c ∈ combinations 5 (hole ++ board) → steel_wheel c = false) →
  HandEvaluator.evaluate_hand hole board = Ok h →
  ∃ a, Tool.hand_evaluator_tool (Card.str <$> hole) (Some (Card.str <$> board)) = Ok a ∧
    Tool.an_rank a = HandResult.rank h ∧
    Tool.an_rank_value a = hand_rank_value (HandResult.rank h) ∧
    Tool.an_kickers a = HandResult.kickers h ∧
    Tool.an_best_five_cards a = Card.str <$> HandResult.cards h ∧
    0 ≤ Tool.an_strength_score a ≤ 10000.
Proof.
  intros L N V Hw E. apply NoDup_app in N as (N1 & _ & N2). apply Forall_app in V as [V1 V2].
  unfold Tool.hand_evaluator_tool. rewrite !parse_cards_str by done. cbn [mbind result_bind].
  rewrite L. cbn [negb Nat.eqb]. rewrite tool_evaluate_hand_eq, E by done. cbn [mbind result_bind].
  eexists. split; [done|]. cbn. split_and!; try done; by destruct (HandResult.rank h); vm_compute.
Qed.

(** ** Instances *)

Lemma parse_card_spellings_witness :
  Card.str (Card.Card 10 HEARTS) ∈ spellings (Card.Card 10 HEARTS) ∧
  Forall (λ s, Tool.parse_card s = Ok (Card.Card 10 HEARTS)) (spellings (Card.Card 10 HEARTS)).
Proof. apply (parse_card_spellings (Card.Card 10 HEARTS)). unfold Card.valid. cbn. lia. Defined.

Lemma no_steel_wheel_check cards :
  forallb (λ c, negb (steel_wheel c)) (combinations 5 cards) = true →
  ∀ c, c ∈ combinations 5 cards → steel_wheel c = false.
Proof.
  rewrite forallb_forall. intros H c Hc%list_elem_of_In. by apply negb_true_iff, H.
Qed.

Lemma hand_evaluator_tool_correct_witness :
  ∃ a, Tool.hand_evaluator_tool (Card.str <$> aces) (Some (Card.str <$> board)) = Ok a ∧
    Tool.an_rank a = HandResult.rank aces_hand ∧
    Tool.an_rank_value a = hand_rank_value (HandResult.rank aces_hand) ∧
    Tool.an_kickers a = HandResult.kickers aces_hand ∧
    Tool.an_best_five_cards a = Card.str <$> HandResult.cards aces_hand ∧
    0 ≤ Tool.an_strength_score a ≤ 10000.
Proof.
  apply (hand_evaluator_tool_correct aces board aces_hand).
  - reflexivity.
  - by apply (bool_decide_unpack _).
  - by apply (bool_decide_unpack _).
  - apply no_steel_wheel_check. vm_compute. reflexivity.
  - vm_compute. reflexivity.
Defined.
