(* ===== verification/PreflopProps.v ===== *)
(** * Properties of the preflop tools

    Two cards are given the category whose list names them, and the recommended
    action is to fold exactly below a score that depends on the raises so far and on
    the position. *)
From stdpp Require Import strings.
From S2P Require Import Prelude Py Json GameModels Floats Preflop.
Import Preflop.

(** ** Starting hands *)

(** The name of a starting hand, as the lists of the categories write it *)
Definition rank_letter (r : Z) : pystr :=
  match drop (Z.to_nat (r - 2)) (u "23456789TJQKA") with c :: _ => [c] | [] => [] end.

Definition starting_hand (c1 c2 : card) : pystr :=
  let high := Z.max (Card.rank c1) (Card.rank c2) in
  let low := Z.min (Card.rank c1) (Card.rank c2) in
  rank_letter high ++ rank_letter low ++
  if high =? low then [] else if bool_decide (Card.suit c1 = Card.suit c2) then u "s" else u "o".

(** The hands a category names *)
Definition range_of (c : HandCategory) : list pystr := split (u ", ") (category_value c).

Definition check_hand (c1 c2 : card) : bool :=
  match convert_to_hand_notation (Card.str c1) (Card.str c2) with
  | Raise _ => false
  | Ok notation =>
      let cat := default GRAY (find_category notation all_categories) in
      bool_decide (notation = starting_hand c1 c2) &&
      forallb (λ c, bool_decide (c = GRAY) ||
                    eqb (bool_decide (notation ∈ range_of c)) (bool_decide (c = cat)))
        all_categories
  end.

Lemma hands_checked :
  forallb (λ c1, forallb (λ c2, bool_decide (c1 = c2) || check_hand c1 c2) Deck.full) Deck.full
  = true.
Proof. vm_compute. reflexivity. Qed.

Lemma check_hand_true c1 c2 :
  c1 ∈ Deck.full → c2 ∈ Deck.full → c1 ≠ c2 → check_hand c1 c2 = true.
Proof.
  intros H1 H2 Hn. pose proof hands_checked as H. rewrite forallb_forall in H.
  specialize (H c1 (proj1 (list_elem_of_In _ _) H1)). rewrite forallb_forall in H.
  specialize (H c2 (proj1 (list_elem_of_In _ _) H2)).
  by rewrite bool_decide_false in H.
Qed.

Lemma starting_hand_comm c1 c2 : starting_hand c1 c2 = starting_hand c2 c1.
Proof.
  unfold starting_hand. rewrite (Z.max_comm (Card.rank c1)), (Z.min_comm (Card.rank c1)).
  do 3 f_equal. case_bool_decide as H; case_bool_decide as H'; congruence.
Qed.

(** Without a category the score is that of [GRAY]. *)
Lemma classify_two card1 card2 position :
  classify_hand [card1; card2] position =
  guard ((λ n, let c := default GRAY (find_category n all_categories) in
               Classification [card1; card2] c (category_score c) position)
         <$> convert_to_hand_notation card1 card2).
Proof.
  unfold classify_hand. destruct (convert_to_hand_notation card1 card2) as [n|e]; [|done].
  cbn -[find_category all_categories]. by destruct (find_category n all_categories).
Qed.

(** Two different cards, written as the game shows them and in either order, are
    given the category whose list of starting hands has the name of the hand, that
    category only, and [GRAY] when no list has it; the score is the category's. *)
Theorem classify_hand_ranges c1 c2 position :
  c1 ∈ Deck.full → c2 ∈ Deck.full → c1 ≠ c2 →
  ∃ cat,
    classify_hand [Card.str c1; Card.str c2] position =
      Answer (Classification [Card.str c1; Card.str c2] cat (category_score cat) position) ∧
    starting_hand c1 c2 = starting_hand c2 c1 ∧
    ∀ c, c ≠ GRAY → starting_hand c1 c2 ∈ range_of c ↔ c = cat.
Proof.
  intros H1 H2 Hn. pose proof (starting_hand_comm c1 c2) as Hc.
  pose proof (check_hand_true c1 c2 H1 H2 Hn) as H. unfold check_hand in H.
  rewrite classify_two.
  destruct (convert_to_hand_notation _ _) as [notation|]; [|done]. cbn [fmap result_fmap guard].
  apply andb_true_iff in H as [E%bool_decide_eq_true H]. rewrite forallb_forall in H.
  exists (default GRAY (find_category notation all_categories)). split_and!; [done|done|].
  clear Hc. rewrite <- E. clear E. intros c Hc. specialize (H c).
  rewrite (bool_decide_false (c = GRAY)) in H by done. cbn [orb] in H.
  assert (In c all_categories) as Hin by (destruct c; simpl; auto 10).
  specialize (H Hin). revert H. generalize (default GRAY (find_category notation all_categories)).
  generalize (range_of c). intros l cat. case_bool_decide; case_bool_decide; done.
Qed.

(** ** The recommended action *)

(** The lowest score that is not told to fold; a position that is not in the table
    asks for more. *)
Definition needed (raises : Z) (position : pystr) : Z :=
  let known := bool_decide (position ∈ position_multiplier.*1) in
  if raises <=? 1 then (if known then 1 else 2)
  else if raises <=? 3 then (if known then 5 else 6)
  else if bool_decide (position ∈ [u "CO"; u "BTN"; u "BB"]) then 5
  else if known then 6
  else 7.

(** What is recommended with a score from 0 to 6 and up to four raises *)
Definition action_at (raises score : Z) (mult : spec_float) : result pystr :=
  x ← float_of_int score; Ok (recommend raises (adjusted x mult) 0 0 0).1.

Definition threshold_at (position : pystr) (mult : spec_float) : bool :=
  forallb (λ raises, forallb (λ score,
    match action_at raises score mult with
    | Raise _ => false
    | Ok action => Bool.eqb (bool_decide (action = u "fold")) (score <? needed raises position)
    end) (range 0 7)) (range 0 5).

Lemma positions_checked :
  forallb (λ kv, threshold_at kv.1 kv.2) position_multiplier = true ∧
  threshold_at [] (decimal 9 (-1)) = true.
Proof. vm_compute. done. Qed.

Lemma known_positions :
  position_multiplier.*1 = [u "UTG"; u "CO"; u "BTN"; u "SB"; u "BB"].
Proof. reflexivity. Qed.

(** Known positions have an entry, the others are treated alike. *)
Lemma threshold_checked position : threshold_at position (multiplier position) = true.
Proof.
  destruct positions_checked as [H1 H2]. unfold multiplier, dict_get_default.
  destruct (dict_get position position_multiplier) as [m|] eqn:E; cbn [default from_option].
  - apply dict_get_elem in E.
    exact (forallb_elem (λ kv, threshold_at kv.1 kv.2) _ (position, m) H1 E).
  - apply dict_get_None in E. unfold threshold_at in *.
    assert (∀ raises, needed raises position = needed raises []) as Hn.
    { intros raises. unfold needed.
      rewrite (bool_decide_false (position ∈ position_multiplier.*1)) by done.
      rewrite (bool_decide_false (position ∈ [u "CO"; u "BTN"; u "BB"])); [done|].
      rewrite known_positions, !elem_of_cons in E. rewrite !elem_of_cons. tauto. }
    etrans; [|exact H2]. apply forallb_ext. intros raises. apply forallb_ext. intros score.
    by rewrite Hn.
Qed.

Lemma recommend_amounts raises score stack call blind :
  (recommend raises score stack call blind).1 = (recommend (Z.min raises 4) score 0 0 0).1.
Proof.
  unfold recommend. destruct (Z.leb_spec 4 raises) as [H|H].
  - rewrite (Z.min_r raises 4) by lia. cbn. by destruct (float_ge _ _).
  - rewrite (Z.min_l raises 4) by lia. destruct (Z.leb_spec 4 raises); [lia|].
    repeat case_match; done.
Qed.

Lemma recommend_folds raises score x position stack call blind :
  0 ≤ raises → 0 ≤ score ≤ 6 → float_of_int score = Ok x →
  (recommend raises (adjusted x (multiplier position)) stack call blind).1 = u "fold" ↔
  score < needed raises position.
Proof.
  intros Hr Hs Hx. rewrite recommend_amounts.
  pose proof (threshold_checked position) as H. unfold threshold_at in H.
  apply forallb_elem with (x := Z.min raises 4) in H; [|apply elem_of_range; lia].
  apply forallb_elem with (x := score) in H; [|apply elem_of_range; lia].
  unfold action_at in H. rewrite Hx in H. cbn [mbind result_bind] in H.
  apply Bool.eqb_prop in H. rewrite <- (bool_decide_eq_true (_ = u "fold")), H, Z.ltb_lt.
  replace (needed raises position) with (needed (Z.min raises 4) position); [done|].
  destruct (Z.le_gt_cases raises 4); [by rewrite Z.min_l|]. rewrite Z.min_r by lia.
  unfold needed. destruct (Z.leb_spec raises 1), (Z.leb_spec raises 3); done || lia.
Qed.

(** A category's score is a float as it stands. *)
Lemma score_float c : ∃ x, float_of_int (category_score c) = Ok x.
Proof. destruct c; eexists; vm_compute; reflexivity. Qed.

Lemma category_score_range c : 0 ≤ category_score c ≤ 6.
Proof. destruct c; cbn; lia. Qed.

Lemma classified cards position cl :
  classify_hand cards position = Answer cl →
  ∃ c, cl = Classification cards c (category_score c) position.
Proof.
  destruct cards as [|c1 [|c2 [|]]]; try done. rewrite classify_two.
  destruct (convert_to_hand_notation c1 c2) as [n|e]; [|done]. cbn [fmap result_fmap guard]. cbv zeta.
  generalize (default GRAY (find_category n all_categories)). intros c [= <-]. by exists c.
Qed.

(** The classification as the next step of the agent is given it *)
Definition forwarded (cl : classification) : list (pystr * json) :=
  [(u "hole_cards", JList (JStr <$> cl_hole_cards cl));
   (u "category", JStr (category_value (cl_category cl)));
   (u "category_score", JInt (cl_category_score cl));
   (u "position", JStr (cl_position cl))].

Lemma forwarded_score cards c position :
  classified_score (forwarded (Classification cards c (category_score c) position)) position
  = (x ← float_of_int (category_score c); Ok (adjusted x (multiplier position))).
Proof.
  unfold classified_score.
  change (dict_get_default (u "category_score") (JInt 0) _) with (JInt (category_score c)).
  change (dict_get_default (u "position") (JStr position) _) with (JStr position).
  cbv zeta. replace (if truthy (JStr position) then JStr position else JStr position)
    with (JStr position) by by destruct (truthy _).
  done.
Qed.

Lemma recommend_fold_amount raises score stack call blind :
  (recommend raises score stack call blind).1 = u "fold" →
  (recommend raises score stack call blind).2 = 0.
Proof. unfold recommend. repeat case_match; done. Qed.

Lemma recommend_capped raises score stack call blind :
  2 ≤ raises → 0 ≤ stack → (recommend raises score stack call blind).2 ≤ stack.
Proof. intros H ?. unfold recommend. repeat case_match; cbn; zbool; lia. Qed.

(** Two cards of any category are told to fold exactly when the score of the
    category is below what the raises so far and the position ask for, and then for
    no chips; against two raises or more the amount is one the player has.  It makes
    no difference whether the cards are classified again or the classification of
    the previous step is passed on. *)
Theorem evaluate_preflop_action_threshold cards position cl actions stack call blind :
  classify_hand cards position = Answer cl →
  ∃ ev,
    evaluate_preflop_action cards position actions stack call blind None = Answer ev ∧
    evaluate_preflop_action cards position actions stack call blind (Some (forwarded cl))
      = Answer ev ∧
    (ev_recommended_action ev = u "fold" ↔
       category_score (cl_category cl) < needed (count_raises actions) position) ∧
    (ev_recommended_action ev = u "fold" → ev_recommended_amount ev = 0) ∧
    (2 ≤ count_raises actions → 0 ≤ stack → ev_recommended_amount ev ≤ stack).
Proof.
  intros Hc. destruct (classified _ _ _ Hc) as [c ->]. destruct (score_float c) as [x Hx].
  pose proof (recommend_folds (count_raises actions) (category_score c) x position stack call blind
    ltac:(unfold count_raises; lia) (category_score_range c) Hx) as Hf.
  pose proof (recommend_fold_amount (count_raises actions) (adjusted x (multiplier position))
    stack call blind) as H0.
  pose proof (recommend_capped (count_raises actions) (adjusted x (multiplier position))
    stack call blind) as Hs.
  unfold evaluate_preflop_action, analyze_preflop_position_value. rewrite Hc, forwarded_score.
  cbn [cl_category_score]. rewrite Hx. cbn [mbind result_bind guard pv_position_adjusted_score].
  destruct (recommend _ _ _ _ _) as [action amount]. eexists. by split_and!.
Qed.

Lemma classify_hand_ranges_witness :
  ∃ cat,
    classify_hand [u "10♣"; u "A♣"] (u "BTN") =
      Answer (Classification [u "10♣"; u "A♣"] cat (category_score cat) (u "BTN")) ∧
    starting_hand (Card.Card 10 CLUBS) (Card.Card 14 CLUBS) =
      starting_hand (Card.Card 14 CLUBS) (Card.Card 10 CLUBS) ∧
    ∀ c, c ≠ GRAY → u "ATs" ∈ range_of c ↔ c = cat.
Proof.
  apply (classify_hand_ranges (Card.Card 10 CLUBS) (Card.Card 14 CLUBS) (u "BTN")).
  - apply (bool_decide_unpack _). vm_compute. done.
  - apply (bool_decide_unpack _). vm_compute. done.
  - done.
Defined.

(** Aces are played on the button against two raises. *)
Lemma evaluate_preflop_action_threshold_witness :
  ∃ ev,
    evaluate_preflop_action [u "A♠"; u "A♥"] (u "BTN") [u "UTG: raise 40"; u "CO: Raise 120"]
      1000 120 20 None = Answer ev ∧
    ev_recommended_action ev ≠ u "fold" ∧ ev_recommended_amount ev ≤ 1000.
Proof.
  destruct (classify_hand [u "A♠"; u "A♥"] (u "BTN")) as [cl|] eqn:E; [|vm_compute in E; done].
  destruct (evaluate_preflop_action_threshold [u "A♠"; u "A♥"] (u "BTN") cl
    [u "UTG: raise 40"; u "CO: Raise 120"] 1000 120 20 E) as (ev & E1 & _ & E2 & _ & E3).
  exists ev. split_and!; [exact E1| |apply E3; vm_compute; done].
  rewrite E2. vm_compute in E. injection E as <-. vm_compute. done.
Defined.
