(* ===== verification/FlopProps.v ===== *)
(** * Properties of the flop tools

    The third evaluator of the repository ranks hands as the engine does, but for the
    suited A-2-3-4-5; its strength score is between 0 and 100; the draws it is asked
    for are the cards that are out. *)
From stdpp Require Import strings.
From Stdlib Require Import Sorted.
From S2P Require Import Prelude Py Json GameModels Evaluator EvaluatorProps ToolEvaluator ToolProps.
From S2P Require Import Floats FlopTools.
Import HandEvaluator FlopEvaluator.

(** ** Five cards *)

(** A category with its tie-breaking ranks, as the tool writes it; ranks count from
    the deuce. *)
Definition encode (o : HandRank * list Z) : details :=
  let ks := (λ k, k - 2) <$> o.2 in
  match o.1, ks with
  | ROYAL_FLUSH, [h] | STRAIGHT_FLUSH, [h] => Details 8 h 0 []
  | FOUR_OF_A_KIND, [q; k] => Details 7 q k []
  | FULL_HOUSE, [t; p] => Details 6 t p []
  | FLUSH, _ => Details 5 0 0 ks
  | STRAIGHT, [h] => Details 4 h 0 []
  | THREE_OF_A_KIND, t :: ks => Details 3 t 0 ks
  | TWO_PAIR, [p1; p2; k] => Details 2 p1 p2 [k]
  | ONE_PAIR, p :: ks => Details 1 p 0 ks
  | _, _ => Details 0 0 0 ks
  end.

#[local] Instance result_details_eq_dec : EqDecision (result details).
Proof. solve_decision. Defined.

(** The engine's evaluation with the rules' place for the suited A-2-3-4-5, which is
    the other tool's evaluation *)
Definition agrees (flush : bool) (l : list Z) : bool :=
  match SimpleHandEvaluator.eval_five (cards_of flush l) with
  | Ok h => bool_decide (rank_details flush ((λ r, r - 2) <$> l) = Ok (encode (outcome h)))
  | Raise _ => false
  end.

Lemma agrees_all :
  forallb (λ l, forallb (λ f, negb (possible f l) || agrees f l) [true; false])
    (descending_lists 5 14) = true.
Proof. vm_compute. reflexivity. Qed.

Lemma eval_five_agree cs :
  length cs = 5%nat →
  outcome <$> SimpleHandEvaluator.eval_five cs =
  outcome <$> SimpleHandEvaluator.eval_five (cards_of (one_suit cs) (sort_desc (Card.rank <$> cs))).
Proof.
  intros L. set (l := sort_desc (Card.rank <$> cs)). set (f := one_suit cs).
  assert (length l = 5%nat) as Ll.
  { unfold l, sort_desc. by rewrite sort_with_Permutation, length_fmap. }
  assert (length (cards_of f l) = 5%nat) as Lc
    by (by rewrite <- (length_fmap Card.rank), cards_of_ranks).
  assert (steel_wheel (cards_of f l) = steel_wheel cs) as Hw.
  { unfold steel_wheel. rewrite cards_of_one_suit, cards_of_ranks by done. fold f l.
    unfold l. by rewrite (sort_desc_id (sort_desc _)) by apply sort_desc_Sorted. }
  destruct (steel_wheel cs) eqn:W.
  - destruct (eval_five_steel_wheel cs L W) as (h & -> & E).
    destruct (eval_five_steel_wheel (cards_of f l) Lc Hw) as (h' & -> & E').
    cbn. by rewrite E, E'.
  - rewrite !eval_five_eq by done. apply evaluate_five_cards_agree; [done..| |].
    + rewrite !fmap_sort_desc_by, cards_of_ranks. fold l.
      symmetry. apply sort_desc_id, sort_desc_Sorted.
    + rewrite !(one_suit_Permutation _ _ (sort_desc_by_Permutation _ _)).
      by rewrite cards_of_one_suit.
Qed.

(** A card as the tool reads it *)
Definition suit_letter (s : Suit) : pystr :=
  match s with HEARTS => u "h" | DIAMONDS => u "d" | CLUBS => u "c" | SPADES => u "s" end.
Definition parsed (c : card) : pystr * pystr :=
  (match drop (Z.to_nat (Card.rank c - 2)) RANKS with r :: _ => [r] | [] => [] end,
   suit_letter (Card.suit c)).

Lemma cards_read :
  Forall (λ c, parse_card (Card.str c) = Ok (parsed c) ∧
               FlopEvaluator.rank_index (parsed c) = Ok (Card.rank c - 2)) Deck.full.
Proof. apply (bool_decide_unpack _). vm_compute. done. Qed.

Lemma card_read c :
  Card.valid c →
  parse_card (Card.str c) = Ok (parsed c) ∧
  FlopEvaluator.rank_index (parsed c) = Ok (Card.rank c - 2).
Proof.
  intros Hc%elem_of_full_deck. pose proof cards_read as H. rewrite Forall_forall in H. auto.
Qed.

Lemma suit_letter_inj s s' : suit_letter s = suit_letter s' → s = s'.
Proof. by destruct s, s'. Qed.

(** Five cards as the tool reads them are of one suit when the cards are. *)
Lemma parsed_one_suit cs :
  (length (remove_dups (snd <$> (parsed <$> cs))) =? 1)%nat = one_suit cs.
Proof.
  unfold one_suit. f_equal.
  assert (∀ l : list Suit, remove_dups (suit_letter <$> l) = suit_letter <$> remove_dups l) as H.
  { induction l as [|s l IH]; [done|]. cbn [remove_dups fmap list_fmap].
    case_decide as H1; case_decide as H2.
    - exact IH.
    - apply list_elem_of_fmap in H1 as (s' & ->%suit_letter_inj & ?). done.
    - by destruct H1; apply list_elem_of_fmap_2.
    - cbn. f_equal. exact IH. }
  rewrite <- list_fmap_compose.
  change (compose snd parsed) with (λ c, suit_letter (Card.suit c)).
  rewrite (list_fmap_compose Card.suit suit_letter), H. apply length_fmap.
Qed.

Lemma sort_desc_shift l : sort_desc ((λ r, r - 2) <$> l) = (λ r, r - 2) <$> sort_desc l.
Proof.
  apply Descending_Permutation_eq.
  - apply sort_desc_Sorted.
  - induction (sort_desc_Sorted l) as [|x k _ IH Hx]; [constructor|]. cbn. constructor; [done|].
    rewrite Forall_fmap. eapply Forall_impl; [exact Hx|]. cbn. lia.
  - unfold sort_desc. by rewrite !sort_with_Permutation.
Qed.

Lemma hand_rank_of cs :
  length cs = 5%nat → Forall Card.valid cs →
  get_hand_rank_and_kickers (parsed <$> cs)
  = rank_details (one_suit cs) ((λ r, r - 2) <$> sort_desc (Card.rank <$> cs)).
Proof.
  intros L V. unfold get_hand_rank_and_kickers. rewrite length_fmap, L. simpl (negb _).
  rewrite (map_result_Forall _ _ (λ c, Card.rank c - 2))
    by (eapply Forall_impl; [exact V|]; apply card_read).
  cbn [mbind result_bind]. rewrite parsed_one_suit.
  by rewrite (list_fmap_compose Card.rank (λ r, r - 2)), sort_desc_shift.
Qed.

(** Five different cards have ranks that were checked. *)
Lemma five_checked (check : bool → list Z → bool) cs :
  forallb (λ l, forallb (λ f, negb (possible f l) || check f l) [true; false])
    (descending_lists 5 14) = true →
  length cs = 5%nat → NoDup cs → Forall Card.valid cs →
  check (one_suit cs) (sort_desc (Card.rank <$> cs)) = true.
Proof.
  intros H L N V. rewrite forallb_forall in H.
  assert (sort_desc (Card.rank <$> cs) ∈ descending_lists 5 14) as Hl.
  { replace 5%nat with (length (sort_desc (Card.rank <$> cs)))
      by (unfold sort_desc; by rewrite sort_with_Permutation, length_fmap).
    apply elem_of_descending_lists; [apply sort_desc_Sorted|]. by apply sort_desc_Forall, Forall_fmap. }
  specialize (H _ (proj1 (list_elem_of_In _ _) Hl)). rewrite forallb_forall in H.
  specialize (H (one_suit cs) ltac:(destruct (one_suit cs); simpl; auto)).
  by rewrite distinct_cards_possible in H.
Qed.

(** Five different cards *)
Lemma hand_rank_encodes cs :
  length cs = 5%nat → NoDup cs → Forall Card.valid cs →
  ∃ h, SimpleHandEvaluator.eval_five cs = Ok h ∧
       get_hand_rank_and_kickers (parsed <$> cs) = Ok (encode (outcome h)).
Proof.
  intros L N V. pose proof (five_checked agrees cs agrees_all L N V) as H. unfold agrees in H.
  pose proof (eval_five_agree cs L) as E.
  destruct (SimpleHandEvaluator.eval_five (cards_of _ _)) as [h'|]; [|done].
  destruct (SimpleHandEvaluator.eval_five cs) as [h|]; [|done].
  assert (outcome h = outcome h') as Eo by (cbn in E; congruence).
  exists h. split; [done|]. apply bool_decide_eq_true in H.
  by rewrite hand_rank_of, H, Eo.
Qed.

(** ** The order *)

(** What an evaluated hand of five cards has *)
Record proper (h : hand_result) : Prop := Proper {
  proper_kickers : well_formed h;
  proper_royal : HandResult.rank h = ROYAL_FLUSH → HandResult.kickers h = [14];
  proper_straight_flush : HandResult.rank h = STRAIGHT_FLUSH →
    Forall (λ k, k < 14) (HandResult.kickers h) }.

Lemma five_proper cs h :
  length cs = 5%nat → NoDup cs → Forall Card.valid cs →
  evaluate_five_cards cs = Ok h → proper h.
Proof.
  intros L N V E. destruct (evaluate_five_cards_outcome cs L N V) as (h' & E' & R).
  rewrite E in E'. injection E' as <-. split; [by eapply Ranking_well_formed| |].
  - intros Hr. rewrite Hr in R. by inversion R.
  - intros Hr. rewrite Hr in R. inversion R as [| | | | | | |k Hf P Hn| | | |]; subst.
    apply Forall_singleton. assert (k ∈ Card.rank <$> cs) as Hk by (rewrite P; by left).
    apply list_elem_of_fmap in Hk as (c & -> & Hc). rewrite Forall_forall in V.
    specialize (V c Hc). unfold Card.valid in V. lia.
Qed.

(** The tool's comparison of two hands is the engine's. *)
Lemma list_gtb_shift k1 k2 pad :
  length k1 = length k2 →
  list_gtb (((λ k, k - 2) <$> k1) ++ pad) (((λ k, k - 2) <$> k2) ++ pad)
  = (compare_kickers k1 k2 =? 1).
Proof.
  revert k2. induction k1 as [|a k1 IH]; intros [|b k2] L; try done.
  - induction pad as [|x pad IHp]; [done|]. cbn. by rewrite Z.eqb_refl.
  - injection L as L. specialize (IH k2 L).
    cbn [fmap list_fmap app list_gtb compare_kickers] in *. rewrite IH.
    destruct (Z.eqb_spec (a - 2) (b - 2)), (Z.ltb_spec (b - 2) (a - 2)),
      (Z.ltb_spec b a), (Z.ltb_spec a b); done || lia.
Qed.

(** Kickers compared one after the other *)
Ltac compare_kickers_cases :=
  cbn -[Z.sub Z.eqb Z.ltb]; rewrite ?Z.eqb_refl, ?Z.ltb_irrefl;
  repeat match goal with
  | |- context [?a - 2 =? ?b - 2] =>
      destruct (Z.eqb_spec (a - 2) (b - 2)), (Z.ltb_spec (b - 2) (a - 2)),
        (Z.ltb_spec b a), (Z.ltb_spec a b); try lia; try done
  end.

(** Where the tie-breaking ranks of a category are written *)
Lemma padded_order h1 h2 :
  proper h1 → proper h2 →
  list_gtb (padded (encode (outcome h1))) (padded (encode (outcome h2)))
  = (compare_hands h1 h2 =? 1).
Proof.
  destruct h1 as [r1 c1 k1 t1], h2 as [r2 c2 k2 t2]. intros [W1 R1 S1] [W2 R2 S2].
  unfold well_formed in *. cbn [HandResult.rank HandResult.kickers] in *.
  unfold compare_hands. cbn [HandResult.rank HandResult.kickers outcome].
  destruct r1; cbn [kicker_count] in W1;
    repeat (destruct k1 as [|? k1]; try discriminate W1); clear W1;
    destruct r2; cbn [kicker_count] in W2;
    repeat (destruct k2 as [|? k2]; try discriminate W2); clear W2;
    try reflexivity;
    try (specialize (R1 eq_refl); injection R1 as ->);
    try (specialize (R2 eq_refl); injection R2 as ->);
    try (specialize (S1 eq_refl); apply Forall_inv in S1);
    try (specialize (S2 eq_refl); apply Forall_inv in S2);
    compare_kickers_cases; reflexivity || lia.
Qed.

(** ** The best hand *)

Lemma combinations_fmap {A B} (f : A → B) k (l : list A) :
  combinations k (f <$> l) = (fmap f : list A → list B) <$> combinations k l.
Proof.
  revert k. induction l as [|x l IH]; intros [|k]; try done.
  rewrite fmap_cons. cbn [combinations]. rewrite fmap_app, !IH. f_equal.
  rewrite <- !list_fmap_compose. done.
Qed.

Definition read_all (cs : list card) : list (pystr * pystr) := parsed <$> cs.

(** The combinations are hands that the engine evaluates and the tool agrees. *)
Definition read_alike (combos : list (list card)) : Prop :=
  ∀ c, c ∈ combos → ∃ h, evaluate_five_cards c = Ok h ∧ proper h ∧
       get_hand_rank_and_kickers (read_all c) = Ok (encode (outcome h)).

Lemma read_alike_rest c combos : read_alike (c :: combos) → read_alike combos.
Proof. intros H d Hd. apply H. by right. Qed.

(** What the search returns: the details of a hand that no combination beats *)
Definition search_result (combos : list (list card)) (r : result (details * option (list (pystr * pystr)))) (h : hand_result) : Prop :=
  (∃ x, r = Ok (encode (outcome h), Some x)) ∧ proper h ∧ dominates h combos.

Lemma best_of_from combos hb x :
  read_alike combos → proper hb →
  ∃ h, search_result combos
         (FlopEvaluator.best_of (read_all <$> combos) (encode (outcome hb), Some x)) h ∧
       (h = hb ∨ ∃ c, c ∈ combos ∧ evaluate_five_cards c = Ok h) ∧ 0 ≤ compare_hands h hb.
Proof.
  revert hb x. induction combos as [|c combos IH]; intros hb x Hr Hb.
  { exists hb. split_and!; [split_and!; [by exists x|done|]|by left|rewrite compare_hands_refl; lia].
    intros c h' []%elem_of_nil. }
  destruct (Hr c ltac:(by left)) as (hc & Ec & Pc & Dc).
  cbn [fmap list_fmap FlopEvaluator.best_of]. rewrite Dc. cbn [fst].
  rewrite padded_order by done. apply read_alike_rest in Hr.
  pose proof (compare_hands_antisym_l hb hc) as Ha.
  pose proof (compare_hands_range hc hb) as Hg.
  destruct (Z.eqb_spec (compare_hands hc hb) 1) as [H1|H1].
  - destruct (IH hc (read_all c) Hr Pc) as (h & (Hx & Ph & Hdom) & Hin & Hge).
    assert (0 ≤ compare_hands h hb).
    { apply (compare_hands_trans_ge _ hc); [apply Ph|apply Pc|apply Hb|done|lia]. }
    exists h. split_and!; [split_and!; [exact Hx|done|]| |done].
    + intros d h' [->|Hd]%elem_of_cons Ed; [congruence|eauto].
    + right. destruct Hin as [->|(d & Hd & Ed)]; [exists c|exists d]; set_solver.
  - destruct (IH hb x Hr Hb) as (h & (Hx & Ph & Hdom) & Hin & Hge).
    exists h. split_and!; [split_and!; [exact Hx|done|]| |done].
    + intros d h' [->|Hd]%elem_of_cons Ed; [|eauto]. rewrite Ec in Ed. injection Ed as <-.
      apply (compare_hands_trans_ge _ hb); [apply Ph|apply Hb|apply Pc|done|lia].
    + destruct Hin as [->|(d & Hd & Ed)]; [by left|right; set_solver].
Qed.

Lemma encode_rank o : 0 ≤ d_rank (encode o).
Proof. unfold encode. repeat case_match; cbn; lia. Qed.

Lemma best_of_first combos :
  combos ≠ [] → read_alike combos →
  ∃ h, search_result combos
         (FlopEvaluator.best_of (read_all <$> combos) (no_details, None)) h ∧
       ∃ c, c ∈ combos ∧ evaluate_five_cards c = Ok h.
Proof.
  destruct combos as [|c combos]; intros Hne Hr; [done|].
  destruct (Hr c ltac:(by left)) as (hc & Ec & Pc & Dc). apply read_alike_rest in Hr.
  cbn [fmap list_fmap FlopEvaluator.best_of]. rewrite Dc. cbn [fst].
  assert (list_gtb (padded (encode (outcome hc))) (padded no_details) = true) as ->.
  { pose proof (encode_rank (outcome hc)). unfold padded. cbn [app list_gtb d_rank no_details].
    destruct (Z.eqb_spec (d_rank (encode (outcome hc))) (-1)); [lia|]. apply Z.ltb_lt. lia. }
  destruct (best_of_from combos hc (read_all c) Hr Pc) as (h & (Hx & Ph & Hdom) & Hin & Hge).
  exists h. split; [split_and!; [exact Hx|done|]|].
  - intros d h' [->|Hd]%elem_of_cons Ed; [congruence|eauto].
  - destruct Hin as [->|(d & Hd & Ed)]; [exists c|exists d]; set_solver.
Qed.

Lemma no_wheel_alike cards :
  NoDup cards → Forall Card.valid cards →
  (∀ c, c ∈ combinations 5 cards → steel_wheel c = false) →
  read_alike (combinations 5 cards).
Proof.
  intros N V Hw c Hc. pose proof Hc as [Hs%sublist_submseteq L]%elem_of_combinations.
  assert (NoDup c) as Nc by (by eapply submseteq_NoDup).
  assert (Forall Card.valid c) as Vc.
  { rewrite Forall_forall in *. intros x Hx. apply V. by eapply elem_of_submseteq. }
  destruct (hand_rank_encodes c L Nc Vc) as (h & E & D). rewrite eval_five_eq in E by auto.
  exists h. split_and!; [done|by eapply five_proper|exact D].
Qed.

(** Two hands that no combination beats *)
Lemma dominating_outcome combos h1 h2 c1 c2 :
  well_formed h1 → well_formed h2 → dominates h1 combos → dominates h2 combos →
  c1 ∈ combos → evaluate_five_cards c1 = Ok h1 →
  c2 ∈ combos → evaluate_five_cards c2 = Ok h2 → outcome h1 = outcome h2.
Proof.
  intros W1 W2 D1 D2 H1 E1 H2 E2. specialize (D1 c2 h2 H2 E2). specialize (D2 c1 h1 H1 E1).
  rewrite compare_hands_antisym_l in D2.
  assert (compare_hands h1 h2 = 0) as E by lia.
  apply compare_hands_zero in E as [Er Ek]; [|done..]. unfold outcome. by rewrite Er, Ek.
Qed.

Lemma parse_hand cs :
  Forall Card.valid cs → map_result parse_card (Card.str <$> cs) = Ok (parsed <$> cs).
Proof.
  intros V. apply map_result_Forall. eapply Forall_impl; [exact V|]. apply card_read.
Qed.

Lemma flop_best hole board h :
  NoDup (hole ++ board) → Forall Card.valid (hole ++ board) →
  (5 ≤ length (hole ++ board))%nat →
  (∀ c, c ∈ combinations 5 (hole ++ board) → steel_wheel c = false) →
  HandEvaluator.evaluate_hand hole board = Ok h →
  (∃ x, FlopEvaluator.best_of (combinations 5 ((parsed <$> hole) ++ (parsed <$> board)))
          (no_details, None) = Ok (encode (outcome h), Some x)) ∧
  (∃ c, c ∈ combinations 5 (hole ++ board) ∧ evaluate_five_cards c = Ok h).
Proof.
  intros N V L Hw E. rewrite <- fmap_app, combinations_fmap.
  destruct (best_of_first (combinations 5 (hole ++ board))) as (h' & (Hx & Ph & Hd) & c & Hc & Ec).
  - by apply combinations_nonempty.
  - by apply no_wheel_alike.
  - destruct (best_of_None (combinations 5 (hole ++ board))) as (h2 & E2 & W2 & (c2 & Hc2 & Ec2) & D2).
    { by apply combinations_nonempty. }
    { by apply combinations_evaluable. }
    rewrite evaluate_hand_best_of, E2 in E by done. injection E as ->.
    split; [|by exists c2].
    by rewrite <- (dominating_outcome (combinations 5 (hole ++ board)) h' h c c2
      (proper_kickers _ Ph) W2 Hd D2 Hc Ec Hc2 Ec2).
Qed.

(** ** The strength score *)

Definition score (d : details) (max_community_rank : Z) (is_pocket_pair : bool) : spec_float :=
  let base := base_score d max_community_rank is_pocket_pair in
  round_digits 2 (if SFltb (decimal 100 0) base then decimal 100 0 else base).

(** The lowest and the highest score of a category, in hundredths *)
Definition band (rank : Z) : Z * Z :=
  match rank with
  | 8 => (9800, 10000) | 7 => (9600, 9799) | 6 => (9400, 9599) | 5 => (9200, 9575)
  | 4 => (9000, 9199) | 3 => (9000, 9000) | 2 => (8000, 8900) | 1 => (3000, 8500)
  | _ => (0, 2500)
  end.
Definition in_band (rank : Z) (x : spec_float) : bool :=
  SFleb (decimal (band rank).1 (-2)) x && SFleb x (decimal (band rank).2 (-2)).

(** The score of a pair is checked for all boards, the others have one score. *)
Definition scored (f : bool) (l : list Z) : bool :=
  match rank_details f ((λ r, r - 2) <$> l) with
  | Ok d =>
      if d_rank d =? 1 then
        bool_decide (d_primary d ∈ range 0 13 ∧ first_kicker (d_kickers d) ∈ range 0 13)
      else in_band (d_rank d) (score d 0 false)
  | Raise _ => false
  end.

Lemma scored_all :
  forallb (λ l, forallb (λ f, negb (possible f l) || scored f l) [true; false])
    (descending_lists 5 14) = true.
Proof. vm_cast_no_check (eq_refl true). Qed.

Lemma pairs_scored :
  forallb (λ p, forallb (λ k, forallb (λ m, forallb (λ pocket,
    in_band 1 (score (Details 1 p 0 [k]) m pocket)) [true; false]) (range 0 13)) (range 0 13))
    (range 0 13) = true.
Proof. vm_cast_no_check (eq_refl true). Qed.

Lemma scored_pair p k m pocket :
  p ∈ range 0 13 → k ∈ range 0 13 → m ∈ range 0 13 →
  in_band 1 (score (Details 1 p 0 [k]) m pocket) = true.
Proof.
  intros Hp Hk Hm. pose proof pairs_scored as H.
  rewrite forallb_forall in H. specialize (H p (proj1 (list_elem_of_In _ _) Hp)).
  rewrite forallb_forall in H. specialize (H k (proj1 (list_elem_of_In _ _) Hk)).
  rewrite forallb_forall in H. specialize (H m (proj1 (list_elem_of_In _ _) Hm)).
  rewrite forallb_forall in H. apply H. destruct pocket; simpl; auto.
Qed.

(** Only the score of a pair looks at the board and the pocket. *)
Lemma base_score_other d m m' p p' : d_rank d ≠ 1 → base_score d m p = base_score d m' p'.
Proof. intros H. unfold base_score. by destruct (d_rank d) as [|[[[]|[]|]|[[]|[]|]|]|]. Qed.

Lemma base_score_pair d m p :
  d_rank d = 1 →
  base_score d m p = base_score (Details 1 (d_primary d) 0 [first_kicker (d_kickers d)]) m p.
Proof. intros H. unfold base_score. by rewrite H. Qed.

Lemma score_in_band cs d m p :
  length cs = 5%nat → NoDup cs → Forall Card.valid cs →
  get_hand_rank_and_kickers (parsed <$> cs) = Ok d → 0 ≤ m < 13 →
  in_band (d_rank d) (score d m p) = true.
Proof.
  intros L N V E Hm. pose proof (five_checked scored cs scored_all L N V) as H.
  unfold scored in H. rewrite hand_rank_of in E by done. rewrite E in H.
  destruct (Z.eqb_spec (d_rank d) 1) as [H1|H1].
  - apply bool_decide_eq_true in H as [Hp Hk]. rewrite H1.
    unfold score. rewrite base_score_pair by done.
    by apply scored_pair; [..|apply elem_of_range].
  - unfold score. by rewrite (base_score_other d m 0 p false).
Qed.

(** The highest rank of the board *)
Lemma max_rank l r :
  0 ≤ r < 13 → Forall (λ x, 0 ≤ x < 13) l → 0 ≤ foldl Z.max r l < 13.
Proof.
  revert r. induction l as [|x l IH]; intros r Hr Hl; [done|].
  apply Forall_cons in Hl as [Hx Hl]. cbn. apply IH; [lia|done].
Qed.

Lemma board_rank board :
  Forall Card.valid board →
  0 ≤ match map_result FlopEvaluator.rank_index (parsed <$> board) with
      | Ok (r :: l) => foldl Z.max r l
      | _ => 0
      end < 13.
Proof.
  intros V. rewrite (map_result_Forall _ _ (λ c, Card.rank c - 2))
    by (eapply Forall_impl; [exact V|]; apply card_read).
  assert (Forall (λ x, 0 ≤ x < 13) ((λ c, Card.rank c - 2) <$> board)) as H.
  { rewrite Forall_fmap. eapply Forall_impl; [exact V|]. intros c. unfold Card.valid. cbn. lia. }
  destruct (_ <$> board) as [|r l]; [lia|]. apply Forall_cons in H as [Hr Hl]. by apply max_rank.
Qed.

Lemma hand_name_exists d : 0 ≤ d_rank d < 9 → ∃ n, nth_item hand_names (Z.to_nat (d_rank d)) = Ok n ∧
  hand_names !! Z.to_nat (d_rank d) = Some n.
Proof.
  intros H. unfold nth_item.
  destruct (hand_names !! Z.to_nat (d_rank d)) as [n|] eqn:E; [by exists n|].
  apply lookup_ge_None in E. change (length hand_names) with 9%nat in E. lia.
Qed.

Lemma encode_rank_bound o : 0 ≤ d_rank (encode o) < 9.
Proof. unfold encode. repeat case_match; cbn; lia. Qed.



(** The bands overlap: the ace-high flush of this board scores 95.75, more than a full
    house of deuces, which beats it. *)
Definition score_of (hole board : list pystr) : option spec_float :=
  match FlopEvaluator.evaluate_hand hole board with
  | Ok (Some a) => Some (an_strength_score a)
  | _ => None
  end.

Example flush_over_full_house :
  score_of [u "A♠"; u "K♠"] [u "Q♠"; u "J♠"; u "9♠"] = Some (decimal 9575 (-2)) ∧
  score_of [u "2♠"; u "2♥"] [u "2♦"; u "3♠"; u "3♥"] = Some (decimal 94 0).
Proof. split; vm_compute; reflexivity. Qed.
