(* ===== verification/DrawProps.v ===== *)
(** * Properties of the draw analysis

    The draws of a hand are the suits of which it has four cards and the runs of four
    ranks, and the outs of a draw are the cards of the deck that complete it. *)
From stdpp Require Import strings.
From Stdlib Require Import Sorted.
From S2P Require Import Prelude Py Json GameModels Floats FlopTools.
Import DrawAnalyzer.

(** ** The draws, from the cards *)

Section Draws.
Variable cards : list card.

Definition of_suit (s : Suit) (c : card) : bool := bool_decide (Card.suit c = s).
Definition suit_count (s : Suit) : nat := length (filter (λ c, of_suit s c) cards).

(** The cards of the deck that are not among the cards and pass a test *)
Definition unseen (test : card → bool) : Z :=
  Z.of_nat (length (filter (λ c, c ∉ cards ∧ test c) Deck.full)).

Definition flush_suits : list Suit := filter (λ s, suit_count s = 4%nat) all_suits.

(** The ranks [r] to [r + 3] are among the cards. *)
Definition has_run (r : Z) : bool :=
  forallb (λ k, bool_decide (r + k ∈ Card.rank <$> cards)) [0; 1; 2; 3].
Definition runs : list Z := filter (λ r, has_run r) (range 2 12).

(** A card that makes the run [r] a straight *)
Definition completes (r : Z) (c : card) : bool :=
  (Card.rank c =? r - 1) || (Card.rank c =? r + 4).
Definition run_outs (r : Z) : Z := Z.of_nat (length (filter (λ c, completes r c) Deck.full)).

Definition draws : list (draw_type * Z) :=
  ((λ s, (FLUSH_DRAW, unseen (of_suit s))) <$> flush_suits) ++
  ((λ r, (OESD, run_outs r)) <$> runs).
End Draws.

(** ** Suits *)

Fixpoint suit_lists (n : nat) : list (list Suit) :=
  match n with
  | O => [[]]
  | S n => s ← all_suits; cons s <$> suit_lists n
  end.

Lemma elem_of_suit_lists l : l ∈ suit_lists (length l).
Proof.
  induction l as [|s l IH]; [by left|]. apply list_elem_of_bind. exists s. split.
  - by apply list_elem_of_fmap_2.
  - destruct s; apply (bool_decide_unpack _); by vm_compute.
Qed.

Definition suits_checked (l : list Suit) : bool :=
  (length (filter (λ kv, kv.2 = 4%Z) (counter (Card.SUIT_SYMBOLS <$> l))) =?
   length (filter (λ s, length (filter (λ s', s' = s) l) = 4%nat) all_suits))%nat.

Lemma suit_lists_checked :
  forallb (λ n, forallb suits_checked (suit_lists n)) [4; 5; 6]%nat = true.
Proof. vm_compute. reflexivity. Qed.

(** Nine cards of a suit are out when four of its thirteen are seen. *)
Lemma unseen_nine cards s :
  NoDup cards → Forall Card.valid cards → suit_count cards s = 4%nat →
  unseen cards (of_suit s) = 9.
Proof.
  intros N V H. unfold unseen, suit_count in *.
  assert (filter (λ c, of_suit s c) Deck.full ≡ₚ
          filter (λ c, of_suit s c) cards ++ filter (λ c, c ∉ cards ∧ of_suit s c) Deck.full) as P.
  { apply NoDup_Permutation.
    - apply NoDup_filter, full_deck_NoDup.
    - apply NoDup_app. split_and!; [by apply NoDup_filter| |apply NoDup_filter, full_deck_NoDup].
      intros c [_ Hc]%list_elem_of_filter [[? _] _]%list_elem_of_filter. done.
    - intros c. rewrite elem_of_app, !list_elem_of_filter, elem_of_full_deck.
      rewrite Forall_forall in V. specialize (V c).
      destruct (decide (c ∈ cards)); naive_solver. }
  apply Permutation_length in P. rewrite length_app, H in P.
  assert (length (filter (λ c, of_suit s c) Deck.full) = 13%nat) as D
    by (destruct s; vm_compute; reflexivity).
  lia.
Qed.

(** ** Runs *)

(** The strictly ascending lists of length [n] with values from [low] to 12 *)
Fixpoint ascending_lists (n : nat) (low : Z) : list (list Z) :=
  match n with
  | O => [[]]
  | S n => r ← range low 13; cons r <$> ascending_lists n (r + 1)
  end.

Lemma elem_of_ascending_lists low l :
  StronglySorted Z.lt l → Forall (λ r, low ≤ r < 13) l → l ∈ ascending_lists (length l) low.
Proof.
  intros H. revert low. induction H as [|r l Hl IH Hr]; intros low Hb; simpl.
  { by apply list_elem_of_singleton. }
  inversion_clear Hb as [|? ? Hrb Hlb]. apply list_elem_of_bind. exists r. split.
  - apply list_elem_of_fmap_2, IH. apply Forall_forall. intros x Hx.
    rewrite Forall_forall in Hr, Hlb. specialize (Hr x Hx). specialize (Hlb x Hx). lia.
  - apply elem_of_range. lia.
Qed.

(** The runs of a list of ranks that count from zero, with their outs *)
Definition runs_in (l : list Z) : list (draw_type * Z) :=
  (λ r, (OESD, run_outs r)) <$>
  filter (λ r, forallb (λ k, bool_decide (r - 2 + k ∈ l)) [0; 1; 2; 3]) (range 2 12).

#[local] Instance draw_type_eq_dec : EqDecision draw_type.
Proof. solve_decision. Defined.

Lemma windows_checked :
  forallb (λ n, forallb (λ l, bool_decide (straight_draws l = runs_in l)) (ascending_lists n 0))
    (seq 0 7) = true.
Proof. vm_cast_no_check (eq_refl true). Qed.

(** ** Cards as the tool reads them *)

Definition drawn (c : card) : pystr * pystr :=
  (match drop (Z.to_nat (Card.rank c - 2)) RANKS with r :: _ => [r] | [] => [] end,
   Card.SUIT_SYMBOLS (Card.suit c)).

Lemma drawn_read c :
  Card.valid c →
  parse_card (Card.str c) = Ok (drawn c) ∧ rank_index (drawn c) = Ok (Card.rank c - 2).
Proof.
  intros Hc%elem_of_full_deck.
  assert (Forall (λ c, parse_card (Card.str c) = Ok (drawn c) ∧
                       rank_index (drawn c) = Ok (Card.rank c - 2)) Deck.full) as H
    by (apply (bool_decide_unpack _); vm_compute; done).
  rewrite Forall_forall in H. auto.
Qed.

Lemma flush_draws_count cards counts :
  Forall Card.valid cards →
  flush_draws (drawn <$> cards) counts
  = Ok (replicate (length (filter (λ kv : pystr * Z, kv.2 = 4) counts)) (FLUSH_DRAW, 9)).
Proof.
  intros V. induction counts as [|[suit n] counts IH]; [done|]. cbn [flush_draws].
  rewrite filter_cons. destruct (Z.eqb_spec n 4) as [->|Hn].
  - rewrite decide_True by done.
    assert (∃ ranks, map_result rank_index (filter (λ c, c.2 = suit) (drawn <$> cards)) = Ok ranks)
      as [ranks ->].
    { clear IH. induction V as [|c cards Hc V [ranks E]]; [by exists []|].
      rewrite fmap_cons, filter_cons. destruct (decide _); [|by exists ranks].
      exists (Card.rank c - 2 :: ranks). cbn [map_result].
      by rewrite (proj2 (drawn_read c Hc)), E. }
    cbn [mbind result_bind]. by rewrite IH.
  - by rewrite decide_False.
Qed.

Lemma suit_count_filter cards s :
  suit_count cards s = length (filter (λ s', s' = s) (Card.suit <$> cards)).
Proof.
  unfold suit_count. induction cards as [|c cards IH]; [done|].
  rewrite fmap_cons, !filter_cons. unfold of_suit at 1.
  destruct (decide (Card.suit c = s)) as [E|E].
  - rewrite decide_True by by apply bool_decide_pack. cbn. by rewrite IH.
  - rewrite decide_False; [exact IH|]. by intros H%bool_decide_unpack.
Qed.

Lemma fmap_replicate {A B} (f : A → B) y l :
  (∀ x, x ∈ l → f x = y) → f <$> l = replicate (length l) y.
Proof.
  induction l as [|x l IH]; intros H; [done|]. cbn. rewrite (H x) by by left. f_equal.
  apply IH. intros z Hz. apply H. by right.
Qed.

Lemma flush_part cards :
  (4 ≤ length cards ≤ 6)%nat → NoDup cards → Forall Card.valid cards →
  flush_draws (drawn <$> cards) (counter (snd <$> (drawn <$> cards)))
  = Ok ((λ s, (FLUSH_DRAW, unseen cards (of_suit s))) <$> flush_suits cards).
Proof.
  intros L N V. rewrite flush_draws_count by done. f_equal.
  set (l := Card.suit <$> cards).
  assert (suits_checked l = true) as H.
  { pose proof suit_lists_checked as H. rewrite forallb_forall in H.
    specialize (H (length l)). rewrite forallb_forall in H. apply H.
    - unfold l. rewrite length_fmap.
      destruct (length cards) as [|[|[|[|[|[|[|]]]]]]]; simpl; auto; lia.
    - apply list_elem_of_In, elem_of_suit_lists. }
  apply Nat.eqb_eq in H.
  replace (snd <$> (drawn <$> cards)) with (Card.SUIT_SYMBOLS <$> l)
    by (unfold l; by rewrite <- !list_fmap_compose).
  rewrite H. unfold flush_suits. rewrite (list_filter_iff _ (λ s, suit_count cards s = 4%nat)).
  - symmetry. apply fmap_replicate. intros s [Hs _]%list_elem_of_filter. by rewrite unseen_nine.
  - intros s. unfold l. by rewrite suit_count_filter.
Qed.

(** ** The ranks *)

Lemma strictly_sorted l : StronglySorted Z.le l → NoDup l → StronglySorted Z.lt l.
Proof.
  induction 1 as [|x l _ IH Hx]; intros N; [constructor|]. apply NoDup_cons in N as [Hn N].
  constructor; [by apply IH|].
  apply Forall_forall. intros y Hy. rewrite Forall_forall in Hx. specialize (Hx y Hy).
  apply Z.le_neq. split; [done|]. by intros ->.
Qed.

Lemma straight_part ranks :
  (length ranks ≤ 6)%nat → Forall (λ r, 0 ≤ r < 13) ranks →
  straight_draws (sort_asc (remove_dups ranks)) = runs_in (sort_asc (remove_dups ranks)).
Proof.
  intros L B. set (l := sort_asc (remove_dups ranks)).
  assert (l ≡ₚ remove_dups ranks) as P by apply sort_with_Permutation.
  assert (NoDup l) as N by (rewrite P; apply NoDup_remove_dups).
  assert (∀ x, x ∈ l → x ∈ ranks) as Hin by (intros x; by rewrite P, elem_of_remove_dups).
  assert (length l ≤ 6)%nat as Ll.
  { etrans; [|exact L]. by apply submseteq_length, NoDup_submseteq. }
  pose proof windows_checked as H. rewrite forallb_forall in H.
  specialize (H (length l) ltac:(apply in_seq; lia)). rewrite forallb_forall in H.
  apply (bool_decide_eq_true _), H, list_elem_of_In, elem_of_ascending_lists.
  - apply strictly_sorted; [|done]. apply (sort_asc_by_Sorted id).
  - apply Forall_forall. intros x Hx. rewrite Forall_forall in B. by apply B, Hin.
Qed.

Lemma runs_of_cards cards ranks :
  (∀ r, r ∈ ranks ↔ r + 2 ∈ Card.rank <$> cards) →
  runs_in ranks = (λ r, (OESD, run_outs r)) <$> runs cards.
Proof.
  intros H. unfold runs_in, runs. f_equal. apply list_filter_iff. intros r.
  rewrite !Is_true_true. unfold has_run. erewrite forallb_ext; [reflexivity|].
  intros k. cbn beta. apply bool_decide_ext. rewrite H. replace (r - 2 + k + 2) with (r + k) by lia.
  done.
Qed.


(** Four spades and four ranks in a row *)
Definition flop_hole : list card := [Card.Card 8 SPADES; Card.Card 7 SPADES].
Definition flop_board : list card := [Card.Card 9 HEARTS; Card.Card 6 SPADES; Card.Card 2 SPADES].

