(* ===== verification/GameHistory.v ===== *)
(** * The hand history database

    Models [src/poker/game_history.py].  A database is its four tables, each a
    list of rows in insertion order, and the counters of the two
    [AUTOINCREMENT] keys.  [clock] numbers the readings of [datetime.now()];
    a timestamp is the number of its reading.  Player ids are the non-negative
    ids of the game. *)
From stdpp Require Import strings.
From S2P Require Import Prelude Py Json.

Module Hand.
Record t := Row {
  hand_id : nat; timestamp : nat; small_blind : Z; big_blind : Z;
  dealer_button : nat; player_ids : pystr; ended_at : option nat }.
#[global] Instance eta : Eta t := λ r,
  Row (hand_id r) (timestamp r) (small_blind r) (big_blind r) (dealer_button r)
    (player_ids r) (ended_at r).
End Hand.

Module Action.
Record t := Row {
  action_id : nat; hand_id : nat; phase : pystr; player_id : nat;
  action_type : pystr; amount : Z; pot_after : Z; timestamp : nat }.
End Action.

Module CommunityCards.
Record t := Row { hand_id : nat; phase : pystr; cards : pystr; timestamp : nat }.
End CommunityCards.

Module ShowdownResult.
Record t := Row {
  hand_id : nat; player_id : nat; hole_cards : option pystr;
  hand_rank : option pystr; winnings : Z; timestamp : nat }.
End ShowdownResult.

Module GameHistoryDB.
Record t := DB {
  hands : list Hand.t;
  actions : list Action.t;
  community_cards : list CommunityCards.t;
  showdown_results : list ShowdownResult.t;
  next_hand_id : nat;
  next_action_id : nat;
  clock : nat }.

#[global] Instance eta : Eta t := λ d,
  DB (hands d) (actions d) (community_cards d) (showdown_results d)
    (next_hand_id d) (next_action_id d) (clock d).

(** [_create_tables] on a new file *)
Definition empty : t := DB [] [] [] [] 1 1 0.

(** [json.dumps] of a list of ids and of a list of strings *)
Definition dumps_ids (l : list nat) : pystr :=
  dumps (JList ((λ i, JInt (Z.of_nat i)) <$> l)).
Definition dumps_strs (l : list pystr) : pystr := dumps (JList (JStr <$> l)).

(** [start_new_hand] returns the new row's id. *)
Definition start_new_hand (small_blind big_blind : Z) (dealer_button : nat)
    (player_ids : list nat) (d : t) : nat * t :=
  let i := next_hand_id d in
  (i, d <| hands ::= λ l, l ++ [Hand.Row i (clock d) small_blind big_blind
                                  dealer_button (dumps_ids player_ids) None] |>
        <| next_hand_id := S i |> <| clock ::= S |>).

Definition record_action (hand_id : nat) (phase : pystr) (player_id : nat)
    (action_type : pystr) (amount pot_after : Z) (d : t) : t :=
  let i := next_action_id d in
  d <| actions ::= λ l, l ++ [Action.Row i hand_id phase player_id action_type
                                amount pot_after (clock d)] |>
    <| next_action_id := S i |> <| clock ::= S |>.

(** [INSERT OR REPLACE]: a row with the same key goes first. *)
Definition record_community_cards (hand_id : nat) (phase : pystr)
    (cards : list pystr) (d : t) : t :=
  d <| community_cards ::= λ l,
        filter (λ r, ¬ (CommunityCards.hand_id r = hand_id ∧ CommunityCards.phase r = phase)) l
        ++ [CommunityCards.Row hand_id phase (dumps_strs cards) (clock d)] |>
    <| clock ::= S |>.

Definition record_showdown (hand_id player_id : nat) (hole_cards : option (list pystr))
    (hand_rank : option pystr) (winnings : Z) (d : t) : t :=
  let hole_cards_json := match hole_cards with
                         | Some (c :: cs) => Some (dumps_strs (c :: cs))
                         | _ => None
                         end in
  d <| showdown_results ::= λ l,
        filter (λ r, ¬ (ShowdownResult.hand_id r = hand_id
                        ∧ ShowdownResult.player_id r = player_id)) l
        ++ [ShowdownResult.Row hand_id player_id hole_cards_json hand_rank winnings
              (clock d)] |>
    <| clock ::= S |>.

Definition end_hand (hand_id : nat) (d : t) : t :=
  let ended_at := clock d in
  d <| hands ::= fmap (λ r, if bool_decide (Hand.hand_id r = hand_id)
                            then r <| Hand.ended_at := Some ended_at |> else r) |>
    <| clock ::= S |>.

(** *** Queries *)

(** The dictionary [get_hand_history] builds: the row of [hands] with its id
    list parsed, and the parts of the other tables. *)
Record hand_history := HandHistory {
  hh_hand : Hand.t;
  hh_player_ids : json;
  hh_actions : list Action.t;
  hh_community_cards : list (pystr * json);
  hh_showdown_results : list (ShowdownResult.t * option json) }.

Definition actions_of_hand (i : nat) (d : t) : list Action.t :=
  sort_asc_by (λ r, Z.of_nat (Action.action_id r))
    (filter (λ r, Action.hand_id r = i) (actions d)).

Fixpoint community_dict (rows : list CommunityCards.t) (acc : list (pystr * json)) :
    result (list (pystr * json)) :=
  match rows with
  | [] => Ok acc
  | r :: rows => cards ← loads (CommunityCards.cards r);
                 community_dict rows (dict_set (CommunityCards.phase r) cards acc)
  end.

(** [if result["hole_cards"]: json.loads(...)]: a null or empty column stays. *)
Definition load_hole_cards (r : ShowdownResult.t) :
    result (ShowdownResult.t * option json) :=
  match ShowdownResult.hole_cards r with
  | Some (c :: cs) => j ← loads (c :: cs); Ok (r, Some j)
  | _ => Ok (r, None)
  end.

Definition get_hand_history (hand_id : nat) (d : t) : result (option hand_history) :=
  match filter (λ r, Hand.hand_id r = hand_id) (hands d) with
  | [] => Ok None
  | r :: _ =>
      ids ← loads (Hand.player_ids r);
      community ← community_dict
                    (filter (λ r, CommunityCards.hand_id r = hand_id) (community_cards d)) [];
      showdown ← map_result load_hole_cards
                   (filter (λ r, ShowdownResult.hand_id r = hand_id) (showdown_results d));
      Ok (Some (HandHistory r ids (actions_of_hand hand_id d) community showdown))
  end.

(** [LIMIT n]: a negative limit is no limit. *)
Definition limit {A} (n : Z) (l : list A) : list A :=
  if n <? 0 then l else take (Z.to_nat n) l.

Definition get_recent_hands (n : Z) (d : t) : result (list (option hand_history)) :=
  map_result (λ i, get_hand_history i d)
    (limit n (Hand.hand_id <$> sort_desc_by (λ r, Z.of_nat (Hand.hand_id r)) (hands d))).

Record player_stats := PlayerStats {
  ps_player_id : nat; ps_hands_played : Z; ps_action_counts : list (pystr * Z);
  ps_showdowns : Z; ps_showdown_wins : Z; ps_total_winnings : Z }.

Definition get_player_action_stats (player_id : nat) (d : t) : player_stats :=
  let acts := filter (λ r, Action.player_id r = player_id) (actions d) in
  let shows := filter (λ r, ShowdownResult.player_id r = player_id) (showdown_results d) in
  PlayerStats player_id
    (Z.of_nat (length (remove_dups (Action.hand_id <$> acts))))
    (counter (Action.action_type <$> acts))
    (Z.of_nat (length shows))
    (sum_by (λ r, if 0 <? ShowdownResult.winnings r then 1 else 0) shows)
    (sum_by ShowdownResult.winnings shows).

Definition get_player_recent_actions (player_id : nat) (n : Z) (d : t) : list Action.t :=
  limit n (sort_desc_by (λ r, Z.of_nat (Action.action_id r))
             (filter (λ r, Action.player_id r = player_id) (actions d))).

(** *** The module-level functions for agents

    They go through a module-level instance, created on first use by
    [GameHistoryDB()] with its default arguments: a new file. *)

Definition get_db (instance : option t) : t := default empty instance.

Record history_answer := HistoryAnswer {
  ha_hand : option (option hand_history);
  ha_recent_hands : option (list (option hand_history));
  ha_player : option (player_stats * list Action.t) }.

Definition get_game_history (instance : option t) (hand_id player_id : option nat)
    (n : Z) : result history_answer :=
  let db := get_db instance in
  hand ← match hand_id with
         | Some i => Some <$> get_hand_history i db
         | None => Ok None
         end;
  recent ← match hand_id with
           | Some _ => Ok None
           | None => Some <$> get_recent_hands n db
           end;
  Ok (HistoryAnswer hand recent
        ((λ i, (get_player_action_stats i db, get_player_recent_actions i n db))
         <$> player_id)).

Definition get_opponent_stats (instance : option t) (opponent_ids : list nat) :
    list (nat * player_stats) :=
  foldl (λ acc i, dict_set i (get_player_action_stats i (get_db instance)) acc)
    [] opponent_ids.

(** [MAX(hand_id)], where a maximum of 0 would also count as none. *)
Definition get_last_hand_id (instance : option t) : option nat :=
  match Hand.hand_id <$> hands (get_db instance) with
  | [] => None
  | i :: l => let m := foldl Nat.max i l in if bool_decide (m = 0)%nat then None else Some m
  end.
End GameHistoryDB.
