(* ===== verification/HistoryProps.v ===== *)
(** * Properties of the database of hands

    The invariant of its tables, which every operation keeps, and that under it every
    query is answered. *)
From stdpp Require Import strings sorting.
From S2P Require Import Prelude Py Json JsonProps GameHistory.
Import GameHistoryDB.

(** ** Rows as they are read *)

Definition ids_json (l : list nat) : json := JList ((λ i, JInt (Z.of_nat i)) <$> l).
Definition strs_json (l : list pystr) : json := JList (JStr <$> l).

Lemma loads_ids l : loads (dumps_ids l) = Ok (ids_json l).
Proof.
  apply loads_dumps_eq, plain_list, Forall_forall.
  by intros v (i & -> & _)%list_elem_of_fmap.
Qed.

Lemma loads_strs l : loads (dumps_strs l) = Ok (strs_json l).
Proof.
  apply loads_dumps_eq, plain_list, Forall_forall.
  by intros v (i & -> & _)%list_elem_of_fmap.
Qed.

Lemma dumps_strs_head l : ∃ s, dumps_strs l = 91%N :: s.
Proof. unfold dumps_strs, dumps. cbn [dump]. destruct (dump _ _ _ <$> _); by eexists. Qed.

(** ** The invariant of a database

    The keys are below the counters, the actions are in the order of their keys, and the
    columns that hold JSON hold lists of ids and of strings. *)

Definition hand_row_ok (n : nat) (r : Hand.t) : Prop :=
  (Hand.hand_id r < n)%nat ∧ ∃ l, Hand.player_ids r = dumps_ids l.
Definition cards_row_ok (n : nat) (r : CommunityCards.t) : Prop :=
  (CommunityCards.hand_id r < n)%nat ∧ ∃ l, CommunityCards.cards r = dumps_strs l.
Definition shown_row_ok (n : nat) (r : ShowdownResult.t) : Prop :=
  (ShowdownResult.hand_id r < n)%nat ∧
  (ShowdownResult.hole_cards r = None ∨ ∃ l, ShowdownResult.hole_cards r = Some (dumps_strs l)).
Definition earlier (a b : Action.t) : Prop := (Action.action_id a < Action.action_id b)%nat.

Record db_ok (d : GameHistoryDB.t) : Prop := DbOk {
  dk_hands : Forall (hand_row_ok (next_hand_id d)) (hands d);
  dk_actions : Forall (λ r, Action.hand_id r < next_hand_id d ∧
                            Action.action_id r < next_action_id d)%nat (actions d);
  dk_order : StronglySorted earlier (actions d);
  dk_cards : Forall (cards_row_ok (next_hand_id d)) (community_cards d);
  dk_shown : Forall (shown_row_ok (next_hand_id d)) (showdown_results d) }.

Lemma empty_ok : db_ok empty.
Proof. split; constructor. Qed.

Lemma Forall_filter_rows {A} (Q P : A → Prop) `{∀ x, Decision (P x)} l :
  Forall Q l → Forall Q (filter P l).
Proof. rewrite !Forall_forall. intros F x [_ Hx]%list_elem_of_filter. auto. Qed.

Lemma Forall_weaken {A} (P : nat → A → Prop) n l :
  (∀ x, P n x → P (S n) x) → Forall (P n) l → Forall (P (S n)) l.
Proof. intros H F. eapply Forall_impl; [exact F|]. exact H. Qed.

Lemma start_new_hand_db_ok sb bb dealer ids d :
  db_ok d → db_ok (start_new_hand sb bb dealer ids d).2.
Proof.
  intros [H A O C S]. split; cbn.
  - apply Forall_app. split; [eapply Forall_weaken; [|exact H]; intros x []; split; auto; lia|].
    constructor; [|done]. split; cbn; [lia|eauto].
  - eapply Forall_impl; [exact A|]. cbn. lia.
  - done.
  - eapply Forall_weaken; [|exact C]. intros x []. split; auto; lia.
  - eapply Forall_weaken; [|exact S]. intros x []. split; auto; lia.
Qed.

Lemma record_action_db_ok i ph p a x y d :
  (i < next_hand_id d)%nat → db_ok d → db_ok (record_action i ph p a x y d).
Proof.
  intros Hi [H A O C S]. split; cbn; try done.
  - apply Forall_app. split; [|by constructor; [cbn; lia|]].
    eapply Forall_impl; [exact A|]. cbn. lia.
  - apply StronglySorted_app_2; [|done|by repeat constructor].
    intros r s Hr ->%list_elem_of_singleton. unfold earlier. cbn.
    rewrite Forall_forall in A. apply A in Hr. lia.
Qed.

Lemma record_community_db_ok i ph l d :
  (i < next_hand_id d)%nat → db_ok d → db_ok (record_community_cards i ph l d).
Proof.
  intros Hi [H A O C S]. split; cbn; try done. apply Forall_app. split.
  - by apply Forall_filter_rows.
  - constructor; [|done]. split; cbn; [done|eauto].
Qed.

Lemma record_showdown_db_ok i p cards rank x d :
  (i < next_hand_id d)%nat → db_ok d → db_ok (record_showdown i p cards rank x d).
Proof.
  intros Hi [H A O C S]. split; cbn; try done. apply Forall_app. split.
  - by apply Forall_filter_rows.
  - constructor; [|done]. split; cbn; [done|].
    destruct cards as [[|c cs]|]; [by left| |by left]. right. by exists (c :: cs).
Qed.

Lemma end_hand_db_ok i d : db_ok d → db_ok (end_hand i d).
Proof.
  intros [H A O C S]. split; cbn; try done. apply Forall_fmap. eapply Forall_impl; [exact H|].
  intros r [? ?]. cbn. by case_bool_decide.
Qed.

(** ** Every query is answered *)

Lemma actions_of_hand_eq i d :
  db_ok d → actions_of_hand i d = filter (λ r, Action.hand_id r = i) (actions d).
Proof.
  intros [_ _ O _ _]. unfold actions_of_hand, sort_asc_by. apply sort_with_id.
  induction O as [|r l O IH F]; [constructor|]. rewrite filter_cons. case_decide; [|done].
  constructor; [done|]. apply Forall_filter_rows. eapply Forall_impl; [exact F|].
  intros s. unfold earlier. intros ?. apply Z.leb_le. lia.
Qed.

Lemma community_dict_total n rows acc :
  Forall (cards_row_ok n) rows → is_Ok (community_dict rows acc).
Proof.
  intros H. revert acc. induction H as [|r rows [_ [l E]] _ IH]; intros acc; [by eexists|].
  cbn [community_dict]. rewrite E, loads_strs. apply IH.
Qed.

Lemma load_hole_cards_total n r : shown_row_ok n r → is_Ok (load_hole_cards r).
Proof.
  intros [_ [E|[l E]]]; unfold load_hole_cards; rewrite E; [by eexists|].
  destruct (dumps_strs_head l) as [s Es]. rewrite Es, <- Es, loads_strs. by eexists.
Qed.

Lemma get_hand_history_total i d : db_ok d → is_Ok (get_hand_history i d).
Proof.
  intros [H _ _ C S]. unfold get_hand_history.
  destruct (filter _ (hands d)) as [|r l] eqn:E; [by eexists|].
  assert (r ∈ hands d) as Hr.
  { assert (r ∈ r :: l) as Hin by by left. rewrite <- E in Hin. by apply list_elem_of_filter in Hin as []. }
  rewrite Forall_forall in H. destruct (H r Hr) as [_ [ids ->]]. rewrite loads_ids.
  destruct (community_dict_total _ (filter (λ r, CommunityCards.hand_id r = i) (community_cards d)) []
    (Forall_filter_rows _ _ _ C)) as [community Ec].
  destruct (map_total load_hole_cards
    (filter (λ r, ShowdownResult.hand_id r = i) (showdown_results d))) as [shown Es].
  { intros x [_ Hx]%list_elem_of_filter. rewrite Forall_forall in S.
    by apply (load_hole_cards_total _ x (S x Hx)). }
  unfold mbind, result_bind. rewrite Ec, Es. by eexists.
Qed.

Lemma get_recent_hands_total n d : db_ok d → is_Ok (get_recent_hands n d).
Proof.
  intros H. apply map_total. intros i _. by apply get_hand_history_total.
Qed.

Lemma get_game_history_total instance hand_id player_id n :
  db_ok (get_db instance) → is_Ok (get_game_history instance hand_id player_id n).
Proof.
  intros H. unfold get_game_history. cbv zeta.
  destruct (get_recent_hands_total n _ H) as [hs Er]. destruct hand_id as [i|].
  - destruct (get_hand_history_total i _ H) as [h E]. rewrite E. by eexists.
  - rewrite Er. by eexists.
Qed.
