(* ===== verification/HistoryTool.v ===== *)
(** * Tools of the agents on the hand history

    Models [src/docs/example_history_tool.py], the example of tools that analyse the
    opponents with the module-level functions of [src/poker/game_history.py], and
    [src/agents/simple_history_agent/tools/history_tools.py], the tool of an agent that
    reads the newest database file itself. *)
From stdpp Require Import strings.
From S2P Require Import Prelude Py Json Floats GameHistory.

(** ** The example tools *)

Module ExampleHistoryTool.
Import GameHistoryDB.
Section Instance_.
(** [_db_instance] of the module of the database *)
Context (instance : option GameHistoryDB.t).

(** [get_opponent_stats([i])[i]] *)
Definition stats_of (opponent_id : nat) : result player_stats :=
  dict_item opponent_id (get_opponent_stats instance [opponent_id]).

(** [action_counts.get(kind, dflt)] *)
Definition count_of (kind : pystr) (dflt : Z) (s : player_stats) : Z :=
  dict_get_default kind dflt (ps_action_counts s).

(** [sum(action_counts.values())] *)
Definition total_actions (s : player_stats) : Z := sum_by snd (ps_action_counts s).

Record analysis := Analysis {
  an_player_id : nat; an_hands_played : Z; an_vpip : spec_float;
  an_aggression_factor : spec_float; an_showdown_tendency : spec_float;
  an_win_rate_at_showdown : spec_float; an_total_winnings : Z;
  an_action_counts : list (pystr * Z) }.

Definition analyze_opponent_tendencies (opponent_id : nat) : result analysis :=
  stats ← stats_of opponent_id;
  let hands_played := Z.max (ps_hands_played stats) 1 in
  let voluntary_actions :=
    count_of (u "call") 0 stats + count_of (u "raise") 0 stats + count_of (u "all_in") 0 stats in
  vpip ← int_div_int voluntary_actions (Z.max (total_actions stats) 1);
  let raise_count := count_of (u "raise") 0 stats + count_of (u "all_in") 0 stats in
  let call_count := Z.max (count_of (u "call") 1 stats) 1 in
  aggression_factor ← int_div_int raise_count call_count;
  showdown_rate ← int_div_int (ps_showdowns stats) hands_played;
  win_rate ← if 0 <? ps_showdowns stats
             then int_div_int (ps_showdown_wins stats) (ps_showdowns stats)
             else Ok (decimal 0 0);
  Ok (Analysis opponent_id hands_played (round_digits 2 vpip) (round_digits 2 aggression_factor)
        (round_digits 2 showdown_rate) (round_digits 2 win_rate) (ps_total_winnings stats)
        (ps_action_counts stats)).

(** The loop over the opponents: an analysis that raises is left out. *)
Definition analyses (opponent_ids : list nat) : list analysis :=
  omap (λ i, match analyze_opponent_tendencies i with Ok a => Some a | Raise _ => None end)
    opponent_ids.

(** [sum(...) / max(len(l), 1)] *)
Definition average (f : analysis → spec_float) (l : list analysis) : result spec_float :=
  n ← float_of_int (Z.max (Z.of_nat (length l)) 1);
  Ok (float_div (float_sum (decimal 0 0) (decimal 0 0) (f <$> l)) n).

Definition table_type_of (avg_vpip avg_aggression : spec_float) : pystr :=
  if float_gt avg_vpip (decimal 4 (-1)) && float_gt avg_aggression (decimal 2 0)
  then u "aggressive"
  else if float_gt avg_vpip (decimal 4 (-1)) then u "loose"
  else if float_gt avg_aggression (decimal 2 0) then u "tight_aggressive"
  else u "passive".

Record table_profile := TableProfile {
  tp_my_stats : option player_stats; tp_opponents : list analysis;
  tp_vpip : spec_float; tp_aggression : spec_float; tp_table_type : pystr }.

Definition get_table_profile (my_player_id : nat) (opponent_ids : list nat) :
    result table_profile :=
  my_history ← get_game_history instance None (Some my_player_id) 20;
  let opponents_analysis := analyses opponent_ids in
  avg_vpip ← average an_vpip opponents_analysis;
  avg_aggression ← average an_aggression_factor opponents_analysis;
  Ok (TableProfile (fst <$> ha_player my_history) opponents_analysis (round_digits 2 avg_vpip)
        (round_digits 2 avg_aggression) (table_type_of avg_vpip avg_aggression)).

(** [su_winners] is [None] where the hand did not go to a showdown. *)
Record summary := Summary {
  su_hand_id : nat; su_started : nat; su_dealer_button : nat; su_players : json;
  su_total_actions : nat; su_winners : option (list nat) }.

Definition summarize (hand : hand_history) : summary :=
  Summary (Hand.hand_id (hh_hand hand)) (Hand.timestamp (hh_hand hand))
    (Hand.dealer_button (hh_hand hand)) (hh_player_ids hand) (length (hh_actions hand))
    (match hh_showdown_results hand with
     | [] => None
     | showdown => Some ((λ s : ShowdownResult.t * option json, ShowdownResult.player_id s.1) <$>
                         filter (λ s, 0 < ShowdownResult.winnings s.1) showdown)
     end).

Definition get_recent_hand_summary (n : Z) : result (list summary) :=
  history ← get_game_history instance None None n;
  Ok (summarize <$> omap id (default [] (ha_recent_hands history))).

Definition should_play_aggressive (my_player_id : nat) (opponent_ids : list nat) : bool :=
  match get_table_profile my_player_id opponent_ids with
  | Ok table_profile => bool_decide (tp_table_type table_profile ∈ [u "passive"; u "loose"])
  | Raise _ => false
  end.

Record range_estimate := RangeEstimate {
  re_player_id : nat; re_estimated_range : pystr; re_raise_rate : spec_float;
  re_fold_rate : spec_float }.

Definition get_player_hand_range_estimate (player_id : nat) : result range_estimate :=
  stats ← stats_of player_id;
  raise_rate ← int_div_int (count_of (u "raise") 0 stats) (Z.max (total_actions stats) 1);
  fold_rate ← int_div_int (count_of (u "fold") 0 stats) (Z.max (total_actions stats) 1);
  let range_type := if float_gt raise_rate (decimal 3 (-1)) then u "wide"
                    else if float_gt fold_rate (decimal 6 (-1)) then u "tight"
                    else u "medium" in
  Ok (RangeEstimate player_id range_type (round_digits 2 raise_rate) (round_digits 2 fold_rate)).
End Instance_.
End ExampleHistoryTool.

(** ** The tool of the agent that looks at the history *)

Module HistoryTools.
Import GameHistoryDB.

(** A file of the folder of databases, with the time of its last change *)
Record db_file := DbFile { df_path : pystr; df_mtime : Z; df_db : GameHistoryDB.t }.

(** [_find_latest_game_db]: [None] stands for a folder that does not exist; the files are
    those of the pattern, in the order of [glob]. *)
Definition find_latest_game_db (db_dir : option (list db_file)) : option db_file :=
  match db_dir with
  | None => None
  | Some db_files => max_by df_mtime db_files
  end.

Section Text.
(** How a reading of the clock, and an exception, are written *)
Context (isoformat : nat → pystr) (exn_text : exn → pystr).

Definition opt_json {A} (f : A → json) (x : option A) : json :=
  match x with Some x => f x | None => JNull end.
Definition jnat (n : nat) : json := JInt (Z.of_nat n).
Definition jtime (n : nat) : json := JStr (isoformat n).

(** [dict(row)] of a row of the table of actions *)
Definition action_dict (r : Action.t) : json := JDict
  [(u "action_id", jnat (Action.action_id r)); (u "hand_id", jnat (Action.hand_id r));
   (u "phase", JStr (Action.phase r)); (u "player_id", jnat (Action.player_id r));
   (u "action_type", JStr (Action.action_type r)); (u "amount", JInt (Action.amount r));
   (u "pot_after", JInt (Action.pot_after r)); (u "timestamp", jtime (Action.timestamp r))].

(** A row of the showdown, its cards parsed if they are not null or empty *)
Definition showdown_dict (x : ShowdownResult.t * option json) : json := let r := x.1 in JDict
  [(u "hand_id", jnat (ShowdownResult.hand_id r)); (u "player_id", jnat (ShowdownResult.player_id r));
   (u "hole_cards", match x.2 with
                    | Some cards => cards
                    | None => opt_json JStr (ShowdownResult.hole_cards r)
                    end);
   (u "hand_rank", opt_json JStr (ShowdownResult.hand_rank r));
   (u "winnings", JInt (ShowdownResult.winnings r));
   (u "timestamp", jtime (ShowdownResult.timestamp r))].

(** The dictionary of [get_hand_history] *)
Definition hand_dict (h : hand_history) : json := let r := hh_hand h in JDict
  [(u "hand_id", jnat (Hand.hand_id r)); (u "timestamp", jtime (Hand.timestamp r));
   (u "small_blind", JInt (Hand.small_blind r)); (u "big_blind", JInt (Hand.big_blind r));
   (u "dealer_button", jnat (Hand.dealer_button r)); (u "player_ids", hh_player_ids h);
   (u "ended_at", opt_json jtime (Hand.ended_at r));
   (u "actions", JList (action_dict <$> hh_actions h));
   (u "community_cards", JDict (hh_community_cards h));
   (u "showdown_results", JList (showdown_dict <$> hh_showdown_results h))].

Definition error_text (error message : pystr) : pystr :=
  dumps_indent 2 (JDict [(u "error", JStr error); (u "message", JStr message)]).

Definition answer (db_path : pystr) (hands : list (option hand_history)) : json := JDict
  [(u "database_path", JStr db_path); (u "hands_count", jnat (length hands));
   (u "hands", JList (opt_json hand_dict <$> hands))].

Definition get_recent_hands (db_dir : option (list db_file)) (n : Z) : pystr :=
  match find_latest_game_db db_dir with
  | None => error_text (u "データベースが見つかりません")
                (u "db/ディレクトリにgame_history_*.sqlite3ファイルが存在しません")
  | Some file =>
      match GameHistoryDB.get_recent_hands n (df_db file) with
      | Ok hands => dumps_indent 2 (answer (df_path file) hands)
      | Raise e => error_text (exn_text e) (u "ハンド履歴の取得中にエラーが発生しました")
      end
  end.
End Text.
End HistoryTools.
