(* ===== verification/HistoryToolProps.v ===== *)
(** * Properties of the tools on the hand history

    The agent's tool answers a JSON text of exactly what the database answers; the example
    tools, which go through the module-level instance, know of no hand. *)
From stdpp Require Import strings.
From S2P Require Import Prelude Py Json JsonProps Floats GameHistory HistoryProps HistoryTool.
Import GameHistoryDB HistoryTools ExampleHistoryTool.

(** ** What the database answers is plain JSON *)

Lemma plain_ids l : plain (ids_json l).
Proof. apply plain_list, Forall_forall. by intros v (i & -> & _)%list_elem_of_fmap. Qed.
Lemma plain_strs l : plain (strs_json l).
Proof. apply plain_list, Forall_forall. by intros v (i & -> & _)%list_elem_of_fmap. Qed.

Lemma plain_dict_set k v d : plain v → plain (JDict d) → plain (JDict (dict_set k v d)).
Proof.
  rewrite !plain_dict. intros Hv [N F]. split; [by apply dict_set_NoDup|].
  clear N. induction F as [|[k' v'] d Hv' F IH]; cbn [dict_set]; [by repeat constructor|].
  case_decide; by constructor.
Qed.

Lemma community_dict_plain n rows acc d :
  Forall (cards_row_ok n) rows → plain (JDict acc) → community_dict rows acc = Ok d →
  plain (JDict d).
Proof.
  intros F. revert acc. induction F as [|r rows [_ [l E]] _ IH]; intros acc Hacc; cbn [community_dict].
  { by intros [= <-]. }
  rewrite E, loads_strs. apply IH. by apply plain_dict_set; [apply plain_strs|].
Qed.

Definition plain_shown (x : ShowdownResult.t * option json) : Prop :=
  match x.2 with Some j => plain j | None => True end.

Lemma load_hole_cards_plain n r x :
  shown_row_ok n r → load_hole_cards r = Ok x → plain_shown x.
Proof.
  intros [_ [E|[l E]]]; unfold load_hole_cards; rewrite E; [by intros [= <-]|].
  destruct (dumps_strs_head l) as [s Es]. rewrite Es, <- Es, loads_strs. intros [= <-].
  apply plain_strs.
Qed.

Record plain_hand (h : hand_history) : Prop := PlainHand {
  ph_ids : plain (hh_player_ids h);
  ph_cards : plain (JDict (hh_community_cards h));
  ph_shown : Forall plain_shown (hh_showdown_results h) }.

Lemma map_result_image {A B} (f : A → result B) (P : B → Prop) l ys :
  (∀ x y, x ∈ l → f x = Ok y → P y) → map_result f l = Ok ys → Forall P ys.
Proof.
  revert ys. induction l as [|x l IH]; intros ys H; cbn [map_result]; [by intros [= <-]|].
  destruct (f x) as [y|] eqn:E; [|done]. cbn [mbind result_bind].
  destruct (map_result f l) as [zs|]; [|done]. intros [= <-]. constructor.
  - apply (H x y); [by left|done].
  - apply IH; [|done]. intros x' y' Hx. apply H. by right.
Qed.

Lemma get_hand_history_plain i d h :
  db_ok d → get_hand_history i d = Ok (Some h) → plain_hand h.
Proof.
  intros [H _ _ C S]. unfold get_hand_history.
  destruct (filter _ (hands d)) as [|r l] eqn:E; [done|].
  assert (r ∈ hands d) as Hr.
  { assert (r ∈ r :: l) as Hin by by left. rewrite <- E in Hin. by apply list_elem_of_filter in Hin as []. }
  rewrite Forall_forall in H. destruct (H r Hr) as [_ [ids ->]]. rewrite loads_ids.
  cbn [mbind result_bind]. destruct (community_dict _ []) as [community|] eqn:Ec; [|done].
  cbn [mbind result_bind]. destruct (map_result load_hole_cards _) as [shown|] eqn:Es; [|done].
  intros [= <-]. split; cbn.
  - apply plain_ids.
  - refine (community_dict_plain _ _ _ _ (Forall_filter_rows _ _ _ C) _ Ec).
    apply plain_dict. split; [constructor|done].
  - eapply map_result_image; [|exact Es]. intros x y [_ Hx]%list_elem_of_filter.
    rewrite Forall_forall in S. by apply (load_hole_cards_plain _ x y (S x Hx)).
Qed.

Lemma get_recent_hands_plain n d hs :
  db_ok d → GameHistoryDB.get_recent_hands n d = Ok hs →
  Forall (λ h, match h with Some h => plain_hand h | None => True end) hs.
Proof.
  intros H. apply map_result_image. intros i [h|] _ E; [|done].
  by apply (get_hand_history_plain i d h).
Qed.

(** ** The tool of the agent *)

Section Tool.
Context (isoformat : nat → pystr) (exn_text : exn → pystr).

Lemma plain_opt {A} (f : A → json) x : (∀ y, plain (f y)) → plain (opt_json f x).
Proof. intros H. destruct x; [apply H|done]. Qed.

(** A dictionary of literal keys *)
Lemma plain_record (d : list (pystr * json)) :
  bool_decide (NoDup d.*1) = true → Forall (λ kv, plain kv.2) d → plain (JDict d).
Proof. intros H F. apply plain_dict. split; [by apply bool_decide_eq_true in H|done]. Qed.

(** Its entries, but for those that are plain at once *)
Ltac columns := rewrite !Forall_cons, Forall_nil; cbn [snd]; split_and!; try done.

Lemma plain_action r : plain (action_dict isoformat r).
Proof. apply plain_record; [vm_compute; done|]. by repeat constructor. Qed.

Lemma plain_showdown x : plain_shown x → plain (showdown_dict isoformat x).
Proof.
  intros H. apply plain_record; [vm_compute; done|]. unfold plain_shown in H.
  columns; [|by apply plain_opt]. destruct (x.2); [done|by apply plain_opt].
Qed.

Lemma plain_hand_dict h : plain_hand h → plain (hand_dict isoformat h).
Proof.
  intros [Hi Hc Hs]. apply plain_record; [vm_compute; done|].
  columns; [by apply plain_opt|apply plain_list|apply plain_list].
  - apply Forall_fmap, Forall_true. intros r. apply plain_action.
  - apply Forall_fmap. eapply Forall_impl; [exact Hs|]. intros x. apply plain_showdown.
Qed.

Lemma plain_answer path hs :
  Forall (λ h, match h with Some h => plain_hand h | None => True end) hs →
  plain (answer isoformat path hs).
Proof.
  intros F. apply plain_record; [vm_compute; done|].
  columns. apply plain_list, Forall_fmap.
  eapply Forall_impl; [exact F|]. intros [h|] H; [by apply plain_hand_dict|done].
Qed.

End Tool.

(** ** The example tools *)

(** What the module-level functions know about anybody *)
Definition unknown (i : nat) : analysis :=
  Analysis i 1 (decimal 0 0) (decimal 0 0) (decimal 0 0) (decimal 0 0) 0 [].

Lemma analyses_unknown ids : analyses None ids = unknown <$> ids.
Proof.
  unfold analyses. induction ids as [|i ids IH]; [done|]. cbn [omap list_omap].
  assert (analyze_opponent_tendencies None i = Ok (unknown i)) as ->; [|by rewrite IH].
  unfold analyze_opponent_tendencies, stats_of, get_opponent_stats. cbn [foldl dict_set].
  unfold dict_item. cbn [dict_get]. rewrite decide_True by done. reflexivity.
Qed.

(** Nothing sets the module-level instance before an agent asks, so the tools analyse an
    empty file: every opponent is unknown, and at a table of at most ten players the advice
    is to play aggressively against anybody. *)
Theorem unknown_opponents me ids :
  (length ids ≤ 9)%nat →
  analyses None ids = unknown <$> ids ∧ should_play_aggressive None me ids = true.
Proof.
  intros L. split; [apply analyses_unknown|].
  unfold should_play_aggressive, get_table_profile. rewrite analyses_unknown.
  assert (∀ f, (∀ i, f (unknown i) = decimal 0 0) → average f (unknown <$> ids) = Ok (decimal 0 0)) as A.
  { intros f Hf. unfold average. rewrite length_fmap, <- list_fmap_compose.
    rewrite (list_fmap_ext _ (λ _, decimal 0 0)) by by intros; apply Hf.
    do 10 (destruct ids as [|? ids]; [reflexivity|]). simpl in L. lia. }
  rewrite !A by done. reflexivity.
Qed.
