(* ===== verification/Game.v ===== *)
(** * The game

    Models [src/poker/game.py] up to the showdown, which is in [Showdown.v].
    [PokerGame.t] is the state of a [PokerGame] object; a method that can raise
    is a computation over it, a method that cannot is a function.  Logging has
    no effect on the state and is left out. *)
From stdpp Require Import strings.
From S2P Require Import Prelude Py Json GameModels PlayerModels Evaluator GameHistory.

(** ** Positions in a list *)

(** [[i for i, p in enumerate(l) if test(p)]], counting from [k] *)
Fixpoint indices_from {A} (k : nat) (test : A → bool) (l : list A) : list nat :=
  match l with
  | [] => []
  | x :: l' => if test x then k :: indices_from (S k) test l' else indices_from (S k) test l'
  end.
Definition indices_where {A} (test : A → bool) (l : list A) : list nat :=
  indices_from 0 test l.

(** [l.index(x)], [None] where Python raises [ValueError] *)
Fixpoint index_of (x : nat) (l : list nat) : option nat :=
  match l with
  | [] => None
  | y :: l' => if decide (x = y) then Some O else S <$> index_of x l'
  end.

(** The first element that passes the test *)
Fixpoint find_first {A} (test : A → bool) (l : list A) : option A :=
  match l with
  | [] => None
  | x :: l' => if test x then Some x else find_first test l'
  end.

Definition has_status (s : PlayerStatus) (p : player) : bool :=
  bool_decide (Player.status p = s).
Definition not_busted (p : player) : bool := negb (has_status BUSTED p).
(** [p.status in [PlayerStatus.ACTIVE, PlayerStatus.ALL_IN]] *)
Definition in_hand (p : player) : bool := has_status ACTIVE p || has_status ALL_IN p.

(** ** Showdown results, as kept for the viewer *)

Record payout := Payout { po_player_id : nat; po_hand : pystr; po_winnings : Z }.
Record shown_hand := ShownHand {
  sh_player_id : nat; sh_hand : pystr; sh_cards : list pystr }.
(** [sr_all_hands] is [None] where the dictionary has no such key. *)
Record showdown_result := ShowdownResults {
  sr_winners : list nat; sr_results : list payout; sr_all_hands : option (list shown_hand) }.

Module PokerGame.
Record t := PokerGame {
  small_blind : Z;
  big_blind : Z;
  initial_chips : Z;
  players : list player;
  dealer_button : nat;
  current_player_index : nat;
  deck : Deck.t;
  community_cards : list card;
  current_phase : GamePhase;
  pot : Z;
  current_bet : Z;
  hand_number : nat;
  betting_round_complete : bool;
  last_raiser_index : option nat;
  has_bet_or_raise_this_round : bool;
  action_history : list pystr;
  last_showdown_results : option showdown_result;
  db : GameHistoryDB.t;
  current_hand_id : option nat }.

#[global] Instance eta : Eta t := λ g,
  PokerGame (small_blind g) (big_blind g) (initial_chips g) (players g)
    (dealer_button g) (current_player_index g) (deck g) (community_cards g)
    (current_phase g) (pot g) (current_bet g) (hand_number g)
    (betting_round_complete g) (last_raiser_index g)
    (has_bet_or_raise_this_round g) (action_history g) (last_showdown_results g)
    (db g) (current_hand_id g).

(** ** Construction and seats *)

(** [PokerGame(small_blind, big_blind, initial_chips)]; [shuffle] is the
    shuffle of the first deck. *)
Definition new (shuffle : Deck.t → Deck.t) (small_blind big_blind initial_chips : Z) : t :=
  PokerGame small_blind big_blind initial_chips [] 0 0 (Deck.reset shuffle) []
    PREFLOP 0 0 0 false None false [] None GameHistoryDB.empty None.

Definition add_player (p : player) : M t () :=
  g ← get;
  if (10 <=? length (players g))%nat then raise ValueError
  else put (g <| players := players g ++ [p] |>).

(** [get_player]: the first player with the id, with the seat it is at. *)
Definition find_player (player_id : nat) (g : t) : option (nat * player) :=
  list_find (λ p, Player.id p = player_id) (players g).
Definition get_player (player_id : nat) (g : t) : option player :=
  snd <$> find_player player_id g.

Definition setup_default_game (randint_0_3 : nat) : M t () :=
  g ← get;
  add_player (Player.new HumanPlayer 0 (u "You") (initial_chips g)) ;;
  add_player (Player.new RandomPlayer 1 (u "CPU1") (initial_chips g)) ;;
  add_player (Player.new RandomPlayer 2 (u "CPU2") (initial_chips g)) ;;
  add_player (Player.new RandomPlayer 3 (u "CPU3") (initial_chips g)) ;;
  modify (λ g, g <| dealer_button := randint_0_3 |>).

Definition setup_cpu_only_game (randint_0_3 : nat) : M t () :=
  g ← get;
  add_player (Player.new RandomPlayer 0 (u "CPU0") (initial_chips g)) ;;
  add_player (Player.new RandomPlayer 1 (u "CPU1") (initial_chips g)) ;;
  add_player (Player.new RandomPlayer 2 (u "CPU2") (initial_chips g)) ;;
  add_player (Player.new RandomPlayer 3 (u "CPU3") (initial_chips g)) ;;
  modify (λ g, g <| dealer_button := randint_0_3 |>).

Definition human_name (i : nat) : pystr :=
  if bool_decide (i = 0%nat) then u "You" else u "Player" ++ str_of_nat i.

(** The default model of [LLMPlayer] *)
Definition default_model : pystr := u "gemini-2.5-flash-lite".

Fixpoint add_players_of_types (i : nat) (player_types : list pystr) : M t () :=
  match player_types with
  | [] => mret tt
  | player_type :: rest =>
      g ← get;
      (if bool_decide (player_type = u "human") then
         add_player (Player.new HumanPlayer i (human_name i) (initial_chips g))
       else if bool_decide (player_type = u "random") then
         add_player (Player.new RandomPlayer i (u "CPU" ++ str_of_nat i) (initial_chips g))
       else if bool_decide (player_type = u "llm") then
         add_player (Player.new (LLMPlayer default_model) i (u "AI" ++ str_of_nat i)
                       (initial_chips g))
       else raise ValueError) ;;
      add_players_of_types (S i) rest
  end.

(** [randint n] is what [random.randint(0, n)] returns. *)
Definition setup_configurable_game (randint : nat → nat) (player_types : list pystr) :
    M t () :=
  if negb ((2 <=? length player_types)%nat && (length player_types <=? 10)%nat)
  then raise ValueError
  else
    modify (λ g, g <| players := [] |>) ;;
    add_players_of_types 0 player_types ;;
    modify (λ g, g <| dealer_button := randint (length (players g) - 1)%nat |>).

(** A player configuration: the keys of the dictionary that are present. *)
Record config := Config {
  cfg_type : option pystr; cfg_model : option pystr;
  cfg_agent_id : option pystr; cfg_user_id : option pystr }.

(** [if model:] holds for a present, non-empty model. *)
Definition llm_model (model : option pystr) : pystr :=
  match model with Some (c :: cs) => c :: cs | _ => default_model end.

Fixpoint add_players_of_configs (i : nat) (player_configs : list config) : M t () :=
  match player_configs with
  | [] => mret tt
  | cfg :: rest =>
      g ← get;
      (if bool_decide (cfg_type cfg = Some (u "human")) then
         add_player (Player.new HumanPlayer i (human_name i) (initial_chips g))
       else if bool_decide (cfg_type cfg = Some (u "random")) then
         add_player (Player.new RandomPlayer i (u "CPU" ++ str_of_nat i) (initial_chips g))
       else if bool_decide (cfg_type cfg = Some (u "llm")) then
         add_player (Player.new (LLMPlayer (llm_model (cfg_model cfg))) i
                       (u "AI" ++ str_of_nat i) (initial_chips g))
       else if bool_decide (cfg_type cfg = Some (u "llm_api")) then
         let agent_id := default (u "team1_agent") (cfg_agent_id cfg) in
         let user_id := default (u "player_" ++ str_of_nat i) (cfg_user_id cfg) in
         add_player (Player.new (LLMApiPlayer agent_id user_id) i
                       (u "Agent" ++ str_of_nat i) (initial_chips g))
       else raise ValueError) ;;
      add_players_of_configs (S i) rest
  end.

Definition setup_configurable_game_with_models (randint : nat → nat)
    (player_configs : list config) : M t () :=
  if negb ((2 <=? length player_configs)%nat && (length player_configs <=? 10)%nat)
  then raise ValueError
  else
    modify (λ g, g <| players := [] |>) ;;
    add_players_of_configs 0 player_configs ;;
    modify (λ g, g <| dealer_button := randint (length (players g) - 1)%nat |>).

(** ** Parts of the methods that recur *)

Definition set_player (i : nat) (p : player) (g : t) : t :=
  g <| players := <[i := p]> (players g) |>.

(** [self.action_history.append(...)] *)
Definition append_history (entry : pystr) (g : t) : t :=
  g <| action_history := action_history g ++ [entry] |>.

(** [if self.current_hand_id is not None: self.db...] *)
Definition if_hand_recorded (f : nat → GameHistoryDB.t → GameHistoryDB.t) (g : t) : t :=
  match current_hand_id g with
  | Some hand_id => g <| db := f hand_id (db g) |>
  | None => g
  end.

(** [self.deck.deal_card()] *)
Definition deal_card : M t card := λ g,
  let '(r, d) := Deck.deal_card (deck g) in (r, g <| deck := d |>).

(** ** Starting a hand *)

Definition move_dealer_button (g : t) : t :=
  let active_players := indices_where not_busted (players g) in
  match active_players with
  | [] => g
  | first :: _ =>
      let new_dealer :=
        match index_of (dealer_button g) active_players with
        | None => first
        | Some current_dealer_pos =>
            let next_dealer_pos := ((current_dealer_pos + 1) mod length active_players)%nat in
            default first (active_players !! next_dealer_pos)
        end in
      g <| dealer_button := new_dealer |>
        <| players := imap (λ i p, p <| Player.is_dealer := bool_decide (i = new_dealer) |>)
                        (players g) |>
  end.

(** One blind: the two halves of [_post_blinds] differ in the flag, the
    amount, the names and in what the big blind adds. *)
Definition post_small_blind (sb_pos : nat) : M t () :=
  g ← get;
  p ← lift (nth_item (players g) sb_pos);
  let '(sb_amount, p) := Player.bet (small_blind g) (p <| Player.is_small_blind := true |>) in
  modify (set_player sb_pos p) ;;
  modify (λ g, g <| pot ::= λ x, x + sb_amount |>) ;;
  modify (append_history (u "Player " ++ str_of_nat sb_pos ++ u " posted small blind "
                          ++ str_of_Z sb_amount)) ;;
  modify (λ g, if_hand_recorded (λ hand_id,
            GameHistoryDB.record_action hand_id (u "preflop") (Player.id p)
              (u "small_blind") sb_amount (pot g)) g).

Definition post_big_blind (bb_pos : nat) : M t () :=
  g ← get;
  p ← lift (nth_item (players g) bb_pos);
  let '(bb_amount, p) := Player.bet (big_blind g) (p <| Player.is_big_blind := true |>) in
  modify (set_player bb_pos p) ;;
  modify (λ g, g <| pot ::= λ x, x + bb_amount |> <| current_bet := bb_amount |>
                 <| last_raiser_index := Some bb_pos |>) ;;
  modify (append_history (u "Player " ++ str_of_nat bb_pos ++ u " posted big blind "
                          ++ str_of_Z bb_amount)) ;;
  modify (λ g, if_hand_recorded (λ hand_id,
            GameHistoryDB.record_action hand_id (u "preflop") (Player.id p)
              (u "big_blind") bb_amount (pot g)) g).

(** The seats of the two blinds. *)
Definition blind_seats (g : t) : result (nat * nat) :=
  let active_players := indices_where not_busted (players g) in
  let n := length active_players in
  match index_of (dealer_button g) active_players with
  | None => Raise ValueError
  | Some dealer_pos =>
      if (n =? 2)%nat then
        bb_pos ← nth_item active_players (1 - dealer_pos);
        Ok (dealer_button g, bb_pos)
      else
        sb_pos ← nth_item active_players ((dealer_pos + 1) mod n);
        bb_pos ← nth_item active_players ((dealer_pos + 2) mod n);
        Ok (sb_pos, bb_pos)
  end.

Definition post_blinds : M t () :=
  g ← get;
  if (length (indices_where not_busted (players g)) <? 2)%nat then mret tt
  else
    '(sb_pos, bb_pos) ← lift (blind_seats g);
    post_small_blind sb_pos ;;
    post_big_blind bb_pos.

(** [player.add_hole_card(self.deck.deal_card())] for the player at seat [i] *)
Definition deal_to (i : nat) : M t () :=
  g ← get;
  p ← lift (nth_item (players g) i);
  if not_busted p then
    c ← deal_card;
    let '(r, p') := Player.add_hole_card c p in
    modify (set_player i p') ;; lift r
  else mret tt.

Definition deal_hole_cards : M t () :=
  g ← get;
  for_each [0; 1]%nat (λ _, for_each (seq 0 (length (players g))) deal_to).

Definition set_first_actor_preflop (g : t) : t :=
  let active_players :=
    indices_where (λ p, negb (has_status BUSTED p || has_status FOLDED p)) (players g) in
  match active_players with
  | [] | [_] => g <| betting_round_complete := true |>
  | first :: _ =>
      match index_of (dealer_button g) active_players with
      | None => g <| current_player_index := first |>
      | Some dealer_pos =>
          if (length active_players =? 2)%nat
          then g <| current_player_index := dealer_button g |>
          else
            let utg_pos := ((dealer_pos + 3) mod length active_players)%nat in
            g <| current_player_index := default first (active_players !! utg_pos) |>
      end
  end.

Definition start_new_hand (shuffle : Deck.t → Deck.t) : M t () :=
  modify (λ g, g <| hand_number ::= S |> <| deck := Deck.reset shuffle |>
                 <| community_cards := [] |> <| current_phase := PREFLOP |>
                 <| pot := 0 |> <| current_bet := 0 |>
                 <| betting_round_complete := false |> <| last_raiser_index := None |>
                 <| has_bet_or_raise_this_round := false |>
                 <| last_showdown_results := None |>
                 <| players ::= fmap Player.reset_for_new_hand |>) ;;
  g ← get;
  if (length (indices_where not_busted (players g)) <? 2)%nat then
    modify (λ g, g <| current_phase := FINISHED |>)
  else
    modify move_dealer_button ;;
    post_blinds ;;
    deal_hole_cards ;;
    modify set_first_actor_preflop ;;
    g ← get;
    dealer ← lift (nth_item (players g) (dealer_button g));
    let active_player_ids := Player.id <$> filter (λ p, not_busted p) (players g) in
    let '(hand_id, d) := GameHistoryDB.start_new_hand (small_blind g) (big_blind g)
                           (Player.id dealer) active_player_ids (db g) in
    modify (λ g, g <| db := d |> <| current_hand_id := Some hand_id |>).

(** ** Actions *)

(** [max(0, self.current_bet - player.current_bet)] *)
Definition amount_to_call (g : t) (p : player) : Z :=
  Z.max 0 (current_bet g - Player.current_bet p).

(** The seat of the big blind: the first player with the flag. *)
Definition bb_index (g : t) : option nat :=
  fst <$> list_find (λ p, Player.is_big_blind p = true) (players g).

Definition is_big_blind_option (g : t) (player_id : nat) (to_call : Z) : bool :=
  bool_decide (current_phase g = PREFLOP) && negb (has_bet_or_raise_this_round g)
  && (to_call =? 0) && (current_bet g =? big_blind g)
  && bool_decide (bb_index g = Some player_id).

Definition min_raise_total (g : t) : Z :=
  if current_bet g =? 0 then big_blind g else current_bet g + big_blind g.

Definition get_available_actions (player_id : nat) (g : t) : list pystr :=
  match get_player player_id g with
  | None => []
  | Some p =>
      if negb (has_status ACTIVE p) then []
      else
        let to_call := amount_to_call g p in
        let can_open_bet := current_bet g =? 0 in
        let can_raise := 0 <? to_call in
        let bb_option := is_big_blind_option g player_id to_call in
        let min_raise := min_raise_total g in
        [u "fold"]
        ++ (if to_call =? 0 then [u "check"] else [])
        ++ (if (0 <? to_call) && (to_call <=? Player.chips p)
            then [u "call (" ++ str_of_Z to_call ++ u ")"] else [])
        ++ (if (can_open_bet || can_raise || bb_option)
               && (min_raise <=? Player.chips p) && (to_call <? Player.chips p)
            then [u "raise (min " ++ str_of_Z min_raise ++ u ")"] else [])
        ++ (if 0 <? Player.chips p then
              if (can_open_bet || can_raise || bb_option)
                 || ((0 <? to_call) && (Player.chips p <? to_call))
              then [u "all-in (" ++ str_of_Z (Player.chips p) ++ u ")"] else []
            else [])
  end.

(** [self.action_history[-20:]] *)
Definition recent_history (g : t) : list pystr :=
  drop (length (action_history g) - 20) (action_history g).

Definition get_llm_game_state (player_id : nat) (g : t) : result GameState.t :=
  match get_player player_id g with
  | None => Raise ValueError
  | Some p =>
      if has_status BUSTED p then Raise ValueError
      else
        let others := filter (λ q, Player.id q ≠ player_id ∧ Player.status q ≠ BUSTED)
                        (players g) in
        Ok {| GameState.your_id := Z.of_nat player_id;
              GameState.phase := phase_value (current_phase g);
              GameState.your_cards := Card.str <$> Player.hole_cards p;
              GameState.community := Card.str <$> community_cards g;
              GameState.your_chips := Player.chips p;
              GameState.your_bet_this_round := Player.current_bet p;
              GameState.your_total_bet_this_hand := Player.total_bet_this_hand p;
              GameState.pot := pot g;
              GameState.to_call := amount_to_call g p;
              GameState.dealer_button := Z.of_nat (dealer_button g);
              GameState.current_turn := Z.of_nat (current_player_index g);
              GameState.players :=
                (λ q, PlayerInfo.PlayerInfo (Z.of_nat (Player.id q)) (Player.chips q)
                        (Player.current_bet q) (status_value (Player.status q))) <$> others;
              GameState.actions := get_available_actions player_id g;
              GameState.history := recent_history g |}
  end.

(** ** The order of play *)

Definition active_indices (g : t) : list nat := indices_where (has_status ACTIVE) (players g).

(** The player at a seat passes the test; the seats asked for are in range. *)
Definition seat_is (test : player → bool) (g : t) (i : nat) : bool :=
  match players g !! i with Some p => test p | None => false end.

Definition advance_to_next_player (g : t) : t :=
  match find_first (seat_is (has_status ACTIVE) g)
          (seats_after (current_player_index g) (length (players g))) with
  | Some next_index => g <| current_player_index := next_index |>
  | None => g <| betting_round_complete := true |>
  end.

(** [for i in range(1, len(self.players)): (from + i) % len(self.players)] *)
Definition other_seats (from : nat) (g : t) : list nat :=
  let n := length (players g) in (λ i, ((from + i) mod n)%nat) <$> seq 1 (n - 1).

Definition next_active_in (from : nat) (g : t) : option nat :=
  find_first (λ i, bool_decide (i ∈ active_indices g)) (other_seats from g).

Definition get_first_actor_for_phase (g : t) : option nat :=
  let found :=
    if bool_decide (current_phase g = PREFLOP) then
      match bb_index g with
      | Some bb => next_active_in bb g
      | None => None
      end
    else next_active_in (dealer_button g) g in
  match found with
  | Some i => Some i
  | None => head (active_indices g)
  end.

Definition get_next_active_player_from (from_player_index : nat) (g : t) : option nat :=
  next_active_in from_player_index g.

Definition check_betting_round_complete (g : t) : t :=
  let complete := g <| betting_round_complete := true |> in
  let active_players := filter (λ p, has_status ACTIVE p) (players g) in
  let all_in_players := filter (λ p, has_status ALL_IN p) (players g) in
  if (length active_players + length all_in_players <=? 1)%nat then complete
  else
    match active_players with
    | [] => complete
    | [single_player] =>
        if Player.current_bet single_player <? current_bet g then g else complete
    | _ =>
        let all_same_bet := forallb (λ p, Player.current_bet p =? current_bet g) active_players in
        if negb all_same_bet then g
        else
          match last_raiser_index g with
          | None =>
              if bool_decide (Some (current_player_index g) = get_first_actor_for_phase g)
              then complete else g
          | Some raiser =>
              if has_bet_or_raise_this_round g then complete
              else if negb (bool_decide (raiser ∈ active_indices g)) then complete
              else if bool_decide (Some (current_player_index g)
                                   = get_next_active_player_from raiser g)
              then complete else g
          end
    end.

(** The branch of [process_player_action] for one action: the state after it
    and the entry for the history, [None] where it returns [False]. *)
Definition execute_action (player_id seat : nat) (p : player) (action : pystr)
    (amount : Z) (g : t) : option (t * pystr) :=
  let who := u "Player " ++ str_of_nat player_id in
  if bool_decide (action = u "fold") then
    Some (set_player seat (Player.fold p) g, who ++ u " folded")
  else if bool_decide (action = u "check") then
    if Player.current_bet p <? current_bet g then None
    else Some (g, who ++ u " checked")
  else if bool_decide (action = u "call") then
    let to_call := current_bet g - Player.current_bet p in
    if to_call <=? 0 then Some (g, who ++ u " checked")
    else if Player.chips p <? to_call then None
    else
      let '(actual_call, p) := Player.bet to_call p in
      Some (set_player seat p g <| pot ::= λ x, x + actual_call |>,
            who ++ u " called " ++ str_of_Z actual_call)
  else if bool_decide (action = u "raise") then
    let to_call := current_bet g - Player.current_bet p in
    let total_needed := to_call + amount in
    if Player.chips p <? total_needed then None
    else
      let '(actual_bet, p) := Player.bet total_needed p in
      Some (set_player seat p g <| pot ::= λ x, x + actual_bet |>
              <| current_bet := Player.current_bet p |>
              <| last_raiser_index := Some player_id |>
              <| has_bet_or_raise_this_round := true |>,
            who ++ u " raised to " ++ str_of_Z (Player.current_bet p))
  else if bool_decide (action = u "all_in") then
    if Player.chips p <=? 0 then None
    else
      let '(actual_bet, p) := Player.bet (Player.chips p) p in
      let g := g <| pot ::= λ x, x + actual_bet |> in
      let g := if current_bet g <? Player.current_bet p
               then g <| current_bet := Player.current_bet p |>
                      <| last_raiser_index := Some player_id |>
                      <| has_bet_or_raise_this_round := true |>
               else g in
      Some (set_player seat (p <| Player.status := ALL_IN |>) g,
            who ++ u " went all-in with " ++ str_of_Z actual_bet)
  else None.

(** The [amount] column of the action's row. *)
Definition recorded_amount (action : pystr) (amount : Z) (p : player) (g : t) : Z :=
  if bool_decide (action = u "raise") || bool_decide (action = u "all_in") then amount
  else if bool_decide (action = u "call")
       then current_bet g - (Player.current_bet p - amount)
       else 0.

Definition process_player_action (player_id : nat) (action : pystr) (amount : Z) (g : t) :
    bool * t :=
  if negb (bool_decide (player_id = current_player_index g)) then (false, g)
  else
    match find_player player_id g with
    | None => (false, g)
    | Some (seat, p) =>
        if negb (has_status ACTIVE p) then (false, g)
        else
          match execute_action player_id seat p action amount g with
          | None => (false, g)
          | Some (g, action_description) =>
              let g := append_history action_description g in
              let p := default p (players g !! seat) in
              let g := if_hand_recorded (λ hand_id,
                         GameHistoryDB.record_action hand_id (phase_value (current_phase g))
                           player_id action (recorded_amount action amount p g) (pot g)) g in
              (true, check_betting_round_complete (advance_to_next_player g))
          end
    end.

(** ** Phases *)

(** The burn card, [n] community cards and the row of the phase. *)
Fixpoint deal_community (n : nat) : M t () :=
  match n with
  | O => mret tt
  | S n => c ← deal_card;
           modify (λ g, g <| community_cards := community_cards g ++ [c] |>) ;;
           deal_community n
  end.

Definition record_community (phase : pystr) (g : t) : t :=
  if_hand_recorded (λ hand_id,
    GameHistoryDB.record_community_cards hand_id phase (Card.str <$> community_cards g)) g.

Definition deal_flop : M t () :=
  _ ← deal_card;
  deal_community 3 ;;
  modify (λ g, append_history (u "Flop dealt: "
                               ++ join (u ", ") (Card.str <$> community_cards g)) g) ;;
  modify (record_community (u "flop")).

Definition deal_turn : M t () :=
  _ ← deal_card;
  deal_community 1 ;;
  g ← get;
  c ← lift (match last (community_cards g) with Some c => Ok c | None => Raise IndexError end);
  modify (append_history (u "Turn dealt: " ++ Card.str c)) ;;
  modify (record_community (u "turn")).

Definition deal_river : M t () :=
  _ ← deal_card;
  deal_community 1 ;;
  g ← get;
  c ← lift (match last (community_cards g) with Some c => Ok c | None => Raise IndexError end);
  modify (append_history (u "River dealt: " ++ Card.str c)) ;;
  modify (record_community (u "river")).

Definition start_new_betting_round (g : t) : t :=
  let g := g <| players ::= fmap Player.reset_for_new_betting_round |>
             <| current_bet := 0 |> <| betting_round_complete := false |>
             <| last_raiser_index := None |> in
  match active_indices g with
  | [] => g <| betting_round_complete := true |>
  | first :: _ =>
      match get_first_actor_for_phase g with
      | Some first_actor_index => g <| current_player_index := first_actor_index |>
      | None => g <| current_player_index := first |>
      end
  end.

Definition advance_to_next_phase : M t bool :=
  g ← get;
  if negb (betting_round_complete g) then mret false
  else if (length (filter (λ p, in_hand p) (players g)) <=? 1)%nat then
    modify (λ g, g <| current_phase := SHOWDOWN |>) ;; mret true
  else
    match current_phase g with
    | PREFLOP =>
        modify (λ g, g <| current_phase := FLOP |>) ;; deal_flop ;;
        modify start_new_betting_round ;; mret true
    | FLOP =>
        modify (λ g, g <| current_phase := TURN |>) ;; deal_turn ;;
        modify start_new_betting_round ;; mret true
    | TURN =>
        modify (λ g, g <| current_phase := RIVER |>) ;; deal_river ;;
        modify start_new_betting_round ;; mret true
    | RIVER => modify (λ g, g <| current_phase := SHOWDOWN |>) ;; mret true
    | _ => mret false
    end.

(** [is_game_over] *)
Definition is_game_over (g : t) : bool :=
  (length (filter (λ p, (0 < Player.chips p)%Z) (players g)) <=? 1)%nat.
End PokerGame.
