(* ===== verification/GameLog.v ===== *)
(** * The log of the program

    What the program writes to the log that the viewer reads: the format of a record,
    which [src/poker/game.py] and [src/main.py] set up, the description of the table by
    [_log_game_state], the line of an accepted action, and the prompt of an agent
    ([LLMApiPlayer.make_decision] of [src/poker/player_models.py]). *)
From stdpp Require Import strings.
From S2P Require Import Prelude Py Json GameModels PlayerModels LlmPlayers Game.
Import PokerGame.

Module GameLog.
(** [%(asctime)s - %(name)s - %(levelname)s - %(message)s], and the end of the line *)
Definition log_record (asctime levelname message : pystr) : pystr :=
  asctime ++ u " - " ++ u "poker_game" ++ u " - " ++ levelname ++ u " - " ++ message ++ [10%N].

(** The record of an accepted action *)
Definition action_message (action_description : pystr) : pystr :=
  u "ACTION_EXECUTED: " ++ action_description.

(** The record of the state an agent is sent *)
Definition prompt_message (name : pystr) (game_state : GameState.t) : pystr :=
  u "LLM Prompt for " ++ name ++ u ": " ++ LLM.input_json game_state.

(** [str(b)], [str] of an index that may be [None], and [str] of a list of texts
    without quotes *)
Definition str_of_bool (b : bool) : pystr := if b then u "True" else u "False".
Definition str_of_index (i : option nat) : pystr :=
  match i with Some n => str_of_nat n | None => u "None" end.
Definition str_of_texts (l : list pystr) : pystr :=
  u "[" ++ join (u ", ") ((λ s, u "'" ++ s ++ u "'") <$> l) ++ u "]".

Definition count_status (s : PlayerStatus) (g : t) : pystr :=
  str_of_nat (length (filter (λ p, Player.status p = s) (players g))).

Definition player_info (i : nat) (p : player) : pystr :=
  u "P" ++ str_of_nat i ++ u "(" ++ Player.name p ++ u "): chips=" ++ str_of_Z (Player.chips p)
    ++ u ", bet=" ++ str_of_Z (Player.current_bet p)
    ++ u ", status=" ++ status_value (Player.status p).

(** [_log_game_state]: the messages, in order *)
Definition log_game_state (context extra_info : pystr) (g : t) : list pystr :=
  [ u "=== " ++ context ++ u " ===";
    u "Hand #" ++ str_of_nat (hand_number g) ++ u ", Phase: " ++ phase_value (current_phase g);
    u "Current player: " ++ str_of_nat (current_player_index g)
      ++ u ", Dealer: " ++ str_of_nat (dealer_button g);
    u "Pot: " ++ str_of_Z (pot g) ++ u ", Current bet: " ++ str_of_Z (current_bet g);
    u "Last raiser: " ++ str_of_index (last_raiser_index g);
    u "Betting round complete: " ++ str_of_bool (betting_round_complete g);
    u "Active players: " ++ count_status ACTIVE g ++ u ", All-in: " ++ count_status ALL_IN g
      ++ u ", Folded: " ++ count_status FOLDED g;
    u "Community cards: " ++ str_of_texts (Card.str <$> community_cards g) ]
  ++ ((λ info, u "  " ++ info) <$> imap player_info (players g))
  ++ (if bool_decide (extra_info = []) then [] else [u "Extra: " ++ extra_info])
  ++ [replicate 50 61%N].
End GameLog.
