(* ===== verification/StateServer.v ===== *)
(** * The state shown to spectators

    Models [src/poker/shared_state.py], the registry of the current game, and
    [src/poker/state_server.py], the HTTP handler that answers with the current game
    as JSON: all cards, and for each agent its last action, read back from the
    history, and its last reasoning. *)
From stdpp Require Import strings.
From S2P Require Import Prelude Py Json GameModels PlayerModels Game.
Import PokerGame.

(** ** The registry *)

Module SharedState.
Record t := SharedState { current_game : option PokerGame.t }.

Definition set_current_game (game : PokerGame.t) (s : t) : t := SharedState (Some game).
Definition get_current_game (s : t) : option PokerGame.t := current_game s.
End SharedState.

Module StateServer.
(** ** The parts of the snapshot *)

(** [_display_name_for_player] *)
Definition display_name_for_player (p : player) : pystr :=
  match Player.kind p with
  | LLMApiPlayer app _ =>
      if bool_decide (app = []) then Player.name p
      else
        let cleaned := strip (replace (u "_") (u " ") app) in
        if bool_decide (cleaned = []) then Player.name p else title cleaned
  | _ => Player.name p
  end.

(** The action in the part of an entry after the player, if there is one *)
Definition action_of_rest (rest : pystr) : result (option (pystr * Z)) :=
  if startswith rest (u "folded") then Ok (Some (u "fold", 0))
  else if startswith rest (u "checked") then Ok (Some (u "check", 0))
  else if startswith rest (u "called") then
    text ← nth_item (split (u " ") rest) 1;
    amt ← int_of_str text;
    Ok (Some (u "call", amt))
  else if startswith rest (u "raised to") then
    amt ← int_of_str (default [] (last (split (u " ") rest)));
    Ok (Some (u "raise", amt))
  else if startswith rest (u "went all-in with") then
    amt ← int_of_str (default [] (last (split (u " ") rest)));
    Ok (Some (u "all_in", amt))
  else Ok None.

(** One turn of the loop over the history; [None] where it goes on *)
Definition action_of_entry (player_id : nat) (entry : pystr) : result (option (pystr * Z)) :=
  if startswith entry (u "Player " ++ str_of_nat player_id ++ u " ") then
    rest ← nth_item (split_max 2 (u " ") entry) 2;
    action_of_rest rest
  else Ok None.

(** The loop, over the reversed history; an entry that cannot be read is skipped. *)
Fixpoint latest_in (player_id : nat) (entries : list pystr) : pystr * Z :=
  match entries with
  | [] => ([], 0)
  | entry :: rest =>
      match action_of_entry player_id entry with
      | Ok (Some found) => found
      | _ => latest_in player_id rest
      end
  end.

(** [_latest_action_for_player] *)
Definition latest_action_for_player (player_id : nat) (game : PokerGame.t) : pystr * Z :=
  latest_in player_id (reverse (action_history game)).

Definition json_nat (n : nat) : json := JInt (Z.of_nat n).

(** [getattr(p, "app_name", None)] *)
Definition app_name (p : player) : json :=
  match Player.kind p with LLMApiPlayer app _ => JStr app | _ => JNull end.

Definition viewer_player (p : player) : json :=
  JDict [(u "id", json_nat (Player.id p));
         (u "name", JStr (Player.name p));
         (u "display_name", JStr (display_name_for_player p));
         (u "app_name", app_name p);
         (u "chips", JInt (Player.chips p));
         (u "current_bet", JInt (Player.current_bet p));
         (u "total_bet_this_hand", JInt (Player.total_bet_this_hand p));
         (u "status", JStr (status_value (Player.status p)));
         (u "is_dealer", JBool (Player.is_dealer p));
         (u "is_small_blind", JBool (Player.is_small_blind p));
         (u "is_big_blind", JBool (Player.is_big_blind p));
         (u "hole_cards", JList (JStr <$> (Card.str <$> Player.hole_cards p)))].

Definition is_api_player (p : player) : bool :=
  match Player.kind p with LLMApiPlayer _ _ => true | _ => false end.

Definition viewer_agent (game : PokerGame.t) (p : player) : json :=
  let '(action, amount) := latest_action_for_player (Player.id p) game in
  JDict [(u "id", json_nat (Player.id p));
         (u "name", JStr (Player.name p));
         (u "display_name", JStr (display_name_for_player p));
         (u "app_name", app_name p);
         (u "action", JStr action);
         (u "amount", JInt amount);
         (u "reasoning", default (JStr []) (Player.last_decision_reasoning p))].

(** The dictionary [conduct_showdown] leaves in [last_showdown_results] *)
Definition json_payout (r : payout) : json :=
  JDict [(u "player_id", json_nat (po_player_id r)); (u "hand", JStr (po_hand r));
         (u "winnings", JInt (po_winnings r))].
Definition json_shown_hand (h : shown_hand) : json :=
  JDict [(u "player_id", json_nat (sh_player_id h)); (u "hand", JStr (sh_hand h));
         (u "cards", JList (JStr <$> sh_cards h))].
Definition json_showdown (r : showdown_result) : json :=
  JDict ([(u "winners", JList (json_nat <$> sr_winners r));
          (u "results", JList (json_payout <$> sr_results r))] ++
         match sr_all_hands r with
         | Some hands => [(u "all_hands", JList (json_shown_hand <$> hands))]
         | None => []
         end).

(** [_build_viewer_state] *)
Definition build_viewer_state (registry : SharedState.t) : json :=
  match SharedState.get_current_game registry with
  | None => JDict [(u "ready", JBool false)]
  | Some game =>
      JDict [(u "ready", JBool true);
             (u "hand_number", json_nat (hand_number game));
             (u "phase", JStr (phase_value (current_phase game)));
             (u "pot", JInt (pot game));
             (u "current_bet", JInt (current_bet game));
             (u "dealer_button", json_nat (dealer_button game));
             (u "current_turn", json_nat (current_player_index game));
             (u "community_cards", JList (JStr <$> (Card.str <$> community_cards game)));
             (u "players", JList (viewer_player <$> players game));
             (u "action_history", JList (JStr <$> action_history game));
             (u "llm_api_agents",
              JList (viewer_agent game <$> filter (λ p, is_api_player p) (players game)));
             (u "showdown_results",
              match last_showdown_results game with
              | Some r => json_showdown r
              | None => JNull
              end)]
  end.

(** [do_GET]: the status and the value whose JSON is the body *)
Definition do_GET (path : pystr) (registry : SharedState.t) : Z * option json :=
  if startswith path (u "/state") then (200, Some (build_viewer_state registry))
  else (404, None).
End StateServer.
