(* ===== verification/GameProps.v ===== *)
(** * Properties of the game state and of the players' actions

    The accounts of a hand (chips, bets and the pot), the effect of every
    action, the invariant of a hand and its preservation by every operation up
    to the showdown. *)
From stdpp Require Import strings.
From S2P Require Import Prelude Py Json GameModels PlayerModels Evaluator GameHistory Game.
Import PokerGame.

(** ** Positions *)

Section Positions.
Context {A : Type} (test : A → bool).
Implicit Types l : list A.

Lemma elem_of_indices_from k l i :
  i ∈ indices_from k test l ↔ ∃ j x, i = (k + j)%nat ∧ l !! j = Some x ∧ test x = true.
Proof.
  revert k. induction l as [|x l IH]; intros k; simpl.
  { split; [set_solver | intros (j & x & _ & H & _); done]. }
  assert (i ∈ indices_from (S k) test l ↔
          ∃ j y, i = (k + S j)%nat ∧ l !! j = Some y ∧ test y = true) as IH'.
  { rewrite IH. by setoid_rewrite Nat.add_succ_r. }
  destruct (test x) eqn:T.
  - rewrite elem_of_cons, IH'. split.
    + intros [->|(j & y & -> & Hl & Ht)]; [exists O, x | exists (S j), y];
        rewrite ?Nat.add_0_r; auto.
    + intros ([|j] & y & -> & Hl & Ht); [left; lia | right; eauto].
  - rewrite IH'. split.
    + intros (j & y & -> & Hl & Ht). exists (S j), y. auto.
    + intros ([|j] & y & -> & Hl & Ht); simplify_eq/=; [congruence | eauto].
Qed.

Lemma elem_of_indices_where l i :
  i ∈ indices_where test l ↔ ∃ x, l !! i = Some x ∧ test x = true.
Proof.
  unfold indices_where. rewrite elem_of_indices_from. split.
  - intros (j & x & -> & H). eauto.
  - intros (x & H). by exists i, x.
Qed.

Lemma indices_from_length k l :
  length (indices_from k test l) = length (filter (λ x, test x = true) l).
Proof.
  revert k. induction l as [|x l IH]; intros k; [done|]. simpl. rewrite filter_cons.
  destruct (test x) eqn:T; [rewrite decide_True by done | rewrite decide_False by done];
    simpl; by rewrite IH.
Qed.

Lemma indices_where_length l :
  length (indices_where test l) = length (filter (λ x, test x = true) l).
Proof. apply indices_from_length. Qed.

Lemma indices_from_NoDup k l : NoDup (indices_from k test l).
Proof.
  revert k. induction l as [|x l IH]; intros k; simpl; [constructor|].
  destruct (test x); [|apply IH]. constructor; [|apply IH].
  rewrite elem_of_indices_from. intros (j & y & H & _). lia.
Qed.

Lemma find_first_Some l x :
  find_first test l = Some x →
  test x = true ∧ ∃ l1 l2, l = l1 ++ x :: l2 ∧ Forall (λ y, test y = false) l1.
Proof.
  induction l as [|y l IH]; simpl; [done|]. destruct (test y) eqn:T.
  - intros [= <-]. split; [done|]. exists [], l. auto.
  - intros (Hx & l1 & l2 & -> & HF)%IH. split; [done|]. exists (y :: l1), l2. auto.
Qed.

Lemma find_first_None l : find_first test l = None ↔ Forall (λ y, test y = false) l.
Proof.
  induction l as [|y l IH]; simpl; [by split|]. rewrite Forall_cons, <- IH.
  destruct (test y); naive_solver.
Qed.
End Positions.

Lemma index_of_Some x l i : index_of x l = Some i → l !! i = Some x.
Proof.
  revert i. induction l as [|y l IH]; intros i; simpl; [done|].
  case_decide; [intros [= <-]; by subst|].
  destruct (index_of x l) as [j|]; [|done]. intros [= <-]. simpl. by apply IH.
Qed.

Lemma index_of_None x l : index_of x l = None ↔ x ∉ l.
Proof.
  induction l as [|y l IH]; simpl; [set_solver|]. rewrite not_elem_of_cons, <- IH.
  case_decide; [naive_solver|]. destruct (index_of x l); naive_solver.
Qed.

(** ** The accounts *)

Definition chips_of (g : t) : Z := sum_by Player.chips (players g).
Definition bets_of (g : t) : Z := sum_by Player.total_bet_this_hand (players g).

(** All the chips in play: in front of the players and in the pot *)
Definition total_chips (g : t) : Z := chips_of g + pot g.

(** Between [g] and [g'] no chip appeared or vanished, and the pot grew by what
    the players bet. *)
Record conserved (g g' : t) : Prop := Conserved {
  conserved_total : total_chips g' = total_chips g;
  conserved_bets : pot g' - bets_of g' = pot g - bets_of g }.

#[export] Instance conserved_preorder : PreOrder conserved.
Proof.
  split; [by split|]. intros g1 g2 g3 [T1 B1] [T2 B2].
  split; [by rewrite T2 | by rewrite B2].
Qed.

(** Every player sits at the seat its id says. *)
Definition seated (g : t) : Prop := ∀ i p, players g !! i = Some p → Player.id p = i.

Lemma find_player_seated g i p :
  seated g → players g !! i = Some p → find_player i g = Some (i, p).
Proof.
  intros Hs Hp. unfold find_player. apply list_find_Some. split_and!; [done | eauto |].
  intros j q Hq Hj E. apply Hs in Hq. lia.
Qed.

Lemma find_player_Some g i seat p :
  find_player i g = Some (seat, p) → players g !! seat = Some p ∧ Player.id p = i.
Proof. unfold find_player. intros (? & ? & _)%list_find_Some. done. Qed.

Lemma get_player_in g i p : get_player i g = Some p → p ∈ players g.
Proof.
  unfold get_player. destruct (find_player i g) as [[k q]|] eqn:F; [|done]. intros [= <-].
  apply find_player_Some in F as [F _]. by eapply list_elem_of_lookup_2.
Qed.

Lemma get_player_seated g i : seated g → get_player i g = players g !! i.
Proof.
  intros Hs. unfold get_player. destruct (players g !! i) as [p|] eqn:E.
  - by rewrite (find_player_seated g i p).
  - destruct (find_player i g) as [[seat p]|] eqn:F; [|done].
    apply find_player_Some in F as [Hp Hi]. pose proof (Hs _ _ Hp) as Hid. simplify_eq.
Qed.

(** ** One action *)

(** What an action does to the table: the player at [seat] pays [paid] chips
    into the pot and keeps its cards; the rest of the table is as before. *)
Record pays (seat : nat) (p p' : player) (paid : Z) (g g' : t) : Prop := Pays {
  pays_seat : players g !! seat = Some p;
  pays_players : players g' = <[seat := p']> (players g);
  pays_pot : pot g' = pot g + paid;
  pays_chips : Player.chips p' = Player.chips p - paid;
  pays_current : Player.current_bet p' = Player.current_bet p + paid;
  pays_total : Player.total_bet_this_hand p' = Player.total_bet_this_hand p + paid;
  pays_id : Player.id p' = Player.id p;
  pays_hole : Player.hole_cards p' = Player.hole_cards p;
  pays_range : 0 ≤ Player.chips p → 0 ≤ paid ≤ Player.chips p }.

(** The parts of the game an action never touches *)
Record same_hand (g g' : t) : Prop := SameHand {
  sh_deck : deck g' = deck g;
  sh_community : community_cards g' = community_cards g;
  sh_phase : current_phase g' = current_phase g;
  sh_dealer : dealer_button g' = dealer_button g;
  sh_blinds : small_blind g' = small_blind g ∧ big_blind g' = big_blind g;
  sh_hand : hand_number g' = hand_number g ∧ current_hand_id g' = current_hand_id g;
  sh_results : last_showdown_results g' = last_showdown_results g }.

#[export] Instance same_hand_preorder : PreOrder same_hand.
Proof. split; [by split|]. intros g1 g2 g3 [] []. split; naive_solver congruence. Qed.

Lemma pays_conserved seat p p' paid g g' : pays seat p p' paid g g' → conserved g g'.
Proof.
  intros []. split; unfold total_chips, chips_of, bets_of; rewrite pays_players0.
  - rewrite (sum_by_insert _ _ _ p) by done. lia.
  - rewrite (sum_by_insert _ _ _ p) by done. lia.
Qed.

Lemma bet_pays amount seat p g g' :
  players g !! seat = Some p →
  players g' = <[seat := (Player.bet amount p).2]> (players g) →
  pot g' = pot g + (Player.bet amount p).1 →
  pays seat p (Player.bet amount p).2 (Player.bet amount p).1 g g'.
Proof.
  intros Hs Hp Ho.
  destruct (bet_spec amount p) as (E & C & B & T & _).
  destruct (bet_frame amount p) as (I & H & _).
  rewrite <- E in C, B, T. split; auto. intros Hc. by apply bet_nonneg.
Qed.

(** ** What the rules of an action are *)

(** When an action is accepted from the player [p] on turn *)
Definition legal (p : player) (action : pystr) (amount : Z) (g : t) : bool :=
  let to_call := current_bet g - Player.current_bet p in
  if bool_decide (action = u "fold") then true
  else if bool_decide (action = u "check") then to_call <=? 0
  else if bool_decide (action = u "call") then to_call <=? Z.max 0 (Player.chips p)
  else if bool_decide (action = u "raise") then to_call + amount <=? Player.chips p
  else if bool_decide (action = u "all_in") then 0 <? Player.chips p
  else false.

(** The chips it moves into the pot *)
Definition payment (p : player) (action : pystr) (amount : Z) (g : t) : Z :=
  let to_call := current_bet g - Player.current_bet p in
  if bool_decide (action = u "call") then Z.max 0 to_call
  else if bool_decide (action = u "raise") then Z.max 0 (to_call + amount)
  else if bool_decide (action = u "all_in") then Player.chips p
  else 0.

(** The bet to match after it, when the player's own bet is [bet] *)
Definition bet_after (action : pystr) (bet : Z) (g : t) : Z :=
  if bool_decide (action = u "raise") then bet
  else if bool_decide (action = u "all_in") then Z.max (current_bet g) bet
  else current_bet g.

(** The status of the player after it *)
Definition status_after (action : pystr) (paid chips : Z) : PlayerStatus :=
  if bool_decide (action = u "fold") then FOLDED
  else if (0 <? paid) && (paid =? chips) then ALL_IN else ACTIVE.

Ltac action_cases action :=
  destruct (decide (action = u "fold")) as [->|];
  [|destruct (decide (action = u "check")) as [->|];
    [|destruct (decide (action = u "call")) as [->|];
      [|destruct (decide (action = u "raise")) as [->|];
        [|destruct (decide (action = u "all_in")) as [->|]]]]].

(** Tests of an action's name against the known names *)
Ltac action_tests :=
  repeat match goal with
  | |- context [bool_decide (u ?a = u ?a)] =>
      rewrite (bool_decide_eq_true_2 (u a = u a)) by reflexivity
  | |- context [bool_decide (u ?a = u ?b)] =>
      rewrite (bool_decide_eq_false_2 (u a = u b)) by str_ne
  | H : ?x ≠ u ?a |- context [bool_decide (?x = u ?a)] =>
      rewrite (bool_decide_eq_false_2 (x = u a)) by exact H
  end; cbv iota.

Section Actions.
Context (player_id seat : nat) (p : player) (g : t).
Hypothesis Hseat : players g !! seat = Some p.

Lemma execute_action_accepts action amount :
  is_Some (execute_action player_id seat p action amount g) ↔ legal p action amount g = true.
Proof.
  unfold execute_action, legal. cbv zeta. action_cases action; action_tests.
  - split; [done | by eexists].
  - destruct (Z.ltb_spec (Player.current_bet p) (current_bet g)).
    + split; [by intros []|]. intros ?%Z.leb_le. lia.
    + split; [intros _; apply Z.leb_le; lia | by eexists].
  - rewrite Z.leb_le. destruct (Z.leb_spec (current_bet g - Player.current_bet p) 0).
    + split; [lia | by eexists].
    + destruct (Z.ltb_spec (Player.chips p) (current_bet g - Player.current_bet p)).
      * split; [by intros [] | lia].
      * destruct (Player.bet _ p). split; [lia | by eexists].
  - rewrite Z.leb_le. destruct (Z.ltb_spec (Player.chips p)
      (current_bet g - Player.current_bet p + amount)).
    + split; [by intros [] | lia].
    + destruct (Player.bet _ p). split; [lia | by eexists].
  - rewrite Z.ltb_lt. destruct (Z.leb_spec (Player.chips p) 0).
    + split; [by intros [] | lia].
    + destruct (Player.bet _ p). split; [lia | by eexists].
  - split; [by intros [] | done].
Qed.

(** What an accepted action leaves behind *)
Record acted (action : pystr) (amount : Z) (p' : player) (g' : t) : Prop := Acted {
  acted_pays : pays seat p p' (payment p action amount g) g g';
  acted_bet : current_bet g' = bet_after action (Player.current_bet p') g;
  acted_status : Player.status p' =
    status_after action (payment p action amount g) (Player.chips p);
  acted_hand : same_hand g g';
  acted_turn : current_player_index g' = current_player_index g;
  acted_round : betting_round_complete g' = betting_round_complete g;
  acted_history : action_history g' = action_history g;
  acted_db : db g' = db g }.

Hypothesis Hactive : Player.status p = ACTIVE.

Lemma pays_nothing p' g' :
  players g' = <[seat := p']> (players g) → pot g' = pot g →
  Player.chips p' = Player.chips p → Player.current_bet p' = Player.current_bet p →
  Player.total_bet_this_hand p' = Player.total_bet_this_hand p →
  Player.id p' = Player.id p → Player.hole_cards p' = Player.hole_cards p → pays seat p p' 0 g g'.
Proof. split; auto; lia. Qed.

Lemma payment_bet x :
  x ≤ Player.chips p →
  (Player.bet x p).1 = Z.max 0 x ∧
  Player.status (Player.bet x p).2 =
    (if (0 <? Z.max 0 x) && (Z.max 0 x =? Player.chips p) then ALL_IN else ACTIVE).
Proof.
  intros Hx. destruct (bet_spec x p) as (-> & _ & _ & _ & ->). rewrite Hactive.
  destruct (Z.leb_spec x 0).
  - split; [lia|]. destruct (Z.ltb_spec 0 (Z.max 0 x)); [lia | done].
  - rewrite Z.min_l, Z.max_r by lia. split; [done|].
    destruct (Z.ltb_spec 0 x); [|lia]. simpl.
    destruct (Z.eqb_spec x (Player.chips p)), (Z.eqb_spec (Player.chips p - x) 0); lia || done.
Qed.

Lemma all_in_bet : 0 < Player.chips p →
  (Player.bet (Player.chips p) p).2 <| Player.status := ALL_IN |>
  = (Player.bet (Player.chips p) p).2.
Proof.
  intros Hx. destruct (payment_bet (Player.chips p)) as [_ E]; [done|].
  rewrite Z.max_r in E by lia.
  destruct (Z.ltb_spec 0 (Player.chips p)); [|lia].
  rewrite Z.eqb_refl in E. simpl in E.
  destruct (Player.bet _ p).2. cbn in *. by subst.
Qed.

Lemma bet_acted action x amount g' :
  payment p action amount g = Z.max 0 x → x ≤ Player.chips p →
  status_after action (Z.max 0 x) (Player.chips p) =
    (if (0 <? Z.max 0 x) && (Z.max 0 x =? Player.chips p) then ALL_IN else ACTIVE) →
  players g' = <[seat := (Player.bet x p).2]> (players g) →
  pot g' = pot g + (Player.bet x p).1 →
  current_bet g' = bet_after action (Player.current_bet (Player.bet x p).2) g →
  same_hand g g' → current_player_index g' = current_player_index g →
  betting_round_complete g' = betting_round_complete g →
  action_history g' = action_history g → db g' = db g →
  acted action amount (Player.bet x p).2 g'.
Proof.
  intros E L S Hp Ho Hb Hh Ht Hr Hhi Hd. destruct (payment_bet x L) as [P1 P2].
  split; [|done|by rewrite E, S|done..].
  rewrite E, <- P1. by apply bet_pays.
Qed.

Lemma execute_action_effect action amount g' d :
  execute_action player_id seat p action amount g = Some (g', d) →
  ∃ p', acted action amount p' g'.
Proof.
  assert (∀ x, Player.bet x p = ((Player.bet x p).1, (Player.bet x p).2)) as B
    by (intros x; by destruct (Player.bet x p)).
  unfold execute_action. cbv zeta. action_cases action; action_tests.
  - intros [= <- <-]. exists (Player.fold p). split; try reflexivity; try (by split). by apply pays_nothing.
  - destruct (_ <? _); [done|]. intros [= <- <-]. exists p. split; try reflexivity; try (by split); [|exact Hactive].
    apply pays_nothing; try done. by rewrite list_insert_id.
  - assert (payment p (u "call") amount g = Z.max 0 (current_bet g - Player.current_bet p)) as E
      by (unfold payment; by action_tests).
    destruct (Z.leb_spec (current_bet g - Player.current_bet p) 0).
    { intros [= <- <-]. exists p. rewrite Z.max_l in E by lia.
      split; try reflexivity; try (by split); rewrite E; [|exact Hactive]. apply pays_nothing; try done.
      by rewrite list_insert_id. }
    destruct (Z.ltb_spec (Player.chips p) (current_bet g - Player.current_bet p)); [done|].
    rewrite B. intros [= <- <-]. eexists. by apply (bet_acted _ _ _ _ E).
  - assert (payment p (u "raise") amount g
            = Z.max 0 (current_bet g - Player.current_bet p + amount)) as E
      by (unfold payment; by action_tests).
    destruct (Z.ltb_spec (Player.chips p) (current_bet g - Player.current_bet p + amount));
      [done|].
    rewrite B. intros [= <- <-]. eexists. by apply (bet_acted _ _ _ _ E).
  - destruct (Z.leb_spec (Player.chips p) 0); [done|].
    assert (payment p (u "all_in") amount g = Z.max 0 (Player.chips p)) as E
      by (unfold payment; action_tests; lia).
    rewrite B. cbv iota. rewrite all_in_bet by done. intros [= <- <-]. eexists.
    apply (bet_acted _ _ _ _ E); try done.
    all: cbn; case_match; try done; zbool; cbn.
    all: unfold bet_after; action_tests; lia.
  - done.
Qed.
End Actions.

(** ** After the action *)

(** Only whose turn it is, the round flag, the history and the database differ. *)
Record same_table (g g' : t) : Prop := SameTable {
  st_players : players g' = players g;
  st_pot : pot g' = pot g;
  st_bet : current_bet g' = current_bet g;
  st_raiser : last_raiser_index g' = last_raiser_index g;
  st_raised : has_bet_or_raise_this_round g' = has_bet_or_raise_this_round g;
  st_hand : same_hand g g' }.

#[export] Instance same_table_preorder : PreOrder same_table.
Proof.
  split; [by split|]. intros g1 g2 g3 [] [].
  split; [congruence..|]. by trans g2.
Qed.

Lemma check_betting_round_complete_frame g :
  ∃ b, check_betting_round_complete g = g <| betting_round_complete := b |>.
Proof.
  assert (g = g <| betting_round_complete := betting_round_complete g |>) as E
    by by destruct g.
  unfold check_betting_round_complete. cbv zeta.
  repeat case_match; eauto.
Qed.

Lemma advance_to_next_player_frame g :
  ∃ i b, advance_to_next_player g =
    g <| current_player_index := i |> <| betting_round_complete := b |>.
Proof.
  unfold advance_to_next_player. destruct (find_first _ _) as [i|].
  - exists i, (betting_round_complete g). by destruct g.
  - exists (current_player_index g), true. by destruct g.
Qed.

Lemma if_hand_recorded_frame f g : ∃ d, if_hand_recorded f g = g <| db := d |>.
Proof.
  unfold if_hand_recorded. case_match; eauto. exists (db g). by destruct g.
Qed.

Lemma same_table_check g : same_table g (check_betting_round_complete g).
Proof. destruct (check_betting_round_complete_frame g) as [b ->]. by repeat split. Qed.

Lemma same_table_advance g : same_table g (advance_to_next_player g).
Proof. destruct (advance_to_next_player_frame g) as (i & b & ->). by repeat split. Qed.

Lemma same_table_recorded f g : same_table g (if_hand_recorded f g).
Proof. destruct (if_hand_recorded_frame f g) as [d ->]. by repeat split. Qed.

Lemma same_table_history entry g : same_table g (append_history entry g).
Proof. by repeat split. Qed.

#[export] Hint Resolve same_table_check same_table_advance same_table_recorded
  same_table_history : poker.

(** An accepted action is the action's own effect followed by bookkeeping. *)
Lemma process_player_action_inv player_id action amount g g' :
  process_player_action player_id action amount g = (true, g') →
  ∃ seat p g1 d,
    player_id = current_player_index g ∧
    find_player player_id g = Some (seat, p) ∧ Player.status p = ACTIVE ∧
    execute_action player_id seat p action amount g = Some (g1, d) ∧ same_table g1 g'.
Proof.
  unfold process_player_action. case_bool_decide as Ht; [|done]. simpl.
  destruct (find_player player_id g) as [[seat p]|] eqn:F; [|done].
  unfold has_status. case_bool_decide as Hs; [|done]. simpl.
  destruct (execute_action player_id seat p action amount g) as [[g1 d]|] eqn:X; [|done].
  intros [= <-]. exists seat, p, g1, d. split_and!; try done.
  etrans; [apply (same_table_history d)|]. etrans; [apply same_table_recorded|].
  etrans; [apply same_table_advance|]. apply same_table_check.
Qed.

Lemma same_table_conserved g g' : same_table g g' → conserved g g'.
Proof.
  intros []. split; unfold total_chips, chips_of, bets_of; congruence.
Qed.

Lemma process_player_action_pays player_id action amount g g' :
  process_player_action player_id action amount g = (true, g') →
  ∃ seat p p', find_player player_id g = Some (seat, p) ∧ Player.status p = ACTIVE ∧
    pays seat p p' (payment p action amount g) g g' ∧
    current_bet g' = bet_after action (Player.current_bet p') g ∧
    Player.status p' = status_after action (payment p action amount g) (Player.chips p) ∧
    same_hand g g'.
Proof.
  intros (seat & p & g1 & d & _ & F & S & X & [])%process_player_action_inv.
  destruct (find_player_Some _ _ _ _ F) as [Hp _].
  destruct (execute_action_effect _ _ _ _ Hp S _ _ _ _ X) as [p' [[] ? ? ?]].
  exists seat, p, p'. split_and!; [done|done| |congruence|done|by trans g1].
  split; try done; congruence.
Qed.
