(* ===== verification/HandInvariant.v ===== *)
(** * The invariant of a hand

    [hand_ok] holds from the deal of a hand to its showdown; it is preserved by
    every accepted action and by every change of phase.  The step relation
    [hand_step] is what can happen to a game between the two. *)
From stdpp Require Import strings.
From S2P Require Import Prelude Py Json GameModels PlayerModels Evaluator GameHistory Game.
From S2P Require Import GameProps.
Import PokerGame.

(** The cards on the table: in the deck, on the board and in the hands.  Burnt
    cards leave it. *)
Definition table_cards (g : t) : list card :=
  deck g ++ community_cards g ++ (players g ≫= Player.hole_cards).

(** The community cards of a phase, and the cards the rest of the hand needs. *)
Definition board_size (ph : GamePhase) : nat :=
  match ph with PREFLOP => 0 | FLOP => 3 | TURN => 4 | _ => 5 end.
Definition deck_needs (ph : GamePhase) : nat :=
  match ph with PREFLOP => 8 | FLOP => 4 | TURN => 2 | _ => 0 end.

Definition still_in (g : t) : nat := length (filter (λ p, in_hand p) (players g)).

Definition board_ok (g : t) : Prop :=
  match current_phase g with
  | SHOWDOWN => length (community_cards g) ≤ 5 ∧
                ((still_in g ≤ 1) ∨ length (community_cards g) = 5)
  | FINISHED => False
  | ph => length (community_cards g) = board_size ph
  end%nat.

(** The chips, the bets and the status of a player fit together. *)
Record stack_ok (p : player) : Prop := StackOk {
  po_chips : 0 ≤ Player.chips p;
  po_bets : 0 ≤ Player.current_bet p ≤ Player.total_bet_this_hand p;
  po_active : Player.status p = ACTIVE → 0 < Player.chips p;
  po_all_in : Player.status p = ALL_IN → Player.chips p = 0;
  po_busted : Player.status p = BUSTED → Player.chips p = 0 ∧ Player.total_bet_this_hand p = 0 }.

Record player_ok (p : player) : Prop := PlayerOk {
  po_stack : stack_ok p;
  po_hole : length (Player.hole_cards p) = if not_busted p then 2%nat else 0%nat }.

Record hand_ok (g : t) : Prop := HandOk {
  ok_seated : seated g;
  ok_players : Forall player_ok (players g);
  ok_pot : pot g = bets_of g;
  ok_cards : table_cards g ⊆+ Deck.full;
  ok_board : board_ok g;
  ok_deck : (deck_needs (current_phase g) ≤ length (deck g))%nat }.

Lemma in_hand_not_busted p : in_hand p = true → not_busted p = true.
Proof.
  unfold in_hand, not_busted, has_status. by destruct (Player.status p).
Qed.

(** Replacing a player by one with the same cards leaves the cards alone. *)
Lemma bind_insert_same {A B} (f : A → list B) l i x y :
  l !! i = Some x → f y = f x → <[i := y]> l ≫= f = l ≫= f.
Proof.
  revert i. induction l as [|z l IH]; intros [|i] H E; simplify_eq/=; [by rewrite E|].
  by rewrite IH.
Qed.

Lemma NoDup_submseteq_full cards : cards ⊆+ Deck.full → NoDup cards.
Proof.
  intros [k E]%submseteq_Permutation. pose proof full_deck_NoDup as H.
  rewrite E in H. by apply NoDup_app in H as [? _].
Qed.

(** ** Actions *)

(** An action can only take a player out of the hand. *)
Lemma still_in_insert g i p p' :
  players g !! i = Some p → (in_hand p' = true → in_hand p = true) →
  (length (filter (λ p, in_hand p) (<[i := p']> (players g))) ≤ still_in g)%nat.
Proof.
  unfold still_in. generalize (players g) as l. intros l. revert i.
  induction l as [|q l IH]; intros [|i] H E; simplify_eq/=; rewrite !filter_cons.
  - repeat case_decide; simpl; try lia. destruct (in_hand p'), (in_hand p); naive_solver.
  - specialize (IH i H E). case_decide; simpl; lia.
Qed.

Lemma pays_stack_ok seat p p' paid g g' :
  pays seat p p' paid g g' → stack_ok p → Player.status p = ACTIVE →
  Player.status p' = FOLDED ∨ Player.status p' = (if (0 <? paid) && (paid =? Player.chips p)
                                                  then ALL_IN else ACTIVE) →
  stack_ok p' ∧ not_busted p' = true.
Proof.
  intros [] [] Ha Hs. destruct (pays_range po_chips0) as [R1 R2].
  specialize (po_active0 Ha).
  assert (Player.status p' ≠ BUSTED) as Hb
    by (destruct Hs as [->| ->]; [done | by destruct (_ && _)]).
  split; [split|].
  - lia.
  - lia.
  - intros E. rewrite E in Hs. destruct Hs as [|Hs]; [done|].
    destruct (Z.ltb_spec 0 paid), (Z.eqb_spec paid (Player.chips p)); simpl in Hs; try done; lia.
  - intros E. rewrite E in Hs. destruct Hs as [|Hs]; [done|].
    destruct (Z.ltb_spec 0 paid), (Z.eqb_spec paid (Player.chips p)); simpl in Hs; try done; lia.
  - done.
  - unfold not_busted, has_status. by rewrite (bool_decide_eq_false_2 _ Hb).
Qed.

Lemma active_not_busted p : Player.status p = ACTIVE → not_busted p = true.
Proof. unfold not_busted, has_status. by intros ->. Qed.

Lemma pays_player_ok seat p p' paid g g' :
  pays seat p p' paid g g' → player_ok p → Player.status p = ACTIVE →
  Player.status p' = FOLDED ∨ Player.status p' = (if (0 <? paid) && (paid =? Player.chips p)
                                                  then ALL_IN else ACTIVE) →
  player_ok p'.
Proof.
  intros P [S H] Ha Hs. destruct (pays_stack_ok _ _ _ _ _ _ P S Ha Hs) as [S' B].
  split; [done|]. by rewrite (pays_hole _ _ _ _ _ _ P), H, B, active_not_busted.
Qed.

Lemma status_after_cases action paid chips :
  status_after action paid chips = FOLDED ∨
  status_after action paid chips = if (0 <? paid) && (paid =? chips) then ALL_IN else ACTIVE.
Proof. unfold status_after. case_bool_decide; auto. Qed.

Lemma hand_ok_action player_id action amount g g' :
  hand_ok g → process_player_action player_id action amount g = (true, g') → hand_ok g'.
Proof.
  intros [Hs Hp Ho Hc Hb Hd] (seat & p & p' & F & Ha & P & _ & St & S)%process_player_action_pays.
  destruct (find_player_Some _ _ _ _ F) as [Hseat Hid].
  assert (player_ok p) as Hpok by (eapply Forall_lookup_1 in Hp; eauto).
  assert (player_ok p') as Hpok'.
  { eapply pays_player_ok; [exact P | done | done |]. rewrite St. apply status_after_cases. }
  pose proof (pays_conserved _ _ _ _ _ _ P) as [_ Hbets].
  destruct P, S. split.
  - intros i q. rewrite pays_players. intros [(-> & <- & _)|(_ & Hq)]%list_lookup_insert_Some;
      [|by apply Hs]. by rewrite pays_id, <- (Hs _ _ Hseat).
  - rewrite pays_players. by apply Forall_insert.
  - lia.
  - unfold table_cards. rewrite sh_deck, sh_community, pays_players.
    by rewrite (bind_insert_same _ _ _ p) by done.
  - assert (still_in g' ≤ still_in g)%nat as Hle.
    { unfold still_in at 1. rewrite pays_players. apply (still_in_insert _ _ p); [done|].
      intros _. unfold in_hand, has_status. by rewrite Ha. }
    revert Hb. unfold board_ok. rewrite sh_phase, sh_community. destruct (current_phase g); auto.
    intros [? [?|?]]; split; auto. left. lia.
  - by rewrite sh_phase, sh_deck.
Qed.

(** ** Dealing the board *)

Lemma deal_card_ok g c d :
  deck g = d ++ [c] → deal_card g = (Ok c, g <| deck := d |>).
Proof.
  intros E. unfold deal_card, Deck.deal_card.
  by rewrite (proj2 (pop_last_Some (deck g) d c) E).
Qed.

Lemma split_last {A} (l : list A) :
  (0 < length l)%nat → ∃ l' x, l = l' ++ [x] ∧ length l = S (length l').
Proof.
  destruct l as [|x l] using rev_ind; simpl; [lia|]. intros _.
  exists l, x. rewrite length_app. simpl. split; [done | lia].
Qed.

Lemma deal_community_ok n g :
  (n ≤ length (deck g))%nat →
  ∃ d cs, deal_community n g =
            (Ok tt, g <| deck := d |> <| community_cards := community_cards g ++ cs |>) ∧
          deck g = d ++ reverse cs ∧ length cs = n.
Proof.
  revert g. induction n as [|n IH]; intros g L; cbn [deal_community].
  { exists (deck g), []. rewrite !app_nil_r. split_and!; [by destruct g | done | done]. }
  destruct (split_last (deck g)) as (d & c & E & L'); [lia|].
  unfold mbind, M_bind. rewrite (deal_card_ok _ _ _ E). cbn [modify].
  edestruct (IH (g <| deck := d |> <| community_cards := community_cards g ++ [c] |>))
    as (d' & cs & Ed & Ec & Lc); [cbn; lia|].
  exists d', (c :: cs). split_and!; [|by cbn in Ec; rewrite E, Ec, reverse_cons, (assoc_L (++))|by simpl; lia].
  etrans; [exact Ed|]. cbn. by rewrite <- (assoc_L (++)).
Qed.

(** [n] cards were burnt and dealt from the top of the deck to the board; of
    the rest only the history and the database changed. *)
Record street (n : nat) (g g' : t) : Prop := Street {
  street_deal : ∃ burn cs, deck g = deck g' ++ reverse cs ++ [burn] ∧ length cs = n ∧
                           community_cards g' = community_cards g ++ cs;
  street_players : players g' = players g;
  street_pot : pot g' = pot g;
  street_phase : current_phase g' = current_phase g;
  street_button : dealer_button g' = dealer_button g }.

Ltac run_monad := unfold mbind, M_bind, mret, M_ret, modify, get, lift, put, raise.

(** The burn card and the [n] cards *)
Lemma burn_and_deal n g :
  (S n ≤ length (deck g))%nat →
  ∃ g0 g1, deal_card g = (Ok (default (Card.Card 0 HEARTS) (last (deck g))), g0) ∧
    deal_community n g0 = (Ok tt, g1) ∧ street n g g1 ∧
    (0 < n → ∃ c, last (community_cards g1) = Some c)%nat.
Proof.
  intros L. destruct (split_last (deck g)) as (d0 & burn & E & L'); [lia|].
  edestruct (deal_community_ok n (g <| deck := d0 |>)) as (d & cs & Ed & Ec & Lc).
  { cbn. lia. }
  eexists _, _. split_and!; [|exact Ed| |].
  - rewrite E, last_snoc. apply deal_card_ok, E.
  - split; try done. exists burn, cs. cbn in *. rewrite E, Ec.
    split_and!; [by rewrite <- (assoc_L (++)) | done | done].
  - intros Hn. cbn. destruct (split_last cs) as (cs' & c & -> & _); [lia|].
    rewrite (assoc_L (++)), last_snoc. eauto.
Qed.

Lemma street_frame n g g1 h x :
  street n g g1 → street n g (g1 <| action_history := h |> <| db := x |>).
Proof. by intros []. Qed.

Lemma record_community_frame ph g : ∃ x, record_community ph g = g <| db := x |>.
Proof. apply if_hand_recorded_frame. Qed.

Lemma deal_flop_ok g :
  (4 ≤ length (deck g))%nat → ∃ g', deal_flop g = (Ok tt, g') ∧ street 3 g g'.
Proof.
  intros L. destruct (burn_and_deal 3 g L) as (g0 & g1 & E0 & E1 & S & _).
  unfold deal_flop. run_monad. rewrite E0, E1.
  destruct (record_community_frame (u "flop") (append_history (u "Flop dealt: "
    ++ join (u ", ") (Card.str <$> community_cards g1)) g1)) as [x ->].
  eexists. split; [done|]. by apply street_frame.
Qed.

Lemma deal_turn_ok g :
  (2 ≤ length (deck g))%nat → ∃ g', deal_turn g = (Ok tt, g') ∧ street 1 g g'.
Proof.
  intros L. destruct (burn_and_deal 1 g L) as (g0 & g1 & E0 & E1 & S & Hl).
  destruct Hl as [c Hc]; [lia|].
  unfold deal_turn. run_monad. rewrite E0, E1, Hc.
  destruct (record_community_frame (u "turn")
    (append_history (u "Turn dealt: " ++ Card.str c) g1)) as [x ->].
  eexists. split; [done|]. by apply street_frame.
Qed.

Lemma deal_river_ok g :
  (2 ≤ length (deck g))%nat → ∃ g', deal_river g = (Ok tt, g') ∧ street 1 g g'.
Proof.
  intros L. destruct (burn_and_deal 1 g L) as (g0 & g1 & E0 & E1 & S & Hl).
  destruct Hl as [c Hc]; [lia|].
  unfold deal_river. run_monad. rewrite E0, E1, Hc.
  destruct (record_community_frame (u "river")
    (append_history (u "River dealt: " ++ Card.str c) g1)) as [x ->].
  eexists. split; [done|]. by apply street_frame.
Qed.

(** ** Whose turn it is *)

(** While the betting is open there is a player on turn. *)
Definition turn_ok (g : t) : Prop :=
  betting_round_complete g = false → is_Some (players g !! current_player_index g).

Lemma turn_ok_index g i test :
  i ∈ indices_where test (players g) → turn_ok (g <| current_player_index := i |>).
Proof. intros (p & Hp & _)%elem_of_indices_where _. by exists p. Qed.

Lemma turn_ok_complete g : turn_ok (g <| betting_round_complete := true |>).
Proof. done. Qed.

Lemma turn_ok_same g g' :
  turn_ok g → players g' = players g → current_player_index g' = current_player_index g →
  betting_round_complete g' = betting_round_complete g → turn_ok g'.
Proof. unfold turn_ok. by intros H -> -> ->. Qed.

Lemma advance_to_next_player_turn g : turn_ok (advance_to_next_player g).
Proof.
  unfold advance_to_next_player. destruct (find_first _ _) as [i|] eqn:F; [|done].
  apply find_first_Some in F as [T _]. unfold seat_is in T. intros _. cbn.
  destruct (players g !! i); [by eexists|done].
Qed.

Lemma check_betting_round_complete_turn g :
  turn_ok g → turn_ok (check_betting_round_complete g).
Proof.
  unfold check_betting_round_complete. cbv zeta. intros H.
  repeat case_match; try exact H; apply turn_ok_complete.
Qed.

Lemma first_actor_active g i :
  get_first_actor_for_phase g = Some i → i ∈ active_indices g.
Proof.
  assert (∀ from j, next_active_in from g = Some j → j ∈ active_indices g) as Hn.
  { unfold next_active_in. intros from j [H _]%find_first_Some. by apply bool_decide_eq_true in H. }
  unfold get_first_actor_for_phase.
  destruct (if bool_decide _ then _ else _) as [j|] eqn:E.
  - intros [= <-]. repeat case_match; eauto; done.
  - intros H. destruct (active_indices g); [done|]. injection H as ->. by left.
Qed.

Lemma start_new_betting_round_turn g : turn_ok (start_new_betting_round g).
Proof.
  unfold start_new_betting_round. cbv zeta.
  match goal with |- context [active_indices ?h] => set (g1 := h) end.
  destruct (active_indices g1) as [|i rest] eqn:A; [done|].
  destruct (get_first_actor_for_phase g1) as [j|] eqn:F.
  - apply (turn_ok_index g1 j (has_status ACTIVE)). by apply first_actor_active.
  - apply (turn_ok_index g1 i (has_status ACTIVE)). fold (active_indices g1). rewrite A. by left.
Qed.

Lemma process_player_action_turn player_id action amount g g' :
  process_player_action player_id action amount g = (true, g') → turn_ok g'.
Proof.
  unfold process_player_action. destruct (negb _); [done|].
  destruct (find_player player_id g) as [[seat p]|]; [|done]. destruct (negb _); [done|].
  destruct (execute_action _ _ _ _ _ _) as [[g1 d]|]; [|done]. intros [= <-].
  apply check_betting_round_complete_turn, advance_to_next_player_turn.
Qed.

(** ** The next phase *)

(** The state after [start_new_betting_round], but for the turn and the flag *)
Definition round_reset (g : t) : t :=
  g <| players ::= fmap Player.reset_for_new_betting_round |> <| current_bet := 0 |>
    <| last_raiser_index := None |>.

Lemma start_new_betting_round_frame g :
  ∃ i b, start_new_betting_round g =
    round_reset g <| current_player_index := i |> <| betting_round_complete := b |>.
Proof.
  unfold start_new_betting_round. cbv zeta. destruct (active_indices _) as [|i rest].
  { by exists (current_player_index g), true. }
  destruct (get_first_actor_for_phase _) as [j|]; [by exists j, false | by exists i, false].
Qed.

(** The phase after [ph], and the number of cards it brings *)
Definition next_phase (ph : GamePhase) : GamePhase :=
  match ph with PREFLOP => FLOP | FLOP => TURN | TURN => RIVER | _ => SHOWDOWN end.
Definition street_size (ph : GamePhase) : nat :=
  match ph with PREFLOP => 3 | FLOP | TURN => 1 | _ => 0 end.

(** From one street to the next: the cards of the street and a new round *)
Record next_street (g g' : t) : Prop := NextStreet {
  ns_deal : ∃ burn cs, deck g = deck g' ++ reverse cs ++ [burn] ∧
              length cs = street_size (current_phase g) ∧
              community_cards g' = community_cards g ++ cs;
  ns_players : players g' = Player.reset_for_new_betting_round <$> players g;
  ns_pot : pot g' = pot g;
  ns_bet : current_bet g' = 0;
  ns_phase : current_phase g' = next_phase (current_phase g);
  ns_turn : turn_ok g' }.

Lemma next_street_intro n g g1 :
  street n (g <| current_phase := next_phase (current_phase g) |>) g1 →
  n = street_size (current_phase g) → next_street g (start_new_betting_round g1).
Proof.
  intros [(burn & cs & D & L & C) P O F B] ->.
  pose proof (start_new_betting_round_turn g1) as T.
  destruct (start_new_betting_round_frame g1) as (i & b & E). rewrite E in T |- *.
  split; [..|exact T]; cbn in *; try congruence. eauto 10.
Qed.

(** What [advance_to_next_phase] may do, by cases *)
Inductive phase_step (g : t) : bool → t → Prop :=
  | ph_betting : betting_round_complete g = false → phase_step g false g
  | ph_one_left :
      betting_round_complete g = true → (still_in g ≤ 1)%nat →
      phase_step g true (g <| current_phase := SHOWDOWN |>)
  | ph_street g' :
      betting_round_complete g = true → (1 < still_in g)%nat →
      current_phase g ∈ [PREFLOP; FLOP; TURN] → next_street g g' → phase_step g true g'
  | ph_river :
      betting_round_complete g = true → (1 < still_in g)%nat → current_phase g = RIVER →
      phase_step g true (g <| current_phase := SHOWDOWN |>)
  | ph_over :
      betting_round_complete g = true → (1 < still_in g)%nat →
      current_phase g = SHOWDOWN → phase_step g false g.

Lemma advance_to_next_phase_cases g :
  hand_ok g → ∃ b g', advance_to_next_phase g = (Ok b, g') ∧ phase_step g b g'.
Proof.
  intros [_ _ _ _ Hb Hd]. unfold advance_to_next_phase. run_monad.
  destruct (betting_round_complete g) eqn:C; [|by eexists _, _; split; [|constructor]].
  cbn [negb]. fold (still_in g). destruct (Nat.leb_spec (still_in g) 1) as [S|S].
  { eexists _, _. by split; [|constructor]. }
  unfold board_ok in Hb. destruct (current_phase g) eqn:F; [| | | | |done].
  - edestruct (deal_flop_ok (g <| current_phase := FLOP |>)) as (g1 & -> & St); [cbn in *; lia|].
    eexists _, _. split; [done|]. apply ph_street; [done..|rewrite F; set_solver|].
    eapply (next_street_intro 3); rewrite F; done.
  - edestruct (deal_turn_ok (g <| current_phase := TURN |>)) as (g1 & -> & St).
    { cbn in *. lia. }
    eexists _, _. split; [done|]. apply ph_street; [done..|rewrite F; set_solver|].
    eapply (next_street_intro 1); rewrite F; done.
  - edestruct (deal_river_ok (g <| current_phase := RIVER |>)) as (g1 & -> & St); [cbn in *; lia|].
    eexists _, _. split; [done|]. apply ph_street; [done..|rewrite F; set_solver|].
    eapply (next_street_intro 1); rewrite F; done.
  - eexists _, _. by split; [|constructor].
  - eexists _, _. by split; [|constructor].
Qed.

Lemma reset_round_ok p : player_ok p → player_ok (Player.reset_for_new_betting_round p).
Proof. intros [[] ?]. split; [split|]; try done; cbn; lia. Qed.

Lemma in_hand_reset_round p :
  in_hand (Player.reset_for_new_betting_round p) = in_hand p.
Proof. done. Qed.

Lemma still_in_reset g g' :
  players g' = Player.reset_for_new_betting_round <$> players g → still_in g' = still_in g.
Proof.
  unfold still_in. intros ->. induction (players g) as [|p l IH]; [done|].
  rewrite fmap_cons, !filter_cons, in_hand_reset_round. case_decide; simpl; by rewrite IH.
Qed.

Lemma bind_fmap_same {A B} (f : A → list B) (h : A → A) l :
  (∀ x, f (h x) = f x) → (h <$> l) ≫= f = l ≫= f.
Proof. intros H. induction l as [|x l IH]; [done|]. simpl. rewrite H. f_equal. exact IH. Qed.

Lemma next_street_cards g g' : next_street g g' → table_cards g' ⊆+ table_cards g.
Proof.
  intros [(burn & cs & D & _ & C) P _ _ _ _]. unfold table_cards.
  rewrite D, C, P, bind_fmap_same, <- !(assoc_L (++)) by done.
  apply submseteq_skips_l. rewrite reverse_Permutation.
  rewrite (Permutation_app_comm (community_cards g) (cs ++ _)), <- (assoc_L (++)).
  apply submseteq_skips_l. apply submseteq_inserts_l.
  by rewrite (Permutation_app_comm (community_cards g)).
Qed.

Lemma next_street_conserved g g' : next_street g g' → conserved g g'.
Proof.
  intros [_ P O _ _ _]. split; unfold total_chips, chips_of, bets_of;
    rewrite P, O, ?sum_by_fmap; done.
Qed.

Lemma hand_ok_phase g b g' : hand_ok g → phase_step g b g' → hand_ok g'.
Proof.
  intros Hok Hstep. destruct Hstep as [|? Hin|g' ? Hin Hph Hns|? Hin Hph|]; [done| | | |done].
  - destruct Hok as [Hs Hp Ho Hc Hb Hd]. split; try done; [|cbn; lia].
    unfold board_ok in *. cbn. split; [|by left].
    destruct (current_phase g); cbn in Hb; lia.
  - pose proof (next_street_cards _ _ Hns) as Hcards.
    pose proof (next_street_conserved _ _ Hns) as [_ Hbets].
    destruct Hok as [Hs Hp Ho Hc Hb Hd], Hns as [(burn & cs & D & L & C) P O B F _]. split.
    + intros i q. rewrite P, list_lookup_fmap. destruct (players g !! i) as [p|] eqn:E; [|done].
      intros [= <-]. cbn. by apply Hs.
    + rewrite P. apply Forall_fmap. eapply Forall_impl; [exact Hp|]. apply reset_round_ok.
    + lia.
    + by etrans.
    + unfold board_ok in *. rewrite F, C, length_app, L.
      destruct (current_phase g); cbn in *; try lia; set_solver.
    + rewrite F. rewrite D, !length_app in Hd. cbn in Hd.
      rewrite length_reverse, L in Hd. destruct (current_phase g); cbn in *; lia.
  - destruct Hok as [Hs Hp Ho Hc Hb Hd]. split; try done.
    + unfold board_ok in *. rewrite Hph in Hb. cbn in *. lia.
    + cbn. lia.
Qed.
