(* ===== verification/StartHand.v ===== *)
(** * Starting a hand

    The dealer button, the blinds and the hole cards: [start_new_hand] never
    raises on a table of up to ten players and establishes [hand_ok]. *)
From stdpp Require Import strings.
From S2P Require Import Prelude Py Json GameModels PlayerModels Evaluator GameHistory Game.
From S2P Require Import GameProps HandInvariant.
Import PokerGame.

(** Between two hands *)
Record table_ready (g : t) : Prop := TableReady {
  tr_seated : seated g;
  tr_chips : Forall (λ p, 0 ≤ Player.chips p) (players g);
  tr_size : (length (players g) ≤ 10)%nat }.

(** The start of a hand: nothing bet, no cards dealt *)
Definition fresh (p : player) : Prop :=
  stack_ok p ∧ Player.hole_cards p = [] ∧
  (Player.status p = ACTIVE ∨ Player.status p = BUSTED) ∧
  Player.current_bet p = 0 ∧ Player.total_bet_this_hand p = 0.

Lemma reset_for_new_hand_chips p :
  Player.chips (Player.reset_for_new_hand p) = Player.chips p ∧
  Player.id (Player.reset_for_new_hand p) = Player.id p.
Proof. unfold Player.reset_for_new_hand. by case_match. Qed.

Lemma reset_for_new_hand_fresh p :
  0 ≤ Player.chips p → fresh (Player.reset_for_new_hand p).
Proof.
  intros H. unfold Player.reset_for_new_hand, fresh. cbv zeta.
  assert (∀ q, Player.chips q = Player.chips p → Player.hole_cards q = [] →
    Player.current_bet q = 0 → Player.total_bet_this_hand q = 0 →
    Player.status q = (if 0 <? Player.chips p then ACTIVE else BUSTED) →
    fresh q) as F.
  { intros q C Hh B T S. destruct (Z.ltb_spec 0 (Player.chips p));
      split_and!; auto; split; rewrite ?C, ?B, ?T, ?S; try done; lia. }
  match goal with |- context [match Player.kind ?q with _ => _ end] =>
    destruct (Player.kind q) end; by apply F.
Qed.

(** ** The dealer button *)

(** The seats that take part in a hand *)
Notation live_seats g := (indices_where not_busted (players g)).

Lemma move_dealer_button_spec g :
  live_seats g ≠ [] →
  ∃ d, d ∈ live_seats g ∧
    move_dealer_button g =
      g <| dealer_button := d |>
        <| players := imap (λ i p, p <| Player.is_dealer := bool_decide (i = d) |>) (players g) |>.
Proof.
  unfold move_dealer_button. destruct (live_seats g) as [|first rest] eqn:E; [done|]. intros _.
  destruct (index_of (dealer_button g) (first :: rest)) as [pos|].
  - eexists. split; [|done].
    destruct ((first :: rest) !! ((pos + 1) mod length (first :: rest))%nat) eqn:L; simpl default.
    + by eapply list_elem_of_lookup_2.
    + by left.
  - eexists. split; [|done]. by left.
Qed.

(** ** The blinds *)

(** A blind leaves a player in the hand, with [paid] of its chips in the pot. *)
Record blind (seat : nat) (amount : Z) (g g' : t) : Prop := Blind {
  blind_pays : ∃ p p', pays seat p p' (Z.max 0 (Z.min amount (Player.chips p))) g g' ∧
    stack_ok p' ∧ not_busted p' = true;
  blind_same : deck g' = deck g ∧ community_cards g' = community_cards g ∧
    current_phase g' = current_phase g ∧ dealer_button g' = dealer_button g ∧
    small_blind g' = small_blind g ∧ big_blind g' = big_blind g }.

Lemma flagged_bet_pays amount seat p q g g' :
  players g !! seat = Some p → stack_ok p → Player.status p = ACTIVE →
  Player.chips q = Player.chips p → Player.current_bet q = Player.current_bet p →
  Player.total_bet_this_hand q = Player.total_bet_this_hand p →
  Player.id q = Player.id p → Player.hole_cards q = Player.hole_cards p →
  Player.status q = Player.status p →
  players g' = <[seat := (Player.bet amount q).2]> (players g) →
  pot g' = pot g + (Player.bet amount q).1 →
  let p' := (Player.bet amount q).2 in
  pays seat p p' (Z.max 0 (Z.min amount (Player.chips p))) g g' ∧
  stack_ok p' ∧ not_busted p' = true.
Proof.
  intros Hs Hok Ha C B T I H S Hp Ho p'.
  destruct (bet_spec amount q) as (E & C' & B' & T' & S').
  destruct (bet_frame amount q) as (I' & H' & _). pose proof (po_active _ Hok Ha) as Hpos.
  set (a := if amount <=? 0 then 0 else Z.min amount (Player.chips q)) in *.
  assert (a = Z.max 0 (Z.min amount (Player.chips p))) as Ea.
  { unfold a. rewrite C. destruct (Z.leb_spec amount 0); lia. }
  fold p' in C', B', T', S', I', H'. rewrite Ea in E, C', B', T'.
  assert (pays seat p p' (Z.max 0 (Z.min amount (Player.chips p))) g g') as P.
  { split; rewrite ?Ho; (done || congruence || lia). }
  split; [done|]. eapply pays_stack_ok; [exact P|done|done|]. right.
  rewrite S', S, Ha, C. unfold a.
  destruct (Z.leb_spec amount 0).
  - rewrite Z.max_l by lia. done.
  - rewrite C, Z.max_r by lia. destruct (Z.ltb_spec 0 (Z.min amount (Player.chips p))); [|lia].
    simpl. destruct (Z.eqb_spec (Z.min amount (Player.chips p)) (Player.chips p)),
      (Z.eqb_spec (Player.chips p - Z.min amount (Player.chips p)) 0); lia || done.
Qed.

Lemma post_small_blind_ok seat p g :
  players g !! seat = Some p → stack_ok p → Player.status p = ACTIVE →
  ∃ g', post_small_blind seat g = (Ok tt, g') ∧ blind seat (small_blind g) g g'.
Proof.
  intros Hs Hok Ha. unfold post_small_blind. run_monad. unfold nth_item. rewrite Hs.
  set (q := p <| Player.is_small_blind := true |>).
  destruct (Player.bet _ q) as [a p'] eqn:E.
  match goal with |- context [if_hand_recorded ?f ?g1] =>
    destruct (if_hand_recorded_frame f g1) as [x ->] end.
  eexists. split; [done|]. split; [|done].
  exists p, p'. apply (f_equal snd) in E as E2. apply (f_equal fst) in E as E1. simpl in E1, E2.
  subst p' a. by apply (flagged_bet_pays _ _ _ q).
Qed.

Lemma post_big_blind_ok seat p g :
  players g !! seat = Some p → stack_ok p → Player.status p = ACTIVE →
  ∃ g', post_big_blind seat g = (Ok tt, g') ∧ blind seat (big_blind g) g g' ∧
        current_bet g' = Z.max 0 (Z.min (big_blind g) (Player.chips p)) ∧
        last_raiser_index g' = Some seat.
Proof.
  intros Hs Hok Ha. unfold post_big_blind. run_monad. unfold nth_item. rewrite Hs.
  set (q := p <| Player.is_big_blind := true |>).
  destruct (Player.bet _ q) as [a p'] eqn:E.
  match goal with |- context [if_hand_recorded ?f ?g1] =>
    destruct (if_hand_recorded_frame f g1) as [x ->] end.
  apply (f_equal snd) in E as E2. apply (f_equal fst) in E as E1. simpl in E1, E2.
  subst p' a.
  eexists. split_and!; [done| split; [|done] | |done].
  - eexists p, _. by apply (flagged_bet_pays _ _ _ q).
  - cbn. destruct (bet_spec (big_blind g) q) as (-> & _).
    cbn. pose proof (po_active _ Hok Ha). destruct (Z.leb_spec (big_blind g) 0); lia.
Qed.

Lemma live_seat_player g i :
  i ∈ live_seats g → ∃ p, players g !! i = Some p ∧ not_busted p = true.
Proof. by intros (p & H & T)%elem_of_indices_where; eauto. Qed.

Lemma nth_item_ok {A} (l : list A) i :
  (i < length l)%nat → ∃ x, nth_item l i = Ok x ∧ l !! i = Some x.
Proof.
  intros H. unfold nth_item. destruct (lookup_lt_is_Some_2 l i H) as [x E].
  rewrite E. eauto.
Qed.

(** The blinds are two different seats of the hand; with two players the
    dealer posts the small blind. *)
Lemma blind_seats_ok g :
  dealer_button g ∈ live_seats g → (2 ≤ length (live_seats g))%nat →
  ∃ sb bb, blind_seats g = Ok (sb, bb) ∧ sb ≠ bb ∧ sb ∈ live_seats g ∧ bb ∈ live_seats g ∧
           (length (live_seats g) = 2%nat → sb = dealer_button g).
Proof.
  intros Hd Hn. pose proof (indices_from_NoDup not_busted 0 (players g)) as Hdup.
  fold (live_seats g) in Hdup. unfold blind_seats. cbv zeta.
  assert (∀ i j x y, live_seats g !! i = Some x → live_seats g !! j = Some y → i ≠ j → x ≠ y)
    as Hinj.
  { intros i j x y Hi Hj Hij ->. eapply NoDup_lookup in Hi; [|done|exact Hj]. lia. }
  destruct (index_of (dealer_button g) (live_seats g)) as [pos|] eqn:E.
  2: { by apply index_of_None in E. }
  apply index_of_Some in E. pose proof (lookup_lt_Some _ _ _ E) as Hpos.
  destruct (Nat.eqb_spec (length (live_seats g)) 2) as [L|L].
  - destruct (nth_item_ok (live_seats g) (1 - pos)) as (bb & -> & Hbb); [lia|].
    exists (dealer_button g), bb. split_and!; try done.
    + eapply Hinj; [done..|lia].
    + by eapply list_elem_of_lookup_2.
  - destruct (nth_item_ok (live_seats g) ((pos + 1) mod length (live_seats g)))
      as (sb & -> & Hsb); [apply Nat.mod_upper_bound; lia|].
    destruct (nth_item_ok (live_seats g) ((pos + 2) mod length (live_seats g)))
      as (bb & -> & Hbb); [apply Nat.mod_upper_bound; lia|].
    exists sb, bb. split_and!; try done.
    + eapply Hinj; [done..|]. replace (pos + 2)%nat with (S (pos + 1)) by lia.
      apply mod_succ_ne. lia.
    + by eapply list_elem_of_lookup_2.
    + by eapply list_elem_of_lookup_2.
Qed.

(** The table after the blinds: [paid_sb] and [paid_bb] are what the two seats
    put into the pot. *)
Record blinds_posted (g g' : t) : Prop := BlindsPosted {
  bp_seats : ∃ sb bb p_sb p_bb p_sb' p_bb' gm,
    blind_seats g = Ok (sb, bb) ∧ sb ≠ bb ∧
    pays sb p_sb p_sb' (Z.max 0 (Z.min (small_blind g) (Player.chips p_sb))) g gm ∧
    pays bb p_bb p_bb' (Z.max 0 (Z.min (big_blind g) (Player.chips p_bb))) gm g' ∧
    stack_ok p_sb' ∧ stack_ok p_bb' ∧ not_busted p_sb' = true ∧ not_busted p_bb' = true ∧
    not_busted p_sb = true ∧ not_busted p_bb = true ∧
    players g !! bb = Some p_bb ∧
    current_bet g' = Z.max 0 (Z.min (big_blind g) (Player.chips p_bb)) ∧
    last_raiser_index g' = Some bb;
  bp_same : deck g' = deck g ∧ community_cards g' = community_cards g ∧
    current_phase g' = current_phase g ∧ dealer_button g' = dealer_button g ∧
    small_blind g' = small_blind g ∧ big_blind g' = big_blind g }.

Lemma fresh_live p : fresh p → not_busted p = true → Player.status p = ACTIVE.
Proof.
  unfold not_busted, has_status. intros (_ & _ & [H|H] & _); [done|]. by rewrite H.
Qed.

Lemma post_blinds_ok g :
  Forall fresh (players g) → dealer_button g ∈ live_seats g →
  (2 ≤ length (live_seats g))%nat →
  ∃ g', post_blinds g = (Ok tt, g') ∧ blinds_posted g g'.
Proof.
  intros Hf Hd Hn. unfold post_blinds. run_monad.
  destruct (Nat.ltb_spec (length (live_seats g)) 2); [lia|].
  destruct (blind_seats_ok g Hd Hn) as (sb & bb & E & Hne & Hsb & Hbb & _). rewrite E.
  destruct (live_seat_player _ _ Hsb) as (p_sb & Psb & Lsb).
  destruct (live_seat_player _ _ Hbb) as (p_bb & Pbb & Lbb).
  assert (fresh p_sb) as Fsb by (eapply Forall_lookup_1 in Hf; eauto).
  assert (fresh p_bb) as Fbb by (eapply Forall_lookup_1 in Hf; eauto).
  destruct (post_small_blind_ok sb p_sb g) as (gm & Em & [(q & q' & Pm & Sm & Bm) Sm']);
    [done | apply Fsb | by apply fresh_live |].
  assert (q = p_sb) as -> by (pose proof (pays_seat _ _ _ _ _ _ Pm); congruence).
  assert (players gm !! bb = Some p_bb) as Pbb'.
  { rewrite (pays_players _ _ _ _ _ _ Pm). by rewrite list_lookup_insert_ne. }
  destruct (post_big_blind_ok bb p_bb gm) as (g' & Eg & [(r & r' & Pg & Sg & Bg) Sg'] & Cg & Lg);
    [done | apply Fbb | by apply fresh_live |].
  assert (r = p_bb) as -> by (pose proof (pays_seat _ _ _ _ _ _ Pg); congruence).
  rewrite Em. exists g'. split; [exact Eg|].
  destruct Sm' as (D & C & F & B & SB & BB), Sg' as (D' & C' & F' & B' & SB' & BB').
  rewrite BB in Pg, Cg. split; [|split_and!; congruence].
  exists sb, bb, p_sb, p_bb, q', r', gm. split_and!; done.
Qed.

(** ** The hole cards *)

Definition unhand (p : player) : player := p <| Player.hole_cards := [] |>.

(** [r] rounds of cards and the first [k] seats of the next one have been dealt
    since [g0]. *)
Record dealing (g0 : t) (r k : nat) (g : t) : Prop := Dealing {
  dl_players : unhand <$> players g = unhand <$> players g0;
  dl_rest : g <| players := players g0 |> <| deck := deck g0 |> = g0;
  dl_cards : deck g ++ (players g ≫= Player.hole_cards) ≡ₚ Deck.full;
  dl_count : ∀ i p, players g !! i = Some p →
    length (Player.hole_cards p) =
      if not_busted p then (r + if (i <? k)%nat then 1 else 0)%nat else 0%nat }.

Lemma length_bind_le {A B} (f : A → list B) l m :
  (∀ x, x ∈ l → length (f x) ≤ m)%nat → (length (l ≫= f) ≤ m * length l)%nat.
Proof.
  induction l as [|x l IH]; intros H; [simpl; lia|].
  change ((x :: l) ≫= f) with (f x ++ (l ≫= f)). rewrite length_app. cbn [length].
  pose proof (H x ltac:(by left)).  specialize (IH ltac:(intros; apply H; by right)). lia.
Qed.

Lemma bind_insert_snoc {A B} (f : A → list B) l i x y c :
  l !! i = Some x → f y = f x ++ [c] → <[i := y]> l ≫= f ≡ₚ [c] ++ (l ≫= f).
Proof.
  revert i. induction l as [|z l IH]; intros [|i] H E; simplify_eq/=.
  - rewrite E. rewrite <- (assoc_L (++)). apply Permutation_app_swap_app.
  - rewrite (IH i H E). symmetry. apply Permutation_middle.
Qed.

Lemma dealing_deck g0 r k g :
  dealing g0 r k g → (r < 2)%nat → (length (players g) ≤ 10)%nat → (32 ≤ length (deck g))%nat.
Proof.
  intros [_ _ Hc Hk] Hr Hn. apply Permutation_length in Hc.
  rewrite length_app, full_deck_length in Hc.
  assert (length (players g ≫= Player.hole_cards) ≤ 2 * length (players g))%nat; [|lia].
  apply length_bind_le. intros p [i Hi]%list_elem_of_lookup. rewrite (Hk i p Hi).
  destruct (not_busted p), (i <? k)%nat; lia.
Qed.

Lemma dealing_step g0 r k g :
  dealing g0 r k g → (r < 2)%nat → (k < length (players g) ≤ 10)%nat →
  ∃ g', deal_to k g = (Ok tt, g') ∧ dealing g0 r (S k) g' ∧
        length (players g') = length (players g).
Proof.
  intros Hd Hr [Hk Hn]. pose proof (dealing_deck _ _ _ _ Hd Hr Hn) as Hdeck.
  destruct Hd as [Hp Hrest Hc Hcount].
  unfold deal_to. run_monad. destruct (nth_item_ok (players g) k Hk) as (p & -> & Pk).
  assert (∀ i q, players g !! i = Some q → i ≠ k →
    length (Player.hole_cards q) =
      if not_busted q then (r + if (i <? S k)%nat then 1 else 0)%nat else 0%nat) as Hother.
  { intros i q Hq Hne. rewrite (Hcount i q Hq).
    by destruct (Nat.ltb_spec i k), (Nat.ltb_spec i (S k)); try lia. }
  pose proof (Hcount k p Pk) as Hlen. rewrite Nat.ltb_irrefl in Hlen.
  destruct (not_busted p) eqn:B.
  - destruct (split_last (deck g)) as (d & c & Ed & Ld); [lia|].
    rewrite (deal_card_ok _ _ _ Ed). unfold Player.add_hole_card. run_monad.
    destruct (Nat.leb_spec 2 (length (Player.hole_cards p))); [lia|].
    eexists. split; [done|]. split; [split|].
    + cbn. rewrite list_fmap_insert. rewrite <- Hp. apply list_insert_id.
      rewrite list_lookup_fmap, Pk. done.
    + exact Hrest.
    + cbn. rewrite (bind_insert_snoc _ _ _ p _ c) by done.
      rewrite <- Hc, Ed, <- (assoc_L (++)). done.
    + cbn. intros i q. intros [(-> & <- & _)|(Hne & Hq)]%list_lookup_insert_Some.
      * cbn. rewrite length_app, Hlen. cbn. change (not_busted _) with (not_busted p).
        rewrite B, Nat.leb_refl. cbn. lia.
      * by apply Hother.
    + cbn. apply length_insert.
  - exists g. split; [done|]. split; [split|]; try done. intros i q Hq.
    destruct (decide (i = k)) as [->|Hne]; [|by apply Hother].
    rewrite Pk in Hq. injection Hq as <-. by rewrite B.
Qed.

Lemma dealing_seats g0 r m k g :
  dealing g0 r k g → (r < 2)%nat → (k + m = length (players g))%nat →
  (length (players g) ≤ 10)%nat →
  ∃ g', for_each (seq k m) deal_to g = (Ok tt, g') ∧ dealing g0 r (k + m) g' ∧
        length (players g') = length (players g).
Proof.
  intros Hd Hr. revert k g Hd. induction m as [|m IH]; intros k g Hd Hm Hn; cbn [seq for_each].
  { exists g. by rewrite Nat.add_0_r. }
  destruct (dealing_step g0 r k g Hd Hr) as (g1 & E & Hd1 & L1); [lia|].
  destruct (IH (S k) g1 Hd1) as (g' & E' & Hd' & L'); [lia..|].
  exists g'. rewrite <- Nat.add_succ_comm. split_and!; [|done|congruence].
  run_monad. by rewrite E.
Qed.

Lemma dealing_next g0 r n g :
  dealing g0 r n g → (length (players g) ≤ n)%nat → dealing g0 (S r) 0 g.
Proof.
  intros [? ? ? Hc] Hn. split; try done. intros i p Hp. rewrite (Hc i p Hp).
  apply lookup_lt_Some in Hp. destruct (Nat.ltb_spec i n); [|lia].
  destruct (not_busted p); [|done]. destruct i; cbn; lia.
Qed.

(** Two cards for every player with chips *)
Lemma deal_hole_cards_ok g :
  deck g ≡ₚ Deck.full → Forall (λ p, Player.hole_cards p = []) (players g) →
  (length (players g) ≤ 10)%nat →
  ∃ g', deal_hole_cards g = (Ok tt, g') ∧ dealing g 2 0 g'.
Proof.
  intros Hdeck Hh Hn. rewrite Forall_lookup in Hh.
  assert (dealing g 0 0 g) as H0.
  { split; [done|by destruct g| |].
    - rewrite Hdeck. assert (players g ≫= Player.hole_cards = []) as ->; [|by rewrite app_nil_r].
      apply length_zero_iff_nil.
      pose proof (length_bind_le Player.hole_cards (players g) 0) as L.
      enough (length (players g ≫= Player.hole_cards) ≤ 0)%nat by lia. apply L.
      intros p [i Hi]%list_elem_of_lookup. rewrite (Hh i p Hi). simpl. lia.
    - intros i p Hp. rewrite (Hh i p Hp). simpl.
      destruct (Nat.ltb_spec i 0); [lia|]. by destruct (not_busted p). }
  unfold deal_hole_cards. run_monad. cbn [for_each]. run_monad.
  destruct (dealing_seats g 0 (length (players g)) 0 g H0) as (g1 & E1 & D1 & L1); [lia..|].
  rewrite E1. apply dealing_next in D1; [|lia].
  destruct (dealing_seats g 1 (length (players g)) 0 g1 D1) as (g2 & E2 & D2 & L2); [lia..|].
  rewrite E2. apply dealing_next in D2; [|lia]. eauto.
Qed.

(** [unflag] and [unhand] forget a part of a player; two lists of players that
    agree after it agree on everything that does not depend on that part. *)
Definition unflag (p : player) : player := p <| Player.is_dealer := false |>.

Section Forget.
Context (h : player → player) (l l' : list player) (E : h <$> l' = h <$> l).

Lemma forget_sum f : (∀ p, f (h p) = f p) → sum_by f l' = sum_by f l.
Proof.
  intros Hf. assert (∀ k, sum_by f k = sum_by f (h <$> k)) as S.
  { intros k. rewrite sum_by_fmap. apply sum_by_ext. auto. }
  by rewrite (S l'), (S l), E.
Qed.

Lemma forget_lookup i p' : l' !! i = Some p' → ∃ p, l !! i = Some p ∧ h p = h p'.
Proof.
  intros H. assert ((h <$> l') !! i = Some (h p')) as H' by by rewrite list_lookup_fmap, H.
  rewrite E, list_lookup_fmap in H'. destruct (l !! i) as [p|]; [|done].
  injection H' as H'. eauto.
Qed.

Lemma forget_indices test :
  (∀ p, test (h p) = test p) → indices_where test l' = indices_where test l.
Proof.
  intros Ht. unfold indices_where. assert (∀ k m, indices_from k test m
    = indices_from k test (h <$> m)) as S.
  { intros k m. revert k. induction m as [|p m IH]; intros k; [done|].
    rewrite fmap_cons. cbn [indices_from]. by rewrite Ht, IH. }
  by rewrite (S 0%nat l'), (S 0%nat l), E.
Qed.

Lemma forget_Forall (P : player → Prop) : (∀ p, P (h p) ↔ P p) → Forall P l → Forall P l'.
Proof.
  intros HP. rewrite !Forall_lookup. intros H i p' Hp'.
  destruct (forget_lookup i p' Hp') as (p & Hp & Eh). apply HP. rewrite <- Eh. apply HP, (H i p Hp).
Qed.

Lemma forget_length : length l' = length l.
Proof. by rewrite <- (length_fmap h l'), E, length_fmap. Qed.
End Forget.

(** ** The whole of [start_new_hand] *)

Definition with_chips (g : t) : nat := length (filter (λ p, 0 < Player.chips p) (players g)).

(** The table right after the reset *)
Record hand_reset (g g1 : t) : Prop := HandReset {
  hr_fresh : Forall fresh (players g1);
  hr_seated : seated g1;
  hr_size : length (players g1) = length (players g);
  hr_chips : chips_of g1 = chips_of g;
  hr_pot : pot g1 = 0;
  hr_phase : current_phase g1 = PREFLOP;
  hr_board : community_cards g1 = [];
  hr_live : length (live_seats g1) = with_chips g;
  hr_blinds : small_blind g1 = small_blind g ∧ big_blind g1 = big_blind g }.

Lemma not_busted_reset p :
  not_busted (Player.reset_for_new_hand p) = (0 <? Player.chips p).
Proof.
  unfold not_busted, has_status, Player.reset_for_new_hand. cbv zeta.
  assert (∀ q, Player.status q = (if 0 <? Player.chips p then ACTIVE else BUSTED) →
    negb (bool_decide (Player.status q = BUSTED)) = (0 <? Player.chips p)) as H.
  { intros q ->. by destruct (0 <? Player.chips p). }
  match goal with |- context [match Player.kind ?q with _ => _ end] =>
    destruct (Player.kind q) end; by apply H.
Qed.

Lemma filter_reset_length l :
  length (filter (λ p, not_busted p = true) (Player.reset_for_new_hand <$> l))
  = length (filter (λ p, 0 < Player.chips p) l).
Proof.
  induction l as [|p l IH]; [done|]. rewrite fmap_cons, !filter_cons, not_busted_reset.
  destruct (Z.ltb_spec 0 (Player.chips p)).
  - rewrite decide_True by done. rewrite decide_True by done. cbn [length]. by rewrite IH.
  - rewrite decide_False by done. rewrite decide_False by lia. exact IH.
Qed.

Lemma hand_reset_intro g g1 :
  table_ready g → players g1 = Player.reset_for_new_hand <$> players g →
  pot g1 = 0 → current_phase g1 = PREFLOP → community_cards g1 = [] →
  small_blind g1 = small_blind g → big_blind g1 = big_blind g → hand_reset g g1.
Proof.
  intros [Hs Hc _] Hp Ho Hf Hb S B. split; try done.
  - rewrite Hp. apply Forall_fmap. eapply Forall_impl; [exact Hc|].
    apply reset_for_new_hand_fresh.
  - intros i p. rewrite Hp. intros (q & -> & E)%list_lookup_fmap_Some.
    destruct (reset_for_new_hand_chips q) as [_ ->]. by apply Hs.
  - by rewrite Hp, length_fmap.
  - unfold chips_of. rewrite Hp, sum_by_fmap. apply sum_by_ext. intros p _.
    by destruct (reset_for_new_hand_chips p) as [-> _].
  - rewrite indices_where_length, Hp. apply filter_reset_length.
Qed.


Lemma imap_dealer_forget d l :
  unflag <$> imap (λ i p, p <| Player.is_dealer := bool_decide (i = d) |>) l = unflag <$> l.
Proof.
  apply list_eq. intros i. rewrite !list_lookup_fmap, list_lookup_imap.
  by destruct (l !! i).
Qed.

(** The table after the assignments at the head of [start_new_hand] *)
Definition cleared (shuffle : Deck.t → Deck.t) (g : t) : t :=
  g <| hand_number ::= S |> <| deck := Deck.reset shuffle |>
    <| community_cards := [] |> <| current_phase := PREFLOP |>
    <| pot := 0 |> <| current_bet := 0 |>
    <| betting_round_complete := false |> <| last_raiser_index := None |>
    <| has_bet_or_raise_this_round := false |> <| last_showdown_results := None |>
    <| players ::= fmap Player.reset_for_new_hand |>.

(** The rest of the method, when two players have chips *)
Definition finish_start : M t () :=
  modify set_first_actor_preflop ;;
  g ← get;
  dealer ← lift (nth_item (players g) (dealer_button g));
  let active_player_ids := Player.id <$> filter (λ p, not_busted p) (players g) in
  let '(hand_id, d) := GameHistoryDB.start_new_hand (small_blind g) (big_blind g)
                         (Player.id dealer) active_player_ids (db g) in
  modify (λ g, g <| db := d |> <| current_hand_id := Some hand_id |>).

Definition deal_and_record : M t () :=
  modify move_dealer_button ;; post_blinds ;; deal_hole_cards ;; finish_start.

Lemma cleared_reset shuffle g : table_ready g → hand_reset g (cleared shuffle g).
Proof. intros Hr. by apply hand_reset_intro. Qed.

Lemma start_new_hand_split shuffle g :
  start_new_hand shuffle g =
    let g1 := cleared shuffle g in
    if (length (live_seats g1) <? 2)%nat then (Ok tt, g1 <| current_phase := FINISHED |>)
    else deal_and_record g1.
Proof.
  change (start_new_hand shuffle g) with
    ((if (length (live_seats (cleared shuffle g)) <? 2)%nat
      then modify (λ g, g <| current_phase := FINISHED |>)
      else deal_and_record) (cleared shuffle g)).
  cbv zeta. by destruct (_ <? _)%nat.
Qed.

(** What [start_new_hand] establishes when at least two players have chips *)
Record hand_started (g g' : t) : Prop := HandStarted {
  hs_ok : hand_ok g';
  hs_phase : current_phase g' = PREFLOP;
  hs_total : total_chips g' = chips_of g;
  hs_hand : is_Some (current_hand_id g');
  hs_dealer : ∃ p, players g' !! dealer_button g' = Some p ∧ not_busted p = true;
  hs_blinds : small_blind g' = small_blind g ∧ big_blind g' = big_blind g;
  hs_turn : turn_ok g';
  hs_size : length (players g') = length (players g) }.

Lemma set_first_actor_preflop_turn g : turn_ok (set_first_actor_preflop g).
Proof.
  unfold set_first_actor_preflop. cbv zeta. set (l := indices_where _ _).
  destruct l as [|i [|j rest]] eqn:E; [done|done|].
  assert (∀ k, k ∈ l → turn_ok (g <| current_player_index := k |>)) as H
    by (intros k Hk; exact (turn_ok_index g k _ Hk)).
  destruct (index_of (dealer_button g) (i :: j :: rest)) as [pos|] eqn:Ed;
    [|apply H; rewrite E; by left].
  apply index_of_Some in Ed. destruct (_ =? 2)%nat; apply H; rewrite E.
  - by eapply list_elem_of_lookup_2.
  - destruct (_ !! ((pos + 3) mod _)%nat) as [k|] eqn:Ek;
      [exact (list_elem_of_lookup_2 _ _ _ Ek)|by left].
Qed.

Lemma set_first_actor_preflop_frame g :
  ∃ i b, set_first_actor_preflop g =
    g <| current_player_index := i |> <| betting_round_complete := b |>.
Proof.
  assert (∀ i, g <| current_player_index := i |> = g <| current_player_index := i |>
    <| betting_round_complete := betting_round_complete g |>) as E by by destruct g.
  assert (g <| betting_round_complete := true |> = g <| current_player_index :=
    current_player_index g |> <| betting_round_complete := true |>) as E' by by destruct g.
  unfold set_first_actor_preflop. cbv zeta. repeat case_match; eauto.
Qed.

(** Two players posted the blinds on a fresh table. *)
Lemma blinds_posted_accounts g g' :
  blinds_posted g g' → Forall fresh (players g) → seated g →
  conserved g g' ∧ seated g' ∧ length (players g') = length (players g) ∧
  Forall (λ p, stack_ok p ∧ Player.hole_cards p = []) (players g') ∧
  (∀ i p', players g' !! i = Some p' → ∃ p, players g !! i = Some p ∧
     not_busted p' = not_busted p).
Proof.
  intros [(sb & bb & p & q & p' & q' & gm & _ & Hne & P & Q & Sp & Sq & Bp & Bq & B1 & B2 & Hq & _) _]
    Hf Hs.
  pose proof (pays_seat _ _ _ _ _ _ P) as Hp.
  pose proof (pays_players _ _ _ _ _ _ P) as E1. pose proof (pays_players _ _ _ _ _ _ Q) as E2.
  rewrite E1 in E2.
  assert (∀ i r, players g' !! i = Some r → (i = bb ∧ r = q') ∨ (i = sb ∧ r = p') ∨
            (players g !! i = Some r)) as Hin.
  { intros i r. rewrite E2. intros [(-> & <- & _)|(N1 & H)]%list_lookup_insert_Some; [by left|].
    apply list_lookup_insert_Some in H as [(-> & <- & _)|(N2 & H)]; auto. }
  assert (fresh p) as Fp by (eapply Forall_lookup_1 in Hf; eauto).
  assert (fresh q) as Fq by (eapply Forall_lookup_1 in Hf; eauto).
  split_and!.
  - etrans; eapply pays_conserved; eassumption.
  - intros i r [[-> ->]|[[-> ->]|H]]%Hin; [| |by apply Hs].
    + rewrite (pays_id _ _ _ _ _ _ Q). by apply Hs.
    + rewrite (pays_id _ _ _ _ _ _ P). by apply Hs.
  - by rewrite E2, !length_insert.
  - rewrite Forall_lookup. intros i r [[-> ->]|[[-> ->]|H]]%Hin.
    + rewrite (pays_hole _ _ _ _ _ _ Q). split; [done | apply Fq].
    + rewrite (pays_hole _ _ _ _ _ _ P). split; [done | apply Fp].
    + eapply Forall_lookup_1 in Hf; [|done]. destruct Hf as (? & ? & _). done.
  - intros i r [[-> ->]|[[-> ->]|H]]%Hin; [exists q | exists p | exists r]; split; congruence.
Qed.

(** Between two tables that only differ in dealt cards *)
Lemma dealing_finish g0 g :
  dealing g0 2 0 g → seated g0 → pot g0 = bets_of g0 → current_phase g0 = PREFLOP →
  community_cards g0 = [] → (length (players g0) ≤ 10)%nat →
  Forall (λ p, stack_ok p) (players g0) → hand_ok g ∧ total_chips g = total_chips g0.
Proof.
  intros [Hp Hrest Hc Hcount] Hs Ho Hf Hb Hn Hst.
  assert (pot g = pot g0) as Epot by (by rewrite <- Hrest).
  assert (community_cards g = []) as Eb by (by rewrite <- Hb, <- Hrest).
  assert (current_phase g = PREFLOP) as Ef by (by rewrite <- Hf, <- Hrest).
  assert (sum_by Player.chips (players g) = chips_of g0) as Ec by by apply (forget_sum unhand).
  assert (bets_of g = bets_of g0) as Ebets by by apply (forget_sum unhand).
  assert (length (players g) ≤ 10)%nat as Hn' by by rewrite (forget_length unhand _ _ Hp).
  split; [split|].
  - intros i p H. destruct (forget_lookup _ _ _ Hp i p H) as (q & Hq & E).
    rewrite <- (Hs i q Hq). by injection E.
  - apply Forall_lookup. intros i p H. split; [|by rewrite (Hcount i p H)].
    destruct (forget_lookup _ _ _ Hp i p H) as (q & Hq & E).
    rewrite Forall_lookup in Hst. specialize (Hst i q Hq).
    enough (stack_ok (unhand p)) as [] by done. rewrite <- E. by destruct Hst.
  - lia.
  - apply Permutation_submseteq. unfold table_cards. rewrite Eb. exact Hc.
  - unfold board_ok. by rewrite Ef, Eb.
  - rewrite Ef. apply Permutation_length in Hc. rewrite length_app, full_deck_length in Hc.
    assert (length (players g ≫= Player.hole_cards) ≤ 2 * length (players g))%nat; [|simpl; lia].
    apply length_bind_le. intros p [i Hi]%list_elem_of_lookup. rewrite (Hcount i p Hi).
    destruct (not_busted p), (Nat.ltb_spec i 0); lia.
  - unfold total_chips, chips_of in *. lia.
Qed.

(** The dealer takes part in the hand. *)
Definition dealer_live (g : t) : Prop :=
  ∃ p, players g !! dealer_button g = Some p ∧ not_busted p = true.

Lemma finish_start_ok g :
  hand_ok g → dealer_live g →
  ∃ g', finish_start g = (Ok tt, g') ∧ hand_ok g' ∧ current_phase g' = current_phase g ∧
        total_chips g' = total_chips g ∧ is_Some (current_hand_id g') ∧ dealer_live g' ∧
        small_blind g' = small_blind g ∧ big_blind g' = big_blind g ∧
        turn_ok g' ∧ players g' = players g.
Proof.
  intros Hok (p & Hp & Lp). unfold finish_start. run_monad.
  pose proof (set_first_actor_preflop_turn g) as T.
  destruct (set_first_actor_preflop_frame g) as (i & b & Es). rewrite Es in T |- *.
  assert (nth_item (players g) (dealer_button g) = Ok p) as E by (unfold nth_item; by rewrite Hp).
  match goal with |- context [nth_item ?l ?j] =>
    change (nth_item l j) with (nth_item (players g) (dealer_button g)) end.
  rewrite E.
  destruct (GameHistoryDB.start_new_hand _ _ _ _ _) as [hand_id d].
  eexists. split; [done|]. destruct Hok as [? ? ? ? ? ?].
  split_and!; [by split | reflexivity | reflexivity | by eexists | by exists p | reflexivity
    | reflexivity | exact T | reflexivity].
Qed.

(** The dealer's seat survives the blinds and the deal. *)
Lemma dealer_live_deal g1 g2 g3 g4 d :
  d ∈ live_seats g1 → unflag <$> players g2 = unflag <$> players g1 →
  dealer_button g2 = d → blinds_posted g2 g3 → Forall fresh (players g2) → seated g2 →
  dealing g3 2 0 g4 → dealer_live g4.
Proof.
  intros Hd U Ed B3 Hf2 Hs2 [Hp4 R4 _ _].
  destruct (blinds_posted_accounts _ _ B3 Hf2 Hs2) as (_ & _ & L3 & _ & Lv3).
  destruct (bp_same _ _ B3) as (_ & _ & _ & Db & _).
  pose proof (f_equal dealer_button R4) as R. cbn in R.
  destruct (live_seat_player g1 d Hd) as (p1 & Hp1 & Lp1).
  destruct (forget_lookup unflag _ _ (eq_sym U) d p1 Hp1) as (p2 & Hp2 & E12).
  destruct (lookup_lt_is_Some_2 (players g4) d) as [p4 Hp4d].
  { rewrite (forget_length unhand _ _ Hp4), L3. by eapply lookup_lt_Some. }
  destruct (forget_lookup unhand _ _ Hp4 d p4 Hp4d) as (p3 & Hp3 & E34).
  destruct (Lv3 d p3 Hp3) as (p2' & Hp2' & Lp3). rewrite Hp2 in Hp2'. injection Hp2' as <-.
  exists p4. rewrite R, Db, Ed. split; [done|].
  change (not_busted p4) with (not_busted (unhand p4)). rewrite <- E34.
  change (not_busted (unhand p3)) with (not_busted p3). rewrite Lp3.
  change (not_busted p2) with (not_busted (unflag p2)). by rewrite E12.
Qed.

(** The button only moves flags. *)
Lemma button_moved g1 :
  Forall fresh (players g1) → seated g1 → live_seats g1 ≠ [] →
  let g2 := move_dealer_button g1 in
  Forall fresh (players g2) ∧ seated g2 ∧ unflag <$> players g2 = unflag <$> players g1 ∧
  dealer_button g2 ∈ live_seats g1 ∧
  (∃ d ps, g2 = g1 <| dealer_button := d |> <| players := ps |>).
Proof.
  intros Hf Hs Hne g2. destruct (move_dealer_button_spec g1 Hne) as (d & Hd & Em). fold g2 in Em.
  assert (unflag <$> players g2 = unflag <$> players g1) as U.
  { rewrite Em. apply imap_dealer_forget. }
  split_and!; [| |done|by rewrite Em|eauto].
  - apply (forget_Forall unflag _ _ U); [|done].
    intros p. unfold fresh. split; intros ([] & ?); by split.
  - intros i p H. destruct (forget_lookup unflag _ _ U i p H) as (q & Hq & E).
    rewrite <- (Hs i q Hq). by injection E.
Qed.

Lemma fresh_bets g : Forall fresh (players g) → bets_of g = 0.
Proof.
  intros Hf. unfold bets_of. rewrite (sum_by_ext _ (λ _, 0)); [by rewrite sum_by_const|].
  intros p [i Hi]%list_elem_of_lookup. rewrite Forall_lookup in Hf. by apply (Hf i p Hi).
Qed.

Lemma deal_and_record_ok g g1 :
  hand_reset g g1 → deck g1 ≡ₚ Deck.full → (length (players g) ≤ 10)%nat →
  (2 ≤ with_chips g)%nat → ∃ g', deal_and_record g1 = (Ok tt, g') ∧ hand_started g g'.
Proof.
  intros [Hf Hs Hl Hc Hpot Hph Hb Hlive [Sb Bb]] Hdeck Hn Hw.
  destruct (button_moved g1 Hf Hs) as (Hf2 & Hs2 & U & Hd & d & ps & Em).
  { destruct (live_seats g1); [simpl in *; lia | done]. }
  set (g2 := move_dealer_button g1) in *.
  assert (live_seats g2 = live_seats g1) as Lv by by apply (forget_indices unflag).
  destruct (post_blinds_ok g2) as (g3 & E3 & B3); [done|by rewrite Lv|rewrite Lv; lia|].
  destruct (blinds_posted_accounts _ _ B3 Hf2 Hs2) as ([T3 A3] & Hs3 & L3 & St3 & _).
  destruct (bp_same _ _ B3) as (D & C & F & Db & Sm & Bg).
  assert (chips_of g2 = chips_of g1) as C2 by by apply (forget_sum unflag).
  pose proof (fresh_bets g2 Hf2) as B2.
  pose proof (forget_length unflag _ _ U) as L2.
  assert (pot g2 = 0 ∧ deck g2 = deck g1 ∧ current_phase g2 = PREFLOP ∧
    community_cards g2 = [] ∧ small_blind g2 = small_blind g ∧ big_blind g2 = big_blind g)
    as (P2 & D2 & F2 & Cm2 & S2 & Bi2) by by rewrite Em.
  destruct (deal_hole_cards_ok g3) as (g4 & E4 & D4).
  { by rewrite D, D2. }
  { eapply Forall_impl; [exact St3|]. by intros p [_ ?]. }
  { lia. }
  destruct (dealing_finish g3 g4 D4) as [Ok4 T4]; try done; try lia.
  { congruence. }
  { congruence. }
  { eapply Forall_impl; [exact St3|]. by intros p [? _]. }
  pose proof (dealer_live_deal g1 g2 g3 g4 _ Hd U eq_refl B3 Hf2 Hs2 D4) as Dl.
  pose proof (dl_rest _ _ _ _ D4) as R4.
  pose proof (f_equal current_phase R4) as Rp. pose proof (f_equal small_blind R4) as Rs.
  pose proof (f_equal big_blind R4) as Rb. cbn in Rp, Rs, Rb.
  destruct (finish_start_ok g4 Ok4 Dl) as (g' & E' & Ok' & Ph' & T' & H' & Dl' & S' & B' & Tu' & P').
  assert (length (players g') = length (players g)) as L'
    by (rewrite P', (forget_length unhand _ _ (dl_players _ _ _ _ D4)); lia).
  exists g'. split; [|split; try done; unfold total_chips in *; [congruence|lia|split; congruence]].
  unfold deal_and_record. run_monad. fold g2. by rewrite E3, E4.
Qed.
