(* ===== verification/HandProps.v ===== *)
(** * Properties of a hand

    What a player's action, a change of phase and the start of a hand do, and
    what holds all through a hand.  The theorems put together the lemmas of
    [GameProps.v], [HandInvariant.v] and [StartHand.v]. *)
From stdpp Require Import strings relations.
From S2P Require Import Prelude Py Json GameModels PlayerModels Evaluator GameHistory Game.
From S2P Require Import GameProps HandInvariant StartHand.
Import PokerGame.

(** ** The steps of a hand *)

(** Between its start and its showdown a hand sees accepted actions and calls
    of [advance_to_next_phase]; a rejected action changes nothing. *)
Inductive hand_step (g g' : t) : Prop :=
  | step_action player_id action amount :
      process_player_action player_id action amount g = (true, g') → hand_step g g'
  | step_phase b : advance_to_next_phase g = (Ok b, g') → hand_step g g'.

Notation hand_run := (rtc hand_step).

Lemma phase_step_conserved g b g' : phase_step g b g' → conserved g g'.
Proof. intros [| |? ? ? ? ?%next_street_conserved| |]; done. Qed.

Lemma advance_phase_step g b g' :
  hand_ok g → advance_to_next_phase g = (Ok b, g') → phase_step g b g'.
Proof.
  intros Hok E. destruct (advance_to_next_phase_cases g Hok) as (b' & g'' & E' & P).
  rewrite E in E'. by injection E' as -> ->.
Qed.

Lemma hand_step_ok g g' : hand_ok g → hand_step g g' → hand_ok g' ∧ conserved g g'.
Proof.
  intros Hok [i a x E|b E].
  - split; [by eapply hand_ok_action|].
    apply process_player_action_pays in E as (? & ? & ? & _ & _ & P & _).
    by eapply pays_conserved.
  - apply advance_phase_step in E; [|done].
    split; [by eapply hand_ok_phase | by eapply phase_step_conserved].
Qed.

Lemma hand_run_ok g g' : hand_run g g' → hand_ok g → hand_ok g' ∧ conserved g g'.
Proof.
  induction 1 as [g|g1 g2 g3 H _ IH]; intros Hok; [done|].
  destruct (hand_step_ok _ _ Hok H) as [Hok2 C]. destruct (IH Hok2) as [Hok3 C'].
  split; [done | by trans g2].
Qed.

Lemma start_new_hand_ok shuffle g :
  table_ready g → shuffle Deck.full ≡ₚ Deck.full → (2 ≤ with_chips g)%nat →
  ∃ g', start_new_hand shuffle g = (Ok tt, g') ∧ hand_started g g'.
Proof.
  intros Hr Hs Hw. rewrite start_new_hand_split. cbv zeta.
  pose proof (cleared_reset shuffle g Hr) as H1.
  destruct (Nat.ltb_spec (length (live_seats (cleared shuffle g))) 2) as [L|L].
  { rewrite (hr_live _ _ H1) in L. lia. }
  apply (deal_and_record_ok g); [done | exact Hs | apply Hr | done].
Qed.

Lemma process_rejected player_id action amount g g' :
  process_player_action player_id action amount g = (false, g') → g' = g.
Proof.
  unfold process_player_action. case_bool_decide; simpl; [|by intros [= ->]].
  destruct (find_player player_id g) as [[seat p]|]; [|by intros [= ->]].
  destruct (negb _); [by intros [= ->]|].
  destruct (execute_action _ _ _ _ _ _) as [[g1 d]|]; [done | by intros [= ->]].
Qed.

Lemma process_accepts player_id action amount g :
  seated g →
  (process_player_action player_id action amount g).1 = true ↔
  player_id = current_player_index g ∧
  ∃ p, players g !! player_id = Some p ∧ Player.status p = ACTIVE ∧
       legal p action amount g = true.
Proof.
  intros Hs. unfold process_player_action.
  case_bool_decide as Ht; simpl; [|naive_solver].
  destruct (players g !! player_id) as [p|] eqn:E.
  - rewrite (find_player_seated _ _ _ Hs E). unfold has_status.
    case_bool_decide as Ha; simpl; [|naive_solver].
    destruct (execute_action _ _ _ _ _ _) as [[g1 d]|] eqn:X; simpl.
    + split; [|done]. intros _. split; [done|]. exists p. split_and!; try done.
      apply (execute_action_accepts player_id player_id p g). rewrite X. by eexists.
    + split; [done|]. intros (_ & q & [= <-] & _ & L).
      apply (execute_action_accepts player_id player_id p g) in L. rewrite X in L. by destruct L.
  - destruct (find_player player_id g) as [[seat p]|] eqn:F; [|naive_solver].
    apply find_player_Some in F as [Hp Hi]. pose proof (Hs _ _ Hp). congruence.
Qed.

(** ** Theorems *)


(** With fewer than two players with chips the game ends and no chip moves. *)
Theorem start_new_hand_game_over shuffle g :
  table_ready g → (with_chips g < 2)%nat →
  ∃ g', start_new_hand shuffle g = (Ok tt, g') ∧ current_phase g' = FINISHED ∧
        chips_of g' = chips_of g ∧ pot g' = 0.
Proof.
  intros Hr Hw. rewrite start_new_hand_split. cbv zeta.
  pose proof (cleared_reset shuffle g Hr) as H1.
  generalize dependent (cleared shuffle g). intros g1 H1.
  destruct (Nat.ltb_spec (length (live_seats g1)) 2) as [L|L].
  - eexists. split_and!; [done..|apply (hr_chips _ _ H1)|apply (hr_pot _ _ H1)].
  - rewrite (hr_live _ _ H1) in L. lia.
Qed.

(** C21: an action is accepted exactly when it is the player's turn, the player
    is active and the action is legal: a check only without a bet to match, a
    call or a raise only within the player's chips, an all-in only with chips. *)
Theorem process_player_action_accepts player_id action amount g :
  seated g →
  (process_player_action player_id action amount g).1 = true ↔
  player_id = current_player_index g ∧
  ∃ p, players g !! player_id = Some p ∧ Player.status p = ACTIVE ∧
       legal p action amount g = true.
Proof. apply process_accepts. Qed.

(** C20: an accepted action does what it says: the player pays what the action
    costs (the difference to the bet for a call, that and the raise for a raise,
    everything for an all-in, nothing otherwise) from its chips into the pot, its
    bets grow by the same amount, its status becomes folded or all-in
    accordingly, the bet to match follows a raise or a larger all-in, the other
    players, the cards, the phase and the button stay as they are. *)
Theorem process_player_action_effect player_id action amount g g' :
  seated g → process_player_action player_id action amount g = (true, g') →
  ∃ p p', players g !! player_id = Some p ∧
    players g' = <[player_id := p']> (players g) ∧
    let paid := payment p action amount g in
    pot g' = pot g + paid ∧
    Player.chips p' = Player.chips p - paid ∧
    Player.current_bet p' = Player.current_bet p + paid ∧
    Player.total_bet_this_hand p' = Player.total_bet_this_hand p + paid ∧
    (0 ≤ Player.chips p → 0 ≤ paid ≤ Player.chips p) ∧
    Player.status p' = status_after action paid (Player.chips p) ∧
    current_bet g' = bet_after action (Player.current_bet p') g ∧
    Player.hole_cards p' = Player.hole_cards p ∧
    deck g' = deck g ∧ community_cards g' = community_cards g ∧
    current_phase g' = current_phase g ∧ dealer_button g' = dealer_button g.
Proof.
  intros Hs (seat & p & p' & F & _ & P & B & St & S)%process_player_action_pays.
  apply find_player_Some in F as [Hp Hi]. assert (seat = player_id) as -> by (by rewrite <- (Hs _ _ Hp)).
  exists p, p'. destruct P, S. cbv zeta. split_and!; done.
Qed.

(** A rejected action leaves the whole game as it was. *)
Theorem process_player_action_rejected player_id action amount g g' :
  process_player_action player_id action amount g = (false, g') → g' = g.
Proof. apply process_rejected. Qed.

(** C23: from a hand in progress [advance_to_next_phase] never raises.  It does
    nothing while the betting is open; with one player left it goes to the
    showdown; otherwise it burns a card, deals the cards of the next street from
    the top of the deck, sets the bets of the round to zero, and after the river
    goes to the showdown. *)
Theorem advance_to_next_phase_correct g :
  hand_ok g →
  ∃ b g', advance_to_next_phase g = (Ok b, g') ∧ hand_ok g' ∧
    if negb (betting_round_complete g) then b = false ∧ g' = g
    else if (still_in g <=? 1)%nat then b = true ∧ g' = g <| current_phase := SHOWDOWN |>
    else match current_phase g with
         | RIVER => b = true ∧ g' = g <| current_phase := SHOWDOWN |>
         | SHOWDOWN | FINISHED => b = false ∧ g' = g
         | ph => b = true ∧ current_phase g' = next_phase ph ∧ current_bet g' = 0 ∧
                 pot g' = pot g ∧
                 players g' = Player.reset_for_new_betting_round <$> players g ∧
                 ∃ burn cs, deck g = deck g' ++ reverse cs ++ [burn] ∧
                   length cs = street_size ph ∧ community_cards g' = community_cards g ++ cs
         end.
Proof.
  intros Hok. destruct (advance_to_next_phase_cases g Hok) as (b & g' & E & P).
  exists b, g'. split_and!; [done|by eapply hand_ok_phase|].
  destruct P as [-> | -> L | g' -> L Hph [D P O B F _] | -> L -> | -> L ->]; cbn [negb]; try done.
  - by rewrite (proj2 (Nat.leb_le _ _) L).
  - rewrite (proj2 (Nat.leb_gt _ _) L). destruct (current_phase g); try done; set_solver.
  - by rewrite (proj2 (Nat.leb_gt _ _) L).
  - by rewrite (proj2 (Nat.leb_gt _ _) L).
Qed.

(** C1: whatever the players do, as long as the hand lasts the invariant holds:
    the pot is the sum of the players' bets of the hand, the chips in play are
    those the players had when it started, nobody has negative chips, no card is
    in two places, and the board has the cards of the phase. *)
Theorem hand_invariant shuffle g g0 g' :
  table_ready g → shuffle Deck.full ≡ₚ Deck.full → (2 ≤ with_chips g)%nat →
  start_new_hand shuffle g = (Ok tt, g0) → hand_run g0 g' →
  hand_ok g' ∧ chips_of g' + pot g' = chips_of g ∧ pot g' = bets_of g' ∧
  Forall (λ p, 0 ≤ Player.chips p) (players g') ∧ NoDup (table_cards g') ∧ board_ok g'.
Proof.
  intros Hr Hs Hw E Hrun.
  destruct (start_new_hand_ok shuffle g Hr Hs Hw) as (g1 & E1 & [Hok _ T _ _ _ _ _]).
  rewrite E in E1. injection E1 as <-.
  destruct (hand_run_ok _ _ Hrun Hok) as [Hok' [T' _]].
  split_and!; [done| |apply Hok'| | |apply Hok'].
  - unfold total_chips in *. lia.
  - eapply Forall_impl; [apply Hok'|]. by intros p [[]].
  - apply (NoDup_submseteq_full _ (ok_cards _ Hok')).
Qed.

(** ** The order of play *)

(** The first hit of a search over [f 1, ..., f n] *)
Lemma find_first_seq (test : nat → bool) (f : nat → nat) a n x :
  find_first test (f <$> seq a n) = Some x →
  ∃ k, (a ≤ k < a + n)%nat ∧ x = f k ∧ test (f k) = true ∧
       ∀ j, (a ≤ j < k)%nat → test (f j) = false.
Proof.
  revert a. induction n as [|n IH]; intros a; cbn [seq fmap list_fmap find_first]; [done|].
  destruct (test (f a)) eqn:T.
  - intros [= <-]. exists a. split_and!; try done; lia.
  - intros (k & Hk & -> & Tk & Hj)%IH. exists k. split_and!; try done; [lia..|].
    intros j Hja. destruct (decide (j = a)) as [->|]; [done|]. apply Hj. lia.
Qed.

(** The player at [d] seats clockwise from [from] is active. *)
Definition active_at (g : t) (from d : nat) : bool :=
  seat_is (has_status ACTIVE) g ((from + d) mod length (players g))%nat.

Lemma advance_to_next_player_cases g :
  (∃ d, (1 ≤ d ≤ length (players g))%nat ∧
     active_at g (current_player_index g) d = true ∧
     (∀ j, (1 ≤ j < d)%nat → active_at g (current_player_index g) j = false) ∧
     advance_to_next_player g =
       g <| current_player_index := ((current_player_index g + d) mod length (players g))%nat |>) ∨
  (Forall (λ p, Player.status p ≠ ACTIVE) (players g) ∧
   advance_to_next_player g = g <| betting_round_complete := true |>).
Proof.
  unfold advance_to_next_player, seats_after.
  destruct (find_first _ _) as [i|] eqn:F.
  - left. apply find_first_seq in F as (d & Hd & -> & T & Hj). exists d.
    split_and!; try done; lia.
  - right. split; [|done]. apply find_first_None in F. rewrite Forall_fmap in F.
    apply Forall_lookup. intros i p Hp Ha.
    pose proof (lookup_lt_Some _ _ _ Hp) as Hi.
    set (n := length (players g)) in *. set (c := current_player_index g) in *.
    rewrite Forall_forall in F.
    (* the distance from the current seat to [i] *)
    set (d := ((n - c mod n + i) mod n)%nat).
    assert ((c + (if decide (d = 0%nat) then n else d)) mod n = i)%nat as E.
    { assert ((c + (n - c mod n + i)) mod n = i)%nat as E0.
      { pose proof (Nat.mod_upper_bound c n ltac:(lia)).
        pose proof (Nat.div_mod_eq c n).
        replace (c + (n - c mod n + i))%nat with (i + (c / n + 1) * n)%nat by nia.
        rewrite Nat.Div0.mod_add. by apply Nat.mod_small. }
      rewrite Nat.Div0.add_mod in E0. fold d in E0.
      rewrite Nat.Div0.add_mod. case_decide as Hd.
      - rewrite Hd in E0. by rewrite Nat.Div0.mod_same.
      - rewrite (Nat.mod_small d) by (apply Nat.mod_upper_bound; lia). done. }
    assert ((if decide (d = 0%nat) then n else d) ∈ seq 1 n) as Hin.
    { apply elem_of_seq. assert (d < n)%nat by (apply Nat.mod_upper_bound; lia).
      case_decide; lia. }
    specialize (F _ Hin). cbn in F. fold n c in F. rewrite E in F.
    unfold seat_is in F. rewrite Hp in F. unfold has_status in F.
    by rewrite bool_decide_eq_true_2 in F.
Qed.

(** The turn passes to the next active player clockwise: everyone between
    the two is folded, all-in or busted.  When nobody is active the betting
    round is complete. *)
Theorem advance_to_next_player_correct g :
  (∃ d, (1 ≤ d ≤ length (players g))%nat ∧
     active_at g (current_player_index g) d = true ∧
     (∀ j, (1 ≤ j < d)%nat → active_at g (current_player_index g) j = false) ∧
     advance_to_next_player g =
       g <| current_player_index := ((current_player_index g + d) mod length (players g))%nat |>) ∨
  (Forall (λ p, Player.status p ≠ ACTIVE) (players g) ∧
   advance_to_next_player g = g <| betting_round_complete := true |>).
Proof. apply advance_to_next_player_cases. Qed.

(** ** When the betting closes *)

(** Nobody who can still act owes chips. *)
Definition bets_matched (g : t) : Prop :=
  Forall (λ p, Player.status p = ACTIVE → current_bet g ≤ Player.current_bet p) (players g).

Lemma length_filter_orb {A} (f g : A → bool) l :
  (∀ x, f x && g x = false) →
  length (filter (λ x, f x || g x) l) = (length (filter f l) + length (filter g l))%nat.
Proof.
  intros H. induction l as [|x l IH]; [done|]. rewrite !filter_cons. specialize (H x).
  destruct (f x), (g x); try done; simpl decide; repeat case_decide; cbn [length];
    naive_solver lia.
Qed.

Lemma still_in_split g :
  still_in g = (length (filter (λ p, has_status ACTIVE p) (players g))
                + length (filter (λ p, has_status ALL_IN p) (players g)))%nat.
Proof.
  apply length_filter_orb. intros p. unfold has_status. by destruct (Player.status p).
Qed.

Lemma check_betting_round_complete_sound g :
  betting_round_complete g = false →
  betting_round_complete (check_betting_round_complete g) = true →
  (still_in (check_betting_round_complete g) ≤ 1)%nat ∨
  bets_matched (check_betting_round_complete g).
Proof.
  intros Hf Hc. enough ((still_in g ≤ 1)%nat ∨ bets_matched g) as H
    by by destruct (check_betting_round_complete_frame g) as [b ->].
  revert Hc. unfold check_betting_round_complete. cbv zeta.
  set (act := filter (λ p, has_status ACTIVE p) (players g)).
  assert (∀ p, p ∈ players g → Player.status p = ACTIVE → p ∈ act) as Hact.
  { intros p Hp Ha. apply list_elem_of_filter. split; [|done].
    unfold has_status. rewrite Ha. done. }
  destruct (Nat.leb_spec (length act + length (filter (λ p, has_status ALL_IN p) (players g))) 1)
    as [L|L].
  { intros _. left. rewrite still_in_split. exact L. }
  intros H. right. apply Forall_forall. intros p Hp Ha. specialize (Hact p Hp Ha).
  destruct act as [|p1 [|p2 rest]] eqn:E.
  - by apply elem_of_nil in Hact.
  - apply list_elem_of_singleton in Hact as ->.
    destruct (Z.ltb_spec (Player.current_bet p1) (current_bet g)); [congruence | lia].
  - destruct (forallb _ _) eqn:B; cbn [negb] in H; [|congruence].
    rewrite forallb_forall in B. apply list_elem_of_In in Hact. specialize (B p Hact). zbool. lia.
Qed.

(** Why an action may close the betting *)
Lemma closing_matched player_id action amount g g' :
  betting_round_complete g = false →
  process_player_action player_id action amount g = (true, g') →
  betting_round_complete g' = true → (still_in g' ≤ 1)%nat ∨ bets_matched g'.
Proof.
  unfold process_player_action. intros Hf.
  destruct (negb _); [done|]. destruct (find_player player_id g) as [[seat p]|] eqn:F; [|done].
  unfold has_status at 1. case_bool_decide as Ha; cbn [negb]; [|done].
  destruct (execute_action _ _ _ _ _ _) as [[g1 d]|] eqn:X; [|done].
  apply find_player_Some in F as [Hp _].
  destruct (execute_action_effect _ _ _ _ Hp Ha _ _ _ _ X) as [p' A].
  pose proof (acted_round _ _ _ _ _ _ _ A) as R. cbv zeta.
  match goal with |- context [if_hand_recorded ?f ?h] =>
    destruct (if_hand_recorded_frame f h) as [x ->] end.
  set (g2 := append_history d g1 <| db := x |>).
  assert (betting_round_complete g2 = false) as R2 by (by rewrite <- Hf, <- R).
  intros [= <-] Hc.
  destruct (advance_to_next_player_cases g2) as [(k & _ & _ & _ & E)|[Hno E]].
  - rewrite E in Hc |- *. apply check_betting_round_complete_sound; [exact R2 | exact Hc].
  - right. rewrite E. destruct (check_betting_round_complete_frame
      (g2 <| betting_round_complete := true |>)) as [b ->].
    eapply Forall_impl; [exact Hno|]. intros q Hq Ha'. done.
Qed.

(** An accepted action closes the betting round only when at most one
    player is left in the hand or nobody who can still act owes chips. *)
Theorem betting_closes_matched player_id action amount g g' :
  betting_round_complete g = false →
  process_player_action player_id action amount g = (true, g') →
  betting_round_complete g' = true → (still_in g' ≤ 1)%nat ∨ bets_matched g'.
Proof. apply closing_matched. Qed.

(** ** The actions offered to a player *)

(** An entry of the list with a number in it *)
Definition numbered (prefix : pystr) (n : Z) : pystr := prefix ++ str_of_Z n ++ u ")".

Lemma numbered_inj prefix n m : numbered prefix n = numbered prefix m → n = m.
Proof. unfold numbered. intros ?%app_inv_head%app_inv_tail. by apply str_of_Z_inj. Qed.

(** Entries of different kinds differ within the first two characters. *)
Lemma kind_differs (s t x y : pystr) : take 2 s ≠ take 2 t → (2 ≤ length s)%nat →
  (2 ≤ length t)%nat → s ++ x ≠ t ++ y.
Proof.
  intros Hne Hs Ht E. apply Hne. rewrite <- (take_app_le s x), <- (take_app_le t y) by done.
  by rewrite E.
Qed.

Lemma elem_of_if {A} (b : bool) (x y : A) : x ∈ (if b then [y] else []) ↔ b = true ∧ x = y.
Proof. destruct b; set_solver. Qed.

Definition entry_kinds : list pystr :=
  [u "fold"; u "check"; u "call ("; u "raise (min "; u "all-in ("].

Lemma entry_kinds_differ s t x y :
  s ∈ entry_kinds → t ∈ entry_kinds → s ≠ t → s ++ x ≠ t ++ y.
Proof.
  intros Hs Ht Hne. apply kind_differs.
  - assert (Forall (λ s, Forall (λ t, s = t ∨ take 2 s ≠ take 2 t) entry_kinds) entry_kinds) as H
      by (apply (bool_decide_unpack _); vm_compute; done).
    rewrite Forall_forall in H. specialize (H s Hs). rewrite Forall_forall in H.
    by destruct (H t Ht).
  - assert (Forall (λ s, 2 ≤ length s)%nat entry_kinds) as H
      by (apply (bool_decide_unpack _); vm_compute; done).
    rewrite Forall_forall in H. auto.
  - assert (Forall (λ s, 2 ≤ length s)%nat entry_kinds) as H
      by (apply (bool_decide_unpack _); vm_compute; done).
    rewrite Forall_forall in H. auto.
Qed.

(** An entry of the list is one of the five kinds. *)
Definition entry (k : pystr) (x : pystr) : pystr := k ++ x.

Section Available.
Context (g : t) (player_id : nat) (p : player).
Hypothesis Hp : get_player player_id g = Some p.
Hypothesis Ha : Player.status p = ACTIVE.
Notation to_call := (amount_to_call g p).
Notation offered := (get_available_actions player_id g).

Definition may_raise : bool :=
  (current_bet g =? 0) || (0 <? to_call) || is_big_blind_option g player_id to_call.

Lemma elem_of_available x :
  x ∈ offered ↔
  x = entry (u "fold") [] ∨
  (to_call = 0 ∧ x = entry (u "check") []) ∨
  (0 < to_call ≤ Player.chips p ∧ x = numbered (u "call (") to_call) ∨
  (may_raise = true ∧ min_raise_total g ≤ Player.chips p ∧ to_call < Player.chips p ∧
   x = numbered (u "raise (min ") (min_raise_total g)) ∨
  (0 < Player.chips p ∧ (may_raise = true ∨ 0 < to_call ∧ Player.chips p < to_call) ∧
   x = numbered (u "all-in (") (Player.chips p)).
Proof.
  unfold get_available_actions. rewrite Hp. unfold has_status. rewrite Ha. cbn [negb].
  rewrite (bool_decide_eq_true_2 _ eq_refl). cbn [negb]. fold may_raise.
  unfold entry. rewrite !app_nil_r. rewrite !elem_of_app, list_elem_of_singleton, !elem_of_if.
  rewrite !andb_true_iff, Z.eqb_eq, !Z.ltb_lt, !Z.leb_le.
  change ((current_bet g =? 0) || (0 <? to_call) || is_big_blind_option g player_id to_call)
    with may_raise.
  destruct (Z.ltb_spec 0 (Player.chips p)) as [L|L].
  - rewrite elem_of_if, orb_true_iff, andb_true_iff, !Z.ltb_lt. unfold numbered. tauto.
  - unfold numbered. set_unfold. assert (¬ 0 < Player.chips p) by lia. tauto.
Qed.
End Available.

Lemma entry_kind_eq s t x y :
  s ∈ entry_kinds → t ∈ entry_kinds → s ++ x = t ++ y → s = t.
Proof.
  intros Hs Ht E. destruct (decide (s = t)) as [|Hne]; [done|].
  by destruct (entry_kinds_differ s t x y Hs Ht Hne).
Qed.

(** Solves the cases of [elem_of_available] whose entries are of different kinds. *)
Ltac other_kind :=
  match goal with
  | H : ?s ++ _ = ?t ++ _ |- _ =>
      let E := fresh in
      assert (s = t) as E by (eapply entry_kind_eq; [| |exact H]; unfold entry_kinds; set_solver);
      vm_compute in E; discriminate E
  end.

(** The amounts in the offers *)
Lemma offered_call g i p n :
  get_player i g = Some p → Player.status p = ACTIVE →
  numbered (u "call (") n ∈ get_available_actions i g → n = amount_to_call g p ∧ 0 < n.
Proof.
  intros Hp Ha Hin. apply (elem_of_available g i p Hp Ha) in Hin. revert Hin. unfold numbered, entry.
  intros [H|[[_ H]|[[L H]|[(_ & _ & _ & H)|(_ & _ & H)]]]]; try other_kind.
  apply numbered_inj in H. lia.
Qed.

Lemma offered_raise g i p n :
  get_player i g = Some p → Player.status p = ACTIVE →
  numbered (u "raise (min ") n ∈ get_available_actions i g → n = min_raise_total g.
Proof.
  intros Hp Ha Hin. apply (elem_of_available g i p Hp Ha) in Hin. revert Hin. unfold numbered, entry.
  intros [H|[[_ H]|[[_ H]|[(_ & L & _ & H)|(_ & _ & H)]]]]; try other_kind.
  by apply numbered_inj in H.
Qed.

