(* ===== verification/Rules.v ===== *)
(** * The rules of the betting

    An abstract table: for every seat its stack, its bets and whether it can act;
    the turn, the bet to match, the street, and whether the betting is closed.  No
    cards, no history, no database, and no pot besides the bets.  [Rules.step] says
    which moves the rules of the program allow and what they do.  The engine refines
    it: through the abstraction [table_of] each step of a hand is a step of the
    rules or none. *)
From stdpp Require Import strings relations.
From S2P Require Import Prelude Py Json GameModels PlayerModels Evaluator GameHistory Game.
From S2P Require Import GameProps HandInvariant StartHand HandProps.

Module Rules.
Record seat := Seat {
  stack : Z; round_bet : Z; hand_bet : Z; state : PlayerStatus }.

Record table := Table {
  seats : list seat; turn : nat; high : Z; street : GamePhase; closed : bool }.

Inductive move := Fold | Check | Call | Raise (by_amount : Z) | AllIn.

Definition acting (s : seat) : bool := bool_decide (state s = ACTIVE).
Definition in_game (s : seat) : bool :=
  bool_decide (state s = ACTIVE) || bool_decide (state s = ALL_IN).

(** The pot is what was bet. *)
Definition pot (t : table) : Z := sum_by hand_bet (seats t).
Definition live (t : table) : nat := length (filter (λ s, in_game s) (seats t)).

(** What a seat owes to the bet to match *)
Definition owes (high : Z) (s : seat) : Z := high - round_bet s.

Definition allowed (high : Z) (s : seat) (m : move) : Prop :=
  match m with
  | Fold => True
  | Check => owes high s ≤ 0
  | Call => owes high s ≤ Z.max 0 (stack s)
  | Raise x => owes high s + x ≤ stack s
  | AllIn => 0 < stack s
  end.

Definition cost (high : Z) (s : seat) (m : move) : Z :=
  match m with
  | Fold | Check => 0
  | Call => Z.max 0 (owes high s)
  | Raise x => Z.max 0 (owes high s + x)
  | AllIn => stack s
  end.

(** The seat after the move: chips go from the stack to the bets. *)
Definition moved (high : Z) (s : seat) (m : move) : seat :=
  let x := cost high s m in
  Seat (stack s - x) (round_bet s + x) (hand_bet s + x)
    (match m with
     | Fold => FOLDED
     | _ => if (0 <? x) && (x =? stack s) then ALL_IN else ACTIVE
     end).

Definition new_high (high : Z) (s : seat) (m : move) : Z :=
  match m with
  | Raise _ => round_bet (moved high s m)
  | AllIn => Z.max high (round_bet (moved high s m))
  | _ => high
  end.

(** The first seat after the turn that can act, or the turn where nobody can *)
Definition next_turn (ss : list seat) (turn : nat) : nat :=
  default turn (find_first (λ i, match ss !! i with Some s => acting s | None => false end)
                  (seats_after turn (length ss))).

(** The betting may close: one player is left, or nobody who can act owes chips. *)
Definition settled (t : table) : Prop :=
  (live t ≤ 1)%nat ∨ Forall (λ s, state s = ACTIVE → high t ≤ round_bet s) (seats t).

Definition next_round (s : seat) : seat := Seat (stack s) 0 (hand_bet s) (state s).

Inductive step (t : table) : table → Prop :=
  | step_move s m closed' :
      closed t = false → seats t !! turn t = Some s → state s = ACTIVE → allowed (high t) s m →
      let ss := <[turn t := moved (high t) s m]> (seats t) in
      let t' := Table ss (next_turn ss (turn t)) (new_high (high t) s m) (street t) closed' in
      (closed' = true → settled t') →
      step t t'
  | step_street turn' closed' :
      closed t = true → (1 < live t)%nat → street t ∈ [PREFLOP; FLOP; TURN] →
      step t (Table (next_round <$> seats t) turn' 0 (next_phase (street t)) closed')
  | step_showdown :
      closed t = true → (live t ≤ 1)%nat ∨ street t = RIVER →
      step t (Table (seats t) (turn t) (high t) SHOWDOWN (closed t)).

Notation run := (rtc step).
End Rules.

Import PokerGame.
Import (notations) Rules.

(** ** The abstraction *)

Definition seat_of_player (p : player) : Rules.seat :=
  Rules.Seat (Player.chips p) (Player.current_bet p) (Player.total_bet_this_hand p)
    (Player.status p).

Definition table_of (g : t) : Rules.table :=
  Rules.Table (seat_of_player <$> players g) (current_player_index g) (current_bet g)
    (current_phase g) (betting_round_complete g).

Definition move_of (action : pystr) (amount : Z) : option Rules.move :=
  if bool_decide (action = u "fold") then Some Rules.Fold
  else if bool_decide (action = u "check") then Some Rules.Check
  else if bool_decide (action = u "call") then Some Rules.Call
  else if bool_decide (action = u "raise") then Some (Rules.Raise amount)
  else if bool_decide (action = u "all_in") then Some Rules.AllIn
  else None.

(** What a user interface does with a hand: requests for actions, accepted or not,
    while the betting is open, and changes of phase. *)
Inductive request (g : t) : t → Prop :=
  | request_action player_id action amount :
      betting_round_complete g = false →
      request g (process_player_action player_id action amount g).2
  | request_phase : request g (advance_to_next_phase g).2.

Notation requests := (rtc request).

(** ** The simulation *)

Lemma live_table g : Rules.live (table_of g) = still_in g.
Proof.
  unfold Rules.live, still_in. cbn [Rules.seats table_of].
  induction (players g) as [|p l IH]; [done|]. rewrite fmap_cons, !filter_cons.
  assert (Rules.in_game (seat_of_player p) = in_hand p) as ->.
  { unfold Rules.in_game, in_hand, has_status. cbn. done. }
  destruct (in_hand p); cbn [length]; simpl decide; repeat case_decide; cbn [length];
    try done; by rewrite IH.
Qed.

Lemma pot_table g : hand_ok g → Rules.pot (table_of g) = pot g.
Proof.
  intros Hok. rewrite (ok_pot _ Hok). unfold Rules.pot, bets_of. cbn [Rules.seats table_of].
  induction (players g) as [|p l IH]; [done|]. rewrite fmap_cons, !sum_by_cons, IH. done.
Qed.

Lemma settled_table g :
  Rules.settled (table_of g) ↔ (still_in g ≤ 1)%nat ∨ bets_matched g.
Proof.
  unfold Rules.settled. rewrite live_table. unfold bets_matched. cbn [Rules.seats table_of].
  by rewrite Forall_fmap.
Qed.

Lemma legal_move p action amount g :
  legal p action amount g = true →
  ∃ m, move_of action amount = Some m ∧ Rules.allowed (current_bet g) (seat_of_player p) m ∧
    Rules.cost (current_bet g) (seat_of_player p) m = payment p action amount g ∧
    (m = Rules.Fold ↔ action = u "fold") ∧
    ∀ bet, bet = Player.current_bet p + payment p action amount g →
      Rules.new_high (current_bet g) (seat_of_player p) m = bet_after action bet g.
Proof.
  unfold legal, move_of, payment, bet_after, Rules.new_high, Rules.moved. cbv zeta.
  action_cases action; action_tests; rewrite ?Z.leb_le, ?Z.ltb_lt; intros H; try done;
    eexists; (split; [done|]); cbn; unfold Rules.owes; cbn;
    (split_and!; [try done; lia|done|done|]); intros bet ->; try done; lia.
Qed.

Lemma acted_seat p p' action amount seat g g' m :
  acted seat p g action amount p' g' →
  Rules.cost (current_bet g) (seat_of_player p) m = payment p action amount g →
  (m = Rules.Fold ↔ action = u "fold") →
  seat_of_player p' = Rules.moved (current_bet g) (seat_of_player p) m.
Proof.
  intros [[] _ St _ _ _ _ _] Hc Hm. unfold Rules.moved. rewrite Hc. cbv zeta.
  unfold seat_of_player. cbn. f_equal; [done..|]. rewrite St. unfold status_after.
  destruct m; [rewrite bool_decide_eq_true_2 by (by apply Hm); done|..];
    (rewrite bool_decide_eq_false_2; [done|]); intros E; by apply Hm in E.
Qed.

(** The turn goes on over the seats as the rules have it. *)
Lemma advance_turn g :
  current_player_index (advance_to_next_player g)
  = Rules.next_turn (seat_of_player <$> players g) (current_player_index g).
Proof.
  unfold advance_to_next_player, Rules.next_turn. rewrite length_fmap.
  assert (∀ l, find_first (λ i, match (seat_of_player <$> players g) !! i with
                                | Some s => Rules.acting s | None => false end) l
               = find_first (seat_is (has_status ACTIVE) g) l) as E.
  { induction l as [|i l IH]; [done|]. cbn [find_first].
    assert (match (seat_of_player <$> players g) !! i with
            | Some s => Rules.acting s | None => false end
            = seat_is (has_status ACTIVE) g i) as ->.
    { unfold seat_is. rewrite list_lookup_fmap. by destruct (players g !! i). }
    destruct (seat_is _ _ _); [done|exact IH]. }
  rewrite E. by destruct (find_first _ _).
Qed.

Lemma process_turn player_id action amount g g' :
  process_player_action player_id action amount g = (true, g') →
  current_player_index g' = Rules.next_turn (seat_of_player <$> players g') (current_player_index g).
Proof.
  unfold process_player_action. destruct (negb _); [done|].
  destruct (find_player player_id g) as [[seat p]|] eqn:F; [|done].
  unfold has_status at 1. case_bool_decide as Ha; cbn [negb]; [|done].
  destruct (execute_action _ _ _ _ _ _) as [[g1 d]|] eqn:X; [|done].
  apply find_player_Some in F as [Hp _].
  destruct (execute_action_effect _ _ _ _ Hp Ha _ _ _ _ X) as [p' A].
  pose proof (acted_turn _ _ _ _ _ _ _ A) as T. cbv zeta.
  match goal with |- context [if_hand_recorded ?f ?h] =>
    destruct (if_hand_recorded_frame f h) as [x ->] end.
  set (g2 := append_history d g1 <| db := x |>).
  pose proof (advance_turn g2) as T2.
  pose proof (same_table_advance g2) as [E _ _ _ _]; rename E into E2.
  destruct (check_betting_round_complete_frame (advance_to_next_player g2)) as [b ->].
  intros [= <-]. cbn. rewrite T2. change (current_player_index g2) with (current_player_index g1).
  by rewrite T, E2.
Qed.

Lemma action_simulated player_id action amount g g' :
  hand_ok g → betting_round_complete g = false →
  process_player_action player_id action amount g = (true, g') →
  Rules.step (table_of g) (table_of g').
Proof.
  intros Hok Hopen E. pose proof (ok_seated _ Hok) as Hs.
  pose proof (closing_matched _ _ _ _ _ Hopen E) as Hclose.
  pose proof (process_turn _ _ _ _ _ E) as Hturn.
  pose proof (process_player_action_inv _ _ _ _ _ E) as (seat & p & g1 & d & Hid & F & S & X & T).
  apply find_player_Some in F as [Hp Hi].
  assert (seat = current_player_index g) as -> by (rewrite <- Hid, <- Hi; by rewrite (Hs _ _ Hp)).
  destruct (execute_action_effect _ _ _ _ Hp S _ _ _ _ X) as [p' A].
  assert (legal p action amount g = true) as Hl
    by (apply (execute_action_accepts player_id (current_player_index g) p g); rewrite X; by eexists).
  destruct (legal_move p action amount g Hl) as (m & _ & Hallow & Hcost & Hfold & Hhigh).
  pose proof (acted_seat _ _ _ _ _ _ _ _ A Hcost Hfold) as Hseat.
  destruct A as [P B _ [] _ _ _ _]. destruct T as [Tp _ Tb _ _ [_ _ Tph _ _ _ _]].
  assert (seat_of_player <$> players g'
          = <[current_player_index g := Rules.moved (current_bet g) (seat_of_player p) m]>
              (seat_of_player <$> players g)) as Hseats.
  { by rewrite Tp, (pays_players _ _ _ _ _ _ P), list_fmap_insert, Hseat. }
  assert (current_bet g' = Rules.new_high (current_bet g) (seat_of_player p) m) as Hb.
  { rewrite Tb, B. symmetry. apply Hhigh. apply (pays_current _ _ _ _ _ _ P). }
  assert (current_phase g' = current_phase g) as Hph by congruence.
  pose proof (proj2 (settled_table g')) as Hset. unfold table_of at 2. unfold table_of in Hset.
  rewrite Hseats in Hturn. rewrite Hseats, Hb, Hph, Hturn in Hset |- *.
  apply (Rules.step_move (table_of g) (seat_of_player p) m (betting_round_complete g')); try done.
  - cbn. by rewrite list_lookup_fmap, Hp.
  - intros Hc. apply Hset, Hclose, Hc.
Qed.

Lemma phase_simulated g b g' :
  phase_step g b g' → g' = g ∨ Rules.step (table_of g) (table_of g').
Proof.
  intros St. destruct St as [C|C L|g' C L Hin Hn|C L F|C L F]; [by left| | | |by left]; right.
  - apply (Rules.step_showdown (table_of g)); [done|]. left. by rewrite live_table.
  - assert (table_of g' = Rules.Table (Rules.next_round <$> Rules.seats (table_of g))
        (current_player_index g') 0 (next_phase (Rules.street (table_of g)))
        (betting_round_complete g')) as ->.
    { destruct Hn as [_ P _ B F _]. unfold table_of. cbn. rewrite P, B, F.
      f_equal. rewrite <- !list_fmap_compose. done. }
    apply Rules.step_street; [done|by rewrite live_table|done].
  - apply (Rules.step_showdown (table_of g)); [done|]. right. by cbn; rewrite F.
Qed.

Lemma request_simulated g g' :
  hand_ok g → request g g' →
  hand_ok g' ∧ (table_of g' = table_of g ∨ Rules.step (table_of g) (table_of g')).
Proof.
  intros Hok H. destruct H as [i a x Hopen|].
  - destruct (process_player_action i a x g) as [[] g1] eqn:E; cbn [snd].
    + split; [by eapply hand_ok_action|]. right. by eapply action_simulated.
    + apply process_rejected in E as ->. split; [done|by left].
  - destruct (advance_to_next_phase_cases g Hok) as (b & g1 & E & St). rewrite E. cbn [snd].
    split; [by eapply hand_ok_phase|].
    destruct (phase_simulated _ _ _ St) as [->|H]; [by left|by right].
Qed.

Lemma requests_simulated g g' :
  requests g g' → hand_ok g → hand_ok g' ∧ Rules.run (table_of g) (table_of g').
Proof.
  induction 1 as [g|g1 g2 g3 H _ IH]; intros Hok; [by split|].
  destruct (request_simulated _ _ Hok H) as [Hok2 Hsim]. destruct (IH Hok2) as [Hok3 Hrun].
  split; [done|]. destruct Hsim as [E|St]; [by rewrite <- E|]. by eapply rtc_l.
Qed.

(** C7: the engine refines the rules of the betting.  Whatever is asked of a hand
    while the betting is open, by the player on turn or by another, accepted or not,
    and whenever the next phase is asked for, the table goes through a run of the
    abstract rules: a legal move of the seat on turn, a new street after the betting
    was settled, or the showdown; and the pot is what the seats have bet. *)
Theorem engine_refines_rules g g' :
  hand_ok g → requests g g' →
  rtc Rules.step (table_of g) (table_of g') ∧ pot g' = Rules.pot (table_of g').
Proof.
  intros Hok Hr. destruct (requests_simulated _ _ Hr Hok) as [Hok' H].
  split; [done|]. symmetry. by apply pot_table.
Qed.
