(* ===== verification/ViewProps.v ===== *)
(** * What a player is shown

    The state given to a player depends on no secret of the others: two games
    that differ only in the other players' hole cards, in the deck and in the
    recorded database give the player the same state. *)
From stdpp Require Import strings.
From S2P Require Import Prelude Py Json GameModels PlayerModels Evaluator GameHistory Game.
From S2P Require Import GameProps HandInvariant StartHand.
Import PokerGame.

(** The player's own cards stay, those of the others are taken away. *)
Definition hide (player_id : nat) (p : player) : player :=
  if decide (Player.id p = player_id) then p else unhand p.

(** The game without what is secret to the player *)
Definition redact (player_id : nat) (g : t) : t :=
  g <| players ::= fmap (hide player_id) |> <| deck := [] |> <| db := GameHistoryDB.empty |>.

Section Hide.
Context (player_id : nat).

(** Everything but the cards *)
Lemma hide_forgets {A} (f : player → A) p :
  (∀ q, f (unhand q) = f q) → f (hide player_id p) = f p.
Proof. unfold hide. intros H. case_decide; [done | apply H]. Qed.

Lemma hide_self p : Player.id p = player_id → hide player_id p = p.
Proof. unfold hide. intros ->. by rewrite decide_True. Qed.

Lemma list_find_hide (P : player → Prop) `{∀ x, base.Decision (P x)} l :
  (∀ q, P (unhand q) ↔ P q) →
  list_find P (hide player_id <$> l) = prod_map id (hide player_id) <$> list_find P l.
Proof.
  intros HP. induction l as [|p l IH]; [done|]. rewrite fmap_cons. cbn [list_find].
  assert (P (hide player_id p) ↔ P p) as E by (unfold hide; case_decide; [done | apply HP]).
  destruct (decide (P p)); [rewrite decide_True by tauto; done|].
  rewrite decide_False by tauto. rewrite IH. by destruct (list_find P l) as [[]|].
Qed.

Lemma find_player_redact g i :
  find_player i (redact player_id g)
  = prod_map id (hide player_id) <$> find_player i g.
Proof. apply (list_find_hide (λ p, Player.id p = i)). done. Qed.

Lemma get_player_redact g i :
  get_player i (redact player_id g) = hide player_id <$> get_player i g.
Proof.
  unfold get_player. rewrite find_player_redact. by destruct (find_player i g) as [[]|].
Qed.

Lemma bb_index_redact g : bb_index (redact player_id g) = bb_index g.
Proof.
  unfold bb_index. change (players (redact player_id g)) with (hide player_id <$> players g).
  rewrite (list_find_hide (λ p, Player.is_big_blind p = true)) by done.
  by destruct (list_find _ _) as [[]|].
Qed.

Lemma get_player_own g p :
  get_player player_id g = Some p → get_player player_id (redact player_id g) = Some p.
Proof.
  intros H. rewrite get_player_redact, H. cbn. f_equal. apply hide_self.
  unfold get_player in H. destruct (find_player player_id g) as [[s q]|] eqn:F; [|done].
  apply find_player_Some in F as [_ F]. by injection H as <-.
Qed.

Lemma get_available_actions_redact g :
  get_available_actions player_id (redact player_id g) = get_available_actions player_id g.
Proof.
  unfold get_available_actions. destruct (get_player player_id g) as [p|] eqn:E.
  - rewrite (get_player_own g p E). unfold is_big_blind_option. by rewrite bb_index_redact.
  - by rewrite get_player_redact, E.
Qed.

(** The entries of the other players *)
Lemma others_redact {A} g (f : player → A) (P : player → Prop) `{∀ p, base.Decision (P p)} :
  (∀ q, f (unhand q) = f q) → (∀ q, P (unhand q) ↔ P q) →
  f <$> filter P (players (redact player_id g)) = f <$> filter P (players g).
Proof.
  intros Hf HP. change (players (redact player_id g))
    with (hide player_id <$> players g).
  induction (players g) as [|p l IH]; [done|]. rewrite fmap_cons, !filter_cons.
  assert (P (hide player_id p) ↔ P p) as E by (unfold hide; case_decide; [done | apply HP]).
  destruct (decide (P p)); [rewrite decide_True by tauto | rewrite decide_False by tauto].
  - rewrite !fmap_cons, IH. f_equal. by apply hide_forgets.
  - done.
Qed.

Lemma get_llm_game_state_redact g :
  get_llm_game_state player_id (redact player_id g) = get_llm_game_state player_id g.
Proof.
  unfold get_llm_game_state. destruct (get_player player_id g) as [p|] eqn:E.
  - rewrite (get_player_own g p E). destruct (has_status BUSTED p); [done|].
    rewrite get_available_actions_redact.
    rewrite (others_redact g _ (λ q, Player.id q ≠ player_id ∧ Player.status q ≠ BUSTED)) by done.
    done.
  - by rewrite get_player_redact, E.
Qed.
End Hide.

(** C24: the state given to a player reveals nothing about the other players'
    cards or the deck: games that agree on the rest give the same state. *)
Theorem get_llm_game_state_secret player_id g1 g2 :
  redact player_id g1 = redact player_id g2 →
  get_llm_game_state player_id g1 = get_llm_game_state player_id g2.
Proof.
  intros E. by rewrite <- (get_llm_game_state_redact player_id g1), E, get_llm_game_state_redact.
Qed.
