(* ===== verification/Showdown.v ===== *)
(** * The showdown

    Models [PokerGame.conduct_showdown] of [src/poker/game.py]: the pot layers
    of the players' contributions, the winners of a layer, the distribution of
    the layers, and the method that puts them together. *)
From stdpp Require Import strings.
From S2P Require Import Prelude Py Json GameModels PlayerModels Evaluator GameHistory Game.

Module Showdown.
Import PokerGame.

(** ** Pot layers *)

(** [{p.id: max(0, p.total_bet_this_hand) for p in players}] without the
    zero entries *)
Definition contributions (ps : list player) : list (nat * Z) :=
  filter (λ kv, 0 < kv.2)
    (foldl (λ d p, dict_set (Player.id p) (Z.max 0 (Player.total_bet_this_hand p)) d) [] ps).

Record layer := Layer { ly_amount : Z; ly_contributors : list nat }.

(** The loop over the levels, in ascending order *)
Fixpoint layers_from (contrib_map : list (nat * Z)) (prev : Z) (levels : list Z) :
    list layer :=
  match levels with
  | [] => []
  | level :: rest =>
      let width := level - prev in
      if width <=? 0 then layers_from contrib_map level rest
      else
        let eligible_contributors := fst <$> filter (λ kv, level ≤ kv.2) contrib_map in
        Layer (width * Z.of_nat (length eligible_contributors)) eligible_contributors
          :: layers_from contrib_map level rest
  end.

(** [sorted(set(contrib_map.values()))] *)
Definition unique_levels (contrib_map : list (nat * Z)) : list Z :=
  sort_asc (remove_dups (snd <$> contrib_map)).

Definition build_pot_layers (contrib_map : list (nat * Z)) : list layer :=
  layers_from contrib_map 0 (unique_levels contrib_map).

(** ** The winners among some players *)

Definition beats (hand best : hand_result) : bool :=
  let v1 := hand_rank_value (HandResult.rank hand) in
  let v2 := hand_rank_value (HandResult.rank best) in
  (v2 <? v1) || ((v1 =? v2) && list_gtb (HandResult.kickers hand) (HandResult.kickers best)).

Definition ties (hand best : hand_result) : bool :=
  (hand_rank_value (HandResult.rank hand) =? hand_rank_value (HandResult.rank best))
  && bool_decide (HandResult.kickers hand = HandResult.kickers best).

Fixpoint winners_loop (hands_by_id : list (nat * hand_result)) (eligible_ids : list nat)
    (winners_local : list nat) (best : option hand_result) :
    list nat * option hand_result :=
  match eligible_ids with
  | [] => (winners_local, best)
  | pid :: rest =>
      match dict_get pid hands_by_id, best with
      | None, _ => winners_loop hands_by_id rest winners_local best
      | Some hand, None => winners_loop hands_by_id rest [pid] (Some hand)
      | Some hand, Some b =>
          if beats hand b then winners_loop hands_by_id rest [pid] (Some hand)
          else if ties hand b
               then winners_loop hands_by_id rest (winners_local ++ [pid]) best
               else winners_loop hands_by_id rest winners_local best
      end
  end.

Definition determine_winner_ids (hands_by_id : list (nat * hand_result))
    (eligible_ids : list nat) : list nat * option hand_result :=
  winners_loop hands_by_id eligible_ids [] None.

(** ** Distribution *)

(** The share of the winner at position [i] of the sorted winners *)
Definition share_of (base_share remainder : Z) (i : nat) : Z :=
  base_share + (if Z.of_nat i <? remainder then 1 else 0).

(** The inner loop over the sorted winners: [winnings_map[pid] += share] *)
Fixpoint add_shares (base_share remainder : Z) (i : nat) (winner_ids_sorted : list nat)
    (winnings_map : list (nat * Z)) : list (nat * Z) :=
  match winner_ids_sorted with
  | [] => winnings_map
  | pid :: rest =>
      add_shares base_share remainder (S i) rest
        (dict_set pid (dict_get_default pid 0 winnings_map
                       + share_of base_share remainder i) winnings_map)
  end.

Definition sort_ids (l : list nat) : list nat := sort_asc_by Z.of_nat l.

(** The variables of the loop over the layers *)
Record award := Award {
  aw_winnings : list (nat * Z); aw_total : Z; aw_history : list pystr }.

Definition layer_summary (idx : nat) (amount : Z) (winner_ids_sorted : list nat)
    (best : option hand_result) : pystr :=
  u "Side pot layer " ++ str_of_nat idx ++ u ": amount=" ++ str_of_Z amount
  ++ u ", winners=" ++ join (u ", ") (str_of_nat <$> winner_ids_sorted)
  ++ match best with
     | Some h => u " best_hand=" ++ HandResult.str h
     | None => []
     end.

Definition award_layer (hands_by_id : list (nat * hand_result)) (showdown_ids : list nat)
    (idx : nat) (l : layer) (a : award) : result award :=
  let amount := ly_amount l in
  let eligible_ids := filter (λ pid, pid ∈ showdown_ids) (ly_contributors l) in
  match eligible_ids with
  | [] => Ok a
  | _ =>
      let '(winner_ids, best) := determine_winner_ids hands_by_id eligible_ids in
      let n := Z.of_nat (length winner_ids) in
      if n =? 0 then Raise ZeroDivisionError
      else
        let base_share := amount / n in
        let remainder := amount mod n in
        let winner_ids_sorted := sort_ids winner_ids in
        Ok (Award (add_shares base_share remainder 0 winner_ids_sorted (aw_winnings a))
              (foldl (λ t i, t + share_of base_share remainder i) (aw_total a)
                 (seq 0 (length winner_ids_sorted)))
              (aw_history a ++ [layer_summary idx amount winner_ids_sorted best]))
  end.

Fixpoint award_layers (hands_by_id : list (nat * hand_result)) (showdown_ids : list nat)
    (idx : nat) (layers : list layer) (a : award) : result award :=
  match layers with
  | [] => Ok a
  | l :: rest => a ← award_layer hands_by_id showdown_ids idx l a;
                 award_layers hands_by_id showdown_ids (S idx) rest a
  end.

(** [str(hands_by_id.get(pid))] *)
Definition hand_text (h : option hand_result) : pystr :=
  match h with Some h => HandResult.str h | None => u "None" end.

(** The loop over the sorted winnings: chips to the players, and the results. *)
Fixpoint pay_out (hands_by_id : list (nat * hand_result)) (winnings : list (nat * Z))
    (g : t) : list payout * t :=
  match winnings with
  | [] => ([], g)
  | (pid, win_amount) :: rest =>
      match find_player pid g with
      | None => pay_out hands_by_id rest g
      | Some (i, p) =>
          let '(results, g) :=
            pay_out hands_by_id rest
              (set_player i (p <| Player.chips ::= λ c, c + win_amount |>) g) in
          (Payout pid (hand_text (dict_get pid hands_by_id)) win_amount :: results, g)
      end
  end.

(** [sorted(winnings_map.items())]: the keys are distinct. *)
Definition sorted_items (winnings_map : list (nat * Z)) : list (nat * Z) :=
  sort_asc_by (λ kv, Z.of_nat kv.1) winnings_map.

(** ** The method *)

Definition remaining_players (g : t) : list player := filter (λ p, in_hand p) (players g).

Definition evaluate_players (community : list card) (ps : list player) :
    result (list (player * hand_result)) :=
  map_result (λ p, h ← HandEvaluator.evaluate_hand (Player.hole_cards p) community;
                   Ok (p, h)) ps.

Definition hand_entry (ph : player * hand_result) : pystr :=
  u "Showdown: Player " ++ str_of_nat (Player.id ph.1) ++ u " hand="
  ++ HandResult.str ph.2 ++ u " cards=" ++ join (u ", ") (Card.str <$> Player.hole_cards ph.1).

Definition id_hand (ph : player * hand_result) : nat * hand_result :=
  (Player.id ph.1, ph.2).

(** [{ph["player"].id: ph["hand"] for ph in player_hands}] *)
Definition hands_map (player_hands : list (player * hand_result)) :
    list (nat * hand_result) :=
  foldl (λ d ph, dict_set (Player.id ph.1) ph.2 d) [] player_hands.

(** The rows of the showdown and the end of the hand *)
Definition record_showdowns (player_hands : list (player * hand_result))
    (winnings_map : list (nat * Z)) (g : t) : t :=
  if_hand_recorded (λ hand_id d,
    GameHistoryDB.end_hand hand_id
      (foldl (λ d ph, GameHistoryDB.record_showdown hand_id (Player.id ph.1)
                        (Some (Card.str <$> Player.hole_cards ph.1))
                        (Some (HandResult.str ph.2))
                        (dict_get_default (Player.id ph.1) 0 winnings_map) d)
         d player_hands)) g.

Definition finish (result : showdown_result) (g : t) : t :=
  g <| last_showdown_results := Some result |>.

(** The only remaining player, at seat [i] *)
Definition showdown_single (i : nat) (winner : player) : M t showdown_result :=
  g ← get;
  let result := ShowdownResults [Player.id winner]
                  [Payout (Player.id winner) (u "Won by default") (pot g)] None in
  modify (set_player i (winner <| Player.chips ::= λ c, c + pot g |>)) ;;
  modify (finish result) ;;
  modify (append_history (u "Showdown: Player " ++ str_of_nat (Player.id winner)
                          ++ u " won " ++ str_of_Z (pot g))) ;;
  mret result.

Definition showdown_many (remaining : list player) : M t showdown_result :=
  g ← get;
  player_hands ← lift (evaluate_players (community_cards g) remaining);
  modify (λ g, g <| action_history := action_history g ++ (hand_entry <$> player_hands) |>) ;;
  let hands_by_id := hands_map player_hands in
  let pot_layers := build_pot_layers (contributions (players g)) in
  let showdown_ids := Player.id <$> remaining in
  a ← lift (award_layers hands_by_id showdown_ids 0 pot_layers (Award [] 0 []));
  modify (λ g, g <| action_history := action_history g ++ aw_history a |>) ;;
  g ← get;
  let '(results, g') := pay_out hands_by_id (sorted_items (aw_winnings a)) g in
  put g' ;;
  let overall_winner_ids := (determine_winner_ids hands_by_id (fst <$> hands_by_id)).1 in
  let all_hands := (λ ph, ShownHand (Player.id ph.1) (HandResult.str ph.2)
                            (Card.str <$> Player.hole_cards ph.1)) <$> player_hands in
  modify (λ g, g <| pot ::= λ x, Z.max 0 (x - aw_total a) |>) ;;
  let result := ShowdownResults overall_winner_ids results (Some all_hands) in
  modify (finish result) ;;
  modify (record_showdowns player_hands (aw_winnings a)) ;;
  mret result.

Definition conduct_showdown : M t showdown_result :=
  g ← get;
  match indices_where in_hand (players g) with
  | [] =>
      let result := ShowdownResults [] [] None in
      modify (finish result) ;;
      modify (append_history (u "Showdown: no remaining players")) ;;
      mret result
  | [i] => winner ← lift (nth_item (players g) i); showdown_single i winner
  | _ => showdown_many (remaining_players g)
  end.
End Showdown.
