(* ===== verification/GameUi.v ===== *)
(** * The screen of the graphical interface

    Models what [GameUI] of [src/poker/game_ui.py] shows of a game, the buttons it
    offers to the person at it and what they do.  A widget is what it says: the texts
    of its parts, the face of a card, the state a seat is coloured by.  Sizes, fonts,
    the other colours and the layout are left out, as are the lock and the redrawing of
    the page.  A button is the call that a click on it makes. *)
From stdpp Require Import strings.
From S2P Require Import Prelude Py Json Regex GameModels PlayerModels Evaluator Game Showdown.
Import PokerGame.

(** [f] of an integer with the format [,]: the digits in groups of three *)
Fixpoint group_digits (reversed : pystr) : pystr :=
  match reversed with
  | a :: b :: c :: (_ :: _) as rest => a :: b :: c :: 44%N :: group_digits rest
  | _ => reversed
  end.
Definition grouped (z : Z) : pystr :=
  (if z <? 0 then u "-" else []) ++ reverse (group_digits (reverse (str_of_Z (Z.abs z)))).

Module GameUI.
(** ** Widgets *)

(** [create_card_widget] and its variants in other sizes: the back, or the rank and the
    suit, in red or black *)
Inductive card_face := Back | Face (rank_text suit_symbol : pystr) (red : bool).

#[global] Instance card_face_eq_dec : EqDecision card_face.
Proof. solve_decision. Defined.

Definition create_card_widget (card_str : pystr) : result card_face :=
  if bool_decide (card_str = []) || bool_decide (card_str = u "??") then Ok Back
  else
    suit ← last_char card_str;
    Ok (Face (but_last card_str) [suit] (bool_decide ([suit] ∈ [u "♥"; u "♦"]))).

(** [_get_display_name] and [_get_player_name] *)
Definition get_display_name (p : player) : pystr :=
  match Player.kind p with
  | LLMApiPlayer app_name _ =>
      if bool_decide (app_name = []) then Player.name p
      else
        let cleaned := strip (replace (u "_") (u " ") app_name) in
        if bool_decide (cleaned = []) then app_name else title cleaned
  | _ => Player.name p
  end.
Definition get_player_name (player_id : nat) (game : option PokerGame.t) : pystr :=
  match game ≫= get_player player_id with
  | Some p => get_display_name p
  | None => u "Player " ++ str_of_nat player_id
  end.

(** ** The history *)

(** An item: a badge with a name and an amount, the cards of a street, or a text *)
Inductive item :=
  | Badge (badge name : pystr) (amount : option Z)
  | Street (badge : pystr) (cards : list card_face)
  | Generic (text : pystr).

(** [re.match(r"Player (\d+) " + words + r" (\d+)")], and without the number *)
Definition player_action (words : string) : pystr → option nat :=
  literal (u "Player ") (number (λ pid, literal (u words) (λ _, Some (Z.to_nat pid)))).
Definition player_amount (words : string) : pystr → option (nat * Z) :=
  literal (u "Player ") (number (λ pid, literal (u words)
    (number (λ amt _, Some (Z.to_nat pid, amt))))).

(** The patterns of a player's action, in order, with the badge shown *)
Definition plain_patterns : list (string * pystr) :=
  [(" folded", u "FOLD"); (" checked", u "CHECK")]%string.
Definition amount_patterns : list (string * pystr) :=
  [(" called ", u "CALL"); (" raised to ", u "RAISE"); (" went all-in with ", u "ALL-IN");
   (" posted small blind ", u "SB"); (" posted big blind ", u "BB")]%string.

Definition action_item (game : option PokerGame.t) (action_text : pystr) : option item :=
  head (omap (λ x, (λ pid, Badge x.2 (get_player_name pid game) None)
                     <$> player_action x.1 action_text) plain_patterns
        ++ omap (λ x, (λ y, Badge x.2 (get_player_name y.1 game) (Some y.2))
                        <$> player_amount x.1 action_text) amount_patterns).

(** [re.match(words + r"(.+)")] *)
Definition dealt (words : string) : pystr → option pystr := literal (u words) (rest_text Some).

(** [_create_action_history_item] *)
Definition create_action_history_item (game : option PokerGame.t) (action_text : pystr) :
    result item :=
  match action_item game action_text with
  | Some i => Ok i
  | None =>
      match dealt "Flop dealt: " action_text with
      | Some cards_str =>
          cards ← map_result create_card_widget (strip <$> split (u ",") cards_str);
          Ok (Street (u "FLOP") cards)
      | None =>
          match dealt "Turn dealt: " action_text, dealt "River dealt: " action_text with
          | Some c, _ => f ← create_card_widget (strip c); Ok (Street (u "TURN") [f])
          | None, Some c => f ← create_card_widget (strip c); Ok (Street (u "RIVER") [f])
          | None, None => Ok (Generic action_text)
          end
      end
  end.

(** ** The seats *)

(** The state a seat is coloured by *)
Inductive shade := Gone | Staked | OnTurn | You | Other.

Record seat := Seat {
  seat_cards : list card_face; seat_name : pystr; seat_badges : list pystr;
  seat_chips : pystr; seat_bet : pystr; seat_shade : shade;
  (** drawn with a thick border *)
  seat_marked : bool;
  seat_overlay : option pystr }.

Definition out_of_play (p : player) : bool := has_status FOLDED p || has_status BUSTED p.

(** One turn of the loop of [_build_seat_controls] *)
Definition build_seat (current_player_id : nat) (g : PokerGame.t) (p : player) : result seat :=
  let is_current_turn := bool_decide (Player.id p = current_player_index g) in
  let is_you := bool_decide (Player.id p = current_player_id) in
  hidden ← create_card_widget (u "??");
  cards ← (if negb (bool_decide (Player.hole_cards p = [])) && is_you
           then map_result (λ c, create_card_widget (Card.str c)) (Player.hole_cards p)
           else Ok [hidden; hidden]);
  Ok {| seat_cards := cards;
        seat_name := get_display_name p;
        seat_badges := (if Player.is_dealer p then [u "D"] else [])
                       ++ (if Player.is_small_blind p then [u "SB"] else [])
                       ++ (if Player.is_big_blind p then [u "BB"] else []);
        seat_chips := grouped (Player.chips p);
        seat_bet := if 0 <? Player.current_bet p then u "Bet " ++ str_of_Z (Player.current_bet p)
                    else u "Bet 0";
        seat_shade := if out_of_play p then Gone
                      else if has_status ALL_IN p then Staked
                      else if is_current_turn then OnTurn
                      else if is_you then You else Other;
        seat_marked := is_current_turn || is_you;
        seat_overlay := if out_of_play p
                        then Some (if has_status FOLDED p then u "❌ フォールド" else u "❌ バスト")
                        else None |}.

Definition build_seat_controls (current_player_id : nat) (g : PokerGame.t) : result (list seat) :=
  map_result (build_seat current_player_id g) (players g).

(** ** The table *)

Inductive widget := Card (face : card_face) | Label (text : pystr).

Record screen := Screen {
  game_info_text : pystr; community_cards_row : list widget; pot_text : pystr;
  table_status_text : pystr; seats : list seat; your_cards_row : list widget;
  action_history_column : list item }.

(** What [_init_ui_components] writes before there is a game *)
Definition first_screen : screen :=
  Screen (u "ゲームを開始しています...") [] (u "💰 Pot: 0") [] [] [] [].

Definition phase_name (p : GamePhase) : pystr :=
  match p with
  | PREFLOP => u "プリフロップ" | FLOP => u "フロップ" | TURN => u "ターン"
  | RIVER => u "リバー" | SHOWDOWN => u "ショーダウン" | FINISHED => u "終了"
  end.

Definition card_row (cards : list card) : result (list widget) :=
  map_result (λ c, Card <$> create_card_widget (Card.str c)) cards.

(** The hand of the person at this interface, and what it is worth from the flop on *)
Definition your_cards (current_player_id : nat) (g : PokerGame.t) : result (list widget) :=
  match get_player current_player_id g with
  | Some p =>
      if bool_decide (Player.hole_cards p = []) then Ok [Label (u "手札がありません")]
      else
        cards ← card_row (Player.hole_cards p);
        if (3 <=? length (community_cards g))%nat then
          hand_result ← HandEvaluator.evaluate_hand (Player.hole_cards p) (community_cards g);
          Ok (cards ++ [Label (u "現在のハンド:" ++ [10%N]
                               ++ HandEvaluator.get_hand_strength_description hand_result)])
        else Ok cards
  | None => Ok [Label (u "手札がありません")]
  end.

(** [update_display], of a game *)
Definition display (current_player_id : nat) (g : PokerGame.t) : result screen :=
  community ← (if bool_decide (community_cards g = [])
               then Ok [Label (u "まだカードがありません")] else card_row (community_cards g));
  seats ← build_seat_controls current_player_id g;
  yours ← your_cards current_player_id g;
  history ← map_result (create_action_history_item (Some g)) (reverse (action_history g));
  Ok {| game_info_text := u "🎯 ハンド #" ++ str_of_nat (hand_number g) ++ u " | 🎲 フェーズ: "
                          ++ phase_name (current_phase g);
        community_cards_row := community;
        pot_text := u "💰 Pot: " ++ grouped (pot g) ++ u "   💵 Bet: " ++ grouped (current_bet g);
        table_status_text := u "Hand #" ++ str_of_nat (hand_number g) ++ u "  •  "
                             ++ phase_name (current_phase g);
        GameUI.seats := seats; your_cards_row := yours; action_history_column := history |}.

(** ** Buttons *)

(** What a click calls *)
Inductive click :=
  | Handle (action : pystr) (amount : Z)
  | ShowRaiseDialog (min_amount : Z)
  | ConfirmPhase
  | ConfirmShowdown
  | BackToSetup.

Record button := Button { text : pystr; on_click : click }.

(** The button of an available action; [None] where there is none *)
Definition action_button (action : pystr) : result (option button) :=
  if bool_decide (action = u "fold") then Ok (Some (Button (u "フォールド") (Handle (u "fold") 0)))
  else if bool_decide (action = u "check") then
    Ok (Some (Button (u "チェック") (Handle (u "check") 0)))
  else if startswith action (u "call") then
    amount ← RandomPlayerDecision.bracketed_int (u "(") action;
    Ok (Some (Button (u "コール (" ++ str_of_Z amount ++ u ")") (Handle (u "call") amount)))
  else if startswith action (u "raise") then
    min_amount ← RandomPlayerDecision.bracketed_int (u "min ") action;
    Ok (Some (Button (u "レイズ (最低" ++ str_of_Z min_amount ++ u ")") (ShowRaiseDialog min_amount)))
  else if startswith action (u "all-in") then
    amount ← RandomPlayerDecision.bracketed_int (u "(") action;
    Ok (Some (Button (u "オールイン (" ++ str_of_Z amount ++ u ")") (Handle (u "all_in") amount)))
  else Ok None.

Record t := GameUI {
  game : option PokerGame.t;
  current_player_id : nat;
  shown : screen;
  action_buttons : list button;
  status_text : pystr;
  raise_dialog_open : bool;
  raise_amount_field : pystr;
  raise_helper_text : pystr;
  raise_error_text : option pystr;
  is_waiting_phase_confirmation : bool;
  phase_transition_confirmed : bool;
  showdown_continue_confirmed : bool;
  (** the overlays, while they are visible *)
  showdown_overlay : option (list (list widget + button));
  final_overlay : option (list (list widget + button)) }.

#[global] Instance eta : Eta t := λ s,
  GameUI (game s) (current_player_id s) (shown s) (action_buttons s) (status_text s)
    (raise_dialog_open s) (raise_amount_field s) (raise_helper_text s) (raise_error_text s)
    (is_waiting_phase_confirmation s) (phase_transition_confirmed s)
    (showdown_continue_confirmed s) (showdown_overlay s) (final_overlay s).

(** [initialize] *)
Definition initialize : t :=
  GameUI None 0 first_screen [] (u "ゲーム開始待ち") false [] [] None false false false None None.

(** [set_game] *)
Definition set_game (game : PokerGame.t) (current_player_id : nat) (s : t) : t :=
  s <| GameUI.game := Some game |> <| GameUI.current_player_id := current_player_id |>.

Definition update_display : M t () :=
  s ← get;
  match game s with
  | None => mret tt
  | Some g =>
      screen ← lift (display (current_player_id s) g);
      modify (λ s, s <| shown := screen |>)
  end.

Definition set_status (text : pystr) : M t () := modify (λ s, s <| status_text := text |>).

(** The loop over the available actions *)
Fixpoint add_buttons (available_actions : list pystr) : M t () :=
  match available_actions with
  | [] => mret tt
  | action :: rest =>
      btn ← lift (action_button action);
      match btn with
      | Some btn => modify (λ s, s <| action_buttons ::= λ l, l ++ [btn] |>)
      | None => mret tt
      end ;;
      add_buttons rest
  end.

Definition update_action_buttons : M t () :=
  s ← get;
  if is_waiting_phase_confirmation s then mret tt
  else
    modify (λ s, s <| action_buttons := [] |>) ;;
    match game s with
    | None => mret tt
    | Some g =>
        if bool_decide (current_phase g ∈ [SHOWDOWN; FINISHED]) then mret tt
        else
          current_player ← lift (nth_item (players g) (current_player_index g));
          if negb (bool_decide (Player.id current_player = current_player_id s))
             || negb (bool_decide (Player.kind current_player = HumanPlayer)) then
            set_status (get_display_name current_player ++ u " のターンです（AIプレイヤー）")
          else if negb (has_status ACTIVE current_player) then mret tt
          else
            match get_llm_game_state (current_player_id s) g with
            | Raise _ => mret tt
            | Ok game_state =>
                set_status (u "アクションを選択してください") ;;
                add_buttons (GameState.actions game_state)
            end
    end.

(** [handle_action] *)
Definition handle_action (action : pystr) (amount : Z) : M t () :=
  s ← get;
  match game s with
  | None => mret tt
  | Some g =>
      let '(success, g) := process_player_action (current_player_id s) action amount g in
      modify (λ s, s <| game := Some g |>) ;;
      set_status (if success : bool then u "アクション実行: " ++ action else u "無効なアクションです") ;;
      update_display ;;
      update_action_buttons
  end.

(** *** The dialog for a raise *)

Definition show_raise_dialog (min_amount : Z) : M t () :=
  modify (λ s, s <| raise_amount_field := str_of_Z min_amount |>
                 <| raise_helper_text := u "最低 " ++ str_of_Z min_amount ++ u " チップ" |>
                 <| raise_dialog_open := true |>).

Definition close_raise_dialog : M t () := modify (λ s, s <| raise_dialog_open := false |>).

Definition confirm_raise : M t () :=
  s ← get;
  match int_of_str (raise_amount_field s) with
  | Ok amount => close_raise_dialog ;; handle_action (u "raise") amount
  | Raise ValueError =>
      modify (λ s, s <| raise_error_text := Some (u "有効な数値を入力してください") |>)
  | Raise e => raise e
  end.

(** *** The end of a street *)

Definition next_phase_name (g : PokerGame.t) : pystr :=
  match current_phase g with
  | PREFLOP => u "フロップ" | FLOP => u "ターン" | TURN => u "リバー" | RIVER => u "ショーダウン"
  | _ => []
  end.

Definition show_phase_transition_confirmation (g : PokerGame.t) : M t () :=
  let name := next_phase_name g in
  modify (λ s, s <| status_text := u "ベッティングラウンドが完了しました。" ++ name ++ u "に進みますか？" |>
                 <| action_buttons := [Button (name ++ u "に進む") ConfirmPhase] |>
                 <| is_waiting_phase_confirmation := true |>).

Definition on_phase_transition_confirmed : M t () :=
  modify (λ s, s <| phase_transition_confirmed := true |>
                 <| is_waiting_phase_confirmation := false |>
                 <| action_buttons := [] |>
                 <| status_text := u "次のフェーズに進んでいます..." |>).

(** ** The results *)

Definition clear_showdown_results_inline : M t () := modify (λ s, s <| showdown_overlay := None |>).

Definition on_showdown_continue_confirmed : M t () :=
  modify (λ s, s <| showdown_continue_confirmed := true |>) ;; clear_showdown_results_inline.

(** A row of the overlay: a player, cards and a hand, or a winner *)
Definition hand_row (game : option PokerGame.t) (hand_info : shown_hand) : result (list widget) :=
  cards ← map_result create_card_widget (sh_cards hand_info);
  Ok (Label (get_player_name (sh_player_id hand_info) game) :: (Card <$> cards)
      ++ [Label (sh_hand hand_info)]).
Definition winner_row (game : option PokerGame.t) (r : payout) : list widget :=
  [Label (u "🏆"); Label (get_player_name (po_player_id r) game); Label (str_of_Z (po_winnings r));
   Label (po_hand r)].

(** What is shown of a showdown *)
Definition showdown_rows (game : option PokerGame.t) (results : showdown_result) :
    result (list (list widget + button)) :=
  let community_cards := default [] (community_cards <$> game) in
  let all_hands := default [] (sr_all_hands results) in
  community ← map_result create_card_widget (Card.str <$> community_cards);
  hands ← map_result (hand_row game) all_hands;
  Ok ([inl [Label (u "🎉 ショーダウン結果")]]
      ++ (if bool_decide (community_cards = []) then []
          else [inl [Label (u "コミュニティカード")]; inl (Card <$> community)])
      ++ (if bool_decide (all_hands = []) then []
          else inl [Label (u "各プレイヤーのハンド")] :: (inl <$> hands))
      ++ (if bool_decide (sr_results results = []) then []
          else inl [Label (u "勝者")] :: (inl <$> (winner_row game <$> sr_results results)))
      ++ [inr (Button (u "次のハンドへ") ConfirmShowdown)]).

Definition show_showdown_results_inline (results : showdown_result) : M t () :=
  s ← get;
  rows ← lift (showdown_rows (game s) results);
  modify (λ s, s <| showdown_overlay := Some rows |>).

(** [sorted(players, key=lambda p: p.chips, reverse=True)] *)
Definition standings (g : PokerGame.t) : list player := sort_desc_by Player.chips (players g).

Definition standing_row (rank : nat) (p : player) : list widget :=
  [Label (u "#" ++ str_of_nat (S rank)); Label (get_display_name p); Label (str_of_Z (Player.chips p))].

(** What is shown at the end of a game *)
Definition final_rows (game : option PokerGame.t) : list (list widget + button) :=
  let standings := default [] (standings <$> game) in
  [inl [Label (u "🏁 ゲーム結果")]]
  ++ (match standings with
      | [] => []
      | winner :: _ =>
          inl [Label (u "🏆 WINNER"); Label (get_display_name winner);
               Label (str_of_Z (Player.chips winner))]
          :: inl [Label (u "最終順位")]
          :: (inl <$> imap standing_row standings)
      end)
  ++ [inr (Button (u "設定画面に戻る") BackToSetup)].

Definition show_final_results : M t () :=
  modify (λ s, s <| final_overlay := Some (final_rows (game s)) |>).
Definition clear_final_results : M t () := modify (λ s, s <| final_overlay := None |>).
End GameUI.
