(* ===== verification/ViewerUi.v ===== *)
(** * The page for spectators

    Models [PokerViewerUI] of [src/poker/viewer_ui.py]: what the page shows of the
    state that the server answers with, which can be any JSON value, and the loop that
    asks for it.  The answer is an argument: whether it is one of success, with its
    body, or an exception.  Widgets are what they say, as in [GameUi.v]; layout, sizes
    and colours other than the state of a seat are left out. *)
From stdpp Require Import strings.
From S2P Require Import Prelude Py Json Regex GameUi.
Import GameUI.

(** [f] of a JSON value with the format [,]; a float is its numeral. *)
Definition json_grouped (v : json) : result pystr :=
  match v with
  | JInt z => Ok (grouped z)
  | JBool b => Ok (grouped (Z.b2z b))
  | JFloat x => Ok x
  | JStr _ => Raise ValueError
  | _ => Raise TypeError
  end.

Module ViewerUI.
Record seat := Seat {
  seat_cards : list card_face; seat_name : json; seat_badges : list pystr;
  seat_chips : pystr; seat_bet : pystr; seat_shade : shade; seat_overlay : option pystr }.

(** The parts of the row under the name of an agent *)
Inductive row_item := ActionBadge (text : pystr) | AmountBadge (amount : Z) | Dash.
Record agent_card := AgentCard { agent_name : pystr; agent_row : list row_item; agent_reasoning : pystr }.

Record t := PokerViewerUI {
  last_state : option json;
  game_info_text : pystr; community_cards_row : list widget; pot_text : pystr;
  table_status_text : pystr;
  (** the seats on the table, and whether the overlay is on it *)
  stack_seats : list seat; stack_overlay : bool;
  action_history_column : list item;
  llm_agents_grid : list agent_card;
  showdown_results_column : list (list widget); showdown_overlay_visible : bool }.

#[global] Instance eta : Eta t := λ s,
  PokerViewerUI (last_state s) (game_info_text s) (community_cards_row s) (pot_text s)
    (table_status_text s) (stack_seats s) (stack_overlay s) (action_history_column s)
    (llm_agents_grid s) (showdown_results_column s) (showdown_overlay_visible s).

(** [__init__] and [_init_ui] *)
Definition init_ui : t :=
  PokerViewerUI None (u "観戦ビューを待機中...") [] (u "💰 Pot: 0") [] [] false [] [] [] false.

(** The results of a showdown, where they can be seen *)
Definition overlay (s : t) : option (list (list widget)) :=
  if stack_overlay s && showdown_overlay_visible s then Some (showdown_results_column s) else None.

(** ** Names and cards *)

(** [_get_player_name]: a player that cannot be read is passed over. *)
Definition name_of (player_id : Z) (p : json) : result (option pystr) :=
  id ← json_get (u "id") JNull p;
  n ← int_of_json id;
  if n =? player_id then
    display ← json_get (u "display_name") JNull p;
    plain ← json_get (u "name") JNull p;
    let name := or_else display plain in
    Ok (Some (if truthy name then json_str name else u "Player " ++ str_of_Z player_id))
  else Ok None.
Fixpoint name_in (player_id : Z) (players : list json) : pystr :=
  match players with
  | [] => u "Player " ++ str_of_Z player_id
  | p :: players =>
      match name_of player_id p with
      | Ok (Some name) => name
      | _ => name_in player_id players
      end
  end.
Definition get_player_name (state : json) (player_id : Z) : result pystr :=
  players ← json_get (u "players") (JList []) (or_else state (JDict []));
  l ← json_iter players;
  Ok (name_in player_id l).

(** [create_card_widget] and its variants, of [str] of a value *)
Definition card_of (c : json) : result card_face := create_card_widget (json_str c).

(** ** The history *)

(** The action of a player in a line of the history: its badge, the player and the
    amount *)
Definition player_badge (action_text : pystr) : option (pystr * nat * option Z) :=
  head (omap (λ x, (λ pid, (x.2, pid, None)) <$> player_action x.1 action_text) plain_patterns
        ++ omap (λ x, (λ y, (x.2, y.1, Some y.2)) <$> player_amount x.1 action_text) amount_patterns).

(** [_create_action_history_item] *)
Definition create_action_history_item (state action : json) : result item :=
  action_text ← as_str action;
  match player_badge action_text with
  | Some (badge, pid, amt) =>
      name ← get_player_name state (Z.of_nat pid);
      Ok (Badge badge name amt)
  | None =>
      match dealt "Flop dealt: " action_text with
      | Some cards_str =>
          cards ← map_result create_card_widget (strip <$> split (u ",") cards_str);
          Ok (Street (u "FLOP") cards)
      | None =>
          match dealt "Turn dealt: " action_text, dealt "River dealt: " action_text with
          | Some c, _ => f ← create_card_widget (strip c); Ok (Street (u "TURN") [f])
          | None, Some c => f ← create_card_widget (strip c); Ok (Street (u "RIVER") [f])
          | None, None => Ok (Generic action_text)
          end
      end
  end.

(** ** The cards of the agents *)

(** The badge of an action *)
Definition action_badge (action : pystr) : list row_item :=
  if bool_decide (action = u "fold") then [ActionBadge (u "FOLD")]
  else if bool_decide (action = u "check") then [ActionBadge (u "CHECK")]
  else if bool_decide (action = u "call") then [ActionBadge (u "CALL")]
  else if bool_decide (action = u "raise") then [ActionBadge (u "RAISE")]
  else if bool_decide (action ∈ [u "all_in"; u "all-in"]) then [ActionBadge (u "ALL-IN")]
  else [].
Definition agent_items (action : pystr) (amount : Z) : list row_item :=
  match action_badge action ++ (if 0 <? amount then [AmountBadge amount] else []) with
  | [] => [Dash]
  | items => items
  end.

(** [_create_llm_agent_card] *)
Definition create_llm_agent_card (agent : json) : result agent_card :=
  display ← json_get (u "display_name") JNull agent;
  plain ← json_get (u "name") JNull agent;
  action ← json_get (u "action") (JStr []) agent;
  amount ← json_get (u "amount") (JInt 0) agent;
  amount ← int_of_json (or_else amount (JInt 0));
  reasoning ← json_get (u "reasoning") (JStr []) agent;
  let reasoning := strip (json_str reasoning) in
  Ok (AgentCard (json_str (or_else (or_else display plain) (JStr (u "Agent"))))
        (agent_items (lower (json_str action)) amount)
        (if bool_decide (reasoning = []) then u "(理由なし)" else reasoning)).

(** ** The seats *)

(** The status of a seat, also under its other names and where there is none *)
Definition normal_status (player : json) : result pystr :=
  status ← json_get (u "status") (JStr []) player;
  let status := lower (json_str status) in
  let status := if bool_decide (status ∈ [u "bust"; u "busted_out"]) then u "busted" else status in
  if bool_decide (status = []) then
    chips ← json_get (u "chips") (JInt 0) player;
    n ← int_of_json (or_else chips (JInt 0));
    Ok (if n <=? 0 then u "busted" else status)
  else Ok status.

Definition badge_if (key : string) (badge : string) (player : json) : result (list pystr) :=
  v ← json_get (u key) JNull player;
  Ok (if truthy v then [u badge] else []).

(** One turn of the loop of [_build_seat_controls] *)
Definition build_seat (i : nat) (player : json) : result seat :=
  hole_cards ← json_get (u "hole_cards") (JList []) player;
  cards ← (if truthy hole_cards then l ← json_iter hole_cards; map_result card_of l
           else Ok [Back; Back]);
  dealer ← badge_if "is_dealer" "D" player;
  small ← badge_if "is_small_blind" "SB" player;
  big ← badge_if "is_big_blind" "BB" player;
  status ← normal_status player;
  display ← json_get (u "display_name") JNull player;
  plain ← json_get (u "name") (JStr (u "P" ++ str_of_nat i)) player;
  chips ← json_get (u "chips") (JInt 0) player;
  chips_text ← json_grouped chips;
  bet ← json_get (u "current_bet") (JInt 0) player;
  positive ← json_positive bet;
  let gone := bool_decide (status ∈ [u "folded"; u "busted"]) in
  Ok {| seat_cards := cards;
        seat_name := or_else display plain;
        seat_badges := dealer ++ small ++ big;
        seat_chips := chips_text;
        seat_bet := if positive : bool then u "Bet " ++ json_str bet else u "Bet 0";
        seat_shade := if gone then Gone else if bool_decide (status = u "all_in") then Staked
                      else Other;
        seat_overlay := if gone
                        then Some (if bool_decide (status = u "folded") then u "❌ フォールド"
                                   else u "❌ バスト")
                        else None |}.

Fixpoint build_seats (i : nat) (players : list json) : result (list seat) :=
  match players with
  | [] => Ok []
  | player :: players =>
      seat ← build_seat i player;
      seats ← build_seats (S i) players;
      Ok (seat :: seats)
  end.
Definition build_seat_controls (state : json) : result (list seat) :=
  players ← json_get (u "players") (JList []) (or_else state (JDict []));
  l ← json_iter players;
  build_seats 0 l.

(** [_phase_name] *)
Definition phase_names : list (pystr * pystr) :=
  [(u "preflop", u "プリフロップ"); (u "flop", u "フロップ"); (u "turn", u "ターン");
   (u "river", u "リバー"); (u "showdown", u "ショーダウン"); (u "finished", u "終了")].
Definition phase_name (phase_value : json) : result pystr :=
  key ← hash_key phase_value;
  Ok (match key with JStr s => dict_get_default s (u "不明") phase_names | _ => u "不明" end).

(** ** The overlay with the results *)

Definition clear_column : M t () := modify (λ s, s <| showdown_results_column := [] |>).
Definition append_row (row : list widget) : M t () :=
  modify (λ s, s <| showdown_results_column ::= λ l, l ++ [row] |>).

(** The row of a player's hand, and of a winner *)
Definition hand_row (state hand_info : json) : result (list widget) :=
  pid ← json_get (u "player_id") (JInt (-1)) hand_info;
  pid ← int_of_json pid;
  player_name ← get_player_name state pid;
  cards ← json_get (u "cards") (JList []) hand_info;
  cards ← json_iter cards;
  hand ← json_get (u "hand") (JStr []) hand_info;
  faces ← map_result card_of cards;
  Ok (Label player_name :: (Card <$> faces) ++ [Label (json_str hand)]).
Definition winner_row (state r : json) : result (list widget) :=
  pid ← json_get (u "player_id") (JInt (-1)) r;
  pid ← int_of_json pid;
  winnings ← json_get (u "winnings") (JInt 0) r;
  winnings ← int_of_json (or_else winnings (JInt 0));
  hand ← json_get (u "hand") (JStr []) r;
  player_name ← get_player_name state pid;
  Ok [Label (u "🏆"); Label player_name; Label (str_of_Z winnings); Label (json_str hand)].

(** A heading and the rows under it, where there are any *)
Definition section (heading : pystr) (row : json → result (list widget)) (v : json) : M t () :=
  if truthy v then
    append_row [Label heading] ;;
    l ← lift (json_iter v);
    for_each l (λ x, r ← lift (row x); append_row r)
  else mret tt.

(** [_populate_showdown_results] *)
Definition populate_showdown_results (results : json) : M t () :=
  clear_column ;;
  append_row [Label (u "🎉 ショーダウン結果")] ;;
  s ← get;
  let state := or_else (default JNull (last_state s)) (JDict []) in
  community ← lift (json_get (u "community_cards") (JList []) state);
  (if truthy community then
     append_row [Label (u "コミュニティカード")] ;;
     l ← lift (json_iter community);
     faces ← lift (map_result card_of l);
     append_row (Card <$> faces)
   else mret tt) ;;
  all_hands ← lift (json_get (u "all_hands") (JList []) results);
  section (u "各プレイヤーのハンド") (hand_row state) all_hands ;;
  results_list ← lift (json_get (u "results") (JList []) results);
  section (u "勝者") (winner_row state) results_list ;;
  modify (λ s, s <| showdown_overlay_visible := true |>).

(** [_clear_showdown_results] *)
Definition clear_showdown_results : M t () :=
  clear_column ;; modify (λ s, s <| showdown_overlay_visible := false |>).

(** ** The page *)

(** The parts of [update_display], in their order *)
Definition show_community (state : json) : M t () :=
  modify (λ s, s <| community_cards_row := [] |>) ;;
  community ← lift (json_get (u "community_cards") (JList []) state);
  if truthy community then
    l ← lift (json_iter community);
    faces ← lift (map_result card_of l);
    modify (λ s, s <| community_cards_row := Card <$> faces |>)
  else modify (λ s, s <| community_cards_row := [Label (u "まだカードがありません")] |>).

Definition show_table (state : json) : M t () :=
  seats ← lift (build_seat_controls state);
  results ← lift (json_get (u "showdown_results") JNull state);
  (if truthy results then populate_showdown_results results else clear_showdown_results) ;;
  modify (λ s, s <| stack_seats := seats |> <| stack_overlay := truthy results |>).

Definition show_history (state : json) : M t () :=
  modify (λ s, s <| action_history_column := [] |>) ;;
  actions ← lift (json_get (u "action_history") (JList []) state);
  l ← lift (if truthy actions then json_iter actions else Ok []);
  for_each (reverse l) (λ action,
    i ← lift (create_action_history_item state action);
    modify (λ s, s <| action_history_column ::= λ k, k ++ [i] |>)).

Definition show_agents (state : json) : M t () :=
  modify (λ s, s <| llm_agents_grid := [] |>) ;;
  agents ← lift (json_get (u "llm_api_agents") (JList []) state);
  l ← lift (json_iter (or_else agents (JList [])));
  for_each l (λ agent,
    c ← lift (create_llm_agent_card agent);
    modify (λ s, s <| llm_agents_grid ::= λ k, k ++ [c] |>)).

(** [update_display] *)
Definition update_display : M t () :=
  s ← get;
  let state := default JNull (last_state s) in
  ready ← lift (if truthy state then json_get (u "ready") JNull state else Ok JNull);
  if negb (truthy ready) then
    modify (λ s, s <| game_info_text := u "ゲーム待機中... プレイヤーUIでゲーム開始してください" |>)
  else
    phase ← lift (json_get (u "phase") (JStr []) state);
    name ← lift (phase_name phase);
    hand_number ← lift (json_get (u "hand_number") (JInt 0) state);
    modify (λ s, s <| game_info_text := u "🎯 ハンド #" ++ json_str hand_number
                        ++ u " | 🎲 フェーズ: " ++ name |>) ;;
    show_community state ;;
    pot ← lift (json_get (u "pot") (JInt 0) state);
    current_bet ← lift (json_get (u "current_bet") (JInt 0) state);
    pot ← lift (json_grouped pot);
    current_bet ← lift (json_grouped current_bet);
    modify (λ s, s <| pot_text := u "💰 Pot: " ++ pot ++ u "   💵 Bet: " ++ current_bet |>) ;;
    modify (λ s, s <| table_status_text := u "Hand #" ++ json_str hand_number ++ u "  •  " ++ name |>) ;;
    show_table state ;;
    show_history state ;;
    show_agents state.

(** ** The loop *)

(** What a request for the state ends with: whether the answer is one of success, and
    its body *)
Definition answer : Type := result (bool * result json).
Definition not_ready : json := JDict [(u "ready", JBool false)].

(** One turn of [_poll_loop], with its two handlers *)
Definition poll (response : answer) : M t () :=
  try_except
    (try_except
       ('(ok, body) ← lift response;
        (if ok : bool then
           state ← lift body;
           modify (λ s, s <| last_state := Some state |>)
         else modify (λ s, s <| last_state := Some not_ready |>)))
       is_exception
       (modify (λ s, s <| last_state := Some not_ready |>)) ;;
     update_display)
    is_exception
    (mret tt).
End ViewerUI.
