(* ===== verification/LogWindow.v ===== *)
(** * The window of the log viewer

    Models [LogViewerApp] of [src/log_viewer.py]: the list of the log files, the list of
    events and the state of the game it shows, the thread that reads what is added to
    the log, and the timer that brings it to the screen.  A control is what it shows;
    sizes, margins and weights of its text are left out, and [page.update()] with them.
    A turn of a thread, and a click, is one step. *)
From stdpp Require Import strings.
From S2P Require Import Prelude Py Json Regex LogViewer.
Import LogParser.

Module LogViewerApp.
(** ** Controls *)

(** The constants of [ft.Colors] *)
Inductive color :=
  | WHITE | WHITE70 | BLACK | AMBER_300 | GREY_800 | ERROR | YELLOW_100 | RED_100
  | BLUE_300 | GREEN_300 | ORANGE_300 | PURPLE_300 | RED_300 | YELLOW_300
  | BLUE_800 | GREEN_800 | RED_700
  | BLUE_900 | GREEN_900 | ORANGE_900 | PURPLE_900 | RED_900 | YELLOW_900.

Definition agent_colors : list (pystr * color) :=
  [(u "You", BLUE_300); (u "Agent1", GREEN_300); (u "Agent2", ORANGE_300);
   (u "Agent3", PURPLE_300); (u "Agent4", RED_300); (u "Agent5", YELLOW_300)].
Definition agent_bg_colors : list (pystr * color) :=
  [(u "You", BLUE_900); (u "Agent1", GREEN_900); (u "Agent2", ORANGE_900);
   (u "Agent3", PURPLE_900); (u "Agent4", RED_900); (u "Agent5", YELLOW_900)].

Definition get_agent_color (player_name : pystr) : color :=
  dict_get_default player_name WHITE agent_colors.
Definition get_agent_bg_color (player_name : pystr) : color :=
  dict_get_default player_name GREY_800 agent_bg_colors.

(** A dialog with the reasons of a decision or a prompt *)
Record dialog := Dialog { dialog_title : pystr; dialog_content : pystr; open : bool }.

(** An entry of the list of events; that of a decision has a button that opens a dialog
    with this title and content. *)
Inductive control :=
  | Banner (text : pystr) (message : option pystr) (timestamp : pystr) (bgcolor : color)
  | ActionRow (icon text timestamp : pystr) (text_color bgcolor : color)
  | PhaseRow (icon text timestamp : pystr)
  | DecisionBox (header : pystr) (details : option (pystr * pystr))
      (preview timestamp : pystr) (text_color bgcolor : color).

(** [timestamp.strftime("%H:%M:%S")] *)
Definition clock (timestamp : pystr) : pystr := take 8 (drop 11 timestamp).

(** The reasoning of an event, a text: [" | ".join(prompt_summary)] for a prompt *)
Definition reasoning_text (r : reasoning) : pystr :=
  match r with
  | Text text => text
  | Summary parts => join (u " | ") ((λ kv, kv.1 ++ u ": " ++ json_str kv.2) <$> parts)
  end.

Definition action_icons : list (pystr * pystr) :=
  [(u "folds", u "🚫"); (u "checks", u "✔️"); (u "calls", u "📞"); (u "raises to", u "📈");
   (u "goes all-in", u "💰")].
Definition phase_icons : list (pystr * pystr) :=
  [(u "FLOP", u "🃏🃏🃏"); (u "TURN", u "🃏"); (u "RIVER", u "🃏"); (u "SHOWDOWN", u "👁️")].

(** The text of an optional number in an f-string *)
Definition opt_str (n : option Z) : pystr :=
  match n with Some n => str_of_Z n | None => u "None" end.

Definition decision_control (player_name action reasoning timestamp : pystr)
    (full_prompt : option pystr) : control :=
  let is_prompt := bool_decide (action = u "prompt") in
  DecisionBox (player_name ++ u " - " ++ action)
    (if negb (bool_decide (reasoning = [])) || is_prompt then
       Some (match full_prompt with
             | Some prompt =>
                 if is_prompt then (player_name ++ u " へのプロンプト", prompt)
                 else (player_name ++ u " の思考過程", reasoning)
             | None => (player_name ++ u " の思考過程", reasoning)
             end)
     else None)
    (if (80 <? length reasoning)%nat then take 80 reasoning ++ u "..." else reasoning)
    timestamp (get_agent_color player_name) (get_agent_bg_color player_name).

Definition create_event_control (e : event) : option control :=
  let timestamp := clock (ev_timestamp e) in
  match ev_data e with
  | HAND_START n =>
      Some (Banner (u "🎯 ハンド #" ++ str_of_Z n ++ u " 開始") None timestamp BLUE_800)
  | HAND_END =>
      Some (Banner (u "✅ ハンド #" ++ opt_str (ev_hand_number e) ++ u " 終了") None timestamp GREEN_800)
  | PLAYER_ACTION _ player_name action amount =>
      let icon := dict_get_default action (u "🎲") action_icons in
      let action_text := action ++ (if 0 <? amount then u " " ++ str_of_Z amount else []) in
      Some (ActionRow icon (player_name ++ u " " ++ action_text) timestamp
              (get_agent_color player_name) (get_agent_bg_color player_name))
  | PHASE_CHANGE from_phase to_phase =>
      Some (PhaseRow (dict_get_default to_phase (u "➡️") phase_icons)
              (u "フェーズ変更: " ++ from_phase ++ u " → " ++ to_phase) timestamp)
  | SHOWDOWN => Some (Banner (u "🏆 ショーダウン") (Some (ev_message e)) timestamp RED_100)
  | LLM_DECISION player_name action _ why full_prompt =>
      Some (decision_control player_name action (reasoning_text why) timestamp full_prompt)
  | GAME_STATE _ _ => None
  end.

(** ** The state of the game, as it is shown *)

(** A card face down, or the text of a card with its color *)
Inductive card_widget := Back | Face (card_str : json) (text_color : color).

(** [c in card_str] *)
Definition json_contains (t : pystr) (v : json) : result bool :=
  match v with
  | JStr s => Ok (contains s t)
  | JList l => Ok (bool_decide (JStr t ∈ l))
  | JDict d => Ok (bool_decide (t ∈ d.*1))
  | _ => Raise TypeError
  end.

Definition create_card_widget (card_str : json) : result card_widget :=
  if negb (truthy card_str) || bool_decide (card_str = JStr (u "??")) then Ok Back
  else
    heart ← json_contains (u "♥") card_str;
    red ← if (heart : bool) then Ok true else json_contains (u "♦") card_str;
    Ok (Face card_str (if (red : bool) then RED_700 else BLACK)).

(** A player: no cards stand for the text that they are not known, and no action for
    an empty container. *)
Record player_widget := PlayerWidget {
  pw_title : pystr; pw_chips : pystr; pw_bet : pystr; pw_cards : list card_widget;
  pw_action : option (pystr * color); pw_status : pystr * color;
  pw_color : color; pw_bgcolor : color }.

Definition action_color (action_info : pystr) : color :=
  if startswith action_info (u "fold") then RED_300
  else if startswith action_info (u "raise") then ORANGE_300
  else if startswith action_info (u "call") then GREEN_300
  else BLUE_300.

Definition action_info (q : player) : option (pystr * color) :=
  action ← last_action q;
  let amount := default 0 (last_amount q) in
  let info := action ++ (if 0 <? amount then u " " ++ str_of_Z amount else []) in
  if bool_decide (info = []) then None else Some (u "アクション: " ++ info, action_color info).

Definition status_color (status : json) : color :=
  if bool_decide (status = JStr (u "folded")) then RED_300
  else if bool_decide (status = JStr (u "all_in")) then ORANGE_300
  else if bool_decide (status = JStr (u "active")) then GREEN_300
  else WHITE70.

Definition player_view (x : json * player) : result player_widget :=
  let '(player_id, q) := x in
  player_cards ← map_result create_card_widget (cards q);
  Ok (PlayerWidget (u "P" ++ json_str player_id ++ u ": " ++ name q)
        (u "💰 " ++ json_str (chips q) ++ u "チップ")
        (u "📊 ベット: " ++ json_str (current_bet q))
        player_cards (action_info q)
        (u "状態: " ++ json_str (status q), status_color (status q))
        (get_agent_color (name q)) (get_agent_bg_color (name q))).

(** The players two by two; an empty container stands beside an odd one. *)
Fixpoint player_pairs {A} (l : list A) : list (A * option A) :=
  match l with
  | [] => []
  | [x] => [(x, None)]
  | x :: y :: l => (x, Some y) :: player_pairs l
  end.

(** The lines on the hand: the number of the bet is kept as a value, since it may be
    a float. *)
Record hand_info := HandInfo {
  hi_hand : pystr; hi_phase : pystr; hi_pot : pystr; hi_bet : value; hi_updated : pystr }.

Inductive game_view :=
  | Waiting
  | Status (hand : hand_info) (community : option (list card_widget))
      (players : list (player_widget * option player_widget)).

Definition hand_view (n : Z) (g : game_state) : hand_info :=
  HandInfo (u "ハンド #" ++ str_of_Z n) (u "フェーズ: " ++ upper (gs_current_phase g))
    (u "ポット: " ++ json_str (gs_pot g)) (gs_current_bet g)
    (u "最終更新: " ++ match gs_last_updated g with Some t => clock t | None => u "N/A" end).

(** [update_game_status], as the content it builds *)
Definition status_view (g : game_state) : result game_view :=
  match gs_current_hand g with
  | Some (Z.pos _ | Z.neg _) as hand =>
      community ← match gs_community_cards g with
                  | [] => Ok None
                  | cards => Some <$> map_result create_card_widget cards
                  end;
      players ← map_result player_view (gs_players g);
      Ok (Status (hand_view (default 0 hand) g) community (player_pairs players))
  | _ => Ok Waiting
  end.

(** ** The list of the log files *)

(** [sorted(..., reverse=True)] of file names *)
Fixpoint text_leb (s t : pystr) : bool :=
  match s, t with
  | [], _ => true
  | _ :: _, [] => false
  | c :: s, d :: t => (c <? d)%N || (bool_decide (c = d) && text_leb s t)
  end.
Definition endswith (s t : pystr) : bool := startswith (reverse s) (reverse t).
Definition log_names (listing : list pystr) : list pystr :=
  sort_with (λ s t, text_leb t s) (filter (λ f, endswith f (u ".log") = true) listing).

Definition log_path (filename : pystr) : pystr := u "logs/" ++ filename.

(** [re.search(r"(\d{8})_(\d{6})", filename)] *)
Definition date_here (s : pystr) : option (pystr * pystr) :=
  let date_str := take 8 s in
  let time_str := take 6 (drop 9 s) in
  if forallb is_digit date_str && bool_decide (s !! 8%nat = Some 95%N)
     && forallb is_digit time_str && (length time_str =? 6)%nat
  then Some (date_str, time_str) else None.
Fixpoint date_match (s : pystr) : option (pystr * pystr) :=
  match date_here s with
  | Some x => Some x
  | None => match s with [] => None | _ :: s => date_match s end
  end.

Definition piece (i n : nat) (s : pystr) : pystr := take n (drop i s).
Definition formatted_date (filename : pystr) : pystr :=
  match date_match filename with
  | Some (d, t) =>
      piece 0 4 d ++ u "/" ++ piece 4 2 d ++ u "/" ++ piece 6 2 d ++ u " "
        ++ piece 0 2 t ++ u ":" ++ piece 2 2 t ++ u ":" ++ piece 4 2 t
  | None => filename
  end.

(** [f"{size / 1024:.1f}KB"] *)
Definition size_text (size : Z) : pystr :=
  let q := size * 10 / 1024 in
  let r := size * 10 mod 1024 in
  let tenths := if (512 <? r) || ((r =? 512) && Z.odd q) then q + 1 else q in
  str_of_Z (tenths / 10) ++ u "." ++ str_of_Z (tenths mod 10) ++ u "KB".

(** A button of the list of files, or the error that stands in its place *)
Inductive file_entry := FileButton (text path : pystr) | FileError (text : pystr).

(** ** The application *)

(** The list of events of the application is the one the parser appends to, or a list
    of its own: [self.events] before a file has been read, and when reading one failed.
    [refresh_thread] tells whether the thread is alive. *)
Record t := App {
  parser : LogParser.t; own_events : option (list event); current_file : option pystr;
  auto_refresh : bool; refresh_thread : bool; needs_ui_update : bool;
  file_list : list file_entry; event_list : list control; stats_text : pystr;
  game_status : game_view; overlay : list dialog }.

#[global] Instance app_eta : Eta t := λ a,
  App (parser a) (own_events a) (current_file a) (auto_refresh a) (refresh_thread a)
    (needs_ui_update a) (file_list a) (event_list a) (stats_text a) (game_status a) (overlay a).

Definition new : t :=
  App LogParser.new (Some []) None true false false [] [] (u "ログファイルを選択してください")
    Waiting [].

(** [self.events] *)
Definition app_events (a : t) : list event := default (events (parser a)) (own_events a).

Definition on_parser {A} (m : M LogParser.t A) : M t A := λ a,
  let '(r, p) := m (parser a) in (r, a <| parser := p |>).

(** The files as they are when a step reads them *)
Definition files : Type := pystr → option pystr.

(** [update_event_list], of the events [apply_filters] has put there *)
Definition update_event_list (filtered_events : list event) : M t () :=
  modify (λ a, a <| event_list := omap create_event_control filtered_events |>).

Definition apply_filters : M t () :=
  a ← get;
  match app_events a with
  | [] => mret tt
  | filtered_events => update_event_list filtered_events
  end.

Definition update_game_status : M t () :=
  a ← get;
  content ← lift (status_view (state (parser a)));
  modify (λ a, a <| game_status := content |>).

(** [LogParser.parse_file]: the parser starts a new list before it opens the file, and
    [self.events] stays what it was until there is a result. *)
Definition parse_file (fs : files) (filepath : pystr) : M t () :=
  modify (λ a, a <| own_events := Some (app_events a) |>) ;;
  (match fs filepath with
   | None =>
       on_parser (modify (λ p, p <| events := [] |> <| LogParser.current_hand := None |>)) ;;
       raise OSError
   | Some text => on_parser (LogParser.parse_file text) ;; mret tt
   end) ;;
  modify (λ a, a <| own_events := None |>).

Definition start_auto_refresh : M t () := modify (λ a, a <| refresh_thread := true |>).
Definition stop_auto_refresh : M t () := modify (λ a, a <| auto_refresh := false |>).

Definition is_hand_start (e : event) : bool :=
  match ev_data e with HAND_START _ => true | _ => false end.
Definition stats_of (l : list event) : pystr :=
  u "ハンド数: " ++ str_of_nat (length (filter (λ e, is_hand_start e = true) l))
    ++ u ", 総イベント数: " ++ str_of_nat (length l).

Definition load_log_file (fs : files) (filepath : pystr) : M t () :=
  modify (λ a, a <| current_file := Some filepath |>) ;;
  parse_file fs filepath ;;
  apply_filters ;;
  update_game_status ;;
  modify (λ a, a <| stats_text := stats_of (app_events a) |>) ;;
  a ← get;
  if auto_refresh a then start_auto_refresh else mret tt.

(** [self.current_file] as a condition *)
Definition is_file (file : option pystr) : bool :=
  match file with Some (_ :: _) => true | _ => false end.

Definition toggle_auto_refresh (value : bool) : M t () :=
  modify (λ a, a <| auto_refresh := value |>) ;;
  a ← get;
  if auto_refresh a && is_file (current_file a) then start_auto_refresh else stop_auto_refresh.

(** One turn of [_refresh_loop], from its condition to its sleep; the thread ends when
    the condition fails and after any exception. *)
Definition end_thread : M t () := modify (λ a, a <| refresh_thread := false |>).
Definition refresh_turn (fs : files) : M t () :=
  a ← get;
  if negb (refresh_thread a) then mret tt
  else
    match current_file a with
    | Some ((_ :: _) as file) =>
        if auto_refresh a then
          try_except
            (new_events ← on_parser (parse_new_lines (fs file));
             match new_events with
             | [] => mret tt
             | _ => modify (λ a, a <| needs_ui_update := true |>)
             end)
            is_exception end_thread
        else end_thread
    | _ => end_thread
    end.

(** [check_ui_updates], which the timer calls every second *)
Definition check_ui_updates : M t () :=
  a ← get;
  if needs_ui_update a then
    try_except
      (apply_filters ;; update_game_status ;; modify (λ a, a <| needs_ui_update := false |>))
      is_exception (mret tt)
  else mret tt.

(** The button of an entry, and the button of the dialog it opens *)
Definition show_reasoning_dialog (i : nat) : M t () := modify (λ a,
  match event_list a !! i with
  | Some (DecisionBox _ (Some (dialog_title, content_text)) _ _ _ _) =>
      a <| overlay ::= λ l, l ++ [Dialog dialog_title content_text true] |>
  | _ => a
  end).
#[global] Instance dialog_eta : Eta dialog := λ d,
  Dialog (dialog_title d) (dialog_content d) (open d).
Definition close_dialog (i : nat) : M t () :=
  modify (λ a, a <| overlay ::= alter (λ d, d <| open := false |>) i |>).

Definition on_window_event (data : pystr) : M t () :=
  if bool_decide (data = u "close") then stop_auto_refresh else mret tt.

(** ** The start *)

(** [logs], its names with their sizes, if the directory is there *)
Definition directory : Type := option (list (pystr * Z)).

Definition file_button (listing : list (pystr * Z)) (filename : pystr) : file_entry :=
  FileButton (formatted_date filename ++ u " (" ++ size_text (dict_get_default filename 0 listing) ++ u ")")
    (log_path filename).

Definition load_log_files (logs : directory) : M t () :=
  let add l := modify (λ a, a <| file_list ::= λ l', l' ++ l |>) in
  match logs with
  | None => add [FileError (u "ログディレクトリが見つかりません")]
  | Some listing =>
      match log_names listing.*1 with
      | [] => add [FileError (u "ログファイルが見つかりません")]
      | names => add (file_button listing <$> names)
      end
  end.

Definition auto_select_latest_log (fs : files) (logs : directory) : M t () :=
  match logs with
  | None => mret tt
  | Some listing =>
      match log_names listing.*1 with
      | [] => mret tt
      | latest_file :: _ => load_log_file fs (log_path latest_file)
      end
  end.

(** [main], up to the start of the timer *)
Definition main (fs : files) (logs : directory) (initial_log_file : option pystr) : M t () :=
  load_log_files logs ;;
  match initial_log_file with
  | Some ((_ :: _) as file) =>
      match fs file with
      | Some _ => load_log_file fs file
      | None => auto_select_latest_log fs logs
      end
  | _ => auto_select_latest_log fs logs
  end.

(** ** What happens to a window *)

Inductive action :=
  | Select (fs : files) (entry : nat)
  | Refresh (fs : files)
  | Timer
  | Toggle (value : bool)
  | ShowReasoning (entry : nat)
  | CloseDialog (dialog : nat)
  | WindowEvent (data : pystr).

(** An exception of a handler ends the handler. *)
Definition perform (x : action) : M t () :=
  match x with
  | Select fs i =>
      a ← get;
      match file_list a !! i with
      | Some (FileButton _ path) => load_log_file fs path
      | _ => mret tt
      end
  | Refresh fs => refresh_turn fs
  | Timer => check_ui_updates
  | Toggle value => toggle_auto_refresh value
  | ShowReasoning i => show_reasoning_dialog i
  | CloseDialog i => close_dialog i
  | WindowEvent data => on_window_event data
  end.

Definition happens (a : t) (x : action) : t := (perform x a).2.
End LogViewerApp.
