(* ===== verification/FletGame.v ===== *)
(** * The game of the graphical interface

    Models [PokerFletUI] of [src/poker/flet_ui.py]: the pages, [start_game] and
    [game_loop], the thread that plays a game, with the screen it updates and the
    gestures by which a person acts on the screen and the game while the thread waits.
    The pauses and the messages for debugging are left out.  What the person does is an
    argument: for every wait of the loop the gestures during it, and for every hand the
    answer at its end. *)
From stdpp Require Import strings.
From S2P Require Import Prelude Py Json GameModels PlayerModels Game Showdown StateServer GameUi.
Import PokerGame.

Module FletGame.
(** What a person does at the screen: a button, the field of the dialog for a raise, and
    the two buttons of the dialog *)
Inductive gesture := Clicked (on_click : GameUI.click) | Typed (text : pystr) | RaiseOk | RaiseCancel.

(** The page that is laid out *)
Inductive layout := Settings | Table.

Record t := FletGame {
  game : PokerGame.t;
  (** the person at this interface *)
  current_player_id : nat;
  game_started : bool;
  player_configs : list config;
  page : layout;
  (** [game_ui]; the game it holds is the game above, once that is set *)
  game_ui : GameUI.t;
  (** the gestures of each wait to come *)
  gestures : list (list gesture);
  (** the decisions asked for so far *)
  decisions : nat }.

#[global] Instance eta : Eta t := λ s,
  FletGame (game s) (current_player_id s) (game_started s) (player_configs s) (page s) (game_ui s)
    (gestures s) (decisions s).

(** The registry of the spectators holds the object that is played on. *)
Definition registry (s : t) : SharedState.t := SharedState.SharedState (Some (game s)).

Definition on_game {A} (m : M PokerGame.t A) : M t A := λ s,
  let '(r, g) := m (game s) in (r, s <| game := g |>).

(** [game_ui], with the game that is played *)
Definition live_ui (s : t) : GameUI.t := game_ui s <| GameUI.game := Some (game s) |>.

(** A method of the screen, which shows and changes the game that is played *)
Definition on_ui {A} (m : M GameUI.t A) : M t A := λ s,
  let '(r, ui) := m (live_ui s) in
  (r, s <| game_ui := ui |> <| game := default (game s) (GameUI.game ui) |>).

(** [self.game_ui.update_display()] and [self.game_ui.update_action_buttons()] *)
Definition update_screen : M t () := on_ui GameUI.update_display ;; on_ui GameUI.update_action_buttons.

Definition process (player_id : nat) (action : pystr) (amount : Z) : M t bool := λ s,
  let '(success, g) := process_player_action player_id action amount (game s) in
  (Ok success, s <| game := g |>).

Definition is_human (p : player) : bool := bool_decide (Player.kind p = HumanPlayer).

(** ** Pages and gestures *)

Definition build_layout : M t () :=
  modify (λ s, s <| page := if game_started s then Table else Settings |>).

Definition on_back_to_setup : M t () :=
  modify (λ s, s <| game_started := false |>) ;; build_layout.

(** An exception in a handler ends the handler and nothing else. *)
Definition handler (m : M t ()) : M t () := λ s, (Ok tt, (m s).2).

Definition perform (x : gesture) : M t () := handler
  match x with
  | Clicked (GameUI.Handle action amount) => on_ui (GameUI.handle_action action amount)
  | Clicked (GameUI.ShowRaiseDialog min_amount) => on_ui (GameUI.show_raise_dialog min_amount)
  | Clicked GameUI.ConfirmPhase => on_ui GameUI.on_phase_transition_confirmed
  | Clicked GameUI.ConfirmShowdown => on_ui GameUI.on_showdown_continue_confirmed
  | Clicked GameUI.BackToSetup => on_back_to_setup
  | Typed text => on_ui (modify (λ u, u <| GameUI.raise_amount_field := text |>))
  | RaiseOk => on_ui GameUI.confirm_raise
  | RaiseCancel => on_ui GameUI.close_raise_dialog
  end.

(** A wait of the thread, in which a person may act *)
Definition wait : M t () :=
  s ← get;
  modify (λ s, s <| gestures := tail (gestures s) |>) ;;
  for_each (default [] (head (gestures s))) perform.

(** A wait until the person has pressed a button for which the screen has a flag, which
    is then reset; when it is set already there is nothing to wait for. *)
Definition wait_for_flag (button : GameUI.click) (flag : GameUI.t → bool)
    (reset : GameUI.t → GameUI.t) : M t () :=
  s ← get;
  (if flag (game_ui s) then mret tt
   else
     wait ;;
     s ← get;
     if flag (game_ui s) then mret tt else perform (Clicked button)) ;;
  modify (λ s, s <| game_ui ::= reset |>).

Section Game.
Variable make_decision : nat → player → GameState.t → result decision.
Variable shuffle : nat → Deck.t → Deck.t.
Variable randint : nat → nat.

(** [start_game] *)
Definition start_game (player_configs : list config) : M t () :=
  on_game (put (PokerGame.new (shuffle 0%nat) 10 20 2000)) ;;
  on_game (setup_configurable_game_with_models randint player_configs) ;;
  modify (λ s, match find is_human (players (game s)) with
               | Some p => s <| current_player_id := Player.id p |>
               | None => s
               end) ;;
  modify (λ s, s <| game_ui ::= GameUI.set_game (game s) (current_player_id s) |>).

(** [start_new_game]: the same again, on a new game *)
Definition start_new_game : M t () :=
  s ← get;
  start_game (player_configs s) ;;
  on_ui GameUI.update_display.

(** The callback of the page of settings *)
Definition on_game_start (configs : list config) : M t () :=
  modify (λ s, s <| player_configs := configs |> <| game_started := true |>) ;;
  build_layout ;;
  start_game configs.

(** The turn of another player, with its handlers.  The second one is for a fold that
    raises, which [process_player_action] never does. *)
Definition ai_turn (p : player) : M t () :=
  try_except
    (s ← get;
     let old_player_index := current_player_index (game s) in
     game_state ← lift (get_llm_game_state (Player.id p) (game s));
     modify (λ s, s <| decisions ::= S |>) ;;
     d ← lift (make_decision (decisions s) p game_state);
     success ← process (Player.id p) (d_action d) (d_amount d);
     update_screen ;;
     (if success : bool then mret tt
      else (_ ← process (Player.id p) (u "fold") 0; update_screen)) ;;
     s ← get;
     if (current_player_index (game s) =? old_player_index)%nat
        && negb (betting_round_complete (game s))
     then modify (λ s, s <| game ::= advance_to_next_player |>) ;; update_screen
     else mret tt)
    is_exception
    (try_except (_ ← process (Player.id p) (u "fold") 0; mret tt) (λ _, true)
       (modify (λ s, s <| game ::= advance_to_next_player |>))).

(** The actions of a street; after the hundredth the loop is left. *)
Fixpoint betting_loop (actions_left : nat) : M t () :=
  s ← get;
  if betting_round_complete (game s) then mret tt
  else
    match actions_left with
    | O => mret tt
    | S actions_left =>
        current_player ← lift (nth_item (players (game s)) (current_player_index (game s)));
        (if negb (has_status ACTIVE current_player)
         then modify (λ s, s <| game ::= advance_to_next_player |>)
         else
           update_screen ;;
           if is_human current_player then wait else ai_turn current_player) ;;
        betting_loop actions_left
    end.

Definition betting_phase (g : PokerGame.t) : bool :=
  match current_phase g with SHOWDOWN | FINISHED => false | _ => true end.

(** The end of a street, which a person who is still in confirms *)
Definition confirm_phase : M t () :=
  s ← get;
  if existsb is_human (filter (λ p, has_status ACTIVE p) (players (game s))) then
    on_ui (GameUI.show_phase_transition_confirmation (game s)) ;;
    wait_for_flag GameUI.ConfirmPhase GameUI.phase_transition_confirmed
      (λ u, u <| GameUI.phase_transition_confirmed := false |>)
  else mret tt.

(** The loop of a hand; a hand has at most four streets. *)
Fixpoint phase_loop (phases : nat) : M t () :=
  s ← get;
  if negb (betting_phase (game s)) then mret tt
  else
    match phases with
    | O => raise OutOfFuel
    | S phases =>
        betting_loop 100 ;;
        confirm_phase ;;
        advanced ← on_game advance_to_next_phase;
        if advanced : bool then on_ui GameUI.update_display ;; phase_loop phases else mret tt
    end.

(** How the loop ends: the game is over, the person leaves it, or it waits for the
    answer at the end of a hand *)
Inductive ending := Over | Left | Waiting.

(** The hands of a game.  After a showdown any answer goes on, after a hand without one it
    is the answer to whether to go on. *)
Fixpoint hands_loop (answers : list bool) : M t ending :=
  s ← get;
  if is_game_over (game s) then mret Over
  else
    on_game (start_new_hand (shuffle (S (hand_number (game s))))) ;;
    s ← get;
    if bool_decide (current_phase (game s) = FINISHED) then mret Over
    else
      on_ui GameUI.update_display ;;
      phase_loop 5 ;;
      s ← get;
      if bool_decide (current_phase (game s) = SHOWDOWN) then
        results ← on_game Showdown.conduct_showdown;
        on_ui GameUI.update_display ;;
        on_ui (GameUI.show_showdown_results_inline results) ;;
        match answers with
        | [] => mret Waiting
        | _ :: answers =>
            wait_for_flag GameUI.ConfirmShowdown GameUI.showdown_continue_confirmed
              (λ u, u <| GameUI.showdown_continue_confirmed := false |>) ;;
            s ← get;
            if is_game_over (game s) then mret Over else hands_loop answers
        end
      else
        match answers with
        | [] => mret Waiting
        | go_on :: answers => if go_on : bool then hands_loop answers else mret Left
        end.

(** What is shown at the end of a game, if it has a winner *)
Definition final_screen : M t () :=
  try_except
    (s ← get;
     if is_game_over (game s) then on_ui GameUI.update_display ;; on_ui GameUI.show_final_results
     else mret tt)
    is_exception (mret tt).

(** [game_loop] *)
Definition game_loop (answers : list bool) : M t ending :=
  how ← hands_loop answers;
  match how with Waiting => mret tt | _ => final_screen end ;;
  mret how.
End Game.
End FletGame.
