(* ===== verification/AgentManager.v ===== *)
(** * The agents of a server

    Models [src/poker/agent_manager.py]: the list of agents that the agent server
    answers with, the cards that show them, and the tests of their connection.  What
    comes over the network is an argument: the answer to a request, or the exception
    it ends with.  The cards are what they say of a test; widgets, waiting states that
    are overwritten before the page is drawn again, and the text with the session are
    left out. *)
From stdpp Require Import strings.
From S2P Require Import Prelude Py Json.

Module AgentManager.
(** An agent, without its description, which is always made empty *)
Record agent := Agent { id : json; name : json; model : json; path : json; url : json }.

(** The result of a test: its status and its message *)
Record test_result := TestResult { status : pystr; message : pystr }.

(** The card of an agent: the state its icon shows and the text of the result *)
Inductive icon := CIRCLE | CHECK_CIRCLE | INCOMPLETE | ERROR.
Record card := Card { card_id : json; status_icon : icon; result_text : pystr }.

Record t := AgentManager {
  agent_server_url : pystr;
  dynamic_agents : list agent;
  (** every card made since the start *)
  agent_cards : list card;
  (** the cards in the column, by their place in the list above; [None] before the
      column is made *)
  agent_cards_column : option (list nat);
  test_results : list (json * test_result);
  browser_user_id : option pystr }.

#[global] Instance eta : Eta t := λ s,
  AgentManager (agent_server_url s) (dynamic_agents s) (agent_cards s) (agent_cards_column s)
    (test_results s) (browser_user_id s).

Definition new (agent_server_url : pystr) : t := AgentManager agent_server_url [] [] None [] None.

(** The cards on the page *)
Definition visible_cards (s : t) : list card :=
  omap (λ i, agent_cards s !! i) (default [] (agent_cards_column s)).

(** ** The answer of the server *)

(** What is shown as the name *)
Definition display_name (description name id : json) : json := or_else (or_else description name) id.

Definition url_of (agent_server_url : pystr) (id : json) : json :=
  JStr (agent_server_url ++ u "/" ++ json_str id).

(** An agent of which only the name is known: the description is not empty and is
    shown in place of the name. *)
Definition named_agent (agent_server_url : pystr) (id : json) (description : pystr) : agent :=
  Agent id (JStr (u "Agent: " ++ description)) (JStr (u "unknown")) (JStr [])
    (url_of agent_server_url id).

Definition described_agent (agent_server_url : pystr) (id name : json)
    (agent_info : list (pystr * json)) : agent :=
  Agent id
    (display_name (dict_get_default (u "description") (JStr (u "説明なし")) agent_info) name id)
    (dict_get_default (u "model") (JStr (u "unknown")) agent_info)
    (dict_get_default (u "path") (JStr []) agent_info)
    (dict_get_default (u "url") (url_of agent_server_url id) agent_info).

(** One entry of a list, and of a dictionary *)
Definition agent_of_item (agent_server_url : pystr) (i : nat) (agent_info : json) : option agent :=
  match agent_info with
  | JStr s => Some (named_agent agent_server_url (JStr s) s)
  | JDict d =>
      let id := dict_get_default (u "id") (JStr (u "agent_" ++ str_of_nat i)) d in
      let name := dict_get_default (u "name") (JStr (u "Agent " ++ str_of_nat (S i))) d in
      Some (described_agent agent_server_url id name d)
  | _ => None
  end.
Definition agent_of_entry (agent_server_url : pystr) (entry : pystr * json) : agent :=
  let agent_id := JStr entry.1 in
  match entry.2 with
  | JDict d => described_agent agent_server_url agent_id (dict_get_default (u "name") agent_id d) d
  | v => named_agent agent_server_url agent_id (json_str v)
  end.

(** [_parse_agents_response] *)
Definition parse_agents_response (agent_server_url : pystr) (agents_data : json) : list agent :=
  match agents_data with
  | JList l => omap (λ x, x) (imap (agent_of_item agent_server_url) l)
  | JDict d => agent_of_entry agent_server_url <$> d
  | _ => []
  end.

(** The answer to [/list-apps]: the status and the body, or an exception *)
Definition answer : Type := result (Z * result json).

(** [fetch_agents_from_server], with its handlers *)
Definition agents_of_answer (agent_server_url : pystr) (response : answer) : result (list agent) :=
  '(status_code, body) ← response;
  if status_code =? 200 then
    agents_data ← body; Ok (parse_agents_response agent_server_url agents_data)
  else Ok [].
Definition fetch_agents_from_server (response : answer) : M t () :=
  try_except
    (s ← get;
     agents ← lift (agents_of_answer (agent_server_url s) response);
     modify (λ s, s <| dynamic_agents := agents |>))
    is_exception
    (modify (λ s, s <| dynamic_agents := [] |>)).

Definition get_available_agents (s : t) : list agent := dynamic_agents s.
Definition get_test_results (s : t) : list (json * test_result) := test_results s.

(** [get_browser_user_id]; the number that a hash gives is an argument. *)
Definition pad4 (n : N) : pystr :=
  let digits := str_of_N n in replicate (4 - length digits) 48%N ++ digits.
Definition get_browser_user_id (hash : N) : M t pystr :=
  s ← get;
  match browser_user_id s with
  | Some user_id => mret user_id
  | None =>
      let user_id := u "user-" ++ pad4 (hash mod 10000) in
      modify (λ s, s <| browser_user_id := Some user_id |>) ;;
      mret user_id
  end.

(** ** The cards *)

(** [_populate_agent_cards]: the column is cleared, the list of cards is not. *)
Fixpoint add_cards (hash : N) (agents : list agent) : M t () :=
  match agents with
  | [] => mret tt
  | agent :: agents =>
      _ ← get_browser_user_id hash;
      modify (λ s, s <| agent_cards_column ::= fmap (λ l, l ++ [length (agent_cards s)]) |>
                     <| agent_cards ::= λ l, l ++ [Card (id agent) CIRCLE (u "未テスト")] |>) ;;
      add_cards hash agents
  end.
Definition populate_agent_cards (hash : N) (agents_to_display : list agent) : M t () :=
  modify (λ s, s <| agent_cards_column ::= fmap (λ _, []) |>) ;;
  add_cards hash agents_to_display.

(** [create_agent_test_section] *)
Definition create_agent_test_section (hash : N) : M t () :=
  modify (λ s, s <| agent_cards := [] |> <| agent_cards_column := Some [] |>) ;;
  s ← get;
  populate_agent_cards hash (get_available_agents s).

(** [refresh_agents], but for its last step, the callback to the page of settings.
    Nothing before it raises: the handlers of the request catch everything that the
    handler here would. *)
Definition refresh_agents (hash : N) (response : answer) : M t () :=
  try_except
    (fetch_agents_from_server response ;;
     s ← get;
     match agent_cards_column s with
     | Some _ => populate_agent_cards hash (get_available_agents s)
     | None => mret tt
     end)
    is_exception
    (modify (λ s, s <| dynamic_agents := [] |>) ;;
     s ← get;
     match agent_cards_column s with
     | Some _ => populate_agent_cards hash []
     | None => mret tt
     end).

(** ** The tests *)

(** The outcome of a request: a reply, or an exception with its text, of [requests] or
    another *)
Inductive reply (A : Type) :=
  | Reply (a : A)
  | RequestError (text : pystr)
  | OtherError (text : pystr).
Arguments Reply {A} _.
Arguments RequestError {A} _.
Arguments OtherError {A} _.

(** What the network does in a test: the status of the creation of a session, and the
    status of the look at it with its body *)
Record network := Network { created : reply Z; checked : reply (Z * reply json) }.

(** What a test ends with: the icon, the text and the result, or the text of an
    exception *)
Definition outcome : Type := (icon * pystr * test_result) + pystr.

(** The exceptions of [requests] are given a text of the test's own. *)
Definition after_reply {A} (r : reply A) (k : A → outcome) : outcome :=
  match r with
  | Reply a => k a
  | RequestError text => inr (u "セッションテストエラー: " ++ text)
  | OtherError text => inr text
  end.

(** The test of an agent of the server *)
Definition test_session (net : network) : outcome :=
  after_reply (created net) (λ status_code,
    if bool_decide (status_code ∈ [200; 201]) then
      after_reply (checked net) (λ '(status_code, body),
        if status_code =? 200 then
          after_reply body (λ _,
            inl (CHECK_CIRCLE, u "接続成功",
                 TestResult (u "success") (u "セッション作成・確認成功")))
        else inr (u "セッション確認失敗: HTTP " ++ str_of_Z status_code))
    else inr (u "セッション作成失敗: HTTP " ++ str_of_Z status_code)).

Section Test.
(** [os.path.exists], of the path of an agent *)
Variable path_exists : json → bool.

(** The body of the [try] of [test_agent_connection] *)
Definition test_agent (s : t) (net : network) (agent_id : json) : outcome :=
  match find (λ a, bool_decide (id a = agent_id)) (get_available_agents s) with
  | None => inr (u "Agent not found: " ++ json_str agent_id)
  | Some agent_info =>
      if truthy (url agent_info) || truthy agent_id then test_session net
      else if truthy (path agent_info) then
        if path_exists (path agent_info) then
          inl (CHECK_CIRCLE, u "ローカル成功",
               TestResult (u "success") (u "ローカルファイル確認成功"))
        else inr (u "ファイルエラー: Agent file not found: " ++ json_str (path agent_info))
      else inl (INCOMPLETE, u "情報不足", TestResult (u "warning") (u "Agent情報が不完全"))
  end.

(** The text that a card shows of a failure *)
Definition error_text (error_msg : pystr) : pystr :=
  if contains error_msg (u "セッション") then u "セッション失敗"
  else if contains error_msg (u "HTTP") then u "接続失敗"
  else u "エラー: " ++ take 10 error_msg ++ u "...".

(** [self.test_results[agent_id] = result] *)
Definition store_result (agent_id : json) (result : test_result) : M t () :=
  key ← lift (hash_key agent_id);
  modify (λ s, s <| test_results ::= dict_set key result |>).

Definition update_card (i : nat) (status_icon : icon) (result_text : pystr) : M t () :=
  modify (λ s, s <| agent_cards ::= alter (λ c, Card (card_id c) status_icon result_text) i |>).

Definition show_failure (i : nat) (agent_id : json) (error_msg : pystr) : M t () :=
  update_card i ERROR (error_text error_msg) ;;
  store_result agent_id (TestResult (u "error") error_msg).

(** [test_agent_connection].  A result that cannot be stored is the exception of the
    handler, whose text is that of a key without a hash, and then of the handler's own
    store. *)
Definition test_agent_connection (hash : N) (net : network) (agent_id : json) : M t () :=
  s ← get;
  match list_find (λ c, card_id c = agent_id) (agent_cards s) with
  | None => mret tt
  | Some (i, _) =>
      _ ← get_browser_user_id hash;
      match test_agent s net agent_id with
      | inl (status_icon, result_text, result) =>
          update_card i status_icon result_text ;;
          try_except (store_result agent_id result) is_exception
            (show_failure i agent_id
              (u "unhashable type: '" ++ (match agent_id with JDict _ => u "dict" | _ => u "list" end) ++ u "'"))
      | inr error_msg => show_failure i agent_id error_msg
      end
  end.

(** [test_all_agents]; the network of each test *)
Definition test_all_agents (hash : N) (net : nat → network) : M t () :=
  s ← get;
  try_except
    (for_each (imap pair (get_available_agents s)) (λ x,
       if truthy (id x.2) then test_agent_connection hash (net x.1) (id x.2) else mret tt))
    is_exception (mret tt).
End Test.
End AgentManager.
