(* ===== verification/SetupUi.v ===== *)
(** * The page of settings

    Models [src/poker/setup_ui.py]: the number of players, the type of each computer
    player and the agent it uses, and the configuration a game is started with.  The
    layout is left out; a container is whether it is visible, a list of choices what it
    offers and what is chosen. *)
From stdpp Require Import strings.
From S2P Require Import Prelude Py Json GameModels PlayerModels Game AgentManager.
Import PokerGame.

Module SetupUI.
(** The choice of an agent *)
Record dropdown := Dropdown {
  label : pystr; options : list (json * json); value : option json;
  visible : bool; disabled : bool }.

#[global] Instance dropdown_eta : Eta dropdown := λ d,
  Dropdown (label d) (options d) (value d) (visible d) (disabled d).

Record t := SetupUI {
  agent_manager : AgentManager.t;
  total_players : Z;
  (** the values of the choices of a type *)
  cpu_types : list pystr;
  agent_dropdowns : list dropdown;
  (** which containers are visible *)
  cpu_visible : list bool }.

#[global] Instance eta : Eta t := λ s,
  SetupUI (agent_manager s) (total_players s) (cpu_types s) (agent_dropdowns s) (cpu_visible s).

Definition on_manager {A} (m : M AgentManager.t A) : M t A := λ s,
  let '(r, am) := m (agent_manager s) in (r, s <| agent_manager := am |>).

Definition cpu_needed (total_players : Z) : Z := Z.max 1 (Z.min 9 (total_players - 1)).

(** [_update_cpu_visibility] *)
Definition update_cpu_visibility : M t () :=
  modify (λ s, s <| cpu_visible ::=
    imap (λ i _, Z.of_nat i <? cpu_needed (total_players s)) |>).

(** [__init__] *)
Definition new (agent_server_url : pystr) : t := SetupUI (AgentManager.new agent_server_url) 4 [] [] [].

(** [_init_setup_ui]: nine computer players, of the type that is random, with a choice
    of agents that is not shown *)
Definition cpu_label (i : nat) : pystr := u "CPU" ++ str_of_nat i ++ u "のAgent".
Definition agent_dropdown (i : nat) : dropdown := Dropdown (cpu_label i) [] None false false.
Definition init_setup_ui (hash : N) : M t () :=
  modify (λ s, s <| cpu_types := replicate 9 (u "random") |>
                 <| agent_dropdowns := agent_dropdown <$> seq 1 9 |>
                 <| cpu_visible ::= λ l, l ++ replicate 9 true |>) ;;
  on_manager (AgentManager.create_agent_test_section hash) ;;
  update_cpu_visibility.

(** [initialize] *)
Definition initialize (hash : N) (response : AgentManager.answer) : M t () :=
  on_manager (AgentManager.fetch_agents_from_server response) ;;
  init_setup_ui hash.

(** [_on_total_players_changed] *)
Definition on_total_players_changed (value : pystr) : M t () :=
  modify (λ s, s <| total_players := match int_of_str value with
                                     | Ok n => Z.max 2 (Z.min 10 n)
                                     | Raise _ => 4
                                     end |>) ;;
  update_cpu_visibility.

(** [_update_agent_options]: the agents whose test was a success, all agents when there
    is none, or one option that is no agent *)
Definition successful_agents (am : AgentManager.t) : list AgentManager.agent :=
  omap (λ '(agent_id, result),
    if bool_decide (AgentManager.status result = u "success") then
      find (λ a, bool_decide (hash_key (AgentManager.id a) = Ok agent_id))
        (AgentManager.get_available_agents am)
    else None) (AgentManager.get_test_results am).

Definition offer_agents (am : AgentManager.t) (cpu_number : nat) (d : dropdown) : dropdown :=
  let agents := match successful_agents am with
                | [] => AgentManager.get_available_agents am
                | agents => agents
                end in
  match agents with
  | [] =>
      d <| label := cpu_label cpu_number ++ u " - Not Found" |>
        <| options := [(JStr (u "not_found"), JStr (u "Not Found - No agents available"))] |>
        <| value := Some (JStr (u "not_found")) |> <| disabled := true |>
  | agent :: _ =>
      d <| label := cpu_label cpu_number |>
        <| options := (λ a, (AgentManager.id a, AgentManager.name a)) <$> agents |>
        <| disabled := false |> <| value := Some (AgentManager.id agent) |>
  end.

(** A type is chosen: the choice has its new value when [_on_player_type_changed] is
    called. *)
Definition on_player_type_changed (player_index : nat) (selected_type : pystr) : M t () :=
  modify (λ s, s <| cpu_types ::= <[player_index := selected_type]> |>) ;;
  modify (λ s, s <| agent_dropdowns ::= alter (λ d,
    if bool_decide (selected_type = u "llm_api")
    then offer_agents (agent_manager s) (S player_index) (d <| visible := true |>)
    else d <| visible := false |>) player_index |>).

(** An agent is chosen. *)
Definition choose_agent (player_index : nat) (key : json) : M t () :=
  modify (λ s, s <| agent_dropdowns ::= alter (λ d, d <| value := Some key |>) player_index |>).

(** [_refresh_agent_dropdowns] *)
Definition refresh_agent_dropdowns : M t () :=
  modify (λ s, s <| agent_dropdowns ::= imap (λ i d,
    if bool_decide (cpu_types s !! i = Some (u "llm_api")) && visible d
    then offer_agents (agent_manager s) (S i) d else d) |>).

(** The button that gets the agents again *)
Definition refresh_agents (hash : N) (response : AgentManager.answer) : M t () :=
  on_manager (AgentManager.refresh_agents hash response) ;; refresh_agent_dropdowns.

(** [_start_game_with_settings]: the configuration of a computer player.  The engine
    takes any value for the id of an agent; the model has texts only, and raises a
    [TypeError] for another. *)
Definition text_of (v : option json) : result pystr :=
  match v with Some (JStr s) => Ok s | _ => Raise TypeError end.

Definition config_of (hash : N) (type : pystr) (agent : option json) : M t config :=
  if bool_decide (type = u "llm_api") then
    if bool_decide (agent = Some (JStr (u "not_found"))) then
      mret (Config (Some (u "random")) None None None)
    else
      agent_id ← lift (text_of agent);
      user_id ← on_manager (AgentManager.get_browser_user_id hash);
      mret (Config (Some type) None (Some agent_id) (Some user_id))
  else mret (Config (Some type) None None None).

Fixpoint configs_of (hash : N) (l : list (pystr * option json)) : M t (list config) :=
  match l with
  | [] => mret []
  | (type, agent) :: l =>
      c ← config_of hash type agent;
      cs ← configs_of hash l;
      mret (c :: cs)
  end.

Definition start_game_with_settings (hash : N) : M t (list config) :=
  s ← get;
  let needed := Z.to_nat (cpu_needed (total_players s)) in
  cs ← configs_of hash (zip (take needed (cpu_types s)) (value <$> agent_dropdowns s));
  mret (Config (Some (u "human")) None None None :: cs).
End SetupUI.
