(* ===== verification/Cli.v ===== *)
(** * The command line interface

    Models [src/poker/cli_ui.py]: what it shows, how it reads the choices of a
    person, the parsing of the agents of a game, and its loops over the engine:
    the game of a person against the computer, the game of computer players, and
    the game of agents with its statistics.

    A session is the game together with the lines still to be typed; the end of
    the lines is the end of the input.  What a screen shows is a list of printed
    texts; the loops keep of the printing only whether it can raise.  The waits
    between turns have no effect and are left out.  Players decide by a function
    of the number of the decision, the player and the state given to it, which
    stands for the random numbers and for the agents. *)
From stdpp Require Import strings.
From S2P Require Import Prelude Py Json GameModels PlayerModels Evaluator GameHistory Game Showdown.

(** ** Input *)

Inductive line := Line (text : pystr) | CtrlC.

Definition input : M (list line) pystr := λ ls,
  match ls with
  | [] => (Raise EOFError, [])
  | Line s :: ls => (Ok s, ls)
  | CtrlC :: ls => (Raise KeyboardInterrupt, ls)
  end.

Module PokerUI.
Import PokerGame.

(** ** Texts *)

Definition get_phase_name (phase : GamePhase) : pystr :=
  match phase with
  | PREFLOP => u "プリフロップ" | FLOP => u "フロップ" | TURN => u "ターン"
  | RIVER => u "リバー" | SHOWDOWN => u "ショーダウン" | FINISHED => u "終了"
  end.

Definition get_next_phase_name (g : t) : pystr :=
  match current_phase g with
  | PREFLOP => u "フロップ" | FLOP => u "ターン" | TURN => u "リバー"
  | RIVER => u "ショーダウン" | _ => u "不明"
  end.

(** [action.split(sep)[1].split(")")[0]] *)
Definition bracketed (sep action : pystr) : result pystr :=
  rest ← nth_item (split sep action) 1; nth_item (split (u ")") rest) 0.

Definition translate_action (action : pystr) : result pystr :=
  if bool_decide (action = u "fold") then Ok (u "フォールド（諦める）")
  else if bool_decide (action = u "check") then Ok (u "チェック（パス）")
  else if startswith action (u "call") then
    amount ← bracketed (u "(") action;
    Ok (u "コール（" ++ amount ++ u "チップでついていく）")
  else if startswith action (u "raise") then
    min_amount ← bracketed (u "min ") action;
    Ok (u "レイズ（最低" ++ min_amount ++ u "チップで上げる）")
  else if startswith action (u "all-in") then
    amount ← bracketed (u "(") action;
    Ok (u "オールイン（" ++ amount ++ u "チップで勝負）")
  else Ok action.

(** ** Screens *)

Definition clear_screen : list pystr := [replicate 50 10%N].
Definition print_separator : list pystr := [replicate 60 61%N].
Definition print_title (title : pystr) : list pystr :=
  print_separator ++ [u "  " ++ title] ++ print_separator.

Definition display_community_cards (g : t) : list pystr :=
  [u "コミュニティカード:"]
  ++ match community_cards g with
     | [] => [u "  まだありません"]
     | cs => [u "  " ++ join (u " ") (Card.str <$> cs)]
     end
  ++ [[]].

Definition status_name (s : PlayerStatus) : pystr :=
  match s with
  | ACTIVE => u "アクティブ" | FOLDED => u "フォールド"
  | ALL_IN => u "オールイン" | BUSTED => u "バストアウト"
  end.

Definition player_lines (g : t) (current_player_id : nat) (p : player) : list pystr :=
  let status_indicators :=
    (if bool_decide (Player.id p = current_player_index g)
     then [u ">>> アクション中 <<<"] else [])
    ++ (if Player.is_dealer p then [u "D"] else [])
    ++ (if Player.is_small_blind p then [u "SB"] else [])
    ++ (if Player.is_big_blind p then [u "BB"] else [])
    ++ [status_name (Player.status p)] in
  let name_display :=
    if bool_decide (Player.id p = current_player_id)
    then u "【" ++ Player.name p ++ u "】" else Player.name p in
  let bet_info :=
    if (0 <? Player.current_bet p) || (0 <? Player.total_bet_this_hand p)
    then u "ベット: " ++ str_of_Z (Player.current_bet p) ++ u " (累計: "
         ++ str_of_Z (Player.total_bet_this_hand p) ++ u ")"
    else [] in
  [u "  " ++ name_display ++ u " - チップ: " ++ str_of_Z (Player.chips p) ++ u " " ++ bet_info;
   u "    状態: " ++ join (u " | ") status_indicators].

Definition display_players_info (current_player_id : nat) (g : t) : list pystr :=
  [u "プレイヤー情報:"] ++ (players g ≫= player_lines g current_player_id) ++ [[]].

Definition display_your_cards (player_id : nat) (g : t) : result (list pystr) :=
  match get_player player_id g with
  | None => Ok []
  | Some p =>
      shown ← match Player.hole_cards p with
              | [] => Ok [u "  カードがありません"]
              | cs =>
                  hand ← (if (3 <=? length (community_cards g))%nat then
                            h ← HandEvaluator.evaluate_hand cs (community_cards g);
                            Ok [u "  現在のハンド: "
                                ++ HandEvaluator.get_hand_strength_description h]
                          else Ok []);
                  Ok ([u "  " ++ join (u " ") (Card.str <$> cs)] ++ hand)
              end;
      Ok ([u "あなたの手札:"] ++ shown ++ [[]])
  end.

(** The last three entries, if there are any *)
Definition display_recent_actions (g : t) : list pystr :=
  match action_history g with
  | [] => []
  | h => [u "最近のアクション:"]
         ++ ((λ a, u "  • " ++ a) <$> drop (length h - 3) h) ++ [[]]
  end.

Definition display_game_state (player_id : nat) (g : t) : result (list pystr) :=
  match get_player player_id g with
  | None => Ok []
  | Some _ =>
      your_cards ← display_your_cards player_id g;
      Ok (clear_screen ++ print_title (u "TEXAS HOLD'EM POKER")
          ++ [u "ハンド #" ++ str_of_nat (hand_number g) ++ u " - フェーズ: "
                ++ get_phase_name (current_phase g);
              u "ポット: " ++ str_of_Z (pot g) ++ u " チップ";
              u "現在のベット: " ++ str_of_Z (current_bet g) ++ u " チップ"; []]
          ++ display_community_cards g ++ display_players_info player_id g
          ++ your_cards ++ display_recent_actions g)
  end.

Definition player_name (g : t) (player_id : nat) : pystr :=
  match get_player player_id g with
  | Some p => Player.name p
  | None => u "Player " ++ str_of_nat player_id
  end.

(** The method then waits for a line. *)
Definition display_showdown_results (g : t) (results : showdown_result) : list pystr :=
  [[10%N]] ++ print_title (u "ショーダウン結果")
  ++ match sr_all_hands results with
     | None => []
     | Some all_hands =>
         [u "各プレイヤーのハンド:"]
         ++ ((λ h, u "  " ++ player_name g (sh_player_id h) ++ u ": "
                    ++ join (u " ") (sh_cards h) ++ u " - " ++ sh_hand h) <$> all_hands)
         ++ [[]]
     end
  ++ match sr_results results with
     | [] => []
     | rs => [u "勝者:"]
             ++ (rs ≫= λ r, [u "  " ++ player_name g (po_player_id r) ++ u ": "
                               ++ str_of_Z (po_winnings r) ++ u "チップ獲得";
                             u "    ハンド: " ++ po_hand r])
     end.

Definition display_game_over (g : t) : list pystr :=
  let players_by_chips := sort_desc_by Player.chips (players g) in
  clear_screen ++ print_title (u "ゲーム終了") ++ [u "最終結果:"]
  ++ imap (λ i p,
       let status := if Player.chips p =? 0 then u "バストアウト"
                     else str_of_Z (Player.chips p) ++ u "チップ" in
       u "  " ++ str_of_nat (S i) ++ u "位: " ++ Player.name p ++ u " - " ++ status)
       players_by_chips
  ++ [[]; u "ゲームをプレイしていただき、ありがとうございました！"].

(** ** The choices of a person *)

(** The loop that asks for the amount of a raise *)
Fixpoint read_raise (min_amount : Z) (ls : list line) : result decision * list line :=
  match ls with
  | [] => (Raise EOFError, [])
  | CtrlC :: ls => (Raise KeyboardInterrupt, ls)
  | Line s :: ls =>
      match strip s with
      | [] => read_raise min_amount ls
      | raise_amount =>
          match int_of_str raise_amount with
          | Ok amount => if min_amount <=? amount
                         then (Ok (Decision (u "raise") amount), ls)
                         else read_raise min_amount ls
          | Raise _ => read_raise min_amount ls
          end
      end
  end.

Definition parse_action_choice (action : pystr) : M (list line) decision :=
  if bool_decide (action = u "fold") then mret (Decision (u "fold") 0)
  else if bool_decide (action = u "check") then mret (Decision (u "check") 0)
  else if startswith action (u "call") then
    amount ← lift (bracketed (u "(") action ≫= int_of_str);
    mret (Decision (u "call") amount)
  else if startswith action (u "raise") then
    min_amount ← lift (bracketed (u "min ") action ≫= int_of_str);
    read_raise min_amount
  else if startswith action (u "all-in") then
    amount ← lift (bracketed (u "(") action ≫= int_of_str);
    mret (Decision (u "all_in") amount)
  else mret (Decision (u "fold") 0).

(** The loop over the choices.  A [ValueError] of the chosen action, or of the
    number, asks again; an interrupt folds. *)
Fixpoint read_choice (available_actions : list pystr) (fuel : nat) (ls : list line) :
    result decision * list line :=
  match fuel, ls with
  | O, _ => (Raise OutOfFuel, ls)
  | S _, [] => (Raise EOFError, [])
  | S _, CtrlC :: ls => (Ok (Decision (u "fold") 0), ls)
  | S fuel, Line s :: ls =>
      match strip s with
      | [] => read_choice available_actions fuel ls
      | choice =>
          match int_of_str choice with
          | Raise _ => read_choice available_actions fuel ls
          | Ok choice_num =>
              if (1 <=? choice_num) && (choice_num <=? Z.of_nat (length available_actions)) then
                match available_actions !! Z.to_nat (choice_num - 1) with
                | None => (Raise IndexError, ls)
                | Some selected_action =>
                    match parse_action_choice selected_action ls with
                    | (Raise ValueError, ls) => read_choice available_actions fuel ls
                    | (Raise KeyboardInterrupt, ls) => (Ok (Decision (u "fold") 0), ls)
                    | r => r
                    end
                end
              else read_choice available_actions fuel ls
          end
      end
  end.

(** Every turn of the loop reads a line: one turn more than there are lines is
    enough. *)
Definition ask_choice (available_actions : list pystr) : M (list line) decision :=
  λ ls, read_choice available_actions (S (length ls)) ls.

(** The method after its first two lines *)
Definition choose_action (available_actions : list pystr) : M (list line) decision :=
  match available_actions with
  | [] => mret (Decision (u "fold") 0)
  | _ =>
      _ ← lift (map_result translate_action available_actions);
      ask_choice available_actions
  end.

(** [game_state["actions"]]: a [GameState] is a dataclass without
    [__getitem__]. *)
Definition subscript_actions (game_state : GameState.t) : result (list pystr) :=
  Raise TypeError.

Definition get_human_action (player_id : nat) (g : t) : M (list line) decision :=
  game_state ← lift (get_llm_game_state player_id g);
  available_actions ← lift (subscript_actions game_state);
  choose_action available_actions.

(** [choice in ["y", "yes", ""]] and [choice in ["n", "no"]] *)
Definition says_yes (choice : pystr) : bool :=
  bool_decide (choice = u "y") || bool_decide (choice = u "yes") || bool_decide (choice = []).
Definition says_no (choice : pystr) : bool :=
  bool_decide (choice = u "n") || bool_decide (choice = u "no").

Fixpoint ask_continue_game (ls : list line) : result bool * list line :=
  match ls with
  | [] => (Raise EOFError, [])
  | CtrlC :: ls => (Ok false, ls)
  | Line s :: ls =>
      let choice := lower (strip s) in
      if says_yes choice then (Ok true, ls)
      else if says_no choice then (Ok false, ls)
      else ask_continue_game ls
  end.

(** The loop that asks before the next phase *)
Fixpoint ask_next_phase (ls : list line) : result bool * list line :=
  match ls with
  | [] => (Raise EOFError, [])
  | CtrlC :: ls => (Raise KeyboardInterrupt, ls)
  | Line s :: ls =>
      let choice := strip (lower s) in
      if says_yes choice then (Ok true, ls)
      else if says_no choice then (Ok false, ls)
      else ask_next_phase ls
  end.
End PokerUI.
