(* ===== verification/CliGames.v ===== *)
(** * The games of the command line interface

    Models the rest of [src/poker/cli_ui.py]: the parsing of the agents of a
    game and the loops that play it.  [run_game], [run_cpu_only_game] and
    [run_agent_only_mode] drive the engine the same way: while the betting is
    open ask the player on turn, then go to the next phase, and at the showdown
    share out the pot.  The loops of the program have no bound of their own; the
    model gives the betting loop a number of turns ([fuel]) and ends with
    [OutOfFuel] when they are used up.  A hand has five phases at most, so
    that the loop over them needs no more turns. *)
From stdpp Require Import strings.
From S2P Require Import Prelude Py Json GameModels PlayerModels Evaluator GameHistory Game Showdown.
From S2P Require Import Cli.

(** ** The agents of a game *)

Module AgentsConfig.

Definition fallback_agents : list pystr :=
  [u "team1_agent"; u "team2_agent"; u "team3_agent"; u "team4_agent"; u "beginner_agent"].

(** One specification, [name:count] *)
Definition parse_spec (available_agents : list pystr) (agent_spec : pystr) :
    result (pystr * nat) :=
  let agent_spec := strip agent_spec in
  if negb (contains agent_spec (u ":")) then Raise ValueError
  else
    agent_name ← nth_item (split_max 1 (u ":") agent_spec) 0;
    count_str ← nth_item (split_max 1 (u ":") agent_spec) 1;
    let agent_name := strip agent_name in
    if negb (bool_decide (agent_name ∈ available_agents)) then Raise ValueError
    else
      match int_of_str (strip count_str) with
      | Raise _ => Raise ValueError
      | Ok count => if count <=? 0 then Raise ValueError else Ok (agent_name, Z.to_nat count)
      end.

Definition player_config (agent_name : pystr) (player_id : nat) : PokerGame.config :=
  PokerGame.Config (Some (u "llm_api")) None (Some agent_name)
    (Some (u "player_" ++ str_of_nat player_id)).

(** The loop over the specifications, from the next player's number on *)
Fixpoint parse_specs (available_agents : list pystr) (player_id : nat) (specs : list pystr) :
    result (list PokerGame.config) :=
  match specs with
  | [] => Ok []
  | agent_spec :: rest =>
      '(agent_name, count) ← parse_spec available_agents agent_spec;
      player_configs ← parse_specs available_agents (player_id + count) rest;
      Ok ((player_config agent_name <$> seq player_id count) ++ player_configs)
  end.

(** [found] is the list of agents in the directory. *)
Definition parse_agents_config (found : list pystr) (agents_config : pystr) :
    result (list PokerGame.config) :=
  let available_agents := match found with [] => fallback_agents | _ => found end in
  player_configs ← parse_specs available_agents 0 (split (u ",") agents_config);
  if (length player_configs <? 2)%nat then Raise ValueError
  else if (10 <? length player_configs)%nat then Raise ValueError
  else Ok player_configs.

Definition get_agent_type_for_player (p : player) (player_configs : list PokerGame.config) :
    pystr :=
  let by_player :=
    match Player.kind p with
    | LLMApiPlayer app_name _ => app_name
    | LLMPlayer model => u "llm(" ++ model ++ u ")"
    | _ => if startswith (Player.name p) (u "CPU") then u "random" else u "unknown"
    end in
  match player_configs !! Player.id p with
  | Some config => match PokerGame.cfg_agent_id config with
                   | Some (c :: cs) => c :: cs
                   | _ => by_player
                   end
  | None => by_player
  end.
End AgentsConfig.

(** ** Sessions *)

(** [player_stats[name]] *)
Record stats := Stats {
  hands_won : Z; total_winnings : Z; hands_played : Z; agent_type : pystr }.

#[export] Instance stats_eta : Eta stats := λ s,
  Stats (hands_won s) (total_winnings s) (hands_played s) (agent_type s).

(** [decisions] counts the calls of [make_decision]; the last two fields are the
    local variables of [run_agent_only_mode] and [run_cpu_only_game]. *)
Record session := Session {
  game : PokerGame.t;
  lines : list line;
  decisions : nat;
  hand_count : nat;
  player_stats : list (pystr * stats) }.

#[export] Instance session_eta : Eta session := λ s,
  Session (game s) (lines s) (decisions s) (hand_count s) (player_stats s).

Definition on_game {A} (m : M PokerGame.t A) : M session A := λ s,
  let '(r, g) := m (game s) in (r, s <| game := g |>).
Definition on_lines {A} (m : M (list line) A) : M session A := λ s,
  let '(r, ls) := m (lines s) in (r, s <| lines := ls |>).

(** How a game ends: its loop comes to the end, a person leaves it, an interrupt,
    an exception, or agents that could not be parsed. *)
Inductive ending := Completed | Quit | Interrupted | Failed (e : exn) | NotStarted.

(** [except KeyboardInterrupt: ... except Exception: ...] *)
Definition guarded (m : M session ending) : M session ending := λ s,
  match m s with
  | (Raise KeyboardInterrupt, s) => (Ok Interrupted, s)
  | (Raise OutOfFuel, s) => (Raise OutOfFuel, s)
  | (Raise e, s) => (Ok (Failed e), s)
  | r => r
  end.

Module Games.
Import PokerGame PokerUI AgentsConfig.

Section Games.
Variable make_decision : nat → player → GameState.t → result decision.
Variable shuffle : nat → Deck.t → Deck.t.
(** What [random.randint(0, n)] returns for the first button *)
Variable randint : nat → nat.

(** ** A turn *)

Definition act (player_id : nat) (d : decision) : M session bool := λ s,
  let '(success, g) :=
    process_player_action player_id (d_action d) (d_amount d) (game s) in
  (Ok success, s <| game := g |>).

(** The turn of a player that is not a person: a decision that is not accepted
    is a fold. *)
Definition auto_turn (p : player) : M session () :=
  s ← get;
  game_state ← lift (get_llm_game_state (Player.id p) (game s));
  modify (λ s, s <| decisions ::= S |>) ;;
  d ← lift (make_decision (decisions s) p game_state);
  success ← act (Player.id p) d;
  if success : bool then mret tt
  else (_ ← act (Player.id p) (Decision (u "fold") 0); mret tt).

(** The turn of any player in [run_game] *)
Definition game_turn (p : player) : M session () :=
  s ← get;
  _ ← lift (display_game_state 0 (game s));
  if bool_decide (Player.kind p = HumanPlayer) then
    d ← on_lines (get_human_action (Player.id p) (game s));
    success ← act (Player.id p) d;
    if success : bool then mret tt else (_ ← on_lines input; mret tt)
  else auto_turn p.

(** ** The loops of a hand *)

Fixpoint betting_loop (turn : player → M session ()) (fuel : nat) : M session () :=
  s ← get;
  if betting_round_complete (game s) then mret tt
  else
    match fuel with
    | O => raise OutOfFuel
    | S fuel =>
        current_player ← lift (nth_item (players (game s)) (current_player_index (game s)));
        (if negb (has_status ACTIVE current_player)
         then modify (λ s, s <| game ::= advance_to_next_player |>)
         else turn current_player) ;;
        betting_loop turn fuel
    end.

(** [self.game.current_phase not in [GamePhase.SHOWDOWN, GamePhase.FINISHED]] *)
Definition betting_phase (g : t) : bool :=
  match current_phase g with SHOWDOWN | FINISHED => false | _ => true end.

(** The main loop of a hand; [confirm] is what is asked before a new phase, and
    the loop returns [false] when the game is left there. *)
Fixpoint phase_loop (turn : player → M session ()) (confirm : M session bool)
    (fuel phases : nat) : M session bool :=
  s ← get;
  if negb (betting_phase (game s)) then mret true
  else
    match phases with
    | O => raise OutOfFuel
    | S phases =>
        betting_loop turn fuel ;;
        go_on ← confirm;
        if negb go_on then mret false
        else
          advanced ← on_game advance_to_next_phase;
          if advanced : bool then phase_loop turn confirm fuel phases else mret true
    end.

Definition start_hand : M session () :=
  s ← get; on_game (start_new_hand (shuffle (S (hand_number (game s))))).

(** [while not is_game_over() and hand_count < max_hands], [remaining] hands
    before the limit; [hand] returns [false] for a [break]. *)
Fixpoint hands_loop (hand : M session bool) (remaining : nat) : M session () :=
  s ← get;
  if is_game_over (game s) then mret tt
  else
    match remaining with
    | O => mret tt
    | S remaining => go_on ← hand;
                     if go_on : bool then hands_loop hand remaining else mret tt
    end.

(** ** Computer players only *)

(** [n % interval == 0] *)
Definition is_multiple (n : nat) (interval : Z) : result bool :=
  if interval =? 0 then Raise ZeroDivisionError else Ok (Z.of_nat n mod interval =? 0).

Definition cpu_hand (display_interval : Z) (fuel : nat) : M session bool :=
  modify (λ s, s <| hand_count ::= S |>) ;;
  start_hand ;;
  s ← get;
  if bool_decide (current_phase (game s) = FINISHED) then mret false
  else
    shown ← lift (is_multiple (hand_count s) display_interval);
    _ ← lift (if shown : bool then display_game_state 0 (game s) else Ok []);
    _ ← phase_loop auto_turn (mret true) fuel 5;
    s ← get;
    if bool_decide (current_phase (game s) = SHOWDOWN)
    then _ ← on_game Showdown.conduct_showdown; mret true
    else mret true.

Definition run_cpu_only_game (max_hands display_interval : Z) (fuel : nat) : M session ending :=
  on_game (put (PokerGame.new (shuffle 0) 10 20 2000)) ;;
  on_game (setup_cpu_only_game (randint 3)) ;;
  modify (λ s, s <| hand_count := 0%nat |>) ;;
  guarded (hands_loop (cpu_hand display_interval fuel) (Z.to_nat max_hands) ;; mret Completed).

(** The winner it announces at the end, if anybody is left *)
Definition cpu_winner (g : t) : option player :=
  max_by Player.chips (filter (λ p, not_busted p) (players g)).

(** ** A person against the computer *)

Definition confirm_phase : M session bool :=
  s ← get;
  if existsb (λ p, has_status ACTIVE p && bool_decide (Player.kind p = HumanPlayer))
       (players (game s))
  then on_lines ask_next_phase
  else mret true.

Fixpoint game_loop (fuel hands : nat) : M session ending :=
  s ← get;
  if is_game_over (game s) then mret Completed
  else
    match hands with
    | O => raise OutOfFuel
    | S hands =>
        start_hand ;;
        s ← get;
        if bool_decide (current_phase (game s) = FINISHED) then mret Completed
        else
          go_on ← phase_loop game_turn confirm_phase fuel 5;
          if negb go_on then mret Quit
          else
            s ← get;
            (if bool_decide (current_phase (game s) = SHOWDOWN) then
               results ← on_game Showdown.conduct_showdown;
               s ← get;
               _ ← lift (display_game_state 0 (game s));
               _ ← on_lines input; mret tt
             else mret tt) ;;
            continue ← on_lines ask_continue_game;
            if continue : bool then game_loop fuel hands else mret Completed
    end.

(** [display_welcome_message] waits for a line, outside of the handlers. *)
Definition run_game (fuel hands : nat) : M session ending :=
  _ ← on_lines input;
  on_game (put (PokerGame.new (shuffle 0) 10 20 2000)) ;;
  on_game (setup_default_game (randint 3)) ;;
  guarded (game_loop fuel hands).

(** ** Agents only *)

Definition initial_stats (player_configs : list config) (g : t) : list (pystr * stats) :=
  foldl (λ d p, dict_set (Player.name p)
                  (Stats 0 0 0 (get_agent_type_for_player p player_configs)) d)
    [] (players g).

(** [player_stats[name]...] is changed by [f]. *)
Definition update_stats (name : pystr) (f : stats → stats) : M session () :=
  s ← get;
  st ← lift (dict_item name (player_stats s));
  put (s <| player_stats := dict_set name (f st) (player_stats s) |>).

Definition count_hand : M session () :=
  s ← get;
  for_each (players (game s)) (λ p,
    if not_busted p then
      update_stats (Player.name p)
        (λ st, st <| hands_played := Z.of_nat (hand_count s) |>)
    else mret tt).

Definition count_wins (results : showdown_result) : M session () :=
  s ← get;
  for_each (sr_results results) (λ r,
    match get_player (po_player_id r) (game s) with
    | None => mret tt
    | Some winner_player =>
        update_stats (Player.name winner_player)
          (λ st, st <| hands_won ::= λ n, n + 1 |>
                    <| total_winnings ::= λ n, n + po_winnings r |>)
    end).

Definition agent_hand (fuel : nat) : M session bool :=
  modify (λ s, s <| hand_count ::= S |>) ;;
  count_hand ;;
  start_hand ;;
  s ← get;
  if bool_decide (current_phase (game s) = FINISHED) then mret false
  else
    _ ← phase_loop auto_turn (mret true) fuel 5;
    s ← get;
    if bool_decide (current_phase (game s) = SHOWDOWN)
    then results ← on_game Showdown.conduct_showdown; count_wins results ;; mret true
    else mret true.

Definition run_agent_only_mode (found : list pystr) (max_hands : Z) (agents_config : pystr)
    (fuel : nat) : M session ending :=
  match parse_agents_config found agents_config with
  | Raise _ => mret NotStarted
  | Ok player_configs =>
      on_game (put (PokerGame.new (shuffle 0) 10 20 2000)) ;;
      on_game (setup_configurable_game_with_models randint player_configs) ;;
      modify (λ s, s <| player_stats := initial_stats player_configs (game s) |>
                     <| hand_count := 0%nat |>) ;;
      guarded (hands_loop (agent_hand fuel) (Z.to_nat max_hands) ;; mret Completed)
  end.
End Games.

(** ** The results of a game of agents *)

(** The final ranking, and the profit it shows *)
Definition final_rankings (g : t) : list player := sort_desc_by Player.chips (players g).
Definition profit (g : t) (p : player) : Z := Player.chips p - initial_chips g.
Definition most_profitable (g : t) : option player := max_by (profit g) (final_rankings g).
Definition best_player (player_stats : list (pystr * stats)) : option (pystr * stats) :=
  max_by (λ kv, hands_won kv.2) player_stats.
Definition total_wins (player_stats : list (pystr * stats)) : Z :=
  sum_by (λ kv, hands_won kv.2) player_stats.

(** The statistics of the players of one agent, as written to the file *)
Record agent_stats := AgentStats {
  as_players : Z; as_total_chips : Z; as_total_wins : Z; as_total_winnings : Z;
  as_total_hands : Z }.

(** [next((p for p in self.game.players if p.name == player_name), None)] *)
Definition player_named (name : pystr) (g : t) : option player :=
  find_first (λ p, bool_decide (Player.name p = name)) (players g).

Definition add_agent_stats (g : t) (d : list (pystr * agent_stats)) (kv : pystr * stats) :
    list (pystr * agent_stats) :=
  let '(name, st) := kv in
  let a := default (AgentStats 0 0 0 0 0) (dict_get (agent_type st) d) in
  dict_set (agent_type st)
    (AgentStats (as_players a + 1)
       (as_total_chips a + match player_named name g with
                           | Some p => Player.chips p
                           | None => 0
                           end)
       (as_total_wins a + hands_won st) (as_total_winnings a + total_winnings st)
       (as_total_hands a + hands_played st)) d.

Definition agent_results (player_stats : list (pystr * stats)) (g : t) :
    list (pystr * agent_stats) :=
  foldl (add_agent_stats g) [] player_stats.
End Games.
