(* ===== verification/Main.v ===== *)
(** * The entry point

    Models [src/main.py] and [run_flet_poker_app] of [src/poker/flet_ui.py]: the name of
    the log file, the options with their defaults, and the choice of the interface.
    What starts a process and what serves the page in a browser are parameters. *)
From stdpp Require Import strings.
From S2P Require Import Prelude Py GameModels PlayerModels LlmPlayers Game Cli CliGames.
Import PokerUI Games.

Module Main.
(** ** The log file *)

(** The name of the log file, without the directory: the time as
    [%Y%m%d_%H%M%S] and four characters of a random id *)
Definition log_filename (timestamp uuid_suffix : pystr) : pystr :=
  u "poker_game_" ++ timestamp ++ u "_" ++ uuid_suffix ++ u ".log".

(** ** Options *)

Record args := Args {
  cli : bool; with_viewer : bool; viewer_port : Z; cpu_only : bool; agent_only : bool;
  agents : pystr; max_hands : option Z; display_interval : Z }.

#[global] Instance args_eta : Eta args := λ a,
  Args (cli a) (with_viewer a) (viewer_port a) (cpu_only a) (agent_only a) (agents a)
    (max_hands a) (display_interval a).

Definition defaults : args :=
  Args false false 8552 false false (u "team1_agent:2,team2_agent:2") (Some 10) 1.

Section Main.
Variable make_decision : nat → player → GameState.t → result decision.
Variable shuffle : nat → Deck.t → Deck.t.
Variable randint : nat → nat.
(** The agents found in the directory of agents *)
Variable found : list pystr.
(** The start of a process that runs the page for spectators, and [ft.app] *)
Variable start_viewer : Z → M session ().
Variable serve : M session ().

Definition run_flet_poker_app (with_viewer : bool) (viewer_port : Z) : M session () :=
  (if with_viewer then try_except (start_viewer viewer_port) is_exception (mret tt)
   else mret tt) ;;
  serve.

(** The body of the [try]: the status of [sys.exit], 0 where it is not called *)
Definition run_mode (a : args) (fuel hands : nat) : M session Z :=
  if cli a then
    (if cpu_only a then
       match max_hands a with
       | Some n => _ ← run_cpu_only_game make_decision shuffle randint n (display_interval a) fuel; mret tt
       | None => raise TypeError
       end
     else if agent_only a then
       let n := match max_hands a with Some n => n | None => 20 end in
       _ ← run_agent_only_mode make_decision shuffle randint found n (agents a) fuel; mret tt
     else _ ← run_game make_decision shuffle randint fuel hands; mret tt) ;;
    mret 0
  else if agent_only a then mret 1
  else run_flet_poker_app (with_viewer a) (viewer_port a) ;; mret 0.

(** [main]: the exit status *)
Definition main (a : args) (fuel hands : nat) : M session Z := λ s,
  match run_mode a fuel hands s with
  | (Raise KeyboardInterrupt, s) => (Ok 0, s)
  | (Raise OutOfFuel, s) => (Raise OutOfFuel, s)
  | (Raise _, s) => (Ok 1, s)
  | r => r
  end.

Lemma then_zero (m : M session ()) s z s' : (m ;; mret 0) s = (Ok z, s') → z = 0.
Proof. unfold mbind, M_bind. destruct (m s) as [[]]; [by intros [= <- _]|done]. Qed.

Lemma main_status a fuel hands s :
  (main a fuel hands s).1 = Ok 0 ∨ (main a fuel hands s).1 = Ok 1 ∨
  (main a fuel hands s).1 = Raise OutOfFuel.
Proof.
  unfold main. destruct (run_mode a fuel hands s) as [[z|e] s'] eqn:E; [|destruct e; auto].
  enough (z = 0 ∨ z = 1) as [-> | ->] by auto. revert E. unfold run_mode.
  destruct (cli a); [intros ->%then_zero; auto|].
  destruct (agent_only a); [intros [= <- _]; auto|]. intros ->%then_zero. auto.
Qed.
End Main.
End Main.
