(* ===== verification/ShowdownProps.v ===== *)
(** * Properties of the showdown

    The pot layers add up to the contributions, the winners of a layer are the
    players with the best hand, what is paid out is what the layers hold, and
    the showdown neither creates nor destroys chips. *)
From stdpp Require Import strings.
From Stdlib Require Import Sorted.
From S2P Require Import Prelude Py Json GameModels PlayerModels Evaluator EvaluatorProps.
From S2P Require Import GameHistory Game GameProps HandInvariant Showdown.
Import PokerGame HandEvaluator Showdown.

(** ** Dictionaries built in a loop *)

Section BuildDict.
Context {A K V : Type} `{EqDecision K} (key : A → K) (val : A → V).

Lemma build_dict_app l d :
  NoDup (d.*1 ++ (key <$> l)) →
  foldl (λ d x, dict_set (key x) (val x) d) d l = d ++ ((λ x, (key x, val x)) <$> l).
Proof.
  revert d. induction l as [|x l IH]; intros d H; cbn [foldl]; [by rewrite app_nil_r|].
  rewrite fmap_cons in H. pose proof H as (_ & Hx & _)%NoDup_app.
  rewrite dict_set_new; [|intros Hin; apply (Hx _ Hin); by left].
  rewrite IH.
  - by rewrite <- (assoc_L (++)).
  - rewrite fmap_app, <- (assoc_L (++)). exact H.
Qed.

(** With distinct keys the dictionary is the list of the pairs. *)
Lemma build_dict l :
  NoDup (key <$> l) →
  foldl (λ d x, dict_set (key x) (val x) d) [] l = (λ x, (key x, val x)) <$> l.
Proof. apply (build_dict_app l []). Qed.
End BuildDict.

(** ** The layers *)

Section Layers.
Context (contrib_map : list (nat * Z)).

Lemma sum_step (prev level : Z) (m : list (nat * Z)) :
  prev < level → (∀ kv, kv ∈ m → kv.2 ≤ prev ∨ level ≤ kv.2) →
  sum_by (λ kv, Z.max 0 (kv.2 - prev)) m
  = (level - prev) * Z.of_nat (length (filter (λ kv, level ≤ kv.2) m))
    + sum_by (λ kv, Z.max 0 (kv.2 - level)) m.
Proof.
  intros Hle. induction m as [|kv m IH]; intros H; cbn [sum_by foldr]; [cbn; lia|].
  fold (sum_by (λ kv, Z.max 0 (kv.2 - prev)) m). fold (sum_by (λ kv, Z.max 0 (kv.2 - level)) m).
  rewrite IH by (intros; apply H; by right). rewrite filter_cons.
  destruct (H kv ltac:(by left)) as [L|L].
  - case_decide; [lia|]. lia.
  - rewrite decide_True by done. cbn [length]. lia.
Qed.

Lemma layers_from_sum prev levels :
  StronglySorted Z.lt levels → Forall (Z.lt prev) levels →
  (∀ kv, kv ∈ contrib_map → kv.2 ≤ prev ∨ kv.2 ∈ levels) →
  sum_by ly_amount (layers_from contrib_map prev levels)
  = sum_by (λ kv, Z.max 0 (kv.2 - prev)) contrib_map.
Proof.
  intros Hs. revert prev. induction Hs as [|level levels Hs IH Hl]; intros prev Hp Hm.
  { cbn [layers_from]. rewrite sum_by_nil.
    rewrite (sum_by_ext _ (λ _, 0)); [by rewrite sum_by_const|].
    intros kv Hkv. destruct (Hm kv Hkv) as [|[]%elem_of_nil]. lia. }
  inversion_clear Hp as [|? ? Hlt Hp']. cbn [layers_from].
  destruct (Z.leb_spec (level - prev) 0); [lia|]. rewrite sum_by_cons. cbn [ly_amount].
  rewrite IH.
  - rewrite (sum_step prev level); [by rewrite length_fmap|lia|].
    intros kv Hkv. destruct (Hm kv Hkv) as [|[->|Hin]%elem_of_cons]; [by left|right; lia|].
    rewrite Forall_forall in Hl. specialize (Hl _ Hin). lia.
  - done.
  - intros kv Hkv. destruct (Hm kv Hkv) as [|[->|Hin]%elem_of_cons]; [left; lia|left; lia|by right].
Qed.

Lemma unique_levels_sorted : StronglySorted Z.lt (unique_levels contrib_map).
Proof.
  unfold unique_levels. set (l := remove_dups _).
  assert (NoDup (sort_asc l)) as N.
  { unfold sort_asc. rewrite sort_with_Permutation. apply NoDup_remove_dups. }
  pose proof (sort_asc_by_Sorted (λ x, x) l) as S. fold (sort_asc l) in S.
  change (sort_asc_by (λ x, x) l) with (sort_asc l) in S.
  induction S as [|x k S IH Hx]; [constructor|]. apply NoDup_cons in N as [N1 N2].
  constructor; [by apply IH|]. apply Forall_forall. intros y Hy. rewrite Forall_forall in Hx.
  specialize (Hx y Hy). simpl in Hx. assert (x ≠ y) by (intros ->; done). lia.
Qed.

Lemma elem_of_unique_levels v : v ∈ unique_levels contrib_map ↔ v ∈ contrib_map.*2.
Proof.
  unfold unique_levels, sort_asc. rewrite sort_with_Permutation. apply elem_of_remove_dups.
Qed.

(** The layers hold exactly what was contributed. *)
Lemma pot_layers_sum :
  Forall (λ kv, 0 < kv.2) contrib_map →
  sum_by ly_amount (build_pot_layers contrib_map) = sum_by snd contrib_map.
Proof.
  intros Hpos. rewrite Forall_forall in Hpos. unfold build_pot_layers. rewrite layers_from_sum.
  - apply sum_by_ext. intros kv Hkv. specialize (Hpos kv Hkv). simpl in Hpos. lia.
  - apply unique_levels_sorted.
  - apply Forall_forall. intros v (kv & -> & Hkv)%elem_of_unique_levels%list_elem_of_fmap.
    by apply Hpos.
  - intros kv Hkv. right. apply elem_of_unique_levels, list_elem_of_fmap. eauto.
Qed.
End Layers.

(** ** The winners *)

(** The list comparisons of the showdown agree with [compare_hands]. *)
Lemma list_gtb_compare k1 k2 :
  length k1 = length k2 → list_gtb k1 k2 = (compare_kickers k1 k2 =? 1).
Proof.
  revert k2. induction k1 as [|a k1 IH]; intros [|b k2] L; simplify_eq/=; [done|].
  rewrite (IH _ L). destruct (Z.eqb_spec a b), (Z.ltb_spec b a), (Z.ltb_spec a b); try done; lia.
Qed.

Lemma beats_compare h b :
  well_formed h → well_formed b → beats h b = (compare_hands h b =? 1).
Proof.
  unfold well_formed, beats, compare_hands. intros Wh Wb.
  destruct (Z.ltb_spec (hand_rank_value (HandResult.rank b)) (hand_rank_value (HandResult.rank h)));
    [done|].
  destruct (Z.ltb_spec (hand_rank_value (HandResult.rank h)) (hand_rank_value (HandResult.rank b))).
  - destruct (Z.eqb_spec (hand_rank_value (HandResult.rank h))
      (hand_rank_value (HandResult.rank b))); [lia | done].
  - assert (hand_rank_value (HandResult.rank h) = hand_rank_value (HandResult.rank b)) as E by lia.
    rewrite E, Z.eqb_refl. apply hand_rank_value_inj in E.
    apply list_gtb_compare. congruence.
Qed.

Lemma ties_compare h b :
  well_formed h → well_formed b → ties h b = (compare_hands h b =? 0).
Proof.
  intros Wh Wb. apply eq_true_iff_eq. rewrite Z.eqb_eq, compare_hands_zero by done.
  unfold ties. rewrite andb_true_iff, Z.eqb_eq, bool_decide_eq_true.
  split; intros [H ?]; split; try done; [by apply hand_rank_value_inj | by rewrite H].
Qed.

Section Winners.
Context (hands : list (nat * hand_result)).
Hypothesis Hwf : ∀ i h, dict_get i hands = Some h → well_formed h.

(** The player [i] has a hand equal to [b], no hand better than [b]. *)
Definition is_best (b : hand_result) (i : nat) : bool :=
  match dict_get i hands with Some h => compare_hands h b =? 0 | None => false end.
Definition at_most (b : hand_result) (i : nat) : Prop :=
  ∀ h, dict_get i hands = Some h → compare_hands h b ≤ 0.

(** What is known after the players [seen] *)
Definition winners_inv (seen ws : list nat) (best : option hand_result) : Prop :=
  match best with
  | None => ws = [] ∧ Forall (λ i, dict_get i hands = None) seen
  | Some b => well_formed b ∧ Forall (at_most b) seen ∧ ws ≠ [] ∧
              ws = filter (λ i, is_best b i = true) seen
  end.

Lemma compare_hands_le_lt h b b' :
  well_formed h → well_formed b → well_formed b' →
  compare_hands h b ≤ 0 → compare_hands b' b = 1 → compare_hands h b' < 0.
Proof.
  intros W1 W2 W3 H1 H2. destruct (Z.le_gt_cases 0 (compare_hands h b')) as [H|H]; [|lia].
  assert (0 ≤ compare_hands b b') as H3.
  { apply (compare_hands_trans_ge _ h); try done. rewrite compare_hands_antisym_l. lia. }
  rewrite compare_hands_antisym_l in H3. lia.
Qed.

Lemma filter_none b seen :
  Forall (λ i, is_best b i = false) seen → filter (λ i, is_best b i = true) seen = [].
Proof.
  induction 1 as [|i seen Hi _ IH]; [done|]. rewrite filter_cons, decide_False; [done|].
  by rewrite Hi.
Qed.

Lemma winners_step seen ws best i h :
  dict_get i hands = Some h → winners_inv seen ws best →
  match best with
  | None => winners_inv (seen ++ [i]) [i] (Some h)
  | Some b => if beats h b then winners_inv (seen ++ [i]) [i] (Some h)
              else winners_inv (seen ++ [i]) (if ties h b then ws ++ [i] else ws) (Some b)
  end.
Proof.
  intros Eh. pose proof (Hwf _ _ Eh) as Wh.
  assert (is_best h i = true) as Hbest by (unfold is_best; by rewrite Eh, compare_hands_refl).
  assert (Forall (λ j, is_best h j = false) seen → Forall (at_most h) seen →
          winners_inv (seen ++ [i]) [i] (Some h)) as Hnew.
  { intros Hf Hm. split_and!; try done.
    - apply Forall_app_2; [done|]. constructor; [|done]. intros h'. rewrite Eh.
      intros [= <-]. by rewrite compare_hands_refl.
    - rewrite filter_app, filter_none by done. rewrite filter_cons, decide_True by done. done. }
  destruct best as [b|]; cbn [winners_inv].
  - intros (Wb & Hm & Hne & ->). rewrite beats_compare, ties_compare by done.
    destruct (Z.eqb_spec (compare_hands h b) 1) as [H1|H1].
    + assert (∀ j h', j ∈ seen → dict_get j hands = Some h' → compare_hands h' h < 0) as Hlt.
      { intros j h' Hj E. rewrite Forall_forall in Hm. specialize (Hm j Hj h' E).
        apply (compare_hands_le_lt _ b); eauto. }
      apply Hnew; apply Forall_forall; intros j Hj.
      * unfold is_best. destruct (dict_get j hands) as [h'|] eqn:E; [|done].
        specialize (Hlt j h' Hj E). destruct (Z.eqb_spec (compare_hands h' h) 0); [lia | done].
      * intros h' E. specialize (Hlt j h' Hj E). lia.
    + assert (at_most b i) as Hi.
      { intros h'. rewrite Eh. intros [= <-]. destruct (compare_hands_range h b) as [|[|]]; lia. }
      assert (is_best b i = (compare_hands h b =? 0)) as Ei by (unfold is_best; by rewrite Eh).
      split_and!; [done|apply Forall_app_2; auto| |].
      * destruct (_ =? 0); [|done]. by destruct (filter _ _).
      * rewrite filter_app, filter_cons, Ei. destruct (_ =? 0); [done|by rewrite app_nil_r].
  - intros [-> Hn]. apply Hnew; (eapply Forall_impl; [exact Hn|]); intros j E; cbn in E.
    + unfold is_best. by rewrite E.
    + intros h'. by rewrite E.
Qed.

Lemma winners_loop_inv ids seen ws best :
  winners_inv seen ws best →
  winners_inv (seen ++ ids) (winners_loop hands ids ws best).1 (winners_loop hands ids ws best).2.
Proof.
  revert seen ws best. induction ids as [|i ids IH]; intros seen ws best Hinv.
  { by rewrite app_nil_r. }
  replace (seen ++ i :: ids) with ((seen ++ [i]) ++ ids) by (by rewrite <- (assoc_L (++))).
  cbn [winners_loop]. destruct (dict_get i hands) as [h|] eqn:Eh.
  - pose proof (winners_step seen ws best i h Eh Hinv) as Hs.
    destruct best as [b|]; [|by apply IH]. destruct (beats h b); [by apply IH|].
    destruct (ties h b); by apply IH.
  - apply IH. destruct best as [b|]; cbn [winners_inv] in *.
    + destruct Hinv as (W & Hm & Hne & ->). split_and!; [done| |done|].
      * apply Forall_app_2; [done|]. constructor; [|done]. intros h. by rewrite Eh.
      * rewrite filter_app, filter_cons, decide_False; [by rewrite app_nil_r|].
        unfold is_best. by rewrite Eh.
    + destruct Hinv as [-> Hn]. split; [done|]. apply Forall_app_2; auto.
Qed.

(** The winners are the players whose hand equals the best one, in order. *)
Lemma determine_winner_ids_inv ids :
  winners_inv ids (determine_winner_ids hands ids).1 (determine_winner_ids hands ids).2.
Proof. by apply (winners_loop_inv ids []). Qed.

Lemma determine_winner_ids_nonempty ids i h :
  i ∈ ids → dict_get i hands = Some h → (determine_winner_ids hands ids).1 ≠ [].
Proof.
  intros Hi E. pose proof (determine_winner_ids_inv ids) as H.
  destruct (determine_winner_ids hands ids) as [ws [b|]]; cbn in *; [tauto|].
  destruct H as [_ H]. rewrite Forall_forall in H. rewrite (H i Hi) in E. done.
Qed.
End Winners.

(** ** The distribution of the layers *)

Notation paid_out w := (sum_by (λ kv : nat * Z, kv.2) w).

Lemma foldl_add {A} (f : A → Z) l x : foldl (λ t i, t + f i) x l = x + sum_by f l.
Proof. revert x. induction l as [|a l IH]; intros x; cbn [foldl];
  [rewrite sum_by_nil; lia | rewrite IH, sum_by_cons; lia]. Qed.

Lemma add_shares_sum base rem i ids w :
  paid_out (add_shares base rem i ids w)
  = paid_out w + sum_by (share_of base rem) (seq i (length ids)).
Proof.
  revert i w. induction ids as [|pid ids IH]; intros i w; cbn [add_shares length seq];
    [rewrite sum_by_nil; lia|].
  rewrite IH, (sum_by_dict_set (λ v, v)), sum_by_cons. unfold dict_get_default.
  destruct (dict_get pid w); simpl; lia.
Qed.

Lemma add_shares_keys base rem i ids w x :
  x ∈ (add_shares base rem i ids w).*1 → x ∈ w.*1 ∨ x ∈ ids.
Proof.
  revert i w. induction ids as [|j ids IH]; intros i w; [by left|]. cbn [add_shares].
  intros [H|H]%IH; [|right; by right].
  apply dict_set_keys_elem in H as [->|H]; [right; by left | by left].
Qed.

Lemma add_shares_NoDup base rem i ids w :
  NoDup w.*1 → NoDup (add_shares base rem i ids w).*1.
Proof.
  revert i w. induction ids as [|j ids IH]; intros i w H; [done|].
  cbn [add_shares]. apply IH. by apply dict_set_NoDup.
Qed.

(** Nobody is paid a negative share. *)
Lemma dict_set_Forall {K V} `{EqDecision K} (P : V → Prop) (k : K) v d :
  Forall (λ kv, P kv.2) d → P v → Forall (λ kv, P kv.2) (dict_set k v d).
Proof.
  induction 1 as [|[k0 v0] d H0 Hd IH]; intros Hv; cbn [dict_set]; [by constructor|].
  case_decide; constructor; auto.
Qed.

Lemma add_shares_nonneg base rem i ids w :
  0 ≤ base → Forall (λ kv, 0 ≤ kv.2) w → Forall (λ kv, 0 ≤ kv.2) (add_shares base rem i ids w).
Proof.
  intros Hb. revert i w. induction ids as [|j ids IH]; intros i w Hw; [done|]. cbn [add_shares].
  apply IH, (dict_set_Forall (λ v, 0 ≤ v)); [done|].
  assert (0 ≤ dict_get_default j 0 w).
  { unfold dict_get_default. destruct (dict_get j w) as [v|] eqn:E; [|done].
    apply dict_get_elem in E. rewrite Forall_forall in Hw. by apply (Hw (j, v)). }
  unfold share_of. destruct (_ <? _); lia.
Qed.

Lemma award_layers_nonneg hands ids idx layers a a' :
  Forall (λ l, 0 ≤ ly_amount l) layers → Forall (λ kv, 0 ≤ kv.2) (aw_winnings a) →
  award_layers hands ids idx layers a = Ok a' → Forall (λ kv, 0 ≤ kv.2) (aw_winnings a').
Proof.
  intros Hl. revert idx a. induction Hl as [|l layers Hpos _ IH]; intros idx a Ha;
    cbn [award_layers]; [by intros [= <-]|].
  destruct (award_layer hands ids idx l a) as [a1|] eqn:E; [|done]. apply IH.
  revert E. unfold award_layer. destruct (filter _ _); [by intros [= <-]|].
  destruct (determine_winner_ids _ _) as [ws best]. destruct (Z.eqb_spec (Z.of_nat (length ws)) 0);
    [done|]. intros [= <-]. apply add_shares_nonneg; [|done]. apply Z.div_pos; lia.
Qed.

(** The shares of a layer add up to its amount: the remainder is handed out in
    single chips. *)
Lemma shares_sum amount n :
  (0 < n)%nat → 0 ≤ amount →
  sum_by (share_of (amount / Z.of_nat n) (amount mod Z.of_nat n)) (seq 0 n) = amount.
Proof.
  intros Hn Ha.
  pose proof (Z.mod_pos_bound amount (Z.of_nat n) ltac:(lia)) as Hr.
  assert (∀ b r m k, 0 ≤ r → sum_by (share_of b r) (seq k m)
    = b * Z.of_nat m + Z.max 0 (Z.min (Z.of_nat m) (r - Z.of_nat k))) as S.
  { intros b r m. induction m as [|m IH]; intros k Hk; cbn [seq]; [rewrite sum_by_nil; lia|].
    rewrite sum_by_cons, IH, !Nat2Z.inj_succ, Z.mul_succ_r by lia. unfold share_of. destruct (Z.ltb_spec (Z.of_nat k) r); lia. }
  rewrite S by lia. pose proof (Z.div_mod amount (Z.of_nat n) ltac:(lia)). lia.
Qed.

Section Awards.
Context (hands : list (nat * hand_result)) (showdown_ids : list nat).
Hypothesis Hwf : ∀ i h, dict_get i hands = Some h → well_formed h.
Hypothesis Hhands : ∀ i, i ∈ showdown_ids → ∃ h, dict_get i hands = Some h.

Definition eligible (l : layer) : list nat :=
  filter (λ pid, pid ∈ showdown_ids) (ly_contributors l).

(** What a layer pays: all of it, or nothing when no contributor is left *)
Definition payable (l : layer) : Z :=
  match eligible l with [] => 0 | _ => ly_amount l end.

Lemma award_layer_ok idx l a :
  0 ≤ ly_amount l →
  ∃ a', award_layer hands showdown_ids idx l a = Ok a' ∧
    paid_out (aw_winnings a') = paid_out (aw_winnings a) + payable l ∧
    aw_total a' = aw_total a + payable l ∧
    (∀ i, i ∈ (aw_winnings a').*1 → i ∈ (aw_winnings a).*1 ∨ i ∈ eligible l) ∧
    (NoDup (aw_winnings a).*1 → NoDup (aw_winnings a').*1).
Proof.
  intros Ha. unfold award_layer, payable. fold (eligible l).
  destruct (eligible l) as [|i ids] eqn:El.
  { exists a. rewrite !Z.add_0_r. split_and!; auto. }
  assert (i ∈ showdown_ids) as Hi.
  { assert (i ∈ eligible l) as H by (rewrite El; by left). by apply list_elem_of_filter in H as [? _]. }
  destruct (Hhands i Hi) as [h Eh].
  pose proof (determine_winner_ids_nonempty hands Hwf (i :: ids) i h ltac:(by left) Eh) as Hne.
  pose proof (determine_winner_ids_inv hands Hwf (i :: ids)) as Hinv.
  destruct (determine_winner_ids hands (i :: ids)) as [ws best]. cbn [fst snd] in *.
  assert (0 < length ws)%nat as Hlen by (destruct ws; [done | simpl; lia]).
  destruct (Z.eqb_spec (Z.of_nat (length ws)) 0); [lia|].
  eexists. split; [done|]. cbn [aw_winnings aw_total].
  assert (length (sort_ids ws) = length ws) as Ls.
  { unfold sort_ids, sort_asc_by. by rewrite sort_with_Permutation. }
  rewrite foldl_add, add_shares_sum, Ls, shares_sum by done.
  split_and!; try done.
  - intros x [H|H]%add_shares_keys; [by left|right].
    unfold sort_ids, sort_asc_by in H. rewrite sort_with_Permutation in H.
    destruct best as [b|]; cbn [winners_inv] in Hinv; [|by destruct Hinv as [-> _]].
    destruct Hinv as (_ & _ & _ & ->). by apply list_elem_of_filter in H as [_ ?].
  - apply add_shares_NoDup.
Qed.

Lemma award_layers_ok idx layers a :
  Forall (λ l, 0 ≤ ly_amount l) layers →
  ∃ a', award_layers hands showdown_ids idx layers a = Ok a' ∧
    paid_out (aw_winnings a') = paid_out (aw_winnings a) + sum_by payable layers ∧
    aw_total a' = aw_total a + sum_by payable layers ∧
    (∀ i, i ∈ (aw_winnings a').*1 → i ∈ (aw_winnings a).*1 ∨ i ∈ showdown_ids) ∧
    (NoDup (aw_winnings a).*1 → NoDup (aw_winnings a').*1).
Proof.
  intros Hl. revert idx a. induction Hl as [|l layers Hpos _ IH]; intros idx a; cbn [award_layers].
  { exists a. rewrite sum_by_nil, !Z.add_0_r. split_and!; auto. }
  destruct (award_layer_ok idx l a Hpos) as (a1 & E1 & S1 & T1 & I1 & N1). rewrite E1.
  destruct (IH (S idx) a1) as (a2 & E2 & S2 & T2 & I2 & N2).
  exists a2. split; [exact E2|]. rewrite S2, T2, S1, T1, sum_by_cons. split_and!; [lia|lia| |auto].
  intros i [[|Hi]%I1|]%I2; auto. right. by apply list_elem_of_filter in Hi as [? _].
Qed.
End Awards.

Lemma payable_le showdown_ids l : 0 ≤ ly_amount l → 0 ≤ payable showdown_ids l ≤ ly_amount l.
Proof. unfold payable. intros H. case_match; lia. Qed.

(** ** The contributions *)

Lemma seated_ids_NoDup g : seated g → NoDup (Player.id <$> players g).
Proof.
  intros Hs. apply NoDup_alt. intros i j x Hi Hj.
  apply list_lookup_fmap_Some in Hi as (p & -> & Hp), Hj as (q & E & Hq).
  apply Hs in Hp, Hq. congruence.
Qed.

Lemma filter_pos_sum (m : list (nat * Z)) :
  Forall (λ kv, 0 ≤ kv.2) m → paid_out (filter (λ kv, 0 < kv.2) m) = paid_out m.
Proof.
  induction 1 as [|kv m H _ IH]; [done|]. rewrite filter_cons, sum_by_cons.
  case_decide; [by rewrite sum_by_cons, IH | rewrite IH; lia].
Qed.

Lemma contributions_eq g :
  seated g → contributions (players g) =
    filter (λ kv, 0 < kv.2)
      ((λ p, (Player.id p, Z.max 0 (Player.total_bet_this_hand p))) <$> players g).
Proof.
  intros Hs. unfold contributions. f_equal.
  apply (build_dict Player.id (λ p, Z.max 0 (Player.total_bet_this_hand p))).
  by apply seated_ids_NoDup.
Qed.

Lemma contributions_sum g :
  seated g → Forall (λ p, 0 ≤ Player.total_bet_this_hand p) (players g) →
  paid_out (contributions (players g)) = bets_of g.
Proof.
  intros Hs Hb. rewrite contributions_eq, filter_pos_sum by done ||
    (apply Forall_fmap, Forall_forall; intros p _; simpl; lia).
  rewrite sum_by_fmap. apply sum_by_ext. intros p Hp. rewrite Forall_forall in Hb.
  specialize (Hb p Hp). cbn. lia.
Qed.

Lemma contributions_pos g : seated g → Forall (λ kv, 0 < kv.2) (contributions (players g)).
Proof.
  intros Hs. rewrite contributions_eq by done. apply Forall_forall.
  by intros kv [? _]%list_elem_of_filter.
Qed.

Lemma layers_from_nonneg m prev levels :
  Forall (λ l, 0 ≤ ly_amount l) (layers_from m prev levels).
Proof.
  revert prev. induction levels as [|level levels IH]; intros prev; cbn [layers_from]; [done|].
  destruct (Z.leb_spec (level - prev) 0); [done|]. constructor; [|done].
  cbn [ly_amount]. apply Z.mul_nonneg_nonneg; lia.
Qed.

(** ** Paying out *)

Lemma pay_out_ok hands winnings g :
  seated g → Forall (λ kv : nat * Z, (kv.1 < length (players g))%nat) winnings →
  ∃ rs ps, pay_out hands winnings g = (rs, g <| players := ps |>) ∧
    sum_by Player.chips ps = chips_of g + paid_out winnings ∧
    length ps = length (players g) ∧ seated (g <| players := ps |>) ∧
    (λ r, (po_player_id r, po_winnings r)) <$> rs = winnings.
Proof.
  intros Hs Hw. revert g Hs Hw.
  induction winnings as [|[pid w] rest IH]; intros g Hs Hw; cbn [pay_out].
  { exists [], (players g). rewrite sum_by_nil, Z.add_0_r. split_and!; try done. by destruct g. }
  inversion_clear Hw as [|? ? Hlt Hrest]. cbn in Hlt.
  destruct (lookup_lt_is_Some_2 _ _ Hlt) as [p Hp].
  rewrite (find_player_seated g pid p Hs Hp).
  set (g1 := set_player pid (p <| Player.chips ::= λ c, c + w |>) g).
  assert (length (players g1) = length (players g)) as L1 by apply length_insert.
  destruct (IH g1) as (rs & ps & E & Sm & L & Sd & R).
  - intros i q [(-> & <- & _)|(_ & Hq)]%list_lookup_insert_Some; [|by apply Hs].
    by rewrite <- (Hs _ _ Hp).
  - by rewrite L1.
  - rewrite E. eexists (_ :: rs), ps. split_and!; [done| | |done|].
    + rewrite Sm. unfold chips_of. cbn [g1 set_player players]. change (players g1)
        with (<[pid := p <| Player.chips ::= λ c, c + w |>]> (players g)).
      rewrite (sum_by_insert _ _ _ p) by done. rewrite sum_by_cons. cbn. lia.
    + by rewrite L, L1.
    + rewrite fmap_cons, R. done.
Qed.

(** A property of the chips that payments keep holds after the pay-out. *)
Lemma pay_out_stacks hands winnings g :
  Forall (λ kv : nat * Z, 0 ≤ kv.2) winnings →
  Forall (λ p, 0 ≤ Player.chips p) (players g) →
  Forall (λ p, 0 ≤ Player.chips p) (players (pay_out hands winnings g).2).
Proof.
  intros Hw. revert g. induction Hw as [|[pid w] rest Hpos _ IH]; intros g Hg; [done|].
  cbn [pay_out]. destruct (find_player pid g) as [[i p]|] eqn:F; [|by apply IH].
  apply find_player_Some in F as [Hp _].
  match goal with |- context [pay_out hands rest ?h] => specialize (IH h) end.
  destruct (pay_out _ _ _) as [results g']. apply IH.
  apply Forall_insert; [done|]. eapply Forall_lookup_1 in Hg; [|exact Hp]. cbn in *. lia.
Qed.

(** ** The hands of the showdown *)

(** The player's cards and the board, at the showdown *)
Lemma hand_cards_ok g p :
  hand_ok g → p ∈ players g →
  Player.hole_cards p ++ community_cards g ⊆+ Deck.full.
Proof.
  intros Hok Hp. etrans; [|apply (ok_cards _ Hok)]. unfold table_cards.
  apply submseteq_inserts_l. rewrite (Permutation_app_comm (community_cards g)).
  apply submseteq_skips_r. apply list_elem_of_split in Hp as (l1 & l2 & ->).
  rewrite bind_app. apply submseteq_inserts_l.
  change ((p :: l2) ≫= Player.hole_cards) with (Player.hole_cards p ++ (l2 ≫= Player.hole_cards)).
  by apply submseteq_inserts_r.
Qed.

Lemma full_valid cards : cards ⊆+ Deck.full → Forall Card.valid cards.
Proof.
  intros H. apply Forall_forall. intros c Hc. apply elem_of_full_deck. by eapply elem_of_submseteq.
Qed.

(** [p]'s hand is [h]. *)
Definition holds (g : t) (p : player) (h : hand_result) : Prop :=
  evaluate_hand (Player.hole_cards p) (community_cards g) = Ok h ∧ well_formed h.

Lemma evaluate_players_ok g ps :
  hand_ok g → length (community_cards g) = 5%nat → (∀ p, p ∈ ps → p ∈ players g) →
  ∃ phs, evaluate_players (community_cards g) ps = Ok phs ∧
         fst <$> phs = ps ∧ Forall (λ ph, holds g ph.1 ph.2) phs.
Proof.
  intros Hok Hb Hps. unfold evaluate_players.
  destruct (map_result_all (λ p, h ← evaluate_hand (Player.hole_cards p) (community_cards g);
    Ok (p, h)) (λ p ph, ph.1 = p ∧ holds g ph.1 ph.2) ps) as (phs & E & F).
  - intros p Hp. pose proof (hand_cards_ok g p Hok (Hps p Hp)) as Hc.
    destruct (evaluate_hand_total (Player.hole_cards p) (community_cards g)) as (h & Eh & W & _).
    + by apply NoDup_submseteq_full.
    + by apply full_valid.
    + rewrite length_app. lia.
    + exists (p, h). rewrite Eh. done.
  - exists phs. split; [exact E|]. clear E Hps. induction F as [|p ph ps phs [Ep Hh] F [IH1 IH2]]; [done|].
    rewrite fmap_cons, IH1, Ep. split; [done|]. by constructor.
Qed.

Lemma hands_map_eq phs :
  NoDup (Player.id <$> (fst <$> phs)) → hands_map phs = id_hand <$> phs.
Proof.
  intros H. unfold hands_map. rewrite <- list_fmap_compose in H.
  by apply (build_dict (λ ph, Player.id ph.1) snd).
Qed.

(** ** Which layers are paid *)

Lemma elem_of_layers_from m prev levels l :
  l ∈ layers_from m prev levels →
  ∃ level, level ∈ levels ∧ ly_contributors l = fst <$> filter (λ kv, level ≤ kv.2) m.
Proof.
  revert prev. induction levels as [|level levels IH]; intros prev; cbn [layers_from]; [set_solver|].
  destruct (_ <=? 0).
  - intros (lv & ? & ?)%IH. exists lv. set_solver.
  - intros [->|(lv & ? & ?)%IH]%elem_of_cons; [exists level | exists lv]; set_solver.
Qed.

(** When a player of the showdown contributed the most, every layer is paid. *)
Lemma payable_all m ids i c :
  (i, c) ∈ m → i ∈ ids → Forall (λ kv, kv.2 ≤ c) m →
  Forall (λ l, payable ids l = ly_amount l) (build_pot_layers m).
Proof.
  intros Hm Hi Hc. apply Forall_forall. intros l (level & Hl & E)%elem_of_layers_from.
  apply elem_of_unique_levels, list_elem_of_fmap in Hl as (kv & -> & Hkv).
  rewrite Forall_forall in Hc. specialize (Hc kv Hkv). cbn in Hc.
  assert (i ∈ eligible ids l) as H.
  { apply list_elem_of_filter. split; [done|]. rewrite E. apply list_elem_of_fmap.
    exists (i, c). split; [done|]. by apply list_elem_of_filter. }
  unfold payable. by destruct (eligible ids l); [apply elem_of_nil in H|].
Qed.

(** ** What one player can win *)

Section WinBound.
Context (hands : list (nat * hand_result)) (showdown_ids : list nat) (i : nat).

(** What a layer adds at most to the winnings of [i] *)
Definition at_stake (l : layer) : Z := if decide (i ∈ ly_contributors l) then ly_amount l else 0.

Notation won w := (dict_get_default i 0 w).

Lemma won_set k v w : won (dict_set k v w) = if decide (i = k) then v else won w.
Proof.
  unfold dict_get_default. case_decide as E.
  - by rewrite E, dict_get_set_eq.
  - by rewrite dict_get_set_ne.
Qed.

Lemma add_shares_bound base rem k ids w :
  (∀ n, 0 ≤ share_of base rem n) →
  won (add_shares base rem k ids w)
    ≤ won w + (if decide (i ∈ ids) then sum_by (share_of base rem) (seq k (length ids)) else 0).
Proof.
  intros Hn. revert k w. induction ids as [|j ids IH]; intros k w; cbn [add_shares].
  { case_decide; [set_solver | lia]. }
  specialize (IH (S k) (dict_set j (dict_get_default j 0 w + share_of base rem k) w)).
  rewrite won_set in IH. cbn [length seq]. rewrite sum_by_cons.
  assert (0 ≤ sum_by (share_of base rem) (seq (S k) (length ids)))
    by (apply sum_by_nonneg; auto).
  specialize (Hn k). destruct (decide (i = j)) as [->|Hne].
  - rewrite (decide_True (P := j ∈ j :: ids)) by (by left).
    destruct (decide (j ∈ ids)); lia.
  - destruct (decide (i ∈ ids)), (decide (i ∈ j :: ids)); set_solver || lia.
Qed.

Lemma award_layer_bound idx l a a' :
  0 ≤ ly_amount l → award_layer hands showdown_ids idx l a = Ok a' →
  (∀ ids, (∀ j, j ∈ (determine_winner_ids hands ids).1 → j ∈ ids)) →
  won (aw_winnings a') ≤ won (aw_winnings a) + at_stake l.
Proof.
  intros Ha E Hsub. unfold award_layer in E. fold (eligible showdown_ids l) in E.
  assert (0 ≤ at_stake l) as Hs by (unfold at_stake; case_decide; lia).
  destruct (eligible showdown_ids l) as [|x ids] eqn:El; [injection E as <-; lia|].
  specialize (Hsub (x :: ids)).
  destruct (determine_winner_ids hands (x :: ids)) as [ws best]. cbn [fst] in Hsub.
  destruct (Z.eqb_spec (Z.of_nat (length ws)) 0) as [|Hw]; [done|]. injection E as <-.
  cbn [aw_winnings]. etrans; [apply add_shares_bound|].
  - intros n. unfold share_of.
    pose proof (Z.div_pos (ly_amount l) (Z.of_nat (length ws)) Ha ltac:(lia)). case_match; lia.
  - unfold at_stake in *. apply Z.add_le_mono_l. destruct (decide (i ∈ sort_ids ws)) as [Hi|]; [|done].
    unfold sort_ids, sort_asc_by in Hi. rewrite sort_with_Permutation in Hi.
    apply Hsub in Hi. rewrite <- El in Hi. apply list_elem_of_filter in Hi as [_ Hi].
    rewrite decide_True by done. unfold sort_ids, sort_asc_by.
    rewrite sort_with_Permutation, shares_sum by lia. lia.
Qed.

Lemma award_layers_bound idx layers a a' :
  Forall (λ l, 0 ≤ ly_amount l) layers →
  award_layers hands showdown_ids idx layers a = Ok a' →
  (∀ ids, (∀ j, j ∈ (determine_winner_ids hands ids).1 → j ∈ ids)) →
  won (aw_winnings a') ≤ won (aw_winnings a) + sum_by at_stake layers.
Proof.
  intros Hl E Hsub. revert idx a E. induction Hl as [|l layers Hpos _ IH]; intros idx a E.
  { injection E as <-. rewrite sum_by_nil. lia. }
  cbn [award_layers] in E. destruct (award_layer _ _ idx l a) as [a1|] eqn:E1; [|done].
  apply IH in E. apply award_layer_bound in E1; [|done..]. rewrite sum_by_cons. lia.
Qed.

(** The layers a contribution [c] takes part in hold, of every player, as much
    as the smaller of the two contributions. *)
Lemma layers_from_stake m prev levels c :
  NoDup m.*1 → (i, c) ∈ m → StronglySorted Z.lt levels → Forall (Z.lt prev) levels →
  (∀ kv, kv ∈ m → kv.2 ≤ prev ∨ kv.2 ∈ levels) →
  sum_by at_stake (layers_from m prev levels)
  = sum_by (λ kv, Z.max 0 (Z.min kv.2 c - prev)) m.
Proof.
  intros Hn Hic Hs. revert prev. induction Hs as [|level levels Hs IH Hl]; intros prev Hp Hm.
  { cbn [layers_from]. rewrite sum_by_nil, (sum_by_ext _ (λ _, 0)); [by rewrite sum_by_const|].
    intros kv Hkv. destruct (Hm kv Hkv) as [|[]%elem_of_nil]. lia. }
  inversion_clear Hp as [|? ? Hlt Hp']. cbn [layers_from].
  destruct (Z.leb_spec (level - prev) 0); [lia|]. rewrite sum_by_cons.
  assert (∀ kv, kv ∈ m → kv.2 ≤ level ∨ kv.2 ∈ levels) as Hm'.
  { intros kv Hkv. destruct (Hm kv Hkv) as [|[->|Hin]%elem_of_cons]; [left; lia|left; lia|by right]. }
  rewrite IH by done. unfold at_stake at 1. cbn [ly_contributors ly_amount].
  rewrite length_fmap. destruct (Z.le_gt_cases level c) as [Hc|Hc].
  - rewrite decide_True.
    2: { apply list_elem_of_fmap. exists (i, c). split; [done|]. by apply list_elem_of_filter. }
    assert (∀ k, k `sublist_of` m → sum_by (λ kv, Z.max 0 (Z.min kv.2 c - prev)) k
      = (level - prev) * Z.of_nat (length (filter (λ kv, level ≤ kv.2) k))
        + sum_by (λ kv, Z.max 0 (Z.min kv.2 c - level)) k) as S; [|by rewrite S].
    intros k Hk. assert (∀ kv, kv ∈ k → kv.2 ≤ prev ∨ level ≤ kv.2) as Hk'.
    { intros kv Hkv. destruct (Hm kv) as [|[->|Hin]%elem_of_cons];
        [by eapply elem_of_submseteq; [|apply sublist_submseteq]|by left|right; lia|].
      rewrite Forall_forall in Hl. specialize (Hl _ Hin). lia. }
    clear Hk. induction k as [|kv k IHk]; [cbn; lia|]. rewrite !sum_by_cons, filter_cons.
    rewrite IHk by (intros; apply Hk'; by right).
    destruct (Hk' kv ltac:(by left)); case_decide; cbn [length]; lia.
  - assert (c ≤ prev) as Hcp.
    { destruct (Hm (i, c) Hic) as [|[E|Hin]%elem_of_cons]; cbn in *; [done|lia|].
      rewrite Forall_forall in Hl. specialize (Hl _ Hin). lia. }
    rewrite decide_False.
    + rewrite Z.add_0_l. apply sum_by_ext. intros kv _. lia.
    + intros ([j v] & Ej & [Hv Hin]%list_elem_of_filter)%list_elem_of_fmap. cbn in *. subst j.
      assert (v = c); [|lia].
      pose proof (elem_dict_get i v m Hn Hin). pose proof (elem_dict_get i c m Hn Hic). congruence.
Qed.
End WinBound.

(** ** The whole showdown *)

(** The players of the showdown and the layers of the pot *)
Definition showdown_ids (g : t) : list nat := Player.id <$> remaining_players g.
Definition pot_layers (g : t) : list layer := build_pot_layers (contributions (players g)).

(** The chips the showdown hands out *)
Definition awarded (g : t) : Z := sum_by (payable (showdown_ids g)) (pot_layers g).

Lemma awarded_range g :
  hand_ok g → 0 ≤ awarded g ≤ pot g.
Proof.
  intros Hok. unfold awarded, pot_layers. rewrite (ok_pot _ Hok).
  rewrite <- (contributions_sum g), <- pot_layers_sum;
    [|by apply contributions_pos, Hok|apply Hok|].
  - pose proof (layers_from_nonneg (contributions (players g)) 0
      (unique_levels (contributions (players g)))) as Hn.
    rewrite Forall_forall in Hn. split.
    + apply sum_by_nonneg. intros l Hl. by apply payable_le, Hn.
    + apply sum_by_le. intros l Hl. by apply payable_le, Hn.
  - eapply Forall_impl; [apply Hok|]. intros p [[]]. lia.
Qed.

Lemma remaining_in g p : p ∈ remaining_players g → p ∈ players g.
Proof. by intros [_ ?]%list_elem_of_filter. Qed.

Lemma remaining_ids_NoDup g : seated g → NoDup (showdown_ids g).
Proof.
  intros Hs. apply seated_ids_NoDup in Hs. unfold showdown_ids, remaining_players.
  induction (players g) as [|p l IH]; [constructor|]. rewrite fmap_cons in Hs.
  apply NoDup_cons in Hs as [H1 H2]. rewrite filter_cons. case_decide; [|by apply IH].
  rewrite fmap_cons. apply NoDup_cons. split; [|by apply IH].
  intros (q & E & [_ Hq]%list_elem_of_filter)%list_elem_of_fmap. apply H1.
  apply list_elem_of_fmap. eauto.
Qed.

(** The hands by id, as the showdown uses them *)
Record hands_ok (g : t) (phs : list (player * hand_result)) : Prop := HandsOk {
  ho_eval : evaluate_players (community_cards g) (remaining_players g) = Ok phs;
  ho_map : hands_map phs = id_hand <$> phs;
  ho_keys : (hands_map phs).*1 = showdown_ids g;
  ho_get : ∀ i h, dict_get i (hands_map phs) = Some h ↔
             ∃ p, p ∈ remaining_players g ∧ Player.id p = i ∧ holds g p h }.

Lemma hands_ok_intro g :
  hand_ok g → length (community_cards g) = 5%nat → ∃ phs, hands_ok g phs.
Proof.
  intros Hok Hb.
  destruct (evaluate_players_ok g (remaining_players g) Hok Hb (remaining_in g))
    as (phs & E & Ef & Hh).
  pose proof (remaining_ids_NoDup g (ok_seated _ Hok)) as Hn.
  assert (hands_map phs = id_hand <$> phs) as Em.
  { apply hands_map_eq. by rewrite Ef. }
  assert ((hands_map phs).*1 = showdown_ids g) as Ek.
  { rewrite Em, <- list_fmap_compose. unfold showdown_ids. by rewrite <- Ef, <- list_fmap_compose. }
  exists phs. split; [done..|]. intros i h. rewrite Forall_forall in Hh. split.
  - rewrite Em. intros ([p h'] & [= -> ->] & Hin)%dict_get_elem%list_elem_of_fmap.
    exists p. split_and!; [|done|by apply (Hh (p, h'))].
    rewrite <- Ef. apply list_elem_of_fmap. by exists (p, h').
  - intros (p & Hp & <- & [Eh W]). apply elem_dict_get; [by rewrite Ek|]. rewrite Em.
    rewrite <- Ef in Hp. apply list_elem_of_fmap in Hp as ([q h'] & -> & Hin). cbn in *.
    destruct (Hh _ Hin) as [Eh' _]. cbn in Eh'. rewrite Eh in Eh'. injection Eh' as <-.
    apply list_elem_of_fmap. by exists (q, h).
Qed.

(** What the player [p] can win at most: from every player the smaller of the
    two contributions. *)
Definition stake_limit (g : t) (p : player) : Z :=
  sum_by (λ q, Z.min (Player.total_bet_this_hand q) (Player.total_bet_this_hand p)) (players g).

Lemma stake_of g p :
  hand_ok g → p ∈ players g →
  sum_by (at_stake (Player.id p)) (pot_layers g) ≤ stake_limit g p.
Proof.
  intros Hok Hp. pose proof (ok_seated _ Hok) as Hs.
  assert (Forall (λ q, 0 ≤ Player.total_bet_this_hand q) (players g)) as Hnn.
  { eapply Forall_impl; [apply Hok|]. intros q [[]]. lia. }
  rewrite Forall_forall in Hnn. pose proof (Hnn p Hp) as Hpn.
  set (m := contributions (players g)).
  set (ids := (λ q, (Player.id q, Z.max 0 (Player.total_bet_this_hand q))) <$> players g).
  assert (m = filter (λ kv, 0 < kv.2) ids) as Em by by apply contributions_eq.
  assert (NoDup ids.*1) as Nids.
  { unfold ids. rewrite <- list_fmap_compose. by apply seated_ids_NoDup. }
  assert (m.*1 `sublist_of` ids.*1) as Hsub.
  { rewrite Em. apply fmap_sublist, sublist_filter. }
  assert (NoDup m.*1) as Nm by by eapply sublist_NoDup.
  destruct (decide (0 < Player.total_bet_this_hand p)) as [Hpos|Hz].
  - unfold pot_layers, build_pot_layers. fold m.
    rewrite (layers_from_stake _ m 0 _ (Player.total_bet_this_hand p)).
    + unfold stake_limit. rewrite Em. transitivity (sum_by
        (λ kv, Z.max 0 (Z.min kv.2 (Player.total_bet_this_hand p) - 0)) ids).
      * clear. induction ids as [|kv l IH]; [done|]. rewrite filter_cons, sum_by_cons.
        case_decide; rewrite ?sum_by_cons; lia.
      * unfold ids. rewrite sum_by_fmap. apply sum_by_le. intros q Hq. cbn.
        specialize (Hnn q Hq). cbn in Hnn. lia.
    + done.
    + rewrite Em. apply list_elem_of_filter. split; [done|]. apply list_elem_of_fmap.
      exists p. by rewrite Z.max_r by lia.
    + apply unique_levels_sorted.
    + apply Forall_forall. intros v (kv & -> & Hkv)%elem_of_unique_levels%list_elem_of_fmap.
      pose proof (contributions_pos g Hs) as Hc. rewrite Forall_forall in Hc. by apply Hc.
    + intros kv Hkv. right. apply elem_of_unique_levels, list_elem_of_fmap. eauto.
  - assert (sum_by (at_stake (Player.id p)) (pot_layers g) = 0) as ->.
    { rewrite (sum_by_ext _ (λ _, 0)); [by rewrite sum_by_const|].
      intros l (level & _ & E)%elem_of_layers_from. unfold at_stake. case_decide as Hin; [|done].
      exfalso. rewrite E in Hin. apply list_elem_of_fmap in Hin as ([j v] & Ej & [_ Hin]%list_elem_of_filter).
      cbn in Ej. subst j. fold m in Hin. rewrite Em in Hin.
      apply list_elem_of_filter in Hin as [Hv Hin]. cbn in Hv.
      assert (v = Z.max 0 (Player.total_bet_this_hand p)); [|lia].
      assert ((Player.id p, Z.max 0 (Player.total_bet_this_hand p)) ∈ ids) as Hin'
        by (apply list_elem_of_fmap; eauto).
      pose proof (elem_dict_get _ _ _ Nids Hin). pose proof (elem_dict_get _ _ _ Nids Hin').
      congruence. }
    unfold stake_limit. apply sum_by_nonneg. intros q Hq. specialize (Hnn q Hq). cbn in Hnn. lia.
Qed.

(** What the showdown of two or more players does *)
Record settled (g g' : t) (r : showdown_result) : Prop := Settled {
  sd_chips : chips_of g' = chips_of g + awarded g;
  sd_pot : pot g' = pot g - awarded g;
  sd_seated : seated g' ∧ length (players g') = length (players g);
  sd_winners : ∃ phs, hands_ok g phs ∧
    sr_winners r = (determine_winner_ids (hands_map phs) (showdown_ids g)).1;
  sd_paid : sum_by po_winnings (sr_results r) = awarded g;
  sd_bound : Forall (λ x, ∃ p, p ∈ players g ∧ Player.id p = po_player_id x ∧
                          po_winnings x ≤ stake_limit g p) (sr_results r);
  sd_stacks : Forall (λ p, 0 ≤ Player.chips p) (players g') }.

Lemma won_bound g phs a i w :
  hand_ok g → hands_ok g phs →
  award_layers (hands_map phs) (showdown_ids g) 0 (pot_layers g) (Award [] 0 []) = Ok a →
  NoDup (aw_winnings a).*1 →
  (∀ i, i ∈ (aw_winnings a).*1 → i ∈ showdown_ids g) → (i, w) ∈ aw_winnings a →
  ∃ p, p ∈ players g ∧ Player.id p = i ∧ w ≤ stake_limit g p.
Proof.
  intros Hok Hh Ea Na Ia Hin.
  assert (i ∈ showdown_ids g) as (p & -> & Hp)%list_elem_of_fmap.
  { apply Ia, list_elem_of_fmap. by exists (i, w). }
  exists p. split_and!; [by apply remaining_in|done|].
  etrans; [|apply stake_of; [done|by apply remaining_in]].
  pose proof (award_layers_bound (hands_map phs) (showdown_ids g) (Player.id p) 0 _ _ _
    (layers_from_nonneg _ _ _) Ea) as B.
  unfold dict_get_default in B. rewrite (elem_dict_get _ _ _ Na Hin) in B. apply B.
  intros ids j. assert (∀ i h, dict_get i (hands_map phs) = Some h → well_formed h) as Hwf.
  { intros k h (q & _ & _ & [_ W])%(ho_get _ _ Hh). done. }
  pose proof (determine_winner_ids_inv (hands_map phs) Hwf ids) as Hinv.
  destruct (determine_winner_ids _ ids) as [ws [b|]]; cbn [fst snd winners_inv] in *.
  - destruct Hinv as (_ & _ & _ & ->). by intros [_ ?]%list_elem_of_filter.
  - destruct Hinv as [-> _]. by intros []%elem_of_nil.
Qed.

Lemma showdown_many_ok g :
  hand_ok g → length (community_cards g) = 5%nat →
  ∃ r g', showdown_many (remaining_players g) g = (Ok r, g') ∧ settled g g' r.
Proof.
  intros Hok Hb. destruct (hands_ok_intro g Hok Hb) as (phs & Hh).
  pose proof (ok_seated _ Hok) as Hs.
  assert (∀ i h, dict_get i (hands_map phs) = Some h → well_formed h) as Hwf.
  { intros i h (p & _ & _ & [_ W])%(ho_get _ _ Hh). done. }
  assert (∀ i, i ∈ showdown_ids g → ∃ h, dict_get i (hands_map phs) = Some h) as Hex.
  { intros i Hi. rewrite <- (ho_keys _ _ Hh) in Hi.
    destruct (dict_get i (hands_map phs)) as [h|] eqn:E; [eauto|].
    by apply dict_get_None in E. }
  destruct (award_layers_ok (hands_map phs) (showdown_ids g) Hwf Hex 0 (pot_layers g)
    (Award [] 0 [])) as (a & Ea & Sa & Ta & Ia & Na); [apply layers_from_nonneg|].
  specialize (Na (NoDup_nil_2)).
  assert (∀ i, i ∈ (aw_winnings a).*1 → i ∈ showdown_ids g) as Iall
    by (intros i [[]%elem_of_nil|]%Ia; done).
  cbn in Sa, Ta. fold (awarded g) in Ta, Sa. rewrite Z.add_0_l in Sa, Ta.
  unfold showdown_many. run_monad. rewrite (ho_eval _ _ Hh).
  fold (showdown_ids g) (pot_layers g). rewrite Ea.
  match goal with |- context [pay_out ?m ?w ?h] => set (g1 := h) end.
  assert (Forall (λ kv : nat * Z, (kv.1 < length (players g1))%nat) (sorted_items (aw_winnings a)))
    as Hw.
  { unfold sorted_items, sort_asc_by. rewrite sort_with_Permutation. apply Forall_forall.
    intros [i w] Hin. assert (i ∈ (aw_winnings a).*1) as Hi
      by (apply list_elem_of_fmap; by exists (i, w)).
    apply Ia in Hi as [[]%elem_of_nil|(p & -> & Hp)%list_elem_of_fmap].
    apply remaining_in, list_elem_of_lookup in Hp as [j Hj]. cbn. rewrite (Hs _ _ Hj).
    by eapply lookup_lt_Some. }
  destruct (pay_out_ok (hands_map phs) (sorted_items (aw_winnings a)) g1 Hs Hw)
    as (rs & ps & Ep & Sp & Lp & Sd & Rp).
  assert (Forall (λ p, 0 ≤ Player.chips p) ps) as Hst.
  { change ps with (players (g1 <| players := ps |>)).
    replace (g1 <| players := ps |>)
      with (pay_out (hands_map phs) (sorted_items (aw_winnings a)) g1).2 by (by rewrite Ep).
    apply pay_out_stacks.
    - unfold sorted_items, sort_asc_by. rewrite sort_with_Permutation.
      eapply award_layers_nonneg; [apply layers_from_nonneg| |exact Ea]. constructor.
    - change (players g1) with (players g). eapply Forall_impl; [apply Hok|]. by intros p [[]]. }
  rewrite Ep. cbv iota beta.
  unfold record_showdowns.
  match goal with |- context [if_hand_recorded ?f ?h] =>
    destruct (if_hand_recorded_frame f h) as [d ->] end.
  eexists _, _. split; [reflexivity|].
  assert (paid_out (sorted_items (aw_winnings a)) = awarded g) as Si.
  { rewrite <- Sa. apply sum_by_Permutation. unfold sorted_items, sort_asc_by.
    apply sort_with_Permutation. }
  pose proof (awarded_range g Hok) as Hr.
  split.
  - transitivity (sum_by Player.chips ps); [reflexivity|]. rewrite Sp, Si. reflexivity.
  - transitivity (Z.max 0 (pot g - aw_total a)); [reflexivity|]. rewrite Ta. lia.
  - split; [exact Sd | exact Lp].
  - exists phs. split; [done|]. rewrite <- (ho_keys _ _ Hh). reflexivity.
  - cbn [sr_results]. rewrite <- Si, <- Rp, sum_by_fmap. reflexivity.
  - cbn [sr_results]. apply Forall_forall. intros x Hx.
    apply (won_bound g phs a); [done..|]. rewrite <- (sort_with_Permutation
      (λ x y : nat * Z, Z.of_nat x.1 <=? Z.of_nat y.1)).
    change ((po_player_id x, po_winnings x) ∈ sorted_items (aw_winnings a)). rewrite <- Rp.
    apply list_elem_of_fmap. eauto.
  - exact Hst.
Qed.

Lemma still_in_indices g : length (indices_where in_hand (players g)) = still_in g.
Proof.
  rewrite indices_where_length. unfold still_in.
  induction (players g) as [|p l IH]; [done|]. rewrite !filter_cons.
  destruct (in_hand p); [rewrite !decide_True by done | rewrite !decide_False by auto];
    simpl; auto.
Qed.

Lemma remaining_length g : length (remaining_players g) = still_in g.
Proof. done. Qed.

Lemma conduct_showdown_many g :
  (2 ≤ still_in g)%nat → conduct_showdown g = showdown_many (remaining_players g) g.
Proof.
  intros H. unfold conduct_showdown. run_monad. rewrite <- still_in_indices in H.
  destruct (indices_where in_hand (players g)) as [|i [|j l]]; simpl in H; try lia. done.
Qed.

Lemma showdown_board g :
  hand_ok g → current_phase g = SHOWDOWN → (2 ≤ still_in g)%nat →
  length (community_cards g) = 5%nat.
Proof.
  intros Hok Hp Hn. pose proof (ok_board _ Hok) as Hb. unfold board_ok in Hb. rewrite Hp in Hb. lia.
Qed.

Lemma conduct_showdown_settled g :
  hand_ok g → current_phase g = SHOWDOWN → (2 ≤ still_in g)%nat →
  ∃ r g', conduct_showdown g = (Ok r, g') ∧ settled g g' r.
Proof.
  intros Hok Hp Hn. rewrite conduct_showdown_many by done.
  apply showdown_many_ok; [done|by apply showdown_board].
Qed.

(** Somebody still in the hand has put in as much as anybody. *)
Definition top_contributor_in (g : t) : Prop :=
  ∃ p, p ∈ remaining_players g ∧
       Forall (λ q, Player.total_bet_this_hand q ≤ Player.total_bet_this_hand p) (players g).

Lemma awarded_all g : hand_ok g → top_contributor_in g → awarded g = pot g.
Proof.
  intros Hok (p & Hp & Hmax). pose proof (ok_seated _ Hok) as Hs.
  assert (Forall (λ q, 0 ≤ Player.total_bet_this_hand q) (players g)) as Hnn.
  { eapply Forall_impl; [apply Hok|]. intros q [[]]. lia. }
  assert (paid_out (contributions (players g)) = pot g) as Es.
  { rewrite (ok_pot _ Hok). by apply contributions_sum. }
  rewrite <- Es, <- pot_layers_sum by (by apply contributions_pos).
  unfold awarded. apply sum_by_ext. apply Forall_forall.
  destruct (decide (0 < Player.total_bet_this_hand p)) as [Hpos|Hz].
  - apply (payable_all _ _ (Player.id p) (Player.total_bet_this_hand p)).
    + rewrite contributions_eq by done. apply list_elem_of_filter. split; [done|].
      apply list_elem_of_fmap. exists p. split; [|by apply remaining_in].
      by rewrite Z.max_r by lia.
    + apply list_elem_of_fmap. eauto.
    + rewrite contributions_eq by done. apply Forall_forall.
      intros kv [_ (q & -> & Hq)%list_elem_of_fmap]%list_elem_of_filter. cbn.
      rewrite Forall_forall in Hmax, Hnn. specialize (Hmax q Hq). specialize (Hnn q Hq). lia.
  - assert (contributions (players g) = []) as E.
    { rewrite contributions_eq by done. destruct (filter _ _) as [|kv m] eqn:F; [done|].
      assert (kv ∈ kv :: m) as Hkv by (by left). rewrite <- F in Hkv.
      apply list_elem_of_filter in Hkv as [Hk (q & -> & Hq)%list_elem_of_fmap]. cbn in Hk.
      rewrite Forall_forall in Hmax. specialize (Hmax q Hq). lia. }
    unfold pot_layers. rewrite E. by apply Forall_forall; intros l []%elem_of_nil.
Qed.

(** ** Theorems *)

(** The layers of the pot are made of exactly what the players put in. *)
Theorem build_pot_layers_sum g :
  hand_ok g → sum_by ly_amount (build_pot_layers (contributions (players g))) = pot g.
Proof.
  intros Hok. rewrite pot_layers_sum by (by apply contributions_pos, Hok).
  rewrite (ok_pot _ Hok). apply contributions_sum; [apply Hok|].
  eapply Forall_impl; [apply Hok|]. intros q [[]]. lia.
Qed.

(** C2: a showdown of two or more players never raises, and chips and pot
    together stay what they were: what leaves the pot is what the results list
    as winnings.  The pot is emptied when somebody still in the hand has put in
    as much as anybody; nothing but a folded player's unmatched chips can stay. *)
Theorem conduct_showdown_conserves g :
  hand_ok g → current_phase g = SHOWDOWN → (2 ≤ still_in g)%nat →
  ∃ r g', conduct_showdown g = (Ok r, g') ∧
    chips_of g' + pot g' = chips_of g + pot g ∧ 0 ≤ pot g' ∧
    sum_by po_winnings (sr_results r) = pot g - pot g' ∧
    (top_contributor_in g → pot g' = 0).
Proof.
  intros Hok Hp Hn. destruct (conduct_showdown_settled g Hok Hp Hn) as (r & g' & E & [C P _ _ W _ _]).
  pose proof (awarded_range g Hok). exists r, g'. split_and!; [done|lia|lia|lia|].
  intros Ht. pose proof (awarded_all g Hok Ht). lia.
Qed.

(** [p]'s hand is at least as good as every other hand of the showdown. *)
Definition best_hand_in (g : t) (p : player) : Prop :=
  ∃ h, evaluate_hand (Player.hole_cards p) (community_cards g) = Ok h ∧
    ∀ q, q ∈ remaining_players g →
      ∃ hq, evaluate_hand (Player.hole_cards q) (community_cards g) = Ok hq ∧
            compare_hands hq h ≤ 0.

(** Who the best of the eligible players are *)
Lemma winners_best g phs ids i :
  hands_ok g phs → ids `sublist_of` showdown_ids g → ids ≠ [] →
  i ∈ (determine_winner_ids (hands_map phs) ids).1 ↔
  i ∈ ids ∧ ∃ h, dict_get i (hands_map phs) = Some h ∧
    ∀ j hj, j ∈ ids → dict_get j (hands_map phs) = Some hj → compare_hands hj h ≤ 0.
Proof.
  intros Hh Hsub Hne.
  assert (∀ i h, dict_get i (hands_map phs) = Some h → well_formed h) as Hwf.
  { intros j h (p & _ & _ & [_ W])%(ho_get _ _ Hh). done. }
  assert (∀ j, j ∈ ids → ∃ h, dict_get j (hands_map phs) = Some h) as Hex.
  { intros j Hj. assert (j ∈ (hands_map phs).*1) as H.
    { rewrite (ho_keys _ _ Hh). by eapply elem_of_submseteq; [|apply sublist_submseteq]. }
    destruct (dict_get j (hands_map phs)) as [h|] eqn:E; [eauto | by apply dict_get_None in E]. }
  pose proof (determine_winner_ids_inv (hands_map phs) Hwf ids) as Hinv.
  destruct (determine_winner_ids (hands_map phs) ids) as [ws [b|]]; cbn [fst snd winners_inv] in *.
  2: { destruct Hinv as [_ Hn]. destruct ids as [|j ids]; [done|]. rewrite Forall_cons in Hn.
       destruct (Hex j ltac:(by left)) as [h E]. destruct Hn as [Hn _]. congruence. }
  destruct Hinv as (Wb & Hm & Hne' & Ews). rewrite Forall_forall in Hm. split.
  - rewrite Ews. intros [Hb Hi]%list_elem_of_filter. split; [done|].
    unfold is_best in Hb. destruct (dict_get i (hands_map phs)) as [h|] eqn:E; [|done].
    exists h. split; [done|]. intros j hj Hj Ej. apply Z.eqb_eq in Hb.
    apply compare_hands_zero in Hb as [R K]; [|eauto|done].
    rewrite (compare_hands_outcome hj h b) by (unfold outcome; congruence). by apply (Hm j Hj).
  - intros (Hi & h & E & Hbest). rewrite Ews. apply list_elem_of_filter. split; [|done].
    unfold is_best. rewrite E. apply Z.eqb_eq.
    destruct ws as [|j ws]; [done|]. assert (j ∈ j :: ws) as Hj by (by left).
    rewrite Ews in Hj. apply list_elem_of_filter in Hj as [Hb Hj]. unfold is_best in Hb.
    destruct (dict_get j (hands_map phs)) as [hj|] eqn:Ej; [|done]. apply Z.eqb_eq in Hb.
    apply compare_hands_zero in Hb as [R K]; [|eauto|done].
    pose proof (Hbest j hj Hj Ej) as H1. pose proof (Hm i Hi h E) as H2.
    rewrite <- (compare_hands_outcome h hj b) in H2 |- * by (unfold outcome; congruence).
    rewrite compare_hands_antisym_l in H1. lia.
Qed.

(** C3: the winners a showdown announces are exactly the remaining players
    whose hand no remaining player's hand beats. *)
Theorem conduct_showdown_winners g :
  hand_ok g → current_phase g = SHOWDOWN → (2 ≤ still_in g)%nat →
  ∃ r g', conduct_showdown g = (Ok r, g') ∧
    ∀ i, i ∈ sr_winners r ↔
         ∃ p, p ∈ remaining_players g ∧ Player.id p = i ∧ best_hand_in g p.
Proof.
  intros Hok Hp Hn.
  destruct (conduct_showdown_settled g Hok Hp Hn) as (r & g' & E & [_ _ _ (phs & Hh & Ew) _ _ _]).
  exists r, g'. split; [done|]. intros i. rewrite Ew, (winners_best g phs); [|done|done|].
  2: { intros F. apply (f_equal length) in F. unfold showdown_ids in F.
       rewrite length_fmap, remaining_length in F. simpl in F. lia. }
  assert (∀ q, q ∈ remaining_players g → ∃ hq, holds g q hq) as Hex.
  { intros q Hq. assert (Player.id q ∈ (hands_map phs).*1) as H.
    { rewrite (ho_keys _ _ Hh). apply list_elem_of_fmap. eauto. }
    destruct (dict_get (Player.id q) (hands_map phs)) as [h|] eqn:D; [|by apply dict_get_None in D].
    apply (ho_get _ _ Hh) in D as (q' & Hq' & Eid & Hhold).
    assert (q' = q) as ->; [|eauto].
    apply remaining_in, list_elem_of_lookup in Hq as [a Ha], Hq' as [b Hb].
    pose proof (ok_seated _ Hok a q Ha). pose proof (ok_seated _ Hok b q' Hb). congruence. }
  split.
  - intros (_ & h & D & Hb). apply (ho_get _ _ Hh) in D as (p & Hpr & Eid & [Ev W]).
    exists p. split_and!; [done|done|]. exists h. split; [done|]. intros q Hq.
    destruct (Hex q Hq) as [hq [Evq Wq]]. exists hq. split; [done|].
    apply (Hb (Player.id q)).
    + apply list_elem_of_fmap. eauto.
    + apply (ho_get _ _ Hh). by exists q.
  - intros (p & Hpr & Eid & h & Ev & Hb). split; [apply list_elem_of_fmap; eauto|].
    destruct (Hex p Hpr) as [hp [Evp Wp]]. rewrite Ev in Evp. injection Evp as <-.
    exists h. split; [apply (ho_get _ _ Hh); by exists p|].
    intros j hj _ (q & Hq & _ & [Evq Wq])%(ho_get _ _ Hh).
    destruct (Hb q Hq) as (hq & Evq' & Hle). rewrite Evq in Evq'. by injection Evq' as <-.
Qed.

(** With one player left the showdown gives that player the whole pot; it
    does not take it out of the pot, which the next hand sets to zero. *)
Theorem conduct_showdown_last_player g i p :
  indices_where in_hand (players g) = [i] → players g !! i = Some p →
  ∃ r g', conduct_showdown g = (Ok r, g') ∧ sr_winners r = [Player.id p] ∧
    players g' = <[i := p <| Player.chips := Player.chips p + pot g |>]> (players g) ∧
    pot g' = pot g.
Proof.
  intros E Hp. unfold conduct_showdown. run_monad. rewrite E. unfold nth_item. rewrite Hp.
  unfold showdown_single. run_monad. eexists _, _. split; [reflexivity|]. split_and!; reflexivity.
Qed.

(** C4: nobody wins from another player more than both have put in: a payout is
    at most the sum over all players of the smaller of the two contributions, so
    a short all-in wins no side pot. *)
Theorem conduct_showdown_bound g :
  hand_ok g → current_phase g = SHOWDOWN → (2 ≤ still_in g)%nat →
  ∃ r g', conduct_showdown g = (Ok r, g') ∧
    Forall (λ x, ∃ p, p ∈ players g ∧ Player.id p = po_player_id x ∧
      po_winnings x ≤ sum_by (λ q, Z.min (Player.total_bet_this_hand q)
                                         (Player.total_bet_this_hand p)) (players g))
      (sr_results r).
Proof.
  intros Hok Hp Hn. destruct (conduct_showdown_settled g Hok Hp Hn) as (r & g' & E & S).
  exists r, g'. split; [done | apply (sd_bound _ _ _ S)].
Qed.
