(* ===== verification/HandHistory.v ===== *)
(** * The history of a hand

    What the engine writes to the database while a hand is played is what the queries
    answer: its players, the accepted actions in their order, the board of every street
    and, after a showdown, the cards that were shown and what they won. *)
From stdpp Require Import strings sorting.
From S2P Require Import Prelude Py Json JsonProps GameModels PlayerModels Evaluator GameHistory.
From S2P Require Import HistoryProps Game Showdown.
From S2P Require Import GameProps HandInvariant StartHand HandProps ShowdownProps.
Import PokerGame.

(** ** What is played *)

(** The calls an interface makes between the start of a hand and its showdown *)
Inductive call := Act (player_id : nat) (action : pystr) (amount : Z) | Next.

(** An accepted action, as the table of actions describes it *)
Record deed := Deed {
  de_phase : pystr; de_player : nat; de_action : pystr; de_amount : Z; de_pot : Z }.

(** The amount that is noted: what was asked for, whatever was paid; of a call less what
    the player is ahead of the bet to match, which is nothing unless somebody raised by a
    negative amount. *)
Definition ahead (i : nat) (g : t) : Z :=
  match get_player i g with
  | Some p => Z.max 0 (Player.current_bet p - current_bet g)
  | None => 0
  end.
Definition noted (i : nat) (action : pystr) (amount : Z) (g : t) : Z :=
  if bool_decide (action = u "raise") || bool_decide (action = u "all_in") then amount
  else if bool_decide (action = u "call") then amount - ahead i g
  else 0.

Definition obey (c : call) (g : t) : list deed * t :=
  match c with
  | Act i action amount =>
      let '(b, g') := process_player_action i action amount g in
      (if b then [Deed (phase_value (current_phase g)) i action (noted i action amount g) (pot g')]
       else [], g')
  | Next => ([], (advance_to_next_phase g).2)
  end.

Fixpoint play (cs : list call) (g : t) : list deed * t :=
  match cs with
  | [] => ([], g)
  | c :: cs => let '(l, g) := obey c g in
               let '(l', g) := play cs g in (l ++ l', g)
  end.

(** The streets with cards, and how many are on the board *)
Definition streets : list (pystr * nat) := [(u "flop", 3%nat); (u "turn", 4%nat); (u "river", 5%nat)].

(** What was on the board on every street so far *)
Definition boards (cs : list card) : list (pystr * list pystr) :=
  (λ s, (s.1, Card.str <$> take s.2 cs)) <$> filter (λ s, (s.2 ≤ length cs)%nat) streets.

(** ** The rows of a hand *)

Definition deed_of (r : Action.t) : deed :=
  Deed (Action.phase r) (Action.player_id r) (Action.action_type r) (Action.amount r)
    (Action.pot_after r).
Definition board_row (r : CommunityCards.t) : pystr * pystr :=
  (CommunityCards.phase r, CommunityCards.cards r).

Record chronicle (i : nat) (row : Hand.t) (deeds : list deed) (g : t) : Prop := Chronicle {
  ch_db : db_ok (db g);
  ch_hand : current_hand_id g = Some i;
  ch_row : filter (λ r, Hand.hand_id r = i) (GameHistoryDB.hands (db g)) = [row];
  ch_actions : deed_of <$> filter (λ r, Action.hand_id r = i) (GameHistoryDB.actions (db g))
               = deeds;
  ch_cards : board_row <$> filter (λ r, CommunityCards.hand_id r = i)
                             (GameHistoryDB.community_cards (db g))
             = prod_map id GameHistoryDB.dumps_strs <$> boards (community_cards g);
  ch_shown : filter (λ r, ShowdownResult.hand_id r = i) (GameHistoryDB.showdown_results (db g))
             = [] }.

Lemma chronicle_next i row ds g :
  chronicle i row ds g → (i < GameHistoryDB.next_hand_id (db g))%nat.
Proof.
  intros [[H _ _ _ _] _ E _ _ _]. assert (row ∈ [row]) as Hr by by left. rewrite <- E in Hr.
  apply list_elem_of_filter in Hr as [<- Hr]. rewrite Forall_forall in H. by destruct (H row Hr).
Qed.

(** The dictionary the cards of the streets are read into *)
Lemma community_dict_boards rows bs acc :
  board_row <$> rows = prod_map id GameHistoryDB.dumps_strs <$> bs →
  NoDup (acc.*1 ++ bs.*1) →
  GameHistoryDB.community_dict rows acc = Ok (acc ++ (prod_map id strs_json <$> bs)).
Proof.
  revert bs acc. induction rows as [|r rows IH]; intros [|[ph cs] bs] acc E N; try done.
  { by rewrite app_nil_r. }
  rewrite !fmap_cons in E. injection E as Ep Ec E. cbn [board_row prod_map fst snd id] in Ep, Ec.
  cbn [GameHistoryDB.community_dict]. rewrite Ec, loads_strs. cbn [mbind result_bind].
  assert (ph ∉ acc.*1) as Hn.
  { apply NoDup_app in N as (_ & N & _). intros Hp. apply (N ph Hp). by left. }
  rewrite Ep, dict_set_new by done. rewrite (IH bs); [|done|].
  - by rewrite <- (assoc_L (++)).
  - rewrite fmap_app, <- (assoc_L (++)). exact N.
Qed.

Lemma boards_phases cs : NoDup (boards cs).*1.
Proof.
  unfold boards. rewrite <- list_fmap_compose. unfold streets. rewrite !filter_cons, filter_nil.
  repeat case_decide; apply (bool_decide_unpack _); vm_compute; done.
Qed.

(** What the database answers about a hand with these rows *)
Lemma hand_answer i row bs shown d :
  db_ok d → filter (λ r, Hand.hand_id r = i) (GameHistoryDB.hands d) = [row] →
  board_row <$> filter (λ r, CommunityCards.hand_id r = i) (GameHistoryDB.community_cards d)
    = prod_map id GameHistoryDB.dumps_strs <$> bs → NoDup bs.*1 →
  map_result GameHistoryDB.load_hole_cards
    (filter (λ r, ShowdownResult.hand_id r = i) (GameHistoryDB.showdown_results d)) = Ok shown →
  ∃ h, GameHistoryDB.get_hand_history i d = Ok (Some h) ∧
    GameHistoryDB.hh_hand h = row ∧
    loads (Hand.player_ids row) = Ok (GameHistoryDB.hh_player_ids h) ∧
    GameHistoryDB.hh_actions h = filter (λ r, Action.hand_id r = i) (GameHistoryDB.actions d) ∧
    GameHistoryDB.hh_community_cards h = prod_map id strs_json <$> bs ∧
    GameHistoryDB.hh_showdown_results h = shown.
Proof.
  intros D R C N S. unfold GameHistoryDB.get_hand_history. rewrite R, S.
  assert (∃ l, Hand.player_ids row = GameHistoryDB.dumps_ids l) as [l El].
  { assert (row ∈ [row]) as Hr by by left. rewrite <- R in Hr.
    apply list_elem_of_filter in Hr as [_ Hr]. pose proof (dk_hands _ D) as H.
    rewrite Forall_forall in H. by destruct (H row Hr). }
  rewrite El, loads_ids. cbn [mbind result_bind].
  rewrite (community_dict_boards _ _ [] C) by done.
  eexists. split; [reflexivity|].
  cbn [GameHistoryDB.hh_hand GameHistoryDB.hh_player_ids GameHistoryDB.hh_actions
       GameHistoryDB.hh_community_cards GameHistoryDB.hh_showdown_results].
  by rewrite actions_of_hand_eq.
Qed.

Lemma chronicle_answer i row ds g :
  chronicle i row ds g →
  ∃ h, GameHistoryDB.get_hand_history i (db g) = Ok (Some h) ∧
    GameHistoryDB.hh_hand h = row ∧
    loads (Hand.player_ids row) = Ok (GameHistoryDB.hh_player_ids h) ∧
    deed_of <$> GameHistoryDB.hh_actions h = ds ∧
    GameHistoryDB.hh_community_cards h = prod_map id strs_json <$> boards (community_cards g) ∧
    GameHistoryDB.hh_showdown_results h = [].
Proof.
  intros [D _ R A C S].
  destruct (hand_answer i row _ [] _ D R C (boards_phases _)) as (h & E & Hr & Hp & Ha & Hb & Hs).
  { by rewrite S. }
  exists h. by rewrite Ha.
Qed.

(** ** What an operation writes *)

(** The part of the game that the history depends on *)
Definition written (g : t) : option nat * GameHistoryDB.t := (current_hand_id g, db g).

Lemma chronicle_frame i row ds g g' :
  written g' = written g → community_cards g' = community_cards g →
  chronicle i row ds g → chronicle i row ds g'.
Proof. intros [= Eh Ed] Ec []. by split; rewrite ?Ed, ?Eh, ?Ec. Qed.

Lemma filter_snoc_yes {A} (P : A → Prop) `{∀ x, base.Decision (P x)} l x :
  P x → filter P (l ++ [x]) = filter P l ++ [x].
Proof. intros Hx. by rewrite filter_app, filter_cons, decide_True by done. Qed.

Lemma filter_filter_keep {A} (P Q : A → Prop) `{∀ x, base.Decision (P x)}
    `{∀ x, base.Decision (Q x)} (l : list A) :
  (∀ x, x ∈ l → P x → Q x) → filter P (filter Q l) = filter P l.
Proof.
  induction l as [|x l IH]; intros HPQ; [done|]. specialize (IH ltac:(set_solver)).
  specialize (HPQ x ltac:(by left)). rewrite !filter_cons.
  destruct (decide (Q x)); rewrite ?filter_cons, IH; [done|].
  by rewrite decide_False by naive_solver.
Qed.

Lemma chronicle_deed i row ds g g' ph p a x y :
  current_hand_id g' = current_hand_id g → community_cards g' = community_cards g →
  db g' = GameHistoryDB.record_action i ph p a x y (db g) →
  chronicle i row ds g → chronicle i row (ds ++ [Deed ph p a x y]) g'.
Proof.
  intros Eh Ec Ed Hc. pose proof (chronicle_next _ _ _ _ Hc) as Hi. destruct Hc as [D H R A C S].
  split; rewrite ?Ed, ?Eh, ?Ec; try done; [by apply record_action_db_ok|].
  cbn. rewrite filter_snoc_yes, fmap_app by done. by rewrite A.
Qed.

Lemma process_writes i action amount g g' :
  process_player_action i action amount g = (true, g') →
  current_hand_id g' = current_hand_id g ∧ community_cards g' = community_cards g ∧
  (∀ h, current_hand_id g = Some h →
    db g' = GameHistoryDB.record_action h (phase_value (current_phase g)) i action
              (noted i action amount g) (pot g') (db g)).
Proof.
  unfold process_player_action. destruct (negb _); [done|].
  destruct (find_player i g) as [[seat p]|] eqn:F; [|done].
  unfold has_status. case_bool_decide as Ha; cbn [negb]; [|done].
  destruct (execute_action _ _ _ _ _ _) as [[g1 d]|] eqn:X; [|done]. cbv zeta.
  pose proof (find_player_Some _ _ _ _ F) as [Hp _].
  destruct (execute_action_effect _ _ _ _ Hp Ha _ _ _ _ X) as [p' A].
  pose proof (acted_pays _ _ _ _ _ _ _ A) as P. pose proof (acted_hand _ _ _ _ _ _ _ A) as [_ Ecm Eph _ _ [_ Eh] _]. pose proof (acted_db _ _ _ _ _ _ _ A) as Ed.
  intros [= <-].
  match goal with |- context [advance_to_next_player ?h] =>
    destruct (advance_to_next_player_frame h) as (k & b & ->) end.
  match goal with |- context [check_betting_round_complete ?h] =>
    destruct (check_betting_round_complete_frame h) as [b' ->] end.
  unfold if_hand_recorded. change (current_hand_id (append_history d g1)) with (current_hand_id g1).
  rewrite Eh. destruct (current_hand_id g) as [h|] eqn:Eg; [|by split_and!].
  split_and!; [done|done|]. intros ? [= <-]. cbn. rewrite Ed, Eph. f_equal.
  unfold recorded_amount, noted, ahead, get_player. rewrite F.
  destruct (_ || _); [done|]. case_bool_decide as Ec; [|done].
  rewrite (pays_players _ _ _ _ _ _ P), list_lookup_insert_eq by (by eapply lookup_lt_Some).
  cbn [default from_option id]. rewrite (pays_current _ _ _ _ _ _ P).
  change (current_bet (append_history d g1)) with (current_bet g1). cbn [fmap option_fmap option_map snd].
  rewrite (acted_bet _ _ _ _ _ _ _ A), Ec. unfold bet_after, payment. action_tests. lia.
Qed.

(** ** The chronicle is kept *)

Lemma written_deal_card g : written (deal_card g).2 = written g.
Proof. unfold deal_card. by destruct (Deck.deal_card (deck g)). Qed.

(** The cards of a street: [n] to the board, and nothing written *)
Lemma street_dealt n g :
  (S n ≤ length (deck g))%nat →
  ∃ c g0 g1 cs, deal_card g = (Ok c, g0) ∧ deal_community n g0 = (Ok tt, g1) ∧
    written g1 = written g ∧ community_cards g1 = community_cards g ++ cs ∧ length cs = n.
Proof.
  intros L. destruct (split_last (deck g)) as (d0 & c & E & Ld); [lia|].
  destruct (deal_community_ok n (g <| deck := d0 |>)) as (d & cs & Ed & _ & Lc); [cbn; lia|].
  exists c, (g <| deck := d0 |>). eexists. exists cs.
  split_and!; [by apply deal_card_ok|exact Ed|done..].
Qed.

Lemma boards_grow cs new ph :
  (ph, length cs, length new) ∈ [(u "flop", 0, 3); (u "turn", 3, 1); (u "river", 4, 1)]%nat →
  boards (cs ++ new) = boards cs ++ [(ph, Card.str <$> (cs ++ new))] ∧ ph ∉ (boards cs).*1.
Proof.
  rewrite !elem_of_cons. intros [[= -> Lc Ln]|[[= -> Lc Ln]|[[= -> Lc Ln]|[]%elem_of_nil]]].
  all: repeat (destruct cs as [|? cs]; try discriminate Lc).
  all: repeat (destruct new as [|? new]; try discriminate Ln).
  all: split; [reflexivity|].
  all: apply (bool_decide_unpack _); vm_compute; done.
Qed.

Lemma record_community_rows i ph l d :
  filter (λ r, CommunityCards.hand_id r = i)
    (GameHistoryDB.community_cards (GameHistoryDB.record_community_cards i ph l d)) =
  filter (λ r, CommunityCards.hand_id r = i)
    (filter (λ r, ¬ (CommunityCards.hand_id r = i ∧ CommunityCards.phase r = ph))
       (GameHistoryDB.community_cards d))
  ++ [CommunityCards.Row i ph (GameHistoryDB.dumps_strs l) (GameHistoryDB.clock d)].
Proof. by rewrite <- filter_snoc_yes. Qed.

Lemma chronicle_board i row ds g g1 cs ph :
  (ph, length (community_cards g), length cs)
    ∈ [(u "flop", 0, 3); (u "turn", 3, 1); (u "river", 4, 1)]%nat →
  written g1 = written g → community_cards g1 = community_cards g ++ cs →
  chronicle i row ds g → chronicle i row ds (record_community ph g1).
Proof.
  intros Hp [= Eh Ed] Ec Hc. pose proof (chronicle_next _ _ _ _ Hc) as Hi.
  destruct Hc as [D H R A C S]. destruct (boards_grow _ _ _ Hp) as [Eb Hn].
  unfold record_community, if_hand_recorded. rewrite Eh, H.
  set (d := GameHistoryDB.record_community_cards i ph (Card.str <$> community_cards g1) (db g1)).
  change (chronicle i row ds (g1 <| db := d |>)). split.
  - change (db_ok d). unfold d. rewrite Ed. by apply record_community_db_ok.
  - change (current_hand_id g1 = Some i). congruence.
  - transitivity (filter (λ r, Hand.hand_id r = i) (GameHistoryDB.hands (db g1))); [done|by rewrite Ed].
  - transitivity (deed_of <$> filter (λ r, Action.hand_id r = i) (GameHistoryDB.actions (db g1)));
      [done|by rewrite Ed].
  - change (board_row <$> filter (λ r, CommunityCards.hand_id r = i) (GameHistoryDB.community_cards d)
      = prod_map id GameHistoryDB.dumps_strs <$> boards (community_cards g1)).
    unfold d. rewrite record_community_rows, Ec, Eb, Ed, !fmap_app, <- C.
    f_equal. f_equal.
    apply filter_filter_keep. intros r Hr Hi' [_ Hph]. apply Hn. rewrite <- Hph.
    assert (board_row r ∈ board_row <$> filter (λ r, CommunityCards.hand_id r = i)
      (GameHistoryDB.community_cards (db g))) as Hin
      by (apply list_elem_of_fmap; exists r; split; [done|by apply list_elem_of_filter]).
    rewrite C in Hin.
    apply list_elem_of_fmap in Hin as ([q l] & [= -> _] & Hin). apply list_elem_of_fmap. by exists (q, l).
  - transitivity (filter (λ r, ShowdownResult.hand_id r = i) (GameHistoryDB.showdown_results (db g1)));
      [done|by rewrite Ed].
Qed.

Lemma deal_flop_chronicle i row ds g :
  chronicle i row ds g → (4 ≤ length (deck g))%nat → length (community_cards g) = 0%nat →
  ∃ g', deal_flop g = (Ok tt, g') ∧ chronicle i row ds g'.
Proof.
  intros Hc Hd Hl. destruct (street_dealt 3 g Hd) as (c & g0 & g1 & cs & E0 & E1 & W & Ec & Lc).
  unfold deal_flop. run_monad. rewrite E0, E1. eexists. split; [done|].
  eapply (chronicle_board i row ds g _ cs); [rewrite Hl, Lc; set_solver|exact W|exact Ec|done].
Qed.

Lemma last_dealt (l cs : list card) : length cs = 1%nat → ∃ c, last (l ++ cs) = Some c.
Proof. destruct cs as [|c [|]]; [done| |done]. rewrite last_snoc. eauto. Qed.

Lemma deal_turn_chronicle i row ds g :
  chronicle i row ds g → (2 ≤ length (deck g))%nat → length (community_cards g) = 3%nat →
  ∃ g', deal_turn g = (Ok tt, g') ∧ chronicle i row ds g'.
Proof.
  intros Hc Hd Hl. destruct (street_dealt 1 g Hd) as (c & g0 & g1 & cs & E0 & E1 & W & Ec & Lc).
  destruct (last_dealt (community_cards g) cs Lc) as [k Hk]. rewrite <- Ec in Hk.
  unfold deal_turn. run_monad. rewrite E0, E1, Hk. eexists. split; [done|].
  eapply (chronicle_board i row ds g _ cs); [rewrite Hl, Lc; set_solver|exact W|exact Ec|done].
Qed.

Lemma deal_river_chronicle i row ds g :
  chronicle i row ds g → (2 ≤ length (deck g))%nat → length (community_cards g) = 4%nat →
  ∃ g', deal_river g = (Ok tt, g') ∧ chronicle i row ds g'.
Proof.
  intros Hc Hd Hl. destruct (street_dealt 1 g Hd) as (c & g0 & g1 & cs & E0 & E1 & W & Ec & Lc).
  destruct (last_dealt (community_cards g) cs Lc) as [k Hk]. rewrite <- Ec in Hk.
  unfold deal_river. run_monad. rewrite E0, E1, Hk. eexists. split; [done|].
  eapply (chronicle_board i row ds g _ cs); [rewrite Hl, Lc; set_solver|exact W|exact Ec|done].
Qed.

Lemma chronicle_new_round i row ds g :
  chronicle i row ds g → chronicle i row ds (start_new_betting_round g).
Proof.
  destruct (start_new_betting_round_frame g) as (k & b & ->). by apply chronicle_frame.
Qed.

Lemma chronicle_phase i row ds g ph :
  chronicle i row ds g → chronicle i row ds (g <| current_phase := ph |>).
Proof. by apply chronicle_frame. Qed.

Lemma advance_chronicle i row ds g :
  hand_ok g → chronicle i row ds g → chronicle i row ds (advance_to_next_phase g).2.
Proof.
  intros [_ _ _ _ Hb Hd] Hc. unfold advance_to_next_phase. run_monad.
  destruct (negb _); [done|]. destruct (_ <=? 1)%nat; [by apply chronicle_phase|].
  unfold board_ok in Hb. destruct (current_phase g); try done; try by apply chronicle_phase.
  - edestruct (deal_flop_chronicle i row ds (g <| current_phase := FLOP |>)) as (g1 & -> & H);
      [by apply chronicle_phase|cbn in *; lia|cbn in *; lia|]. by apply chronicle_new_round.
  - edestruct (deal_turn_chronicle i row ds (g <| current_phase := TURN |>)) as (g1 & -> & H);
      [by apply chronicle_phase|cbn in *; lia|cbn in *; lia|]. by apply chronicle_new_round.
  - edestruct (deal_river_chronicle i row ds (g <| current_phase := RIVER |>)) as (g1 & -> & H);
      [by apply chronicle_phase|cbn in *; lia|cbn in *; lia|]. by apply chronicle_new_round.
Qed.

Lemma obey_chronicle c i row ds g :
  hand_ok g → chronicle i row ds g →
  hand_ok (obey c g).2 ∧ chronicle i row (ds ++ (obey c g).1) (obey c g).2.
Proof.
  intros Hok Hc. destruct c as [k action amount|]; cbn [obey].
  - destruct (process_player_action k action amount g) as [[] g'] eqn:E; cbn [fst snd].
    + split; [by eapply hand_ok_action|]. apply process_writes in E as (Eh & Ec & Ed).
      eapply chronicle_deed; [done|done|by apply Ed, (ch_hand _ _ _ _ Hc)|done].
    + apply process_rejected in E as ->. by rewrite app_nil_r.
  - cbn [fst snd]. rewrite app_nil_r. split; [|by apply advance_chronicle].
    destruct (advance_to_next_phase_cases g Hok) as (b & g' & -> & P). by eapply hand_ok_phase.
Qed.

Lemma play_chronicle cs i row ds g :
  hand_ok g → chronicle i row ds g →
  hand_ok (play cs g).2 ∧ chronicle i row (ds ++ (play cs g).1) (play cs g).2.
Proof.
  revert ds g. induction cs as [|c cs IH]; intros ds g Hok Hc; cbn [play].
  { by rewrite app_nil_r. }
  destruct (obey_chronicle c i row ds g Hok Hc) as [Hok1 Hc1].
  destruct (obey c g) as [l g1]. cbn [fst snd] in *.
  destruct (IH _ _ Hok1 Hc1) as [Hok2 Hc2]. destruct (play cs g1) as [l' g2]. cbn [fst snd] in *.
  by rewrite (assoc_L (++)).
Qed.

(** ** The start of a hand *)

(** The database is in order, and the hand that is written to is one of it. *)
Record recorded (g : t) : Prop := Recorded {
  rc_db : db_ok (db g);
  rc_hand : ∀ i, current_hand_id g = Some i → (i < GameHistoryDB.next_hand_id (db g))%nat }.

Lemma chronicle_recorded i row ds g : chronicle i row ds g → recorded g.
Proof.
  intros Hc. split; [apply Hc|]. intros j Hj. rewrite (ch_hand _ _ _ _ Hc) in Hj.
  injection Hj as <-. by eapply chronicle_next.
Qed.

Lemma recorded_frame g g' : written g' = written g → recorded g → recorded g'.
Proof. intros [= Eh Ed] []. split; rewrite ?Eh, ?Ed; done. Qed.

Definition keeps_books {A} (m : M t A) : Prop := ∀ g, recorded g → recorded (m g).2.

Lemma books_bind {A B} (m : M t A) (f : A → M t B) :
  keeps_books m → (∀ a, keeps_books (f a)) → keeps_books (m ≫= f).
Proof.
  intros Hm Hf g Hg. unfold mbind, M_bind. specialize (Hm g Hg).
  destruct (m g) as [[a|e] g']; [by apply Hf|done].
Qed.
Lemma books_same {A} (m : M t A) : (∀ g, written (m g).2 = written g) → keeps_books m.
Proof. intros H g Hg. eapply recorded_frame; [apply H | exact Hg]. Qed.
Lemma books_get {A} (f : t → M t A) : (∀ g, keeps_books (f g)) → keeps_books (get ≫= f).
Proof. intros H g. by apply H. Qed.
Lemma books_modify f : (∀ g, written (f g) = written g) → keeps_books (modify f).
Proof. intros H. apply books_same. intros g. apply H. Qed.
Lemma books_lift {A} (r : result A) : keeps_books (lift r).
Proof. by apply books_same. Qed.
Lemma books_for_each {A} (l : list A) (f : A → M t ()) :
  (∀ x, keeps_books (f x)) → keeps_books (for_each l f).
Proof.
  intros H. induction l as [|x l IH]; [by apply books_same|]. by apply books_bind.
Qed.

Lemma books_blind ph p a x (amount : t → Z) :
  keeps_books (modify (λ g, if_hand_recorded (λ hand_id,
    GameHistoryDB.record_action hand_id ph p a x (amount g)) g)).
Proof.
  intros g [D H]. unfold modify. cbn [snd]. unfold if_hand_recorded.
  destruct (current_hand_id g) as [i|] eqn:E; [|by split; rewrite ?E].
  split; [by apply record_action_db_ok; [apply H|]|]. intros j Hj. apply H. by rewrite <- E.
Qed.

Ltac books :=
  repeat match goal with
  | |- keeps_books (get ≫= _) => apply books_get; intros ?
  | |- keeps_books (_ ≫= _) => apply books_bind; [|intros ?]
  | |- keeps_books (for_each _ _) => apply books_for_each; intros ?
  | |- keeps_books (lift _) => apply books_lift
  | |- keeps_books (mret _) => by apply books_same
  | |- keeps_books (modify _) => first [apply books_blind | apply books_modify; done]
  | |- keeps_books (if ?b then _ else _) => destruct b
  | |- keeps_books (let '(_, _) := ?b in _) => destruct b
  end.

Lemma books_small_blind i : keeps_books (post_small_blind i).
Proof. unfold post_small_blind. books. Qed.
Lemma books_big_blind i : keeps_books (post_big_blind i).
Proof. unfold post_big_blind. books. Qed.

Lemma books_deal_to i : keeps_books (deal_to i).
Proof.
  unfold deal_to. books. apply books_same, written_deal_card.
Qed.

Lemma written_button g : written (move_dealer_button g) = written g.
Proof. unfold move_dealer_button. by destruct (indices_where _ _). Qed.

Lemma written_first_actor g : written (set_first_actor_preflop g) = written g.
Proof. by destruct (set_first_actor_preflop_frame g) as (i & b & ->). Qed.

Lemma books_post_blinds : keeps_books post_blinds.
Proof. unfold post_blinds. books; [apply books_small_blind | apply books_big_blind]. Qed.

Lemma books_deal_hole_cards : keeps_books deal_hole_cards.
Proof. unfold deal_hole_cards. books. apply books_deal_to. Qed.

Lemma filter_no_row {A} (P : A → Prop) `{∀ x, base.Decision (P x)} (l : list A) :
  Forall (λ x, ¬ P x) l → filter P l = [].
Proof. induction 1 as [|x l Hx _ IH]; [done|]. by rewrite filter_cons, decide_False. Qed.

(** A fresh key has no rows. *)
Lemma fresh_rows {A} (key : A → nat) n (Q : A → Prop) l :
  Forall Q l → (∀ x, Q x → (key x < n)%nat) → filter (λ x, key x = n) l = [].
Proof.
  intros F H. apply filter_no_row. eapply Forall_impl; [exact F|]. intros x Hx%H. cbn. lia.
Qed.

(** The row a hand starts with *)
Record opening_row (g : t) (row : Hand.t) : Prop := OpeningRow {
  or_ids : loads (Hand.player_ids row)
           = Ok (ids_json (Player.id <$> filter (λ p, not_busted p) (players g)));
  or_blinds : Hand.small_blind row = small_blind g ∧ Hand.big_blind row = big_blind g;
  or_dealer : Hand.dealer_button row = dealer_button g;
  or_open : Hand.ended_at row = None }.

Lemma finish_start_chronicle g g' :
  recorded g → seated g' → community_cards g' = [] → finish_start g = (Ok tt, g') →
  ∃ i row, chronicle i row [] g' ∧ opening_row g' row.
Proof.
  intros [D _] Hs Hc E. revert Hs Hc. revert E. unfold finish_start. run_monad.
  destruct (set_first_actor_preflop_frame g) as (k & b & ->). unfold nth_item.
  destruct (players _ !! _) as [dealer|] eqn:Ed; [|done].
  intros [= <-] Hs Hc. destruct D as [H A O C S].
  exists (GameHistoryDB.next_hand_id (db g)),
    (Hand.Row (GameHistoryDB.next_hand_id (db g)) (GameHistoryDB.clock (db g)) (small_blind g)
       (big_blind g) (Player.id dealer)
       (GameHistoryDB.dumps_ids (Player.id <$> filter (λ p, not_busted p) (players g))) None).
  split; [|split; [apply loads_ids|done|exact (Hs _ _ Ed)|done]]. split.
  - by apply start_new_hand_db_ok.
  - done.
  - etrans; [by apply filter_snoc_yes|].
    by rewrite (fresh_rows Hand.hand_id _ _ _ H) by by intros x [].
  - etrans; [apply f_equal, (fresh_rows Action.hand_id _ _ _ A); by intros x []|done].
  - etrans; [apply f_equal, (fresh_rows CommunityCards.hand_id _ _ _ C); by intros x []|].
    by rewrite Hc.
  - apply (fresh_rows ShowdownResult.hand_id _ _ _ S). by intros x [].
Qed.

Lemma start_chronicle shuffle g :
  table_ready g → shuffle Deck.full ≡ₚ Deck.full → (2 ≤ with_chips g)%nat → recorded g →
  ∃ i row g', start_new_hand shuffle g = (Ok tt, g') ∧ hand_started g g' ∧
    chronicle i row [] g' ∧ opening_row g' row.
Proof.
  intros Hr Hsh Hw Hrec. destruct (start_new_hand_ok shuffle g Hr Hsh Hw) as (g' & E & Hst).
  enough (∃ i row, chronicle i row [] g' ∧ opening_row g' row) as (i & row & ? & ?)
    by by exists i, row, g'.
  pose proof E as E'. rewrite start_new_hand_split in E'. cbv zeta in E'.
  assert (recorded (cleared shuffle g)) as Hrec1 by (by apply (recorded_frame g)).
  destruct (_ <? 2)%nat.
  { pose proof (hs_phase _ _ Hst) as P. injection E' as E'. rewrite <- E' in P. done. }
  revert E'. unfold deal_and_record. run_monad.
  set (g1 := move_dealer_button (cleared shuffle g)).
  assert (recorded g1) as H1.
  { apply (recorded_frame (cleared shuffle g)); [apply written_button | exact Hrec1]. }
  pose proof (books_post_blinds g1 H1) as H2. destruct (post_blinds g1) as [[[]|e] g2]; [|done].
  pose proof (books_deal_hole_cards g2 H2) as H3.
  destruct (deal_hole_cards g2) as [[[]|e] g3]; [|done]. cbn [snd] in H3.
  apply (finish_start_chronicle g3 g' H3); [apply (hs_ok _ _ Hst)|].
  pose proof (ok_board _ (hs_ok _ _ Hst)) as Hb. unfold board_ok in Hb.
  rewrite (hs_phase _ _ Hst) in Hb. by apply nil_length_inv.
Qed.

(** ** Theorems on the play *)

(** C9: whatever is played between the start of a hand and its showdown, the database
    answers the hand as it was: the players who took part, every accepted action in its
    order with its phase and the pot after it, the board of every street so far, and no
    cards of a player; what is refused leaves no trace. *)
Theorem history_of_hand shuffle g cs :
  table_ready g → shuffle Deck.full ≡ₚ Deck.full → (2 ≤ with_chips g)%nat → recorded g →
  let g0 := (start_new_hand shuffle g).2 in
  let '(deeds, g') := play cs g0 in
  recorded g' ∧
  ∃ i h, current_hand_id g' = Some i ∧
    GameHistoryDB.get_hand_history i (db g') = Ok (Some h) ∧
    GameHistoryDB.hh_player_ids h
      = ids_json (Player.id <$> filter (λ p, not_busted p) (players g0)) ∧
    deed_of <$> GameHistoryDB.hh_actions h = deeds ∧
    GameHistoryDB.hh_community_cards h = prod_map id strs_json <$> boards (community_cards g') ∧
    GameHistoryDB.hh_showdown_results h = [] ∧ Hand.ended_at (GameHistoryDB.hh_hand h) = None.
Proof.
  intros Hr Hsh Hw Hrec g0.
  destruct (start_chronicle shuffle g Hr Hsh Hw Hrec) as (i & row & g1 & E & Hst & Hc & [Hi _ _ Ho]).
  subst g0. rewrite E. cbn [snd].
  destruct (play_chronicle cs i row [] g1 (hs_ok _ _ Hst) Hc) as [_ Hc'].
  destruct (play cs g1) as [deeds g']. cbn [fst snd] in Hc'. rewrite app_nil_l in Hc'.
  split; [by eapply chronicle_recorded|].
  destruct (chronicle_answer _ _ _ _ Hc') as (h & Eh & Er & Ep & Ea & Eb & Es).
  rewrite Hi in Ep. injection Ep as Ep. exists i, h. rewrite Er. split_and!; try done.
  apply (ch_hand _ _ _ _ Hc').
Qed.

(** ** The showdown *)

(** What a pay-out adds to a stack *)
Lemma pay_out_chips hands ws g k p :
  seated g → NoDup ws.*1 → players g !! k = Some p →
  ∃ q, players (Showdown.pay_out hands ws g).2 !! k = Some q ∧
       Player.chips q = Player.chips p + dict_get_default k 0 ws.
Proof.
  revert g p. induction ws as [|[pid w] ws IH]; intros g p Hs N Hp.
  { exists p. split; [done|]. unfold dict_get_default. cbn. lia. }
  rewrite fmap_cons in N. apply NoDup_cons in N as [N1 N2]. cbn [Showdown.pay_out].
  unfold dict_get_default. cbn [dict_get].
  destruct (find_player pid g) as [[i p0]|] eqn:F.
  - apply find_player_Some in F as [Hp0 Hi]. pose proof (Hs _ _ Hp0) as Hid.
    assert (i = pid) as -> by congruence.
    set (g1 := set_player pid (p0 <| Player.chips ::= λ c, c + w |>) g).
    assert (seated g1) as Hs1.
    { intros j q [(<- & <- & _)|(_ & Hq)]%list_lookup_insert_Some; [done|by apply Hs]. }
    destruct (decide (k = pid)) as [->|Hne].
    + rewrite Hp in Hp0. injection Hp0 as <-.
      destruct (IH g1 (p <| Player.chips ::= λ c, c + w |>) Hs1 N2) as (q & Hq & Ec).
      { apply list_lookup_insert_eq. by eapply lookup_lt_Some. }
      exists q. destruct (Showdown.pay_out hands ws g1) as [rs g2]. split; [exact Hq|].
      unfold dict_get_default in Ec. rewrite (proj2 (dict_get_None pid ws) N1) in Ec.
      cbn in Ec |- *. lia.
    + destruct (IH g1 p Hs1 N2) as (q & Hq & Ec).
      { etrans; [by apply list_lookup_insert_ne|done]. }
      exists q. by destruct (Showdown.pay_out hands ws g1) as [rs g2].
  - destruct (decide (k = pid)) as [->|Hne]; [|by apply IH].
    exfalso. by rewrite (find_player_seated g pid p Hs Hp) in F.
Qed.

Lemma pay_out_frame hands ws g :
  ∃ rs ps, Showdown.pay_out hands ws g = (rs, g <| players := ps |>).
Proof.
  revert g. induction ws as [|[pid w] ws IH]; intros g; [exists [], (players g); by destruct g|].
  cbn [Showdown.pay_out]. destruct (find_player pid g) as [[i p]|]; [|apply IH].
  destruct (IH (set_player i (p <| Player.chips ::= λ c, c + w |>) g)) as (rs & ps & ->). eauto.
Qed.

Lemma dict_get_sorted k ws :
  NoDup ws.*1 → dict_get_default k 0 (Showdown.sorted_items ws) = dict_get_default k 0 ws.
Proof.
  intros N. unfold dict_get_default, Showdown.sorted_items, sort_asc_by.
  match goal with |- context [sort_with ?f ws] => pose proof (sort_with_Permutation f ws) as P;
    set (s := sort_with f ws) in * end.
  assert (NoDup s.*1) as Ns by by rewrite P. f_equal.
  destruct (dict_get k ws) as [v|] eqn:E.
  - apply elem_dict_get; [done|]. rewrite P. by apply dict_get_elem.
  - rewrite dict_get_None in E |- *. by rewrite P.
Qed.

Lemma if_hand_recorded_same f g h :
  written h = written g →
  if_hand_recorded f h = h <| db := db (if_hand_recorded f g) |> ∧
  written (h <| db := db (if_hand_recorded f g) |>) = written (if_hand_recorded f g).
Proof.
  intros [= Eh Ed]. unfold if_hand_recorded, written. rewrite Eh.
  destruct (current_hand_id g) as [i|] eqn:E; (split; [|cbn; congruence]).
  - by rewrite Ed.
  - rewrite <- Ed. by destruct h.
Qed.

(** The showdown of two or more players: who is paid, and what is written *)
Lemma showdown_many_shape g :
  hand_ok g → length (community_cards g) = 5%nat →
  ∃ phs ws r g', Showdown.showdown_many (Showdown.remaining_players g) g = (Ok r, g') ∧
    hands_ok g phs ∧ NoDup ws.*1 ∧
    written g' = written (Showdown.record_showdowns phs ws g) ∧
    community_cards g' = community_cards g ∧
    (∀ k p, players g !! k = Some p →
       ∃ q, players g' !! k = Some q ∧ Player.chips q = Player.chips p + dict_get_default k 0 ws).
Proof.
  intros Hok Hb. destruct (hands_ok_intro g Hok Hb) as (phs & Hh).
  pose proof (ok_seated _ Hok) as Hs.
  destruct (award_layers_ok (Showdown.hands_map phs) (showdown_ids g)) with (idx := 0%nat)
    (layers := pot_layers g) (a := Showdown.Award [] 0 []) as (a & Ea & _ & _ & _ & Na).
  { intros i h (p & _ & _ & [_ W])%(ho_get _ _ Hh). done. }
  { intros i Hi. rewrite <- (ho_keys _ _ Hh) in Hi.
    destruct (dict_get i (Showdown.hands_map phs)) as [h|] eqn:E; [eauto|].
    by apply dict_get_None in E. }
  { apply layers_from_nonneg. }
  specialize (Na NoDup_nil_2).
  unfold Showdown.showdown_many. run_monad. rewrite (ho_eval _ _ Hh).
  fold (showdown_ids g) (pot_layers g). rewrite Ea.
  match goal with |- context [Showdown.pay_out ?m ?w ?h] => set (g1 := h) end.
  pose proof (pay_out_chips (Showdown.hands_map phs) (Showdown.sorted_items (Showdown.aw_winnings a)) g1)
    as Hpay.
  assert (∃ rs ps, Showdown.pay_out (Showdown.hands_map phs)
    (Showdown.sorted_items (Showdown.aw_winnings a)) g1 = (rs, g1 <| players := ps |>)) as (rs & ps & Ep)
    by apply pay_out_frame.
  rewrite Ep in Hpay |- *. cbv iota beta.
  exists phs, (Showdown.aw_winnings a). eexists _, _. split; [reflexivity|].
  split; [done|]. split; [done|].
  unfold Showdown.record_showdowns.
  match goal with |- context [if_hand_recorded ?f ?h] =>
    destruct (if_hand_recorded_same f g h) as [-> W]; [done|] end.
  split_and!; [exact W|done|].
  - intros k p Hp. destruct (Hpay k p Hs) as (q & Hq & Ec); [|done|].
    { unfold Showdown.sorted_items, sort_asc_by. by rewrite sort_with_Permutation. }
    rewrite dict_get_sorted in Ec by done. eauto.
Qed.

(** *** The rows of the showdown *)

Notation of_hand i := (λ r, ShowdownResult.hand_id r = i).

Definition shown_row (r : ShowdownResult.t) : nat * option pystr * option pystr * Z :=
  (ShowdownResult.player_id r, ShowdownResult.hole_cards r, ShowdownResult.hand_rank r,
   ShowdownResult.winnings r).

Definition shown_of (ws : list (nat * Z)) (ph : player * hand_result) :
    nat * option pystr * option pystr * Z :=
  (Player.id ph.1, Some (GameHistoryDB.dumps_strs (Card.str <$> Player.hole_cards ph.1)),
   Some (HandResult.str ph.2), dict_get_default (Player.id ph.1) 0 ws).

Notation record_one i ws := (λ d ph,
  GameHistoryDB.record_showdown i (Player.id ph.1) (Some (Card.str <$> Player.hole_cards ph.1))
    (Some (HandResult.str ph.2)) (dict_get_default (Player.id ph.1) 0 ws) d).

Lemma record_showdown_rows i ws ph d :
  Player.hole_cards ph.1 ≠ [] →
  Player.id ph.1 ∉ ShowdownResult.player_id
    <$> filter (of_hand i) (GameHistoryDB.showdown_results d) →
  shown_row <$> filter (of_hand i) (GameHistoryDB.showdown_results (record_one i ws d ph)) =
  (shown_row <$> filter (of_hand i) (GameHistoryDB.showdown_results d)) ++ [shown_of ws ph].
Proof.
  intros Hc Hn.
  transitivity (shown_row <$> filter (of_hand i)
    (filter (λ r, ¬ (ShowdownResult.hand_id r = i ∧ ShowdownResult.player_id r = Player.id ph.1))
       (GameHistoryDB.showdown_results d)
     ++ [ShowdownResult.Row i (Player.id ph.1)
           (Some (GameHistoryDB.dumps_strs (Card.str <$> Player.hole_cards ph.1)))
           (Some (HandResult.str ph.2)) (dict_get_default (Player.id ph.1) 0 ws)
           (GameHistoryDB.clock d)])).
  { unfold GameHistoryDB.record_showdown. by destruct (Player.hole_cards ph.1). }
  rewrite filter_snoc_yes, fmap_app, filter_filter_keep; [done| |done].
  intros r Hr Hi [_ Hp]. apply Hn. rewrite <- Hp. apply list_elem_of_fmap. exists r.
  split; [done|]. by apply list_elem_of_filter.
Qed.

Lemma record_all_rows i ws phs d :
  Forall (λ ph, Player.hole_cards ph.1 ≠ []) phs →
  NoDup ((ShowdownResult.player_id <$> filter (of_hand i) (GameHistoryDB.showdown_results d))
         ++ (Player.id <$> phs.*1)) →
  shown_row <$> filter (of_hand i)
    (GameHistoryDB.showdown_results (foldl (record_one i ws) d phs)) =
  (shown_row <$> filter (of_hand i) (GameHistoryDB.showdown_results d)) ++ (shown_of ws <$> phs).
Proof.
  intros F. revert d. induction F as [|ph phs Hc _ IH]; intros d N; cbn [foldl].
  { by rewrite app_nil_r. }
  assert (Player.id ph.1 ∉ ShowdownResult.player_id
    <$> filter (of_hand i) (GameHistoryDB.showdown_results d)) as Hn.
  { apply NoDup_app in N as (_ & N & _). intros Hp. apply (N _ Hp). by left. }
  pose proof (record_showdown_rows i ws ph d Hc Hn) as E.
  rewrite IH.
  - rewrite E, <- (assoc_L (++)). done.
  - assert (∀ l : list ShowdownResult.t, ShowdownResult.player_id <$> l
      = (λ x : nat * option pystr * option pystr * Z, x.1.1.1) <$> (shown_row <$> l)) as Ep
      by (intros l; by rewrite <- list_fmap_compose).
    rewrite Ep, E, fmap_app, <- Ep, <- (assoc_L (++)). exact N.
Qed.

Lemma record_all_rest i ws phs d :
  (i < GameHistoryDB.next_hand_id d)%nat → db_ok d →
  let d' := foldl (record_one i ws) d phs in
  db_ok d' ∧ GameHistoryDB.next_hand_id d' = GameHistoryDB.next_hand_id d ∧
  GameHistoryDB.hands d' = GameHistoryDB.hands d ∧
  GameHistoryDB.actions d' = GameHistoryDB.actions d ∧
  GameHistoryDB.community_cards d' = GameHistoryDB.community_cards d.
Proof.
  revert d. induction phs as [|ph phs IH]; intros d Hi Hd; [done|]. cbn [foldl].
  destruct (IH (record_one i ws d ph)) as (H1 & H2 & H3 & H4 & H5);
    [done|by apply record_showdown_db_ok|]. by split_and!.
Qed.

(** A row of the showdown as it is answered, and the player who showed *)
Record row_of (g : t) (ws : list (nat * Z)) (x : ShowdownResult.t * option json) (p : player) :
    Prop := RowOf {
  ro_player : ShowdownResult.player_id x.1 = Player.id p;
  ro_cards : x.2 = Some (strs_json (Card.str <$> Player.hole_cards p));
  ro_rank : ∃ h, HandEvaluator.evaluate_hand (Player.hole_cards p) (community_cards g) = Ok h ∧
              ShowdownResult.hand_rank x.1 = Some (HandResult.str h);
  ro_winnings : ShowdownResult.winnings x.1 = dict_get_default (Player.id p) 0 ws }.

Lemma rows_answered g ws rows phs :
  shown_row <$> rows = shown_of ws <$> phs → Forall (λ ph, holds g ph.1 ph.2) phs →
  ∃ shown, map_result GameHistoryDB.load_hole_cards rows = Ok shown ∧
           Forall2 (row_of g ws) shown phs.*1.
Proof.
  intros E F. revert rows E. induction F as [|[p h] phs [Eh _] _ IH]; intros [|r rows] E; try done.
  { by exists []. }
  rewrite !fmap_cons in E. injection E as Ep Ec Er Ew E.
  destruct (IH rows E) as (shown & Es & Hs).
  destruct (dumps_strs_head (Card.str <$> Player.hole_cards p)) as [s Eh'].
  assert (GameHistoryDB.load_hole_cards r
    = Ok (r, Some (strs_json (Card.str <$> Player.hole_cards p)))) as El.
  { unfold GameHistoryDB.load_hole_cards. cbn [fst] in Ec. by rewrite Ec, Eh', <- Eh', loads_strs. }
  eexists (_ :: shown). split.
  - cbn [map_result]. rewrite El. cbn [mbind result_bind]. by rewrite Es.
  - constructor; [|done]. split; cbn in *; eauto.
Qed.

(** *** The answer after the showdown *)

Lemma filter_fmap_key {A} (key : A → nat) (f : A → A) n (l : list A) :
  (∀ x, key (f x) = key x) →
  filter (λ x, key x = n) (f <$> l) = f <$> filter (λ x, key x = n) l.
Proof.
  intros H. induction l as [|x l IH]; [done|]. rewrite fmap_cons, !filter_cons, H, IH.
  by case_decide.
Qed.

Lemma end_hand_rows i row d :
  filter (λ r, Hand.hand_id r = i) (GameHistoryDB.hands d) = [row] →
  filter (λ r, Hand.hand_id r = i) (GameHistoryDB.hands (GameHistoryDB.end_hand i d))
  = [row <| Hand.ended_at := Some (GameHistoryDB.clock d) |>].
Proof.
  intros E. etrans; [apply filter_fmap_key; intros r; by case_bool_decide|].
  rewrite E. cbn. assert (row ∈ [row]) as Hr by by left. rewrite <- E in Hr.
  apply list_elem_of_filter in Hr as [Hr _]. by rewrite bool_decide_eq_true_2.
Qed.

(** A hand decided by a showdown *)
Lemma showdown_chronicle i row ds g :
  hand_ok g → chronicle i row ds g → current_phase g = SHOWDOWN → (2 ≤ still_in g)%nat →
  ∃ r g' h, Showdown.conduct_showdown g = (Ok r, g') ∧ current_hand_id g' = Some i ∧
    GameHistoryDB.get_hand_history i (db g') = Ok (Some h) ∧ recorded g' ∧
    deed_of <$> GameHistoryDB.hh_actions h = ds ∧
    GameHistoryDB.hh_community_cards h = prod_map id strs_json <$> boards (community_cards g) ∧
    is_Some (Hand.ended_at (GameHistoryDB.hh_hand h)) ∧
    ∃ ws, Forall2 (row_of g ws) (GameHistoryDB.hh_showdown_results h) (Showdown.remaining_players g) ∧
      (∀ k p, players g !! k = Some p →
         ∃ q, players g' !! k = Some q ∧ Player.chips q = Player.chips p + dict_get_default k 0 ws).
Proof.
  intros Hok Hc Hp H2. pose proof (showdown_board g Hok Hp H2) as Hb.
  destruct (showdown_many_shape g Hok Hb) as (phs & ws & r & g' & E & Hh & _ & W & _ & Hpay).
  rewrite <- conduct_showdown_many in E by done.
  destruct (evaluate_players_ok g (Showdown.remaining_players g) Hok Hb (remaining_in g))
    as (phs' & E' & Ef & Hholds).
  rewrite (ho_eval _ _ Hh) in E'. injection E' as <-.
  pose proof (chronicle_next _ _ _ _ Hc) as Hi. destruct Hc as [D H R A C S].
  unfold Showdown.record_showdowns, if_hand_recorded in W. rewrite H in W. injection W as Wh Wd. rewrite H in Wh.
  set (d := foldl _ (db g) phs) in Wd.
  destruct (record_all_rest i ws phs (db g) Hi D) as (D1 & N1 & H1 & A1 & C1). fold d in D1, N1, H1, A1, C1.
  assert (shown_row <$> filter (of_hand i) (GameHistoryDB.showdown_results d) = shown_of ws <$> phs) as Es.
  { unfold d. rewrite record_all_rows, S; [done| |rewrite S, Ef; by apply remaining_ids_NoDup, Hok].
    apply Forall_forall. intros ph Hph.
    assert (ph.1 ∈ Showdown.remaining_players g) as [Hin Hpl]%list_elem_of_filter
      by (rewrite <- Ef; by apply list_elem_of_fmap_2).
    pose proof (ok_players _ Hok) as Hpo. rewrite Forall_forall in Hpo. destruct (Hpo _ Hpl) as [_ Ho].
    apply Is_true_eq_true in Hin. rewrite (in_hand_not_busted _ Hin) in Ho. by destruct (Player.hole_cards ph.1). }
  destruct (rows_answered g ws _ phs Es Hholds) as (shown & Em & Hshown). rewrite Ef in Hshown.
  destruct (hand_answer i (row <| Hand.ended_at := Some (GameHistoryDB.clock d) |>)
    (boards (community_cards g)) shown (GameHistoryDB.end_hand i d)) as (h & Eh & Er & _ & Ea & Eb & Ex).
  - by apply end_hand_db_ok.
  - apply end_hand_rows. by rewrite H1.
  - change (GameHistoryDB.community_cards (GameHistoryDB.end_hand i d))
      with (GameHistoryDB.community_cards d). by rewrite C1.
  - apply boards_phases.
  - exact Em.
  - exists r, g', h. rewrite Wd, Wh, Er, Ea, Ex.
    split_and!; try done; [| |by exists ws].
    + split; rewrite Wd; [by apply end_hand_db_ok|]. rewrite Wh. intros j [= <-].
      change (i < GameHistoryDB.next_hand_id d)%nat. by rewrite N1.
    + change (GameHistoryDB.actions (GameHistoryDB.end_hand i d)) with (GameHistoryDB.actions d).
      by rewrite A1.
Qed.

(** Of a hand that everybody else has folded nothing is written. *)
Lemma default_win_writes g :
  (still_in g ≤ 1)%nat → ∃ r g', Showdown.conduct_showdown g = (Ok r, g') ∧
    written g' = written g ∧ community_cards g' = community_cards g.
Proof.
  rewrite <- still_in_indices. unfold Showdown.conduct_showdown. run_monad.
  destruct (indices_where in_hand (players g)) as [|i [|j l]] eqn:E; cbn [length]; intros L; [| |lia].
  - by eexists _, _.
  - assert (i ∈ indices_where in_hand (players g)) as (p & Hi & _)%elem_of_indices_where
      by (rewrite E; by left).
    unfold nth_item. rewrite Hi. unfold Showdown.showdown_single. run_monad. by eexists _, _.
Qed.

(** A row of the showdown tells what the player held and won. *)
Record shown_as (g g' : t) (x : ShowdownResult.t * option json) (p : player) : Prop := ShownAs {
  sa_player : ShowdownResult.player_id x.1 = Player.id p;
  sa_cards : x.2 = Some (strs_json (Card.str <$> Player.hole_cards p));
  sa_rank : ∃ h, HandEvaluator.evaluate_hand (Player.hole_cards p) (community_cards g) = Ok h ∧
              ShowdownResult.hand_rank x.1 = Some (HandResult.str h);
  sa_won : ∃ q, players g' !! Player.id p = Some q ∧
              ShowdownResult.winnings x.1 = Player.chips q - Player.chips p }.

Lemma row_shown g g' ws x p :
  seated g → p ∈ players g →
  (∀ k p, players g !! k = Some p →
     ∃ q, players g' !! k = Some q ∧ Player.chips q = Player.chips p + dict_get_default k 0 ws) →
  row_of g ws x p → shown_as g g' x p.
Proof.
  intros Hs [k Hk]%list_elem_of_lookup Hpay [Ep Ec Er Ew]. pose proof (Hs _ _ Hk) as Hid.
  destruct (Hpay k p Hk) as (q & Hq & E). rewrite <- Hid in Hq, E.
  split; [done..|]. exists q. split; [done|]. lia.
Qed.

(** C10: after the showdown the database answers the whole hand: its actions and its board,
    and, when two or more players are left, a row for each of them and for nobody else,
    with the cards, the rank of the hand and exactly what the player's stack grew by.  A
    hand that one player wins by default stays open: no end, no winner and no winnings are
    ever recorded. *)
Theorem history_of_showdown shuffle g cs :
  table_ready g → shuffle Deck.full ≡ₚ Deck.full → (2 ≤ with_chips g)%nat → recorded g →
  let '(deeds, g1) := play cs (start_new_hand shuffle g).2 in
  current_phase g1 = SHOWDOWN →
  ∃ r g2 i h, Showdown.conduct_showdown g1 = (Ok r, g2) ∧ current_hand_id g2 = Some i ∧
    GameHistoryDB.get_hand_history i (db g2) = Ok (Some h) ∧ recorded g2 ∧
    deed_of <$> GameHistoryDB.hh_actions h = deeds ∧
    GameHistoryDB.hh_community_cards h = prod_map id strs_json <$> boards (community_cards g1) ∧
    if decide (2 ≤ still_in g1)%nat
    then is_Some (Hand.ended_at (GameHistoryDB.hh_hand h)) ∧
         Forall2 (shown_as g1 g2) (GameHistoryDB.hh_showdown_results h) (Showdown.remaining_players g1)
    else Hand.ended_at (GameHistoryDB.hh_hand h) = None ∧ GameHistoryDB.hh_showdown_results h = [].
Proof.
  intros Hr Hsh Hw Hrec.
  destruct (start_chronicle shuffle g Hr Hsh Hw Hrec) as (i & row & g0 & E & Hst & Hc & [_ _ _ Ho]).
  rewrite E. cbn [snd]. destruct (play_chronicle cs i row [] g0 (hs_ok _ _ Hst) Hc) as [Hok Hc1].
  destruct (play cs g0) as [deeds g1]. cbn [fst snd] in Hok, Hc1. rewrite app_nil_l in Hc1.
  intros Hp. case_decide as H2.
  - destruct (showdown_chronicle i row deeds g1 Hok Hc1 Hp H2)
      as (r & g2 & h & Es & Eh & Ea & Hr2 & Ed & Eb & Hend & ws & Hrows & Hpay).
    exists r, g2, i, h. split_and!; try done.
    apply Forall2_same_length_lookup_2; [by eapply Forall2_length|]. intros k x p Hx Hk.
    apply (row_shown g1 g2 ws); [apply Hok| |done|by eapply Forall2_lookup_lr].
    apply remaining_in. by eapply list_elem_of_lookup_2.
  - destruct (default_win_writes g1) as (r & g2 & Es & W & Ec); [lia|].
    assert (chronicle i row deeds g2) as Hc2 by by eapply chronicle_frame.
    destruct (chronicle_answer _ _ _ _ Hc2) as (h & Eh & Er & _ & Ea & Eb & Ex).
    exists r, g2, i, h. rewrite Er, <- Ec. split_and!; try done; [apply Hc2|by eapply chronicle_recorded].
Qed.
