(* ===== verification/ServerProps.v ===== *)
(** * What spectators are told of a player's last action

    The state server reads the last action of a player back from the history.  It
    finds the action the engine accepted last, with its amount; nothing else that
    happens in a game is taken for an action. *)
From stdpp Require Import strings.
From S2P Require Import Prelude Py Json GameModels PlayerModels Evaluator GameHistory Game.
From S2P Require Import GameProps Showdown StateServer.
Import PokerGame Showdown StateServer.

(** ** Reading an entry *)

Lemma startswith_cancel t r s : startswith (t ++ r) (t ++ s) = startswith r s.
Proof. induction t as [|c t IH]; [done|]. cbn [app startswith]. by rewrite bool_decide_true. Qed.

(** Two words without a space are compared up to the space that ends them. *)
Lemma startswith_word x y r :
  32%N ∉ x → 32%N ∉ y → startswith (x ++ 32%N :: r) (y ++ [32%N]) = bool_decide (x = y).
Proof.
  revert y. induction x as [|c x IH]; intros [|d y] Hx Hy.
  - cbn. by destruct r.
  - apply not_elem_of_cons in Hy as [Hd _]. cbn. rewrite bool_decide_false; [done|congruence].
  - apply not_elem_of_cons in Hx as [Hc _]. cbn. rewrite bool_decide_false; [done|congruence].
  - apply not_elem_of_cons in Hx as [Hc Hx], Hy as [Hd Hy]. cbn [app startswith].
    rewrite (IH y) by done.
    destruct (decide (d = c)) as [->|Hn].
    + rewrite bool_decide_true by done. simpl. apply bool_decide_ext.
      split; [by intros ->|by intros [= ->]].
    + rewrite (bool_decide_false (d = c)) by done. simpl. rewrite bool_decide_false; [done|]. congruence.
Qed.

Lemma str_of_nat_no_space n : 32%N ∉ str_of_nat n.
Proof. rewrite str_of_nat_Z. by apply str_of_Z_not_elem. Qed.

Lemma str_of_nat_inj n m : str_of_nat n = str_of_nat m → n = m.
Proof. rewrite !str_of_nat_Z. intros H%str_of_Z_inj. lia. Qed.

(** An entry that begins with a player is read for that player only. *)
Definition entry_of (i : nat) (rest : pystr) : pystr :=
  u "Player " ++ str_of_nat i ++ u " " ++ rest.

Lemma split_entry i rest :
  split_max 2 (u " ") (entry_of i rest) = [u "Player"; str_of_nat i; rest].
Proof.
  unfold entry_of. change (u "Player " ++ str_of_nat i ++ u " " ++ rest)
    with (u "Player" ++ 32%N :: str_of_nat i ++ 32%N :: rest).
  change (u " ") with [32%N]. cbn [split_max].
  rewrite find_sub_char by (apply (bool_decide_unpack _); vm_compute; exact I).
  rewrite take_app_length. change (length [32%N]) with 1%nat.
  rewrite <- drop_drop, drop_app_length. cbn [drop]. rewrite drop_0.
  rewrite find_sub_char by apply str_of_nat_no_space.
  rewrite take_app_length, <- drop_drop, drop_app_length. done.
Qed.

Lemma action_of_player_entry j i rest :
  action_of_entry j (entry_of i rest) = if decide (j = i) then action_of_rest rest else Ok None.
Proof.
  unfold action_of_entry. rewrite split_entry. unfold entry_of at 1.
  rewrite startswith_cancel. change (u " " ++ rest) with (32%N :: rest).
  change (u " ") with [32%N].
  rewrite startswith_word by apply str_of_nat_no_space.
  destruct (decide (j = i)) as [->|Hn]; [by rewrite bool_decide_true|].
  rewrite bool_decide_false; [done|]. by intros ->%str_of_nat_inj.
Qed.

(** The number at the end of an entry *)
Lemma word_then_number w n :
  32%N ∉ w → split (u " ") (w ++ u " " ++ str_of_Z n) = [w; str_of_Z n].
Proof.
  intros Hw. apply (split_once _ _ 32%N []); [done| |by apply str_of_Z_not_elem].
  by apply find_sub_char.
Qed.

(** The entries of the engine *)
Lemma read_folded : action_of_rest (u "folded") = Ok (Some (u "fold", 0)).
Proof. by vm_compute. Qed.
Lemma read_checked : action_of_rest (u "checked") = Ok (Some (u "check", 0)).
Proof. by vm_compute. Qed.
Lemma read_called n : action_of_rest (u "called" ++ u " " ++ str_of_Z n) = Ok (Some (u "call", n)).
Proof.
  unfold action_of_rest. rewrite word_then_number by (apply (bool_decide_unpack _); by vm_compute).
  cbn. by rewrite int_of_str_of_Z.
Qed.

Lemma last_word n w x :
  32%N ∉ x → (length w < n)%nat → last (split_max n (u " ") (w ++ u " " ++ x)) = Some x.
Proof.
  intros Hx. revert w. induction n as [|n IH]; intros w L; [lia|].
  cbn [split_max]. change (u " " ++ x) with (32%N :: x). change (u " ") with [32%N].
  destruct (decide (32%N ∈ w)) as [Hw|Hw].
  - apply list_elem_of_split_l in Hw as (a & b & -> & Ha). rewrite <- (assoc_L (++)).
    rewrite <- app_comm_cons, find_sub_char by done.
    change (length [32%N]) with 1%nat. rewrite <- drop_drop, drop_app_length.
    cbn [drop]. rewrite drop_0. rewrite length_app in L. cbn in L.
    specialize (IH b ltac:(lia)). change (32%N :: x) with (u " " ++ x).
    change [32%N] with (u " ").
    destruct (split_max n (u " ") (b ++ u " " ++ x)) eqn:E; [done|]. exact IH.
  - rewrite find_sub_char by done. change (length [32%N]) with 1%nat.
    rewrite <- drop_drop, drop_app_length. cbn [drop]. rewrite drop_0.
    by rewrite split_max_absent.
Qed.

Lemma read_raised n : action_of_rest (u "raised to" ++ u " " ++ str_of_Z n) = Ok (Some (u "raise", n)).
Proof.
  unfold action_of_rest, split.
  rewrite last_word.
  - cbn. by rewrite int_of_str_of_Z.
  - by apply str_of_Z_not_elem.
  - rewrite !length_app. change (length (u " ")) with 1%nat. lia.
Qed.
Lemma read_all_in n :
  action_of_rest (u "went all-in with" ++ u " " ++ str_of_Z n) = Ok (Some (u "all_in", n)).
Proof.
  unfold action_of_rest, split.
  rewrite last_word.
  - cbn. by rewrite int_of_str_of_Z.
  - by apply str_of_Z_not_elem.
  - rewrite !length_app. change (length (u " ")) with 1%nat. lia.
Qed.

(** ** What the operations of the engine add to the history *)

Lemma latest_append j g h entry :
  action_history h = action_history g ++ [entry] →
  latest_action_for_player j h =
  match action_of_entry j entry with
  | Ok (Some found) => found
  | _ => latest_action_for_player j g
  end.
Proof.
  intros E. unfold latest_action_for_player. rewrite E, reverse_app. done.
Qed.

Definition shown (action : pystr) (g g' : t) : pystr * Z :=
  if bool_decide (action = u "fold") then (u "fold", 0)
  else if bool_decide (action = u "raise") then (u "raise", current_bet g')
  else if bool_decide (action = u "all_in") then (u "all_in", pot g' - pot g)
  else if pot g' =? pot g then (u "check", 0) else (u "call", pot g' - pot g).

Lemma entry_text i rest : (u "Player " ++ str_of_nat i) ++ 32%N :: rest = entry_of i rest.
Proof. unfold entry_of. by rewrite <- (assoc_L (++)). Qed.

(** The entry of an action says what [shown] says. *)
Lemma execute_action_entry i seat p action amount g g' d :
  execute_action i seat p action amount g = Some (g', d) →
  ∃ rest, d = entry_of i rest ∧ action_of_rest rest = Ok (Some (shown action g g')) ∧
          action_history g' = action_history g.
Proof.
  unfold execute_action, shown. cbv zeta. action_cases action; action_tests.
  - intros [= <- <-]. exists (u "folded"). split_and!; [apply entry_text|apply read_folded|done].
  - destruct (_ <? _); [done|]. intros [= <- <-].
    exists (u "checked"). rewrite Z.eqb_refl. split_and!; [apply entry_text|apply read_checked|done].
  - destruct (Z.leb_spec (current_bet g - Player.current_bet p) 0) as [H|H].
    { intros [= <- <-]. exists (u "checked"). rewrite Z.eqb_refl.
      split_and!; [apply entry_text|apply read_checked|done]. }
    destruct (Z.ltb_spec (Player.chips p) (current_bet g - Player.current_bet p)) as [|H'];
      [done|].
    destruct (Player.bet _ p) as [paid q] eqn:B. intros [= <- <-].
    exists (u "called" ++ u " " ++ str_of_Z paid). cbn [pot].
    assert (paid = current_bet g - Player.current_bet p) as Hp.
    { unfold Player.bet in B. destruct (Z.leb_spec (current_bet g - Player.current_bet p) 0); [lia|].
      injection B as <- _. lia. }
    split_and!; [apply entry_text| |done]. rewrite read_called.
    change (pot (set_player seat q g <| pot ::= λ x, x + paid |>)) with (pot g + paid).
    destruct (Z.eqb_spec (pot g + paid) (pot g)); [lia|]. do 3 f_equal. lia.
  - destruct (_ <? _); [done|]. destruct (Player.bet _ p) as [paid q] eqn:B. intros [= <- <-].
    exists (u "raised to" ++ u " " ++ str_of_Z (Player.current_bet q)).
    split_and!; [apply entry_text|apply read_raised|done].
  - destruct (_ <=? _); [done|]. destruct (Player.bet _ p) as [paid q] eqn:B. intros [= <- <-].
    exists (u "went all-in with" ++ u " " ++ str_of_Z paid).
    split_and!; [apply entry_text| |by destruct (_ <? _)]. rewrite read_all_in. do 3 f_equal.
    destruct (_ <? _); cbn; lia.
  - done.
Qed.

Lemma advance_history g : action_history (advance_to_next_player g) = action_history g.
Proof. unfold advance_to_next_player. by case_match. Qed.
Lemma check_history g : action_history (check_betting_round_complete g) = action_history g.
Proof. unfold check_betting_round_complete. cbv zeta. by repeat case_match. Qed.
Lemma recorded_history f g : action_history (if_hand_recorded f g) = action_history g.
Proof. unfold if_hand_recorded. by case_match. Qed.

(** An accepted action adds its description to the history. *)
Lemma process_entry i action amount g g' :
  process_player_action i action amount g = (true, g') →
  ∃ seat p g1 d, find_player i g = Some (seat, p) ∧ Player.status p = ACTIVE ∧
    execute_action i seat p action amount g = Some (g1, d) ∧ same_table g1 g' ∧
    action_history g' = action_history g ++ [d].
Proof.
  intros H. pose proof H as (seat & p & g1 & d & _ & F & S & X & T)%process_player_action_inv.
  exists seat, p, g1, d. split_and!; [done..|]. revert H. unfold process_player_action.
  destruct (negb _); [done|]. rewrite F. destruct (negb _); [done|]. rewrite X.
  apply execute_action_entry in X as (rest & _ & _ & Hh). intros [= <-].
  rewrite check_history, advance_history, recorded_history. cbn. by rewrite Hh.
Qed.

Lemma process_latest j i action amount g g' :
  process_player_action i action amount g = (true, g') →
  latest_action_for_player j g' =
  if decide (j = i) then shown action g g' else latest_action_for_player j g.
Proof.
  unfold process_player_action. destruct (negb _); [done|].
  destruct (find_player i g) as [[seat p]|]; [|done]. destruct (negb _); [done|].
  destruct (execute_action _ _ _ _ _ _) as [[g1 d]|] eqn:X; [|done].
  apply execute_action_entry in X as (rest & -> & Hr & Hh).
  set (g2 := if_hand_recorded _ _). intros [= <-].
  assert (same_table g1 (check_betting_round_complete (advance_to_next_player g2))) as Hs.
  { etrans; [apply (same_table_history (entry_of i rest))|].
    etrans; [apply same_table_recorded|]. etrans; [apply same_table_advance|].
    apply same_table_check. }
  rewrite (latest_append j g _ (entry_of i rest)).
  - rewrite action_of_player_entry. destruct (decide (j = i)); [|done]. rewrite Hr.
    unfold shown. by rewrite (st_pot _ _ Hs), (st_bet _ _ Hs).
  - rewrite check_history, advance_history. subst g2. rewrite recorded_history. cbn. by rewrite Hh.
Qed.

(** ** The other operations *)

Section Quiet.
Variables (j : nat) (v : pystr * Z).
Definition told (g : t) : Prop := latest_action_for_player j g = v.

Lemma told_history g g' : action_history g' = action_history g → told g → told g'.
Proof. intros E. unfold told, latest_action_for_player. by rewrite E. Qed.

Lemma told_append entry g :
  action_of_entry j entry = Ok None → told g → told (append_history entry g).
Proof. intros E H. unfold told. by rewrite (latest_append j g _ entry), E. Qed.

(** Entries that do not begin with a player, or say no action *)
Lemma quiet_text entry : startswith entry (u "Player ") = false → action_of_entry j entry = Ok None.
Proof.
  intros H. unfold action_of_entry. destruct (startswith entry (u "Player " ++ _)) eqn:E; [|done].
  apply startswith_spec in E as [r ->]. rewrite <- (assoc_L (++)), startswith_app in H. done.
Qed.
Lemma quiet_rest i rest : action_of_rest rest = Ok None → action_of_entry j (entry_of i rest) = Ok None.
Proof. intros H. rewrite action_of_player_entry. by destruct (decide (j = i)). Qed.

#[local] Hint Extern 1 (stable told (modify _)) =>
  apply stable_modify; intros ?; apply told_history; (reflexivity || apply recorded_history) : poker.

Lemma told_deal_card : stable told deal_card.
Proof. intros g. unfold deal_card. destruct (Deck.deal_card (deck g)). by apply told_history. Qed.
#[local] Hint Resolve told_deal_card : poker.

Lemma told_blind i (word : pystr) n :
  startswith word (u "posted") = true →
  stable told (modify (append_history ((u "Player " ++ str_of_nat i) ++ 32%N :: word ++ n))).
Proof.
  intros H. apply stable_modify. intros g. apply told_append. rewrite entry_text.
  apply quiet_rest. apply startswith_spec in H as [r ->]. done.
Qed.

Lemma told_text entry :
  startswith entry (u "Player ") = false → stable told (modify (append_history entry)).
Proof. intros H. apply stable_modify. intros g. by apply told_append, quiet_text. Qed.

Lemma told_set_player i p : stable told (modify (set_player i p)).
Proof. auto with poker. Qed.

Lemma told_small_blind i : stable told (post_small_blind i).
Proof. unfold post_small_blind. stable_parts. by apply (told_blind i (u "posted")). Qed.
Lemma told_big_blind i : stable told (post_big_blind i).
Proof. unfold post_big_blind. stable_parts. by apply (told_blind i (u "posted")). Qed.
#[local] Hint Resolve told_small_blind told_big_blind : poker.

Lemma told_deal_to i : stable told (deal_to i).
Proof. unfold deal_to. stable_parts. Qed.
#[local] Hint Resolve told_deal_to : poker.

Lemma told_move_button : stable told (modify move_dealer_button).
Proof.
  apply stable_modify. intros g. apply told_history. unfold move_dealer_button. by case_match.
Qed.
Lemma told_first_actor : stable told (modify set_first_actor_preflop).
Proof.
  apply stable_modify. intros g. apply told_history. unfold set_first_actor_preflop.
  by repeat case_match.
Qed.
#[local] Hint Resolve told_move_button told_first_actor : poker.

Lemma told_start_new_hand shuffle : stable told (start_new_hand shuffle).
Proof.
  unfold start_new_hand, post_blinds, deal_hole_cards. stable_parts.
Qed.

Lemma told_deal_community n : stable told (deal_community n).
Proof. induction n as [|n IH]; cbn [deal_community]; stable_parts. Qed.
#[local] Hint Resolve told_deal_community : poker.
#[local] Hint Extern 1 (stable told (modify (append_history _))) => by apply told_text : poker.
#[local] Hint Extern 1 (stable told (modify (λ g, append_history _ g))) =>
  apply stable_modify; intros ?; by apply told_append, quiet_text : poker.

Lemma told_deal_flop : stable told deal_flop.
Proof. unfold deal_flop, record_community. stable_parts. Qed.
Lemma told_deal_turn : stable told deal_turn.
Proof. unfold deal_turn, record_community. stable_parts. Qed.
Lemma told_deal_river : stable told deal_river.
Proof. unfold deal_river, record_community. stable_parts. Qed.
#[local] Hint Resolve told_deal_flop told_deal_turn told_deal_river : poker.

Lemma told_new_round : stable told (modify start_new_betting_round).
Proof.
  apply stable_modify. intros g. apply told_history. unfold start_new_betting_round.
  cbv zeta. by repeat case_match.
Qed.
#[local] Hint Resolve told_new_round : poker.

Lemma told_advance_to_next_phase : stable told advance_to_next_phase.
Proof. unfold advance_to_next_phase. stable_parts. Qed.
(** The showdown: what it writes begins with another word. *)
Definition is_text (entry : pystr) : Prop := startswith entry (u "Player ") = false.

Lemma told_texts (f : t → list pystr) g :
  Forall is_text (f g) → told g → told (g <| action_history := action_history g ++ f g |>).
Proof.
  generalize (f g). intros l. revert g. induction l as [|e l IH] using rev_ind; intros g HF Hg.
  { revert Hg. apply told_history. cbn. apply app_nil_r. }
  apply Forall_app in HF as [HF He%Forall_inv].
  apply (told_history (append_history e (g <| action_history := action_history g ++ l |>))).
  - cbn. by rewrite (assoc_L (++)).
  - apply told_append; [apply quiet_text, He|]. by apply IH.
Qed.

Lemma told_modify_texts l :
  Forall is_text l →
  stable told (modify (λ g, g <| action_history := action_history g ++ l |>)).
Proof. intros H. apply stable_modify. intros g. by apply (told_texts (λ _, l)). Qed.

Lemma award_texts hands ids k layers a a' :
  award_layers hands ids k layers a = Ok a' →
  Forall is_text (aw_history a) → Forall is_text (aw_history a').
Proof.
  revert k a. induction layers as [|l layers IH]; intros k a; cbn [award_layers].
  { by intros [= ->]. }
  unfold award_layer. destruct (filter _ (ly_contributors l)) as [|x e].
  { cbn. apply IH. }
  destruct (determine_winner_ids hands (x :: e)) as [w best]. destruct (_ =? 0); [done|].
  cbn [mbind result_bind]. intros E HF. apply (IH _ _ E). cbn [aw_history].
  apply Forall_app. split; [done|]. by constructor.
Qed.

Lemma pay_out_history hands w g : action_history (pay_out hands w g).2 = action_history g.
Proof.
  revert g. induction w as [|[pid x] w IH]; intros g; [done|]. cbn [pay_out].
  destruct (find_player pid g) as [[i p]|]; [|apply IH].
  specialize (IH (set_player i (p <| Player.chips ::= λ c, c + x |>) g)).
  destruct (pay_out _ _ _) as [rs g']. exact IH.
Qed.

Lemma told_paying {A} hands w (k : list payout → M t A) :
  (∀ rs, stable told (k rs)) →
  stable told (g ← get; let '(rs, g') := pay_out hands w g in put g' ;; k rs).
Proof.
  intros Hk g Hg. unfold mbind, M_bind, get.
  pose proof (told_history g _ (pay_out_history hands w g) Hg) as Hg'.
  destruct (pay_out hands w g) as [rs g']. by apply Hk.
Qed.

Lemma stable_lift_bind {A B} (I : t → Prop) (r : result A) (f : A → M t B) :
  (∀ a, r = Ok a → stable I (f a)) → stable I (lift r ≫= f).
Proof. intros H g Hg. unfold mbind, M_bind, lift. destruct r; [by apply H|done]. Qed.

Lemma told_showdown_many ps : stable told (showdown_many ps).
Proof.
  unfold showdown_many. apply stable_bind; [apply stable_get|]. intros g0.
  apply stable_bind; [apply stable_lift|]. intros hands.
  apply stable_bind.
  { apply told_modify_texts. apply Forall_fmap, Forall_true. done. }
  intros _. apply stable_lift_bind. intros a Ha. apply award_texts in Ha; [|done].
  apply stable_bind; [by apply told_modify_texts|]. intros _. apply told_paying. intros rs.
  unfold record_showdowns. stable_parts.
Qed.

Lemma told_conduct_showdown : stable told conduct_showdown.
Proof.
  unfold conduct_showdown. apply stable_bind; [apply stable_get|]. intros g.
  destruct (indices_where _ _) as [|i [|k l]]; [stable_parts| |apply told_showdown_many].
  unfold showdown_single. stable_parts.
Qed.
End Quiet.

(** What spectators are told of a player's last action is the action the engine
    accepted last from that player, with the amount that went to the pot for a call
    or an all-in and the new bet to match for a raise.  Nothing else that the engine
    writes into the history, for this player or another, blinds and showdowns
    included, is taken for an action, also when an exception breaks it off. *)
Theorem viewer_tells_last_action j shuffle i action amount g g' :
  process_player_action i action amount g = (true, g') →
  latest_action_for_player j g' =
    (if decide (j = i) then shown action g g' else latest_action_for_player j g) ∧
  latest_action_for_player j (start_new_hand shuffle g').2 = latest_action_for_player j g' ∧
  latest_action_for_player j (advance_to_next_phase g').2 = latest_action_for_player j g' ∧
  latest_action_for_player j (conduct_showdown g').2 = latest_action_for_player j g'.
Proof.
  intros H. split_and!; [by eapply process_latest| | |].
  - by apply (told_start_new_hand j (latest_action_for_player j g') shuffle g').
  - by apply (told_advance_to_next_phase j (latest_action_for_player j g') g').
  - by apply (told_conduct_showdown j (latest_action_for_player j g') g').
Qed.
