(* ===== verification/Seating.v ===== *)
(** * Who sits where

    No operation of a hand changes the seats (the id, the name and the class of the
    player at each), the blinds, or the initial stack: whatever is raised, dealt or
    decided, and in every state of the game. *)
From stdpp Require Import strings.
From S2P Require Import Prelude Py Json GameModels PlayerModels Evaluator GameHistory Game Showdown.
Import PokerGame.

Definition identity (p : player) : nat * pystr * PlayerKind :=
  (Player.id p, Player.name p, Player.kind p).

(** What the set-up of a game decides *)
Definition seating (g : t) : list (nat * pystr * PlayerKind) * (Z * Z * Z) :=
  (identity <$> players g, (small_blind g, big_blind g, initial_chips g)).

(** ** Functions and computations that keep it *)

Definition keeps (f : t → t) : Prop := ∀ g, seating (f g) = seating g.
Definition keeps_M {A} (m : M t A) : Prop := ∀ g, seating (m g).2 = seating g.

Lemma keeps_ret {A} (a : A) : keeps_M (mret a).
Proof. done. Qed.
Lemma keeps_raise {A} e : keeps_M (A := A) (raise e).
Proof. done. Qed.
Lemma keeps_lift {A} (r : result A) : keeps_M (lift r).
Proof. done. Qed.
Lemma keeps_modify f : keeps f → keeps_M (modify f).
Proof. intros H g. apply H. Qed.
Lemma keeps_bind {A B} (m : M t A) (f : A → M t B) :
  keeps_M m → (∀ a, keeps_M (f a)) → keeps_M (m ≫= f).
Proof.
  intros Hm Hf g. unfold mbind, M_bind. specialize (Hm g). destruct (m g) as [[a|e] g'].
  - rewrite Hf. exact Hm.
  - exact Hm.
Qed.
Lemma keeps_get : keeps_M get.
Proof. done. Qed.
Lemma keeps_for_each {A} (l : list A) (f : A → M t ()) :
  (∀ x, keeps_M (f x)) → keeps_M (for_each l f).
Proof.
  intros H. induction l as [|x l IH]; [apply keeps_ret|]. by apply keeps_bind.
Qed.
Lemma keeps_get_any {A} (f : t → M t A) : (∀ g0, keeps_M (f g0)) → keeps_M (get ≫= f).
Proof. intros H g. apply H. Qed.

Lemma keeps_if_recorded f : keeps (if_hand_recorded f).
Proof. intros g. unfold if_hand_recorded. by destruct (current_hand_id g). Qed.

Lemma keeps_deal_card : keeps_M deal_card.
Proof. intros g. unfold deal_card. by destruct (Deck.deal_card (deck g)). Qed.

(** Changing the players by functions that keep their identities *)
Lemma keeps_players (g : t) (l : list player) :
  identity <$> l = identity <$> players g → seating (g <| players := l |>) = seating g.
Proof. intros H. unfold seating. cbn. by rewrite H. Qed.

Lemma identity_insert (l : list player) (i : nat) p q :
  l !! i = Some p → identity q = identity p → identity <$> <[i := q]> l = identity <$> l.
Proof.
  intros Hi E. rewrite list_fmap_insert, E. apply list_insert_id.
  by rewrite list_lookup_fmap, Hi.
Qed.

Lemma seating_set_player i p q g :
  players g !! i = Some p → identity q = identity p → seating (set_player i q g) = seating g.
Proof. intros Hi E. apply keeps_players. by eapply identity_insert. Qed.

Lemma identity_bet amount p : identity (Player.bet amount p).2 = identity p.
Proof. unfold Player.bet. destruct (amount <=? 0); [done|]. cbv zeta. by case_match. Qed.

Lemma identity_fmap (f : player → player) (l : list player) :
  (∀ p, identity (f p) = identity p) → identity <$> (f <$> l) = identity <$> l.
Proof. intros H. rewrite <- list_fmap_compose. apply list_fmap_ext. intros i p _. apply H. Qed.

#[export] Hint Resolve keeps_ret keeps_raise keeps_get keeps_lift keeps_modify keeps_bind keeps_for_each
  keeps_get_any keeps_if_recorded keeps_deal_card : poker.
#[export] Hint Extern 1 (keeps (λ _, if_hand_recorded _ _)) =>
  intros ?; apply keeps_if_recorded : poker.
#[export] Hint Extern 2 (keeps _) => by intros ? : poker.

(** ** The operations *)

Lemma keeps_move_dealer_button : keeps move_dealer_button.
Proof.
  intros g. unfold move_dealer_button. destruct (indices_where _ _) as [|i l]; [done|].
  unfold seating. cbn. f_equal.
  apply list_eq. intros k. rewrite !list_lookup_fmap, list_lookup_imap.
  by destruct (players g !! k).
Qed.

Lemma keeps_seat {A} i (k : player → M t A) :
  (∀ p g, players g !! i = Some p → seating (k p g).2 = seating g) →
  keeps_M (g ← get; p ← lift (nth_item (players g) i); k p).
Proof.
  intros H g. unfold mbind, M_bind, get, lift, nth_item.
  destruct (players g !! i) eqn:E; [by apply H|done].
Qed.

Lemma keeps_blind (f : player → player) (amount : t → Z) i (k : Z → player → M t ()) :
  (∀ p, identity (f p) = identity p) → (∀ x p, keeps_M (k x p)) →
  keeps_M (g ← get; p ← lift (nth_item (players g) i);
           let '(x, p) := Player.bet (amount g) (f p) in modify (set_player i p) ;; k x p).
Proof.
  intros Hf Hk g. unfold mbind, M_bind, get, lift, nth_item.
  destruct (players g !! i) as [p|] eqn:E; [|done].
  pose proof (identity_bet (amount g) (f p)) as Hb.
  destruct (Player.bet (amount g) (f p)) as [x q]. cbn [snd] in Hb. unfold modify.
  rewrite Hk. eapply seating_set_player; [exact E|]. by rewrite Hb.
Qed.

Lemma keeps_small_blind i : keeps_M (post_small_blind i).
Proof. apply keeps_blind; [done|]. intros x p. auto 10 with poker. Qed.
Lemma keeps_big_blind i : keeps_M (post_big_blind i).
Proof. apply keeps_blind; [done|]. intros x p. auto 10 with poker. Qed.

Lemma keeps_post_blinds : keeps_M post_blinds.
Proof.
  unfold post_blinds. apply keeps_get_any. intros g0. destruct (_ <? 2)%nat; [done|].
  apply keeps_bind; [done|]. intros [sb bb].
  apply keeps_bind; [apply keeps_small_blind|]. intros _. apply keeps_big_blind.
Qed.

Lemma keeps_deal_to i : keeps_M (deal_to i).
Proof.
  apply keeps_seat. intros p g Hp. destruct (not_busted p); [|done].
  unfold mbind, M_bind. pose proof (keeps_deal_card g) as Hd.
  assert (players (deal_card g).2 = players g) as Hpl
    by (unfold deal_card; by destruct (Deck.deal_card (deck g))).
  destruct (deal_card g) as [[c|e] g']; cbn [snd] in *; [|done].
  unfold Player.add_hole_card. unfold mbind, M_bind, get, put, raise.
  destruct (2 <=? length (Player.hole_cards p))%nat; unfold modify, lift; cbn [snd];
    rewrite <- Hd; (eapply seating_set_player; [by rewrite Hpl|done]).
Qed.

Lemma keeps_deal_hole_cards : keeps_M deal_hole_cards.
Proof.
  apply keeps_get_any. intros g0. apply keeps_for_each. intros _.
  apply keeps_for_each, keeps_deal_to.
Qed.

Lemma keeps_set_first_actor : keeps set_first_actor_preflop.
Proof.
  intros g. unfold set_first_actor_preflop. destruct (indices_where _ _) as [|i [|j l]]; try done.
  destruct (index_of _ _); [|done]. by destruct (_ =? 2)%nat.
Qed.

Lemma identity_reset p : identity (Player.reset_for_new_hand p) = identity p.
Proof.
  unfold Player.reset_for_new_hand, identity. cbn. by destruct (Player.kind p).
Qed.

Lemma keeps_start_new_hand shuffle : keeps_M (start_new_hand shuffle).
Proof.
  unfold start_new_hand. apply keeps_bind.
  { apply keeps_modify. intros g. unfold seating. cbn. by rewrite identity_fmap by apply identity_reset. }
  intros _. apply keeps_get_any. intros g0. destruct (_ <? 2)%nat; [auto with poker|].
  apply keeps_bind; [apply keeps_modify, keeps_move_dealer_button|]. intros _.
  apply keeps_bind; [apply keeps_post_blinds|]. intros _.
  apply keeps_bind; [apply keeps_deal_hole_cards|]. intros _.
  apply keeps_bind; [apply keeps_modify, keeps_set_first_actor|]. intros _.
  apply keeps_get_any. intros g. apply keeps_bind; [done|]. intros d.
  destruct (GameHistoryDB.start_new_hand _ _ _ _ _). auto with poker.
Qed.

Lemma find_player_seat i g k p : find_player i g = Some (k, p) → players g !! k = Some p.
Proof. intros H. by apply list_find_Some in H as (Hp & _). Qed.

Lemma keeps_execute_action i seat p action amount g g' text :
  players g !! seat = Some p → execute_action i seat p action amount g = Some (g', text) →
  seating g' = seating g.
Proof.
  intros Hp. unfold execute_action.
  assert (∀ x q, identity q = identity p →
    seating (set_player seat (Player.bet x q).2 g) = seating g) as Hbet.
  { intros x q E. eapply seating_set_player; [exact Hp|]. by rewrite identity_bet. }
  repeat case_bool_decide.
  - intros [= <- _]. by eapply seating_set_player.
  - case_match; [done|]. by intros [= <- _].
  - case_match; [by intros [= <- _]|]. case_match; [done|].
    specialize (Hbet (current_bet g - Player.current_bet p) p eq_refl).
    destruct (Player.bet _ p) as [x q]. by intros [= <- _].
  - case_match; [done|]. specialize (Hbet (current_bet g - Player.current_bet p + amount) p eq_refl).
    destruct (Player.bet _ p) as [x q]. by intros [= <- _].
  - case_match; [done|]. pose proof (identity_bet (Player.chips p) p) as Hi.
    destruct (Player.bet _ p) as [x q]. cbn [snd] in Hi. cbv zeta.
    assert (∀ h, players h = players g → seating h = seating g →
      seating (set_player seat (q <| Player.status := ALL_IN |>) h) = seating g) as Hq.
    { intros h Hh <-. eapply seating_set_player; [by rewrite Hh|done]. }
    case_match; intros [= <- _]; by apply Hq.
  - done.
Qed.

Lemma keeps_advance_to_next_player : keeps advance_to_next_player.
Proof. intros g. unfold advance_to_next_player. by destruct (find_first _ _). Qed.

Lemma keeps_check_betting_round_complete : keeps check_betting_round_complete.
Proof. intros g. unfold check_betting_round_complete. by repeat case_match. Qed.

Lemma keeps_process i action amount g :
  seating (process_player_action i action amount g).2 = seating g.
Proof.
  unfold process_player_action. destruct (negb _); [done|].
  destruct (find_player i g) as [[seat p]|] eqn:F; [|done]. destruct (negb _); [done|].
  destruct (execute_action _ _ _ _ _ _) as [[g' text]|] eqn:E; [|done]. cbn [snd].
  rewrite keeps_check_betting_round_complete, keeps_advance_to_next_player, keeps_if_recorded.
  change (seating g' = seating g). eapply keeps_execute_action; [|exact E].
  by eapply find_player_seat.
Qed.

Lemma keeps_deal_community n : keeps_M (deal_community n).
Proof.
  induction n as [|n IH]; [done|]. cbn [deal_community].
  apply keeps_bind; [apply keeps_deal_card|]. intros c.
  apply keeps_bind; [auto with poker|]. intros _. apply IH.
Qed.

Lemma keeps_record_community phase : keeps (record_community phase).
Proof. intros g. apply keeps_if_recorded. Qed.

Lemma keeps_start_new_betting_round : keeps start_new_betting_round.
Proof.
  intros g. unfold start_new_betting_round. set (g1 := g <| players ::= _ |> <| current_bet := 0 |>
    <| betting_round_complete := false |> <| last_raiser_index := None |>).
  assert (seating g1 = seating g) as <-.
  { unfold g1, seating. cbn. by rewrite identity_fmap. }
  destruct (active_indices g1); [done|]. by destruct (get_first_actor_for_phase g1).
Qed.

#[export] Hint Resolve keeps_deal_community keeps_record_community keeps_start_new_betting_round
  keeps_start_new_hand keeps_advance_to_next_player : poker.

(** The deal of a street, once its parts keep the seating *)
Ltac keeps_parts :=
  repeat first
    [ apply keeps_bind; [|intros ?]
    | apply keeps_get_any; intros ?
    | solve [auto with poker]
    | match goal with |- keeps_M (if ?b then _ else _) => destruct b end ].

Lemma keeps_deal_flop : keeps_M deal_flop.
Proof. unfold deal_flop. keeps_parts. Qed.
Lemma keeps_deal_turn : keeps_M deal_turn.
Proof. unfold deal_turn. keeps_parts. Qed.
Lemma keeps_deal_river : keeps_M deal_river.
Proof. unfold deal_river. keeps_parts. Qed.

#[export] Hint Resolve keeps_deal_flop keeps_deal_turn keeps_deal_river : poker.

Lemma keeps_advance_to_next_phase : keeps_M advance_to_next_phase.
Proof.
  unfold advance_to_next_phase. apply keeps_get_any. intros g0.
  destruct (negb _); [done|]. destruct (_ <=? 1)%nat; [keeps_parts|].
  destruct (current_phase g0); keeps_parts.
Qed.

(** *** The showdown

    What does not depend on the chips of the players, the pot, the history, the results
    and the database is not changed by a showdown. *)
Record same_setting (g g' : t) : Prop := SameSetting {
  ss_players : players g' = players g;
  ss_board : community_cards g' = community_cards g;
  ss_blinds : (small_blind g', big_blind g', initial_chips g')
              = (small_blind g, big_blind g, initial_chips g) }.

Section Unpaid.
Context {X : Type} (f : t → X).
Hypothesis unpaid : ∀ i p c g, players g !! i = Some p →
  f (set_player i (p <| Player.chips ::= c |>) g) = f g.
Hypothesis setting : ∀ g g', same_setting g g' → f g' = f g.

Lemma pay_out_unpaid hands winnings g : f (Showdown.pay_out hands winnings g).2 = f g.
Proof.
  revert g. induction winnings as [|[pid w] winnings IH]; intros g; [done|].
  cbn [Showdown.pay_out]. destruct (find_player pid g) as [[i p]|] eqn:F; [|apply IH].
  specialize (IH (set_player i (p <| Player.chips ::= λ c, c + w |>) g)).
  destruct (Showdown.pay_out _ _ _) as [rs g']. cbn [snd] in *. rewrite IH.
  apply unpaid. by eapply find_player_seat.
Qed.

Lemma same_setting_recorded k g : same_setting g (if_hand_recorded k g).
Proof. unfold if_hand_recorded. by destruct (current_hand_id g). Qed.

Lemma unpaid_modify x k : (∀ g, same_setting g (k g)) → stable (λ g, f g = x) (modify k).
Proof. intros H. apply stable_modify. intros g <-. by apply setting. Qed.

#[local] Hint Extern 1 (stable _ (modify _)) => by apply unpaid_modify; intros ? : poker.
#[local] Hint Extern 2 (stable _ (modify (Showdown.record_showdowns _ _))) =>
  apply unpaid_modify; intros ?; apply same_setting_recorded : poker.

Lemma showdown_unpaid g : f (Showdown.conduct_showdown g).2 = f g.
Proof.
  unfold Showdown.conduct_showdown. step.
  destruct (indices_where in_hand (players g)) as [|i [|j l]].
  - by apply setting.
  - unfold nth_item. destruct (players g !! i) as [p|] eqn:Hp; [|done]. step.
    unfold Showdown.showdown_single. step. step. rewrite <- (unpaid i p (λ c, c + pot g) g Hp).
    by apply setting.
  - enough (∀ x ps, stable (λ g, f g = x) (Showdown.showdown_many ps)) as H by (by apply H).
    intros x ps. unfold Showdown.showdown_many. apply stable_bind; [apply stable_get|]. intros g0.
    apply stable_bind; [apply stable_lift|]. intros hands. apply stable_bind; [auto with poker|].
    intros _. apply stable_bind; [apply stable_lift|]. intros a.
    apply stable_bind; [auto with poker|]. intros _ g1 Hg1. step.
    pose proof (pay_out_unpaid (Showdown.hands_map hands)
      (Showdown.sorted_items (Showdown.aw_winnings a)) g1) as Hp.
    destruct (Showdown.pay_out _ _ _) as [rs g']. cbn [snd] in Hp. rewrite Hg1 in Hp.
    step. cbv zeta. revert g' Hp.
    match goal with |- ∀ g', _ → f (?m g').2 = _ => enough (stable (λ g, f g = x) m) as Hm by exact Hm end.
    stable_parts.
Qed.
End Unpaid.

Lemma keeps_conduct_showdown : keeps_M Showdown.conduct_showdown.
Proof.
  intros g. apply showdown_unpaid.
  - intros i p c h Hp. by eapply seating_set_player.
  - intros h h' [Hp _ [= Hs Hb Hc]]. unfold seating. by rewrite Hp, Hs, Hb, Hc.
Qed.

