(* ===== verification/CliProps.v ===== *)
(** * Properties of the games of the command line interface

    The loops keep the invariants of the engine and raise nothing when the
    players' decisions do not; a turn always ends in an accepted action; the
    agents of a game are parsed as documented; what a person chooses is what the
    game accepts. *)
From stdpp Require Import strings.
From S2P Require Import Prelude Py Json GameModels PlayerModels Evaluator GameHistory Game.
From S2P Require Import EvaluatorProps GameProps HandInvariant StartHand HandProps Showdown ShowdownProps.
From S2P Require Import ViewProps Seating Cli CliGames.
Import PokerGame PokerUI AgentsConfig Games.

(** ** The texts of the offered actions *)

Lemma numbered_is P n t : startswith t P = false → bool_decide (numbered P n = t) = false.
Proof.
  intros H. apply bool_decide_eq_false. intros <-. unfold numbered in H.
  by rewrite startswith_app in H.
Qed.

Lemma numbered_starts P n k :
  (length k ≤ length P)%nat → startswith (numbered P n) k = startswith P k.
Proof. apply startswith_extend. Qed.

Lemma bracketed_number sep pre c t n :
  sep = c :: t → find_sub sep (pre ++ sep) = Some (length pre) →
  is_digit c = false → c ≠ 45%N → c ≠ 41%N →
  bracketed sep (numbered (pre ++ sep) n) = Ok (str_of_Z n).
Proof.
  intros Hs Hf H1 H2 H3. unfold bracketed, numbered.
  rewrite <- (assoc_L (++)), (split_once sep pre c t); [|done|done|].
  - cbn [nth_item lookup list_lookup mbind result_bind].
    destruct (split_char_head 41%N (str_of_Z n) []) as [r E]; [by apply str_of_Z_not_elem|].
    change (u ")") with [41%N]. by rewrite E.
  - rewrite elem_of_app. intros [H|H]; [by apply str_of_Z_not_elem in H|].
    change (c ∈ [41%N]) in H. apply list_elem_of_singleton in H. congruence.
Qed.

Lemma bracketed_call n : bracketed (u "(") (numbered (u "call (") n) = Ok (str_of_Z n).
Proof. by apply (bracketed_number (u "(") (u "call ") 40%N []). Qed.
Lemma bracketed_all_in n : bracketed (u "(") (numbered (u "all-in (") n) = Ok (str_of_Z n).
Proof. by apply (bracketed_number (u "(") (u "all-in ") 40%N []). Qed.
Lemma bracketed_raise n : bracketed (u "min ") (numbered (u "raise (min ") n) = Ok (str_of_Z n).
Proof. by apply (bracketed_number (u "min ") (u "raise (") 109%N [105; 110; 32]%N). Qed.

Lemma bracketed_int_eq sep action :
  RandomPlayerDecision.bracketed_int sep action = bracketed sep action ≫= int_of_str.
Proof.
  unfold RandomPlayerDecision.bracketed_int, bracketed.
  by destruct (nth_item _ 1) as [rest|]; [|done]; cbn; destruct (nth_item _ 0).
Qed.

(** What is offered, read back: evaluates the tests on the text of an offer *)
Ltac read_offer :=
  repeat first
    [ rewrite bool_decide_eq_true_2 by reflexivity
    | rewrite numbered_is by reflexivity
    | rewrite numbered_starts by (vm_compute; lia)
    | rewrite bool_decide_eq_false_2 by str_ne ];
  repeat match goal with
  | |- context [startswith (u ?s) (u ?t)] =>
      let v := eval vm_compute in (startswith (u s) (u t)) in
      change (startswith (u s) (u t)) with v
  end; cbv iota;
  rewrite ?bracketed_int_eq, ?bracketed_call, ?bracketed_raise, ?bracketed_all_in;
  cbn [mbind result_bind]; rewrite ?int_of_str_of_Z.

(** ** The random player *)

(** The decision that corresponds to an offer: a raise is one to three times the
    offered minimum, at most the player's chips. *)
Definition decision_for (chips : Z) (offer : pystr) (d : decision) : Prop :=
  offer = u "fold" ∧ d = Decision (u "fold") 0 ∨
  offer = u "check" ∧ d = Decision (u "check") 0 ∨
  (∃ n, offer = numbered (u "call (") n ∧ d = Decision (u "call") n) ∨
  (∃ n k, offer = numbered (u "raise (min ") n ∧ 1 ≤ k ≤ 3 ∧
     d = Decision (u "raise") (Z.min (n * k) chips)) ∨
  (∃ n, offer = numbered (u "all-in (") n ∧ d = Decision (u "all_in") chips).

(** An entry that [get_available_actions] can produce *)
Definition is_offer (x : pystr) : Prop :=
  x = u "fold" ∨ x = u "check" ∨ ∃ n, x = numbered (u "call (") n ∨
    x = numbered (u "raise (min ") n ∨ x = numbered (u "all-in (") n.

Lemma available_offers g p i :
  get_player i g = Some p → Player.status p = ACTIVE →
  Forall is_offer (get_available_actions i g).
Proof.
  intros Hp Ha. apply Forall_forall. intros x Hx. apply (elem_of_available g i p Hp Ha) in Hx.
  unfold entry in Hx. rewrite !app_nil_r in Hx. unfold is_offer. naive_solver.
Qed.

Lemma option_of_offer r chips x :
  1 ≤ r ≤ 3 → is_offer x →
  ∃ d w, RandomPlayerDecision.option_of_action r chips x = Ok (Some (d, w)) ∧
         decision_for chips x d.
Proof.
  intros Hr Hx. unfold RandomPlayerDecision.option_of_action, decision_for.
  destruct Hx as [-> | [-> | (n & [-> | [-> | ->]])]]; read_offer; eexists _, _; split; try done.
  - by left.
  - right. by left.
  - right. right. left. by exists n.
  - right. right. right. left. by exists n, r.
  - right. right. right. right. by exists n.
Qed.

Lemma action_options_offers randint chips l :
  (∀ k, 1 ≤ randint k ≤ 3) → Forall is_offer l →
  ∃ os, RandomPlayerDecision.action_options randint chips l = Ok os ∧
    length os = length l ∧
    Forall (λ dw, ∃ x, x ∈ l ∧ decision_for chips x dw.1) os.
Proof.
  intros Hr Hl. revert randint Hr. induction Hl as [|x l Hx _ IH]; intros randint Hr.
  { by exists []. }
  destruct (option_of_offer (randint 0%nat) chips x) as (d & w & E & D); [done..|].
  destruct (IH (λ i, randint (S i))) as (os & Eo & L & F); [done|].
  cbn [RandomPlayerDecision.action_options]. rewrite E. cbn [mbind result_bind]. rewrite Eo.
  eexists. split; [done|]. split; [simpl; by rewrite L|]. constructor.
  - exists x. split; [by left|done].
  - eapply Forall_impl; [exact F|]. intros dw (y & Hy & H). exists y. split; [by right|done].
Qed.

(** The draws of the random player: [random.randint(1, 3)] and a position drawn
    by [random.choices]. *)
Definition fair_draws (randint : nat → Z) (choice : list Z → nat) : Prop :=
  (∀ k, 1 ≤ randint k ≤ 3) ∧ ∀ ws, ws ≠ [] → (choice ws < length ws)%nat.

Lemma random_decision_ok randint choice g p gs :
  fair_draws randint choice → seated g → p ∈ players g → Player.status p = ACTIVE →
  get_llm_game_state (Player.id p) g = Ok gs →
  ∃ d offer, RandomPlayerDecision.make_decision randint choice p gs = Ok d ∧
    offer ∈ get_available_actions (Player.id p) g ∧ decision_for (Player.chips p) offer d.
Proof.
  intros [Hr Hc] Hs [i Hi]%list_elem_of_lookup Ha E. pose proof (Hs _ _ Hi) as Hid.
  assert (get_player (Player.id p) g = Some p) as Hp by by rewrite get_player_seated, Hid.
  assert (GameState.actions gs = get_available_actions (Player.id p) g) as Eg.
  { revert E. unfold get_llm_game_state. rewrite Hp. destruct (has_status BUSTED p); [done|].
    by intros [= <-]. }
  unfold RandomPlayerDecision.make_decision. rewrite Eg.
  destruct (action_options_offers randint (Player.chips p) (get_available_actions (Player.id p) g))
    as (os & Eo & L & F); [done|by eapply available_offers|].
  assert (u "fold" ∈ get_available_actions (Player.id p) g) as Hfold.
  { apply (elem_of_available g (Player.id p) p Hp Ha). left. unfold entry. by rewrite app_nil_r. }
  destruct (get_available_actions (Player.id p) g) as [|a l]; [by apply elem_of_nil in Hfold|].
  rewrite Eo. cbn [mbind result_bind]. destruct os as [|o os]; [done|].
  assert (snd <$> o :: os ≠ []) as Hne by by rewrite fmap_cons.
  specialize (Hc _ Hne). rewrite length_fmap in Hc.
  destruct (lookup_lt_is_Some_2 (o :: os) _ Hc) as [dw Hdw].
  unfold nth_item. rewrite Hdw. eapply Forall_lookup_1 in F; [|exact Hdw].
  destruct F as (x & Hx & D). by exists dw.1, x.
Qed.

(** Whatever is drawn, the random player makes one of the decisions it was
    offered, with the offered amount to call, all its chips for an all-in, and for
    a raise one to three times the minimum within its chips. *)
Theorem random_player_follows_offers randint choice g p gs :
  fair_draws randint choice → seated g → p ∈ players g → Player.status p = ACTIVE →
  get_llm_game_state (Player.id p) g = Ok gs →
  ∃ d offer, RandomPlayerDecision.make_decision randint choice p gs = Ok d ∧
    offer ∈ get_available_actions (Player.id p) g ∧ decision_for (Player.chips p) offer d.
Proof. apply random_decision_ok. Qed.

(** ** The engine between the calls of a loop *)

(** The seats and the stakes of a game, which never change *)
Notation seatings := (list (nat * pystr * PlayerKind) * (Z * Z * Z))%type.

(** A hand is played at the seats [st] with at most [n] chips. *)
Record in_play (n : Z) (st : seatings) (g : t) : Prop := InPlay {
  ip_ok : hand_ok g;
  ip_chips : total_chips g ≤ n;
  ip_turn : turn_ok g;
  ip_size : (length (players g) ≤ 10)%nat;
  ip_seats : seating g = st }.

(** No hand is played. *)
Record at_rest (n : Z) (st : seatings) (g : t) : Prop := AtRest {
  ar_ready : table_ready g;
  ar_chips : chips_of g ≤ n;
  ar_seats : seating g = st }.

Lemma hand_ok_seat g i b :
  hand_ok g → hand_ok (g <| current_player_index := i |> <| betting_round_complete := b |>).
Proof. intros [? ? ? ? ? ?]. by split. Qed.

Lemma in_play_action n st player_id action amount g b g' :
  in_play n st g → process_player_action player_id action amount g = (b, g') → in_play n st g'.
Proof.
  intros [Hok Hc Ht Hl Hse] E. destruct b; [|by apply process_rejected in E as ->].
  split.
  - by eapply hand_ok_action.
  - apply process_player_action_pays in E as (? & ? & ? & _ & _ & P & _).
    apply pays_conserved in P as [-> _]. done.
  - by eapply process_player_action_turn.
  - apply process_player_action_pays in E as (? & ? & ? & _ & _ & [] & _).
    by rewrite pays_players, length_insert.
  - by rewrite <- Hse, <- (keeps_process player_id action amount g), E.
Qed.

Lemma in_play_advance_player n st g : in_play n st g → in_play n st (advance_to_next_player g).
Proof.
  intros [Hok Hc Ht Hl Hse]. pose proof (advance_to_next_player_turn g) as T.
  pose proof (keeps_advance_to_next_player g) as K.
  destruct (advance_to_next_player_frame g) as (i & b & E). rewrite E in T, K |- *.
  split; [by apply hand_ok_seat|done..|by rewrite K].
Qed.

Lemma phase_step_turn g b g' : phase_step g b g' → turn_ok g → turn_ok g'.
Proof. intros St H. destruct St as [| |? ? ? ? []| |]; try exact H; done. Qed.

Lemma phase_step_size g b g' : phase_step g b g' → length (players g') = length (players g).
Proof. intros St. destruct St as [| |? ? ? ? Hn| |]; try done. by rewrite (ns_players _ _ Hn), length_fmap. Qed.

(** The phases still to come *)
Definition phases_left (ph : GamePhase) : nat :=
  match ph with PREFLOP => 4 | FLOP => 3 | TURN => 2 | RIVER => 1 | _ => 0 end.

Lemma in_play_phase n st g :
  in_play n st g → betting_round_complete g = true → betting_phase g = true →
  ∃ g', advance_to_next_phase g = (Ok true, g') ∧ in_play n st g' ∧
        (phases_left (current_phase g') < phases_left (current_phase g))%nat.
Proof.
  intros [Hok Hc Ht Hl Hse] Hb Hp.
  destruct (advance_to_next_phase_cases g Hok) as (b & g' & E & St).
  assert (in_play n st g') as Hi.
  { split; [by eapply hand_ok_phase| |by eapply phase_step_turn|by erewrite phase_step_size
          |by rewrite <- Hse, <- (keeps_advance_to_next_phase g), E].
    apply phase_step_conserved in St as [-> _]. done. }
  destruct St as [C|C L|g' C L Hin [D P O B F T]|C L F|C L F].
  - congruence.
  - eexists. split_and!; [exact E|exact Hi|]. cbn. unfold betting_phase in Hp.
    destruct (current_phase g); simpl; try done; lia.
  - exists g'. split_and!; [done..|]. rewrite F.
    destruct (current_phase g); simpl; try done; try lia; set_solver.
  - eexists. split_and!; [exact E|exact Hi|]. cbn. rewrite F. simpl. lia.
  - unfold betting_phase in Hp. by rewrite F in Hp.
Qed.

(** A hand is over: nobody's chips are negative, and there are at most as many
    chips as before. *)
Lemma in_play_showdown n st g :
  in_play n st g → current_phase g = SHOWDOWN →
  ∃ r g', Showdown.conduct_showdown g = (Ok r, g') ∧ at_rest n st g'.
Proof.
  intros [Hok Hc _ Hl Hse] Hp.
  enough (∃ r g', Showdown.conduct_showdown g = (Ok r, g') ∧ (seating g' = st → at_rest n st g'))
    as (r & g' & E & H).
  { exists r, g'. split; [done|]. apply H. by rewrite <- Hse, <- (keeps_conduct_showdown g), E. }
  pose proof (ok_seated _ Hok) as Hs.
  assert (Forall (λ p, 0 ≤ Player.chips p) (players g)) as Hst.
  { eapply Forall_impl; [apply Hok|]. by intros p [[]]. }
  assert (0 ≤ pot g) as Hpot by (pose proof (awarded_range g Hok); lia).
  unfold total_chips in Hc.
  destruct (decide (2 ≤ still_in g)%nat) as [H2|H1].
  { destruct (conduct_showdown_settled g Hok Hp H2) as (r & g' & E & [C P [S L] _ _ _ N]).
    exists r, g'. split; [done|]. intros ?. pose proof (awarded_range g Hok).
    split; [split; [done|done|by rewrite L]|lia|done]. }
  rewrite <- still_in_indices in H1. unfold Showdown.conduct_showdown. run_monad.
  destruct (indices_where in_hand (players g)) as [|i [|j l]] eqn:E; [| |cbn [length] in H1; lia].
  - eexists _, _. split; [reflexivity|]. intros ?. split; [by split| |done]. change (chips_of g ≤ n). lia.
  - assert (i ∈ indices_where in_hand (players g)) as (p & Hi & _)%elem_of_indices_where
      by (rewrite E; by left).
    unfold nth_item. rewrite Hi. unfold Showdown.showdown_single. run_monad.
    eexists _, _. split; [reflexivity|]. intros ?. split; [split| |done].
    + intros k q [(-> & <- & _)|(_ & Hk)]%list_lookup_insert_Some; [by apply (Hs _ _ Hi)|by apply Hs].
    + apply Forall_insert; [done|]. cbn. eapply Forall_lookup_1 in Hst; [|exact Hi].
      cbn in Hst. lia.
    + cbn. by rewrite length_insert.
    + change (sum_by Player.chips (<[i := p <| Player.chips ::= λ c, c + pot g |>]> (players g)) ≤ n).
      rewrite (sum_by_insert _ _ _ p) by done.
      change (Player.chips (p <| Player.chips ::= λ c, c + pot g |>)) with (Player.chips p + pot g).
      unfold chips_of in Hc. lia.
Qed.

Lemma at_rest_start n st shuffle g :
  at_rest n st g → shuffle Deck.full ≡ₚ Deck.full →
  ∃ g', start_new_hand shuffle g = (Ok tt, g') ∧
    (current_phase g' = FINISHED ∧ at_rest n st g' ∨ current_phase g' = PREFLOP ∧ in_play n st g').
Proof.
  intros [Hr Hc Hse] Hs.
  enough (∃ g', start_new_hand shuffle g = (Ok tt, g') ∧ (seating g' = st →
    current_phase g' = FINISHED ∧ at_rest n st g' ∨ current_phase g' = PREFLOP ∧ in_play n st g'))
    as (g' & E & H).
  { exists g'. split; [done|]. apply H. by rewrite <- Hse, <- (keeps_start_new_hand shuffle g), E. }
  destruct (decide (2 ≤ with_chips g)%nat) as [L|L].
  - destruct (start_new_hand_ok shuffle g Hr Hs L) as (g' & E & []).
    exists g'. split; [done|]. intros H. right. split; [done|].
    split; [done|lia|done|rewrite hs_size; apply Hr|done].
  - rewrite start_new_hand_split. cbv zeta.
    pose proof (cleared_reset shuffle g Hr) as H1.
    assert (length (players (cleared shuffle g)) = length (players g)) as Hlen
      by apply length_fmap.
    assert (table_ready (cleared shuffle g)) as Hr1.
    { destruct H1. split; [done| |rewrite Hlen; apply Hr].
      eapply Forall_impl; [exact hr_fresh|]. by intros p [[] _]. }
    rewrite (proj2 (Nat.ltb_lt _ 2)) by (rewrite (hr_live _ _ H1); lia).
    eexists. split; [done|]. intros H. left. split; [done|].
    pose proof (hr_chips _ _ H1) as C. generalize dependent (cleared shuffle g).
    intros g1 H1 _ [] H C. split; [by split| |exact H]. change (chips_of g1 ≤ n). lia.
Qed.

(** ** The loops with players that decide by themselves *)

Lemma game_state_ok g p :
  seated g → p ∈ players g → Player.status p ≠ BUSTED →
  is_Ok (get_llm_game_state (Player.id p) g).
Proof.
  intros Hs [i Hi]%list_elem_of_lookup Hb. unfold get_llm_game_state.
  rewrite (get_player_seated g _ Hs), (Hs _ _ Hi), Hi.
  unfold has_status. rewrite bool_decide_eq_false_2 by done. by eexists.
Qed.

Section Loops.
Context (make_decision : nat → player → GameState.t → result decision).
Context (shuffle : nat → Deck.t → Deck.t) (n : Z) (st : seatings).

(** Every player decides, and the shuffles only reorder the deck. *)
Hypothesis decides : ∀ k p g gs,
  hand_ok g → seating g = st → p ∈ players g → Player.status p = ACTIVE →
  get_llm_game_state (Player.id p) g = Ok gs → is_Ok (make_decision k p gs).
Hypothesis shuffles : ∀ k, shuffle k Deck.full ≡ₚ Deck.full.

Notation playing ph := (λ s, in_play n st (game s) ∧ current_phase (game s) = ph).
Notation sane := (λ s, at_rest n st (game s) ∨ in_play n st (game s)).

Lemma act_safe ph i d : safe sane (playing ph) (act i d) (λ _, playing ph).
Proof.
  intros s [Hs Hp]. unfold act. destruct (process_player_action _ _ _ _) as [b g'] eqn:E.
  split; [by eapply in_play_action|]. cbn. destruct b; [|by apply process_rejected in E as ->].
  apply process_player_action_pays in E as (? & ? & ? & _ & _ & _ & _ & _ & []). congruence.
Qed.

Lemma auto_turn_safe ph p :
  safe sane (λ s, playing ph s ∧ p ∈ players (game s) ∧ Player.status p = ACTIVE)
    (auto_turn make_decision p) (λ _, playing ph).
Proof.
  intros s (Hi & Hp & Ha).
  destruct (game_state_ok (game s) p) as [gs Egs]; [apply Hi|done|by rewrite Ha|].
  destruct (decides (decisions s) p (game s) gs) as [d Ed]; [apply Hi|apply Hi|done..|].
  unfold auto_turn. run_monad. rewrite Egs, Ed.
  assert (safe sane (playing ph) (success ← act (Player.id p) d; if success : bool then mret tt
    else (_ ← act (Player.id p) (Decision (u "fold") 0); mret tt)) (λ _, playing ph)) as H.
  { eapply safe_bind; [apply act_safe|]. intros b. destruct b; [by apply safe_ret|].
    eapply safe_bind; [apply act_safe|]. intros b. by apply safe_ret. }
  pose (s1 := s <| decisions ::= S |>). specialize (H s1 Hi). exact H.
Qed.

Lemma betting_loop_safe ph fuel :
  safe sane (playing ph) (betting_loop (auto_turn make_decision) fuel)
    (λ _ s, playing ph s ∧ betting_round_complete (game s) = true).
Proof.
  induction fuel as [|fuel IH]; cbn [betting_loop]; apply safe_get; intros s0 [Hs Hph];
    (destruct (betting_round_complete (game s0)) eqn:C; [by apply safe_ret; intros s ->|]).
  { apply safe_out. intros s ->. by right. }
  destruct (ip_turn _ _ _ Hs C) as [p Hp].
  eapply safe_bind; [apply (safe_lift _ _ _ (λ x s, x = p ∧ s = s0) p); [|done];
    by unfold nth_item; rewrite Hp|].
  intros q. apply (safe_bind _ _ _ _ (λ _, playing ph)); [|intros _; exact IH]. intros s [-> ->].
  unfold has_status. case_bool_decide as Ha; cbn [negb].
  - apply auto_turn_safe. split_and!; [done|done| |done]. by eapply list_elem_of_lookup_2.
  - split; [by apply in_play_advance_player|]. cbn.
    destruct (advance_to_next_player_frame (game s0)) as (i & b & ->). done.
Qed.

Lemma phase_loop_safe fuel phases ph :
  (phases_left ph ≤ phases)%nat →
  safe sane (playing ph) (phase_loop (auto_turn make_decision) (mret true) fuel phases)
    (λ b s, b = true ∧ playing SHOWDOWN s).
Proof.
  revert ph. induction phases as [|phases IH]; intros ph Hl; cbn [phase_loop];
    apply safe_get; intros s0 [Hs Hph].
  all: destruct (betting_phase (game s0)) eqn:B; cbn [negb].
  2,4: apply safe_ret; intros s ->; split_and!; [done..|]; unfold betting_phase in B;
    pose proof (ok_board _ (ip_ok _ _ _ Hs)) as Hb; unfold board_ok in Hb; by destruct (current_phase _).
  { unfold betting_phase in B. rewrite Hph in B. destruct ph; simpl in Hl; done || lia. }
  eapply safe_bind; [eapply safe_weaken; [apply (betting_loop_safe ph)| |done]; by intros s ->|].
  intros []. eapply safe_bind; [apply (safe_ret _ _ _ (λ b s, b = true ∧ (playing ph s ∧
    betting_round_complete (game s) = true))); done|].
  intros b s [-> [[Hi Hp] C]]. cbn [negb].
  assert (betting_phase (game s) = true) as B'.
  { unfold betting_phase in *. by rewrite Hp, <- Hph. }
  destruct (in_play_phase n st (game s) Hi C B') as (g' & E & Hi' & Hlt).
  unfold on_game. run_monad. rewrite E. rewrite Hp in Hlt.
  apply (IH (current_phase g')); [lia|]. done.
Qed.

Notation resting := (λ s, at_rest n st (game s)).

Lemma start_hand_safe :
  safe sane resting (start_hand shuffle)
    (λ _ s, current_phase (game s) = FINISHED ∧ resting s ∨ playing PREFLOP s).
Proof.
  intros s Hs. unfold start_hand, on_game. run_monad.
  destruct (at_rest_start n st (shuffle (S (hand_number (game s)))) (game s) Hs) as (g' & -> & H);
    [done|]. cbn. tauto.
Qed.

(** From the start of a hand to its showdown *)
Lemma played_hand_safe fuel {A} (finish : showdown_result → M session A)
    (none : M session A) Q :
  (∀ r, safe sane resting (finish r) Q) →
  safe sane (playing PREFLOP)
    (_ ← phase_loop (auto_turn make_decision) (mret true) fuel 5;
     s ← get;
     if bool_decide (current_phase (game s) = SHOWDOWN)
     then r ← on_game Showdown.conduct_showdown; finish r else none) Q.
Proof.
  intros Hf. eapply safe_bind; [apply phase_loop_safe; simpl; lia|].
  intros b. apply safe_get. intros s0 (_ & Hi & Hp).
  rewrite bool_decide_eq_true_2 by done. eapply safe_bind; [|exact Hf].
  intros s ->. unfold on_game. destruct (in_play_showdown n st (game s0) Hi Hp) as (r & g' & -> & H).
  done.
Qed.

End Loops.

Lemma hands_loop_safe (F P : session → Prop) hand remaining :
  safe F P hand (λ _, P) → safe F P (hands_loop hand remaining) (λ _, P).
Proof.
  intros Hh. induction remaining as [|k IH]; cbn [hands_loop]; apply safe_get; intros s0 Hs;
    (destruct (is_game_over (game s0)); [by apply safe_ret; intros s ->|]).
  - apply safe_ret. by intros s ->.
  - eapply safe_bind; [eapply safe_weaken; [exact Hh| |done]; by intros s ->|].
    intros []; [exact IH|by apply safe_ret].
Qed.

(** ** The game of computer players *)

Lemma display_preflop n st g i :
  in_play n st g → current_phase g = PREFLOP → is_Ok (display_game_state i g).
Proof.
  intros Hi Hp. pose proof (ok_board _ (ip_ok _ _ _ Hi)) as Hb. unfold board_ok in Hb.
  rewrite Hp in Hb. unfold display_game_state, display_your_cards.
  destruct (get_player i g) as [p|]; [|by eexists].
  destruct (Player.hole_cards p); [by eexists|]. rewrite Hb. by eexists.
Qed.

(** The decisions of the random player, drawn anew for every turn *)
Definition random_decisions (randint : nat → nat → Z) (choice : nat → list Z → nat) :
    nat → player → GameState.t → result decision :=
  λ k p gs, RandomPlayerDecision.make_decision (randint k) (choice k) p gs.

Lemma random_decides randint choice k p g gs :
  (∀ k, fair_draws (randint k) (choice k)) →
  hand_ok g → p ∈ players g → Player.status p = ACTIVE →
  get_llm_game_state (Player.id p) g = Ok gs → is_Ok (random_decisions randint choice k p gs).
Proof.
  intros Hd Hok Hp Ha E. unfold random_decisions.
  destruct (random_decision_ok _ _ g p gs (Hd k) (ok_seated _ Hok) Hp Ha E) as (d & _ & -> & _).
  by eexists.
Qed.

Notation at_rest_s n st := (λ s, at_rest n st (game s)).
Notation sane n st := (λ s, at_rest n st (game s) ∨ in_play n st (game s)).

Lemma cpu_hand_safe make_decision shuffle n st interval fuel :
  (∀ k p g gs, hand_ok g → seating g = st → p ∈ players g → Player.status p = ACTIVE →
     get_llm_game_state (Player.id p) g = Ok gs → is_Ok (make_decision k p gs)) →
  (∀ k, shuffle k Deck.full ≡ₚ Deck.full) → interval ≠ 0 →
  safe (sane n st) (at_rest_s n st) (cpu_hand make_decision shuffle interval fuel)
    (λ _, at_rest_s n st).
Proof.
  intros Hd Hs Hz. unfold cpu_hand.
  eapply safe_bind; [by apply (safe_modify _ _ _ (λ _ s, at_rest n st (game s)))|]. intros ?.
  eapply safe_bind; [by apply start_hand_safe|]. intros ?. apply safe_get. intros s0 [[Hp Hr]|[Hi Hp]].
  { rewrite bool_decide_eq_true_2 by done. apply safe_ret. by intros s ->. }
  rewrite bool_decide_eq_false_2 by (by rewrite Hp). unfold is_multiple.
  rewrite (proj2 (Z.eqb_neq interval 0) Hz).
  eapply safe_bind; [by apply (safe_lift _ _ _ (λ _ s, s = s0) _ eq_refl)|]. intros shown.
  assert (is_Ok (if shown then display_game_state 0 (game s0) else Ok [])) as [x Ex].
  { destruct shown; [by eapply display_preflop|by eexists]. }
  eapply safe_bind; [by apply (safe_lift _ _ _ (λ _ s, s = s0) x)|]. intros ?.
  eapply (safe_weaken _ _ _ _ _ (λ _, at_rest_s n st)); [apply (played_hand_safe make_decision n st Hd fuel (λ _, mret true))| |by intros ? ? ?].
  - intros r. by apply safe_ret.
  - by intros s ->.
Qed.


(** ** A turn *)

Lemma auto_turn_step make_decision s p gs d :
  hand_ok (game s) → players (game s) !! current_player_index (game s) = Some p →
  Player.status p = ACTIVE → get_llm_game_state (Player.id p) (game s) = Ok gs →
  make_decision (decisions s) p gs = Ok d →
  ∃ s', auto_turn make_decision p s = (Ok tt, s') ∧
    (if legal p (d_action d) (d_amount d) (game s)
     then process_player_action (Player.id p) (d_action d) (d_amount d) (game s)
     else process_player_action (Player.id p) (u "fold") 0 (game s)) = (true, game s').
Proof.
  intros Hok Hp Ha Egs Ed. pose proof (ok_seated _ Hok) as Hs. pose proof (Hs _ _ Hp) as Hid.
  assert (∀ a x, (process_player_action (Player.id p) a x (game s)).1 = legal p a x (game s)) as L.
  { intros a x. apply eq_true_iff_eq. rewrite process_accepts by done. rewrite Hid. split.
    - intros (_ & q & Hq & _ & E). congruence.
    - intros E. split; [done|]. by exists p. }
  unfold auto_turn. run_monad. rewrite Egs, Ed. unfold act.
  match goal with |- context [process_player_action _ _ _ (game ?s1)] =>
    change (game s1) with (game s) end.
  pose proof (L (d_action d) (d_amount d)) as L1. pose proof (L (u "fold") 0) as L2.
  destruct (process_player_action (Player.id p) (d_action d) (d_amount d) (game s))
    as [[] g1] eqn:E1; cbn [fst] in L1; rewrite <- L1.
  { eexists. split; reflexivity. }
  apply process_rejected in E1 as ->. cbn [game].
  match goal with |- context [process_player_action _ _ _ (game ?s1)] =>
    change (game s1) with (game s) end.
  cbn [d_action d_amount].
  destruct (process_player_action (Player.id p) (u "fold") 0 (game s)) as [b g1]; cbn [fst] in L2.
  subst b. eexists. split; reflexivity.
Qed.

(** The turn of a player that decides by itself always ends in one accepted
    action: the decision when the game accepts it, and otherwise a fold. *)
Theorem auto_turn_plays make_decision s p gs d :
  hand_ok (game s) → players (game s) !! current_player_index (game s) = Some p →
  Player.status p = ACTIVE → get_llm_game_state (Player.id p) (game s) = Ok gs →
  make_decision (decisions s) p gs = Ok d →
  ∃ s', auto_turn make_decision p s = (Ok tt, s') ∧
    (if legal p (d_action d) (d_amount d) (game s)
     then process_player_action (Player.id p) (d_action d) (d_amount d) (game s)
     else process_player_action (Player.id p) (u "fold") 0 (game s)) = (true, game s').
Proof. apply auto_turn_step. Qed.

(** ** The choices of a person *)

Lemma translate_offer x : is_offer x → is_Ok (translate_action x).
Proof.
  unfold translate_action. intros [-> | [-> | (n & [-> | [-> | ->]])]]; read_offer; by eexists.
Qed.

Lemma translate_offers l : Forall is_offer l → is_Ok (map_result translate_action l).
Proof.
  induction 1 as [|x l Hx _ [ts IH]]; [by eexists|]. cbn [map_result].
  destruct (translate_offer x Hx) as [t ->]. cbn [mbind result_bind]. rewrite IH. by eexists.
Qed.

(** The decision that choosing an offer makes, but for a raise *)
Definition chosen (offer : pystr) (d : decision) : Prop :=
  offer = u "fold" ∧ d = Decision (u "fold") 0 ∨
  offer = u "check" ∧ d = Decision (u "check") 0 ∨
  (∃ n, offer = numbered (u "call (") n ∧ d = Decision (u "call") n) ∨
  (∃ n, offer = numbered (u "all-in (") n ∧ d = Decision (u "all_in") n).

Lemma parse_chosen offer d ls :
  chosen offer d → parse_action_choice offer ls = (Ok d, ls).
Proof.
  unfold parse_action_choice.
  intros [[-> ->]|[[-> ->]|[(n & -> & ->)|(n & -> & ->)]]]; read_offer; reflexivity.
Qed.

Lemma parse_raise n m ls rest :
  n ≤ m → ls = Line (str_of_Z m) :: rest →
  parse_action_choice (numbered (u "raise (min ") n) ls = (Ok (Decision (u "raise") m), rest).
Proof.
  intros Hm ->. unfold parse_action_choice. read_offer. run_monad.
  cbn [read_raise].
  assert (strip (str_of_Z m) ≠ [] ∧ int_of_str (strip (str_of_Z m)) = Ok m) as [Hne Hi].
  { assert (strip (str_of_Z m) = str_of_Z m) as ->; [|split; [|apply int_of_str_of_Z]].
    - destruct (str_of_Z_shape m) as (c & r & E & _). pose proof (str_of_Z_chars m) as Hc.
      destruct (last (str_of_Z m)) as [e|] eqn:El; [|rewrite E in El; by apply last_None in El].
      assert (∀ x, is_digit x = true ∨ x = 45%N → is_space x = false) as Hsp
        by (intros x [?| ->]; [by apply digit_not_space|done]).
      eapply strip_id; [by rewrite E|exact El| |].
      + apply Hsp. rewrite E in Hc. by inversion Hc.
      + apply Hsp. by apply (last_Forall _ _ _ Hc El).
    - destruct (str_of_Z_shape m) as (c & r & -> & _). done. }
  destruct (strip (str_of_Z m)); [done|]. rewrite Hi. by rewrite (proj2 (Z.leb_le _ _) Hm).
Qed.

(** What the loop for the amount of a raise can give *)
Lemma read_raise_spec n ls :
  match read_raise n ls with
  | (Ok d, ls') => ∃ m, n ≤ m ∧ d = Decision (u "raise") m ∧ (length ls' < length ls)%nat
  | (Raise KeyboardInterrupt, ls') => (length ls' < length ls)%nat
  | (Raise EOFError, ls') => ls' = []
  | _ => False
  end.
Proof.
  assert (∀ ls : list line, match read_raise n ls with
    | (Ok d, ls') => ∃ m, n ≤ m ∧ d = Decision (u "raise") m ∧ (length ls' < length ls)%nat
    | (Raise KeyboardInterrupt, ls') => (length ls' < length ls)%nat
    | (Raise EOFError, ls') => ls' = []
    | _ => False
    end → ∀ x, match read_raise n ls with
    | (Ok d, ls') => ∃ m, n ≤ m ∧ d = Decision (u "raise") m ∧ (length ls' < length (x :: ls))%nat
    | (Raise KeyboardInterrupt, ls') => (length ls' < length (x :: ls))%nat
    | (Raise EOFError, ls') => ls' = []
    | _ => False
    end) as Hmore.
  { intros k. destruct (read_raise n k) as [[d|[]] k']; simpl; try done; try lia.
    intros (m & ? & ? & ?) _. exists m. split_and!; try done. lia. }
  induction ls as [|[s|] ls IH]; cbn [read_raise]; [done| |simpl; lia].
  destruct (strip s) as [|c r]; [by apply Hmore|].
  destruct (int_of_str (c :: r)) as [m|e]; [|by apply Hmore].
  destruct (Z.leb_spec n m); [|by apply Hmore]. exists m. split_and!; try done. simpl. lia.
Qed.

(** What choosing among some offers can give *)
Definition choice_of (offers : list pystr) (d : decision) : Prop :=
  d = Decision (u "fold") 0 ∨
  ∃ offer, offer ∈ offers ∧
    (chosen offer d ∨ ∃ n m, offer = numbered (u "raise (min ") n ∧ n ≤ m ∧
                             d = Decision (u "raise") m).

Lemma parse_action_choice_spec offers x ls :
  x ∈ offers → is_offer x →
  match parse_action_choice x ls with
  | (Ok d, ls') => choice_of offers d ∧ (length ls' ≤ length ls)%nat
  | (Raise KeyboardInterrupt, ls') => (length ls' < length ls)%nat
  | (Raise EOFError, ls') => ls' = []
  | _ => False
  end.
Proof.
  intros Hin Hx. unfold is_offer in Hx.
  assert (∀ d, chosen x d → match parse_action_choice x ls with
    | (Ok d, ls') => choice_of offers d ∧ (length ls' ≤ length ls)%nat
    | (Raise KeyboardInterrupt, ls') => (length ls' < length ls)%nat
    | (Raise EOFError, ls') => ls' = []
    | _ => False
    end) as Hc.
  { intros d Hd. rewrite (parse_chosen x d ls Hd). split; [|done]. right. eauto. }
  destruct Hx as [E | [E | (n & [E | [E | E]])]].
  - apply (Hc (Decision (u "fold") 0)). by left.
  - apply (Hc (Decision (u "check") 0)). right. by left.
  - apply (Hc (Decision (u "call") n)). right. right. left. eauto.
  - clear Hc. subst x. unfold parse_action_choice. read_offer. run_monad.
    pose proof (read_raise_spec n ls) as H. destruct (read_raise n ls) as [[d|e] ls']; [|done].
    destruct H as (m & Hm & -> & L). split; [|lia]. right. eexists. split; [exact Hin|]. right. eauto.
  - apply (Hc (Decision (u "all_in") n)). right. right. right. eauto.
Qed.

Lemma read_choice_spec offers fuel ls :
  Forall is_offer offers → (length ls < fuel)%nat →
  match read_choice offers fuel ls with
  | (Ok d, _) => choice_of offers d
  | (Raise EOFError, ls') => ls' = []
  | _ => False
  end.
Proof.
  intros Hl. revert ls. induction fuel as [|fuel IH]; intros ls L; [lia|].
  cbn [read_choice]. destruct ls as [|[s|] ls]; [done| |by left]. cbn [length] in L.
  destruct (strip s) as [|c r]; [apply IH; lia|].
  destruct (int_of_str (c :: r)) as [k|e]; [|apply IH; lia].
  destruct ((1 <=? k) && (k <=? Z.of_nat (length offers))) eqn:B; [|apply IH; lia].
  apply andb_true_iff in B as [B1 B2]. zbool.
  destruct (lookup_lt_is_Some_2 offers (Z.to_nat (k - 1))) as [x Hx]; [lia|]. rewrite Hx.
  pose proof (parse_action_choice_spec offers x ls (list_elem_of_lookup_2 _ _ _ Hx)
    (Forall_lookup_1 _ _ _ _ Hl Hx)) as Hp.
  destruct (parse_action_choice x ls) as [[d|[]] ls']; try done; [by destruct Hp|by left].
Qed.


(** Typing the number of an offer that is not a raise gives a decision that
    the game accepts. *)
Theorem choose_action_accepted g p k offer ls :
  hand_ok g → players g !! current_player_index g = Some p → Player.status p = ACTIVE →
  get_available_actions (Player.id p) g !! k = Some offer →
  (∀ n, offer ≠ numbered (u "raise (min ") n) →
  ∃ d, choose_action (get_available_actions (Player.id p) g)
         (Line (str_of_nat (S k)) :: ls) = (Ok d, ls) ∧
    (process_player_action (Player.id p) (d_action d) (d_amount d) g).1 = true.
Proof.
  intros Hok Hp Ha Hk Hno. pose proof (ok_seated _ Hok) as Hs. pose proof (Hs _ _ Hp) as Hid.
  assert (get_player (Player.id p) g = Some p) as Hg by by rewrite get_player_seated, Hid.
  pose proof (available_offers g p _ Hg Ha) as Hl.
  destruct (translate_offers _ Hl) as [ts Et].
  assert (∃ d, chosen offer d ∧ legal p (d_action d) (d_amount d) g = true) as (d & Hd & Hleg).
  { apply list_elem_of_lookup_2 in Hk. apply (elem_of_available g (Player.id p) p Hg Ha) in Hk.
    unfold entry in Hk. rewrite !app_nil_r in Hk. unfold amount_to_call in Hk. unfold chosen.
    destruct Hk as [->|[[C ->]|[[C ->]|[(_ & _ & _ & ->)|(C & _ & ->)]]]].
    - exists (Decision (u "fold") 0). split; [by left|]. cbn. unfold legal. by action_tests.
    - exists (Decision (u "check") 0). split; [right; by left|]. cbn. unfold legal. action_tests.
      apply Z.leb_le. lia.
    - eexists (Decision (u "call") _). split; [right; right; left; eauto|]. cbn. unfold legal.
      action_tests. apply Z.leb_le. lia.
    - by destruct (Hno (min_raise_total g)).
    - eexists (Decision (u "all_in") _). split; [right; right; right; eauto|]. cbn. unfold legal.
      action_tests. by apply Z.ltb_lt. }
  exists d. split.
  - pose proof (lookup_lt_Some _ _ _ Hk) as Hlt. unfold choose_action.
    destruct (get_available_actions (Player.id p) g) as [|x l] eqn:E; [done|]. rewrite <- E in *.
    run_monad. rewrite Et. unfold ask_choice. cbn [length read_choice].
    destruct (str_of_N_shape (N.of_nat (S k))) as (c & r & En & Hc).
    unfold str_of_nat at 1. rewrite En, strip_digits by done. rewrite <- En, int_of_str_of_N.
    rewrite !(proj2 (Z.leb_le _ _)) by (rewrite ?E in *; cbn in *; lia).
    cbn [andb]. replace (Z.to_nat (Z.of_N (N.of_nat (S k)) - 1)) with k by lia. rewrite Hk.
    rewrite (parse_chosen offer d ls Hd). done.
  - apply process_accepts; [done|]. rewrite Hid. split; [done|]. by exists p.
Qed.

(** ** The screens *)

(** The hand of a player with cards is known from the flop on. *)
Lemma own_hand_total g p :
  hand_ok g → p ∈ players g → Player.hole_cards p ≠ [] → (3 ≤ length (community_cards g))%nat →
  ∃ h, HandEvaluator.evaluate_hand (Player.hole_cards p) (community_cards g) = Ok h.
Proof.
  intros Hok Hin Hne L. pose proof (hand_cards_ok g p Hok Hin) as Hc.
  pose proof (ok_players _ Hok) as Hps. rewrite Forall_forall in Hps.
  pose proof (po_hole _ (Hps p Hin)) as Hh.
  destruct (evaluate_hand_total (Player.hole_cards p) (community_cards g)) as (h & Eh & _).
  - by apply NoDup_submseteq_full.
  - by apply full_valid.
  - rewrite length_app, Hh. destruct (not_busted p); [simpl; lia|].
    by apply nil_length_inv in Hh.
  - by exists h.
Qed.

Lemma display_game_state_ok g i : hand_ok g → is_Ok (display_game_state i g).
Proof.
  intros Hok. unfold display_game_state, display_your_cards.
  destruct (get_player i g) as [p|] eqn:Hp; [|by eexists]. apply get_player_in in Hp.
  pose proof (own_hand_total g p Hok Hp) as Hh.
  destruct (Player.hole_cards p) as [|c cs] eqn:E; [by eexists|].
  destruct (Nat.leb_spec 3 (length (community_cards g))) as [L|L]; [|by eexists].
  destruct Hh as [h Eh]; [done|done|]. rewrite Eh. by eexists.
Qed.

(** C40: at the turn of a person the game of [run_game] breaks off: the state of
    the game is an object, and looking up its actions as those of a dictionary
    raises a [TypeError], before any input is read. *)
Theorem human_turn_fails make_decision s p :
  hand_ok (game s) → p ∈ players (game s) → Player.status p = ACTIVE →
  Player.kind p = HumanPlayer →
  game_turn make_decision p s = (Raise TypeError, s).
Proof.
  intros Hok Hp Ha Hk. destruct (game_state_ok (game s) p) as [gs Egs];
    [apply Hok|done|by rewrite Ha|].
  destruct (display_game_state_ok (game s) 0 Hok) as [shown Hd].
  unfold game_turn. run_monad. rewrite Hd, bool_decide_eq_true_2 by done.
  unfold on_lines, get_human_action. run_monad. rewrite Egs. by destruct s.
Qed.

Lemma player_lines_hide g i p k :
  player_lines (redact k g) i (hide k p) = player_lines g i p.
Proof. unfold hide. by case_decide. Qed.

Lemma display_redact i g : display_game_state i (redact i g) = display_game_state i g.
Proof.
  assert (display_players_info i (redact i g) = display_players_info i g) as E.
  { unfold display_players_info. do 2 f_equal.
    change (players (redact i g)) with (hide i <$> players g).
    induction (players g) as [|p l IH]; [done|]. rewrite fmap_cons, !bind_cons, IH.
    by rewrite player_lines_hide. }
  unfold display_game_state, display_your_cards. rewrite E.
  destruct (get_player i g) as [p|] eqn:Hp; [by rewrite (get_player_own i g p Hp)|].
  by rewrite get_player_redact, Hp.
Qed.

(** The screen shown for a player shows nothing of the other players' cards
    or of the deck. *)
Theorem display_game_state_secret i g1 g2 :
  redact i g1 = redact i g2 → display_game_state i g1 = display_game_state i g2.
Proof. intros E. by rewrite <- (display_redact i g1), E, display_redact. Qed.
