(* ===== verification/LlmProps.v ===== *)
(** * Properties of the language model players

    An answer in the documented format is read as it was meant, whatever stands
    around it; every answer at all gives a decision that respects the offers; and
    no answer, delay or failure of the network keeps a player from deciding. *)
From stdpp Require Import strings.
From S2P Require Import Prelude Py Json JsonProps GameModels PlayerModels LlmPlayers.
From S2P Require Import Evaluator GameHistory Game GameProps HandInvariant StartHand HandProps.
From S2P Require Import ViewProps CliProps.
Import PokerGame LLM.

(** ** The regular expressions on the offers *)

Lemma search_here {A} lit (k : pystr → option A) s x :
  k s = Some x → search lit k (lit ++ s) = Some x.
Proof.
  intros H. destruct (lit ++ s) eqn:E; cbn [search]; rewrite <- E, startswith_app, drop_app_length;
    by rewrite H.
Qed.

(** A literal is searched from its first character on. *)
Lemma search_skip {A} c lit (k : pystr → option A) pre s :
  c ∉ pre → search (c :: lit) k (pre ++ s) = search (c :: lit) k s.
Proof.
  intros H. induction pre as [|d pre IH]; [done|].
  apply not_elem_of_cons in H as [H1 H2]. cbn [app search startswith].
  rewrite bool_decide_false by done. cbn [andb]. by apply IH.
Qed.

Lemma search_absent {A} c lit (k : pystr → option A) s :
  c ∉ s → search (c :: lit) k s = None.
Proof. intros H. rewrite <- (right_id_L [] (++) s), search_skip by done. done. Qed.

(** [any_text] before something that starts with a character of its own *)
Section AnyText.
Context {A} (c : N) (k : pystr → option A).
Hypothesis starts : ∀ s, head s ≠ Some c → k s = None.

Lemma any_text_absent s : c ∉ s → any_text k s = None.
Proof.
  assert (∀ s, c ∉ s → k s = None) as H0.
  { intros t Ht. apply starts. destruct t; [done|]. intros [= ->]. apply Ht. by left. }
  induction s as [|d s IH]; intros H; cbn [any_text]; [by apply H0|].
  case_bool_decide; [by apply H0|]. rewrite IH; [by apply H0|].
  intros Hin. apply H. by right.
Qed.

Lemma any_text_at pre s x :
  c ≠ 10%N → 10%N ∉ pre → c ∉ pre → c ∉ s → k (c :: s) = Some x →
  any_text k (pre ++ c :: s) = Some x.
Proof.
  intros Hc H10 Hp Hs Hk. induction pre as [|d pre IH]; cbn [app any_text].
  - rewrite bool_decide_false by done. by rewrite any_text_absent.
  - apply not_elem_of_cons in H10 as [? ?], Hp as [? ?].
    rewrite bool_decide_false by done. by rewrite IH.
Qed.
End AnyText.

Lemma number_then_str n (k : pystr → bool) rest :
  0 ≤ n → number_stop rest = true → k rest = true →
  number_then k (str_of_Z n ++ rest) = Some n.
Proof.
  intros Hn Hr Hk. destruct (str_of_Z_shape n) as (_ & _ & _ & _ & E). rewrite E by done.
  destruct (str_of_N_shape (Z.to_N n)) as (c & r & Es & H). unfold number_then.
  rewrite Es, span_digits_app by done. rewrite Hk, <- Es, Z_of_digits_str. f_equal. lia.
Qed.

Lemma str_of_Z_no (c : N) n : is_digit c = false → c ≠ 45%N → c ∉ str_of_Z n.
Proof. apply str_of_Z_not_elem. Qed.

Lemma call_match_offer n : 0 ≤ n → call_match (numbered (u "call (") n) = Some n.
Proof.
  intros Hn. unfold call_match, numbered. change (u "call (") with (u "call" ++ [32; 40]%N).
  rewrite <- (assoc_L (++)). apply search_here.
  apply (any_text_at 40%N _) with (pre := [32%N]).
  - intros [|c s] H; [done|]. rewrite bool_decide_false; [done|]. by intros ->.
  - done.
  - vm_compute. set_solver.
  - vm_compute. set_solver.
  - rewrite elem_of_app. intros [H|H]; [by apply str_of_Z_no in H|].
    apply list_elem_of_singleton in H. done.
  - cbn beta iota. rewrite bool_decide_true by done. by apply number_then_str.
Qed.

Lemma raise_match_offer n : 0 ≤ n → raise_match (numbered (u "raise (min ") n) = Some n.
Proof.
  intros Hn. unfold raise_match, numbered.
  change (u "raise (min ") with (u "raise" ++ [32; 40]%N ++ u "min ").
  rewrite <- !(assoc_L (++)). apply search_here.
  change (u "min " ++ str_of_Z n ++ u ")") with (109%N :: ([105; 110; 32]%N ++ str_of_Z n ++ u ")")).
  apply (any_text_at 109%N _) with (pre := [32; 40]%N).
  - intros [|c s] H; [done|]. change (u "min ") with [109; 105; 110; 32]%N.
    cbn [startswith]. rewrite bool_decide_false; [done|]. by intros <-.
  - done.
  - set_solver.
  - set_solver.
  - rewrite !elem_of_app. intros [H|[H|H]]; [set_solver|by apply str_of_Z_no in H|].
    apply list_elem_of_singleton in H. done.
  - change (109%N :: ([105; 110; 32]%N ++ str_of_Z n ++ u ")"))
      with (u "min " ++ str_of_Z n ++ u ")").
    rewrite startswith_app. change 4%nat with (length (u "min ")). rewrite drop_app_length.
    by apply number_then_str.
Qed.

(** ** Offers in lower case *)

Lemma lower_app s t : lower (s ++ t) = lower s ++ lower t.
Proof. apply fmap_app. Qed.

Lemma lower_number n : lower (str_of_Z n) = str_of_Z n.
Proof.
  unfold lower. rewrite <- (list_fmap_id (str_of_Z n)) at 2. apply list_fmap_ext.
  intros i c Hc. pose proof (str_of_Z_chars n) as H.
  assert (is_digit c = true ∨ c = 45%N) as [Hd| ->] by (by eapply Forall_lookup_1 in H); [|done].
  unfold is_digit in Hd. apply andb_true_iff in Hd as [Hd1 Hd2].
  apply N.leb_le in Hd1, Hd2.
  assert ((65 <=? c)%N = false) as -> by (apply N.leb_gt; lia).
  by rewrite (proj2 (N.eqb_neq c 8490)) by lia.
Qed.

Lemma lower_numbered P n : lower (numbered P n) = numbered (lower P) n.
Proof. unfold numbered. by rewrite !lower_app, lower_number. Qed.

Lemma contains_absent c t s : c ∉ s → contains s (c :: t) = false.
Proof.
  intros H. unfold contains. rewrite find_sub_absent by done. by apply bool_decide_false; intros [? ?].
Qed.

Lemma contains_app s t r : contains (s ++ t ++ r) t = true.
Proof.
  unfold contains. apply bool_decide_eq_true. induction s as [|c s [i IH]].
  - cbn [app]. exists O. destruct (t ++ r) eqn:E; cbn [find_sub]; rewrite <- E;
      by rewrite startswith_app.
  - cbn [app find_sub]. destruct (startswith _ _); [by eexists|]. rewrite IH. by eexists.
Qed.

Lemma numbered_no P c n :
  is_digit c = false → c ≠ 45%N → c ≠ 41%N → c ∉ P → c ∉ numbered P n.
Proof.
  intros H1 H2 H3 H4. unfold numbered. rewrite !elem_of_app. intros [H|[H|H]]; [done| |].
  - by apply str_of_Z_no in H.
  - by apply list_elem_of_singleton in H.
Qed.

(** Which offers the loops over the actions look at *)
Ltac lower_offer :=
  rewrite ?lower_numbered;
  match goal with
  | |- context [numbered (lower ?P)] =>
      let v := eval vm_compute in (lower P) in change (lower P) with v
  | _ => idtac
  end.

Lemma speaks_of_call x :
  is_offer x → contains (lower x) (u "call") = true → ∃ n, x = numbered (u "call (") n.
Proof.
  intros [->|[->|(n & [->|[->| ->]])]] H; [done|done|by exists n| |];
    exfalso; revert H; lower_offer; change (u "call") with (99 :: [97; 108; 108])%N;
    rewrite contains_absent; try done; apply numbered_no; try done; set_solver.
Qed.

Lemma call_speaks n : contains (lower (numbered (u "call (") n)) (u "call") = true.
Proof.
  lower_offer. exact (contains_app [] (u "call") ([32; 40]%N ++ str_of_Z n ++ u ")")).
Qed.

Lemma speaks_of_raise x :
  is_offer x → contains (lower x) (u "raise") = true → ∃ n, x = numbered (u "raise (min ") n.
Proof.
  intros [->|[->|(n & [->|[->| ->]])]] H; [done|done| |by exists n|];
    exfalso; revert H; lower_offer; change (u "raise") with (114 :: [97; 105; 115; 101])%N;
    rewrite contains_absent; try done; apply numbered_no; try done; set_solver.
Qed.

Lemma raise_speaks n : contains (lower (numbered (u "raise (min ") n)) (u "raise") = true.
Proof.
  lower_offer. exact (contains_app [] (u "raise") ([32; 40; 109; 105; 110; 32]%N ++ str_of_Z n ++ u ")")).
Qed.

Lemma call_amount_offered amount l n :
  Forall is_offer l → 0 ≤ n → (∀ m, numbered (u "call (") m ∈ l → m = n) →
  numbered (u "call (") n ∈ l → call_amount amount l = JInt n.
Proof.
  intros Hl Hn Hu Hin. induction Hl as [|x l Hx _ IH]; [by apply elem_of_nil in Hin|].
  cbn [call_amount]. destruct (contains (lower x) (u "call")) eqn:E.
  - apply speaks_of_call in E as [m ->]; [|done]. rewrite (Hu m) by (by left).
    by rewrite call_match_offer.
  - apply IH; [intros m Hm; apply Hu; by right|].
    apply elem_of_cons in Hin as [<-|Hin]; [|done]. by rewrite call_speaks in E.
Qed.

Lemma min_raise_offered l n :
  Forall is_offer l → 0 ≤ n → (∀ m, numbered (u "raise (min ") m ∈ l → m = n) →
  numbered (u "raise (min ") n ∈ l → min_raise l = n.
Proof.
  intros Hl Hn Hu Hin. induction Hl as [|x l Hx _ IH]; [by apply elem_of_nil in Hin|].
  cbn [min_raise]. destruct (contains (lower x) (u "raise")) eqn:E.
  - apply speaks_of_raise in E as [m ->]; [|done]. rewrite (Hu m) by (by left).
    by rewrite raise_match_offer.
  - apply IH; [intros m Hm; apply Hu; by right|].
    apply elem_of_cons in Hin as [<-|Hin]; [|done]. by rewrite raise_speaks in E.
Qed.

(** ** Decisions that respect the offers *)

(** What the prompt asks for: no amount with a fold or a check, the offered
    amount with a call, at least the offered minimum with a raise, and all the
    chips with an all-in. *)
Record fits (offers : list pystr) (chips : Z) (d : decision) : Prop := Fits {
  fits_fold : d_action d = u "fold" ∨ d_action d = u "check" → d_amount d = 0;
  fits_call n : d_action d = u "call" → numbered (u "call (") n ∈ offers → d_amount d = n;
  fits_raise n : d_action d = u "raise" → numbered (u "raise (min ") n ∈ offers →
                 n ≤ d_amount d;
  fits_all_in : d_action d = u "all_in" → d_amount d = chips }.

(** The offers to a player on turn: a call and a raise at most once *)
Record offered (l : list pystr) : Prop := Offered {
  off_all : Forall is_offer l;
  off_call m n : numbered (u "call (") m ∈ l → numbered (u "call (") n ∈ l → m = n ∧ 0 ≤ n;
  off_raise m n : numbered (u "raise (min ") m ∈ l → numbered (u "raise (min ") n ∈ l →
                  m = n ∧ 0 < n }.

Lemma game_state_actions g i gs :
  get_llm_game_state i g = Ok gs → GameState.actions gs = get_available_actions i g.
Proof.
  unfold get_llm_game_state. destruct (get_player i g) as [p|]; [|done].
  destruct (has_status BUSTED p); [done|]. by intros [= <-].
Qed.

Lemma offered_to g i p :
  get_player i g = Some p → Player.status p = ACTIVE → 0 < min_raise_total g →
  offered (get_available_actions i g).
Proof.
  intros Hp Ha Hm. split; [by eapply available_offers|..]; intros m n H1 H2.
  - apply (offered_call _ _ _ _ Hp Ha) in H1, H2. lia.
  - apply (offered_raise _ _ _ _ Hp Ha) in H1, H2. lia.
Qed.

(** A number that is not below a positive integer is not truncated below it. *)
Lemma json_at_least v n z :
  0 < n → json_lt_int v n = Ok false → int_of_json v = Ok z → n ≤ z.
Proof.
  intros Hn. destruct v as [|b|m|x|s|l|d]; try done; cbn; intros [= H] E.
  - injection E as <-. lia.
  - injection E as <-. lia.
  - destruct (float_of_lexeme x) as [s|s| |s m e]; try done; cbn in H, E.
    { apply Z.ltb_ge in H. lia. }
    injection E as <-. destruct (Z.leb_spec 0 e).
    { by apply Z.ltb_ge in H. }
    apply Z.ltb_ge in H. assert (0 < 2 ^ (- e)) as Hp by (apply Z.pow_pos_nonneg; lia).
    destruct s; cbn [SpecFloat.cond_Zopp] in *; [nia|]. apply Z.div_le_lower_bound; lia.
Qed.

Lemma normalise_fits l chips action amount a v z :
  offered l → normalise chips l action amount = Ok (a, v) → int_of_json v = Ok z →
  fits l chips (Decision a z).
Proof.
  intros [Ho Hc Hr]. unfold normalise.
  destruct (bool_decide_reflect (action = u "fold")) as [->|N1]; cbn [orb];
    [intros [= <- <-] [= <-]; split; done|].
  destruct (bool_decide_reflect (action = u "check")) as [->|N2];
    [intros [= <- <-] [= <-]; split; done|].
  destruct (bool_decide_reflect (action = u "call")) as [->|N3].
  { intros [= <- <-] E. split; try (intros; done); [by intros [H|H]|]. cbn [d_action d_amount].
    intros n _ Hin. rewrite (call_amount_offered amount l n) in E; try done; [|naive_solver..].
    by injection E. }
  destruct (bool_decide_reflect (action = u "all_in")) as [->|N4]; cbn [orb];
    [intros [= <- <-] [= <-]; split; try (intros; done); by intros [H|H]|].
  destruct (bool_decide_reflect (action = u "all-in")) as [->|N5];
    [intros [= <- <-] [= <-]; split; try (intros; done); by intros [H|H]|].
  destruct (bool_decide_reflect (action = u "raise")) as [->|N6].
  - set (low := if _ <? _ then _ else _). intros H E.
    split; try (intros; done).
    + destruct low as [b|] eqn:El; [|done]. injection H as <- _. by intros [H|H].
    + destruct low as [b|] eqn:El; [|done]. injection H as <- _. done.
    + cbn [d_action d_amount]. intros n _ Hin. destruct (Hr n n Hin Hin) as [_ Hpos].
      assert (min_raise l = n) as Hmin.
      { apply min_raise_offered; try done; [lia|]. intros m Hm. by apply Hr. }
      subst low. rewrite Hmin, (proj2 (Z.ltb_lt 0 n) Hpos) in H.
      destruct (json_lt_int amount n) as [[]|] eqn:El; [| |done]; injection H as _ <-.
      * injection E as <-. done.
      * by eapply json_at_least.
    + destruct low as [b|] eqn:El; [|done]. injection H as <- _. done.
  - intros [= <- <-] E. split; cbn [d_action d_amount].
    + by intros [?|?].
    + by intros.
    + by intros.
    + by intros.
Qed.

(** ** Every answer *)

(** The player but for the reasoning it remembers *)
Definition reasoned (p p' : player) : Prop :=
  p' = p ∨ ∃ r, p' = p <| Player.last_decision_reasoning := Some r |>.

Lemma reasoned_refl p : reasoned p p.
Proof. by left. Qed.

Lemma reasoned_set p q r :
  reasoned p q → reasoned p (q <| Player.last_decision_reasoning := Some r |>).
Proof. intros [->|[x ->]]; right; eauto. Qed.

(** A computation of the player [p] that only remembers a reasoning, gives a value
    with [Q], and raises nothing but exceptions of the program. *)
Section Answers.
Context (p : player).

Definition answers {A} (m : M player A) (Q : A → Prop) : Prop := ∀ q, reasoned p q →
  reasoned p (m q).2 ∧
  match (m q).1 with Ok a => Q a | Raise e => is_exception e = true end.

Lemma answers_bind {A B} (m : M player A) (f : A → M player B) R Q :
  answers m R → (∀ a, R a → answers (f a) Q) → answers (m ≫= f) Q.
Proof.
  intros Hm Hf q Hq. unfold mbind, M_bind. destruct (Hm q Hq) as [H1 H2].
  destruct (m q) as [[a|e] q']; cbn [fst snd] in *; [|done]. by apply Hf.
Qed.

Lemma answers_ret {A} (a : A) (Q : A → Prop) : Q a → answers (mret a) Q.
Proof. by intros H q Hq. Qed.

Lemma answers_lift {A} (r : result A) (Q : A → Prop) :
  (∀ a, r = Ok a → Q a) → (∀ e, r = Raise e → is_exception e = true) → answers (lift r) Q.
Proof. intros H1 H2 q Hq. split; [done|]. cbn. destruct r; auto. Qed.

Lemma answers_get {A} (f : player → M player A) Q :
  (∀ q, reasoned p q → answers (f q) Q) → answers (get ≫= f) Q.
Proof. intros H q Hq. by apply (H q Hq q). Qed.

Lemma answers_set_reasoning r : answers (set_reasoning r) (λ _, True).
Proof.
  intros q Hq. split; [|done]. cbn. destruct (Player.last_decision_reasoning q); [|done].
  by apply reasoned_set.
Qed.

Lemma answers_try {A} (m h : M player A) handles Q :
  answers m Q → answers h Q → answers (try_except m handles h) Q.
Proof.
  intros Hm Hh q Hq. unfold try_except. destruct (Hm q Hq) as [H1 H2].
  destruct (m q) as [[a|e] q']; cbn [fst snd] in *; [done|].
  destruct (handles e); [by apply Hh|done].
Qed.

(** A handler for all exceptions leaves none. *)
Lemma answers_except {A} (m h : M player A) Q q :
  reasoned p q → answers m Q →
  (∀ q, reasoned p q → reasoned p (h q).2 ∧ ∃ a, (h q).1 = Ok a ∧ Q a) →
  ∃ a q', try_except m is_exception h q = (Ok a, q') ∧ Q a ∧ reasoned p q'.
Proof.
  intros Hq Hm Hh. unfold try_except. destruct (Hm q Hq) as [H1 H2].
  destruct (m q) as [[a|e] q']; cbn [fst snd] in *; [by exists a, q'|].
  rewrite H2. destruct (Hh q' H1) as [H3 (a & Ea & Qa)]. exists a, (h q').2.
  by destruct (h q') as [r ?]; cbn in *; subst.
Qed.
End Answers.

(** The exceptions of the conversions *)
Lemma loads_exception s e : loads s = Raise e → is_exception e = true.
Proof. unfold loads. destruct (parse_value _ _) as [[v r]|]; [destruct (skip_space r)|]; by intros [= <-]. Qed.

Lemma int_of_str_exception s e : int_of_str s = Raise e → is_exception e = true.
Proof.
  unfold int_of_str.
  assert (∀ r, match uint_of_str r with
    | Some d => Ok (Z.of_N (N.of_uint d)) | None => Raise ValueError end = Raise e →
    is_exception e = true) as H by (intros r; destruct (uint_of_str r); by intros [= <-]).
  destruct (strip s) as [|c r]; [by intros [= <-]|].
  case_bool_decide; [|case_bool_decide; apply H]. intros E. apply (H r).
  destruct (uint_of_str r); [done|]. exact E.
Qed.

Lemma int_of_json_exception v e : int_of_json v = Raise e → is_exception e = true.
Proof.
  destruct v as [|b|m|x|s|l|d]; cbn; try by intros [= <-].
  - destruct (float_of_lexeme x); by intros [= <-].
  - apply int_of_str_exception.
Qed.

Lemma normalise_exception chips l action amount e :
  normalise chips l action amount = Raise e → is_exception e = true.
Proof.
  assert (∀ v n, json_lt_int v n = Raise e → is_exception e = true) as J
    by (intros [] ?; cbn; by intros [= <-]).
  unfold normalise. do 3 (case_match; [done|]). case_match; [|done].
  destruct (0 <? min_raise l); [|done].
  destruct (json_lt_int amount (min_raise l)) eqn:E; [done|].
  cbn. intros [= <-]. by eapply J.
Qed.

(** A decision that respects the offers, if they are those of the game *)
Definition suits (gs : GameState.t) (p : player) (d : decision) : Prop :=
  offered (GameState.actions gs) → fits (GameState.actions gs) (Player.chips p) d.

Section Suits.
Context (gs : GameState.t) (p : player).
Notation suits := (suits gs p).

Lemma fold_fits : suits fold_decision.
Proof. intros _. split; done. Qed.

Lemma decide_from_answers json_str : answers p (decide_from json_str gs) suits.
Proof.
  unfold decide_from.
  eapply answers_bind; [by apply (answers_lift p _ (λ _, True)); [|apply loads_exception]|].
  intros v _. eapply answers_bind.
  { apply (answers_lift p _ (λ _, True)); [done|]. intros e. destruct v; by intros [= <-]. }
  intros d _. eapply answers_bind.
  { apply (answers_lift p _ (λ _, True)); [done|]. intros e.
    destruct (default _ _); by intros [= <-]. }
  intros action _. eapply answers_bind; [apply answers_set_reasoning|]. intros [] _.
  apply answers_get. intros q Hq.
  assert (Player.chips q = Player.chips p) as -> by by destruct Hq as [->|[? ->]].
  eapply answers_bind; [apply answers_lift; [intros a E; exact E|apply normalise_exception]|].
  intros [a v'] E. eapply answers_bind.
  { apply answers_lift; [intros z Ez; exact Ez|apply int_of_json_exception]. }
  intros z Ez. apply answers_ret. intros Hoff. by eapply normalise_fits.
Qed.

Lemma parse_llm_response_answers response :
  answers p (parse_llm_response response gs) suits.
Proof.
  unfold parse_llm_response. eapply answers_bind.
  - apply (answers_try p _ _ _ (λ o, ∀ d, o = Some d → suits d)); [|by apply answers_ret].
    unfold find_decision. eapply answers_bind.
    { apply (answers_lift p _ (λ _, True)); [done|]. intros e. destruct response; by intros [= <-]. }
    intros text _. destruct (json_match _) as [j|]; [|by apply answers_ret].
    eapply answers_bind; [apply decide_from_answers|]. intros d Hd. apply answers_ret.
    by intros ? [= <-].
  - intros [d|] Hd; [by apply answers_ret, Hd|].
    eapply answers_bind; [apply answers_set_reasoning|]. intros [] _.
    apply answers_ret, fold_fits.
Qed.
End Suits.

(** ** Every outcome of the network *)

Definition no_interrupt {A} (r : result A) : Prop :=
  match r with Ok _ => True | Raise e => is_exception e = true end.

(** Nobody interrupts the program while it waits, and the polling goes on until
    there is a reply or 40 seconds are over. *)
Record uninterrupted (net : network) : Prop := Uninterrupted {
  un_runner : no_interrupt (runner_answer net);
  un_session : no_interrupt (session_outcome net);
  un_body t status body :
    (t, Some (Reply status body)) ∈ reply_polls net → no_interrupt body;
  un_polls : existsb (λ poll, bool_decide (is_Some poll.2) || (40000 <=? poll.1))
               (reply_polls net) = true }.

Lemma no_interrupt_bind {A B} (r : result A) (f : A → result B) :
  no_interrupt r → (∀ a, no_interrupt (f a)) → no_interrupt (r ≫= f).
Proof. intros H Hf. destruct r; [apply Hf|exact H]. Qed.

Lemma answer_text_no_interrupt body : no_interrupt body → no_interrupt (answer_text body).
Proof.
  intros H. unfold answer_text.
  assert (∀ v, no_interrupt (json_last v)) as Hl.
  { intros v. destruct v as [| | | |s|l|]; try done; cbn.
    - unfold last_char. by destruct (last s).
    - by destruct (last l). }
  assert (∀ v, no_interrupt (json_first v)) as Hf.
  { intros v. destruct v as [| | | |s|l|]; try done; cbn; unfold nth_item.
    - by destruct (s !! 0%nat).
    - by destruct (l !! 0%nat). }
  assert (∀ k v, no_interrupt (json_item k v)) as Hi.
  { intros k v. destruct v; try done. cbn. unfold dict_item. by destruct (dict_get k d). }
  repeat (apply no_interrupt_bind; [auto|intros ?]). auto.
Qed.

Lemma offered_raise_paid g i p n :
  get_player i g = Some p → Player.status p = ACTIVE →
  numbered (u "raise (min ") n ∈ get_available_actions i g → n ≤ Player.chips p.
Proof.
  intros Hp Ha Hin. pose proof (offered_raise _ _ _ _ Hp Ha Hin) as ->.
  apply (elem_of_available g i p Hp Ha) in Hin. revert Hin. unfold numbered, entry.
  intros [H|[[_ H]|[[L H]|[(_ & L & _ & H)|(_ & _ & H)]]]]; try other_kind. done.
Qed.

Section Table.
Context (randint : nat → Z) (choice : list Z → nat) (g : t) (p : player) (gs : GameState.t).
Hypothesis Hdraws : fair_draws randint choice.
Hypothesis Hok : hand_ok g.
Hypothesis Hin : p ∈ players g.
Hypothesis Hactive : Player.status p = ACTIVE.
Hypothesis Hgs : get_llm_game_state (Player.id p) g = Ok gs.
Notation suits := (suits gs p).

Lemma table_player : get_player (Player.id p) g = Some p.
Proof.
  pose proof (ok_seated _ Hok) as Hs. destruct (proj1 (list_elem_of_lookup _ _) Hin) as [i Hi].
  by rewrite get_player_seated, (Hs _ _ Hi).
Qed.

Lemma table_offered : 0 < min_raise_total g → offered (GameState.actions gs).
Proof.
  intros Hmin. rewrite (game_state_actions _ _ _ Hgs). by apply (offered_to g _ p table_player).
Qed.

(** The random player respects the offers. *)
Lemma random_fits :
  ∃ d, RandomPlayerDecision.make_decision randint choice p gs = Ok d ∧ suits d.
Proof.
  destruct (random_decision_ok randint choice g p gs Hdraws (ok_seated _ Hok) Hin Hactive Hgs)
    as (d & offer & E & Ho & D). exists d. split; [done|].
  intros [_ Hc Hr]. pose proof (game_state_actions _ _ _ Hgs) as Ea.
  rewrite Ea in *.
  destruct D as [[-> ->]|[[-> ->]|[(n & -> & ->)|[(n & k & -> & Hk & ->)|(n & -> & ->)]]]];
    split; cbn [d_action d_amount]; try (intros; done); try by intros [?|?].
  - intros m _ Hm. by apply (Hc n m).
  - intros m _ Hm. destruct (Hr n m Ho Hm) as [-> Hpos].
    pose proof (offered_raise_paid g _ p m table_player Hactive Hm). nia.
Qed.

Lemma random_decision_fits q : reasoned p q →
  reasoned p (random_decision randint choice gs q).2 ∧
  ∃ d, (random_decision randint choice gs q).1 = Ok d ∧ suits d.
Proof.
  intros Hq. destruct random_fits as (d & E & D). split; [exact Hq|]. exists d. split; [|done].
  rewrite <- E. by destruct Hq as [->|[? ->]].
Qed.

Lemma random_decision_answers : answers p (random_decision randint choice gs) suits.
Proof.
  intros q Hq. destruct (random_decision_fits q Hq) as [H (d & -> & D)]. done.
Qed.

Lemma wait_for_reply_answers polls :
  (∀ t s b, (t, Some (Reply s b)) ∈ polls → no_interrupt b) →
  existsb (λ poll, bool_decide (is_Some poll.2) || (40000 <=? poll.1)) polls = true →
  answers p (wait_for_reply polls)
    (λ r, ∀ s b, r = Some (Reply s b) → no_interrupt b).
Proof.
  induction polls as [|[elapsed [r|]] polls IH]; intros Hb He; [done|..]; cbn [wait_for_reply].
  - apply answers_ret. intros s b [= ->]. apply (Hb elapsed s). by left.
  - cbn [existsb fst snd] in He. rewrite bool_decide_false in He by (by intros [? ?]).
    destruct (40000 <=? elapsed).
    + eapply answers_bind; [apply answers_set_reasoning|]. intros [] _. by apply answers_ret.
    + apply IH; [|done]. intros t s b Hin'. apply (Hb t s). by right.
Qed.

Lemma handle_reply_answers r :
  (∀ s b, r = Reply s b → no_interrupt b) →
  answers p (handle_reply randint choice r gs) suits.
Proof.
  intros Hb. destruct r as [| |s b]; cbn [handle_reply].
  - apply random_decision_answers.
  - apply answers_ret, fold_fits.
  - destruct (s =? 200); cbn [negb]; [|apply answers_ret, fold_fits].
    eapply answers_bind; [|intros text _; apply parse_llm_response_answers].
    apply (answers_lift p _ (λ _, True)); [done|]. intros e E.
    pose proof (answer_text_no_interrupt b (Hb s b eq_refl)) as H. by rewrite E in H.
Qed.

Lemma decides_and_fits net :
  uninterrupted net → Player.kind p ≠ HumanPlayer →
  ∃ d p', make_decision randint choice net gs p = (Ok d, p') ∧ suits d ∧ reasoned p p'.
Proof.
  intros [Hr Hs Hb Hp] Hk. unfold make_decision. run_monad.
  destruct (Player.kind p) eqn:K; [done|..].
  - destruct random_fits as (d & E & D). exists d, p. unfold lift. rewrite E. split_and!; [done|done|by left].
  - unfold llm_make_decision. destruct (has_agent net); cbn [negb].
    + apply answers_except; [by left| |by apply random_decision_fits].
      eapply answers_bind; [apply (answers_lift p _ (λ _, True)); [done|]|].
      { intros e E. by rewrite E in Hr. }
      intros text _. apply parse_llm_response_answers.
    + destruct (random_decision_fits p) as [H (d & E & D)]; [by left|].
      exists d, (random_decision randint choice gs p).2. split_and!; [|done|done].
      rewrite <- E. apply surjective_pairing.
  - unfold api_make_decision. apply answers_except; [by left| |by apply random_decision_fits].
    eapply answers_bind.
    { apply (answers_try p _ _ _ (λ _, True)); [|by apply answers_ret].
      apply (answers_lift p _ (λ _, True)); [done|]. intros e E. by rewrite E in Hs. }
    intros [] _. eapply answers_bind; [by apply wait_for_reply_answers|].
    intros [r|] Hbody; [|apply answers_ret, fold_fits].
    apply handle_reply_answers. intros s b ->. by apply (Hbody s).
Qed.
End Table.


(** ** Answers in the documented format *)

(** The text of a JSON object without a closing brace inside *)
Record object_text (o : pystr) (d : list (pystr * json)) : Prop := ObjectText {
  ot_body : ∃ body, o = u "{" ++ body ++ u "}" ∧ 125%N ∉ body
                    ∧ contains body quoted_action = true;
  ot_loads : loads o = Ok (JDict d) }.

(** An answer that holds the object [o]: within other text, or in a fenced block *)
Inductive presents (o : pystr) : pystr → Prop :=
  | presents_bare pre post :
      123%N ∉ pre → contains (pre ++ o ++ post) (u "```json") = false →
      presents o (pre ++ o ++ post)
  | presents_fenced pre post :
      96%N ∉ pre → find_sub fence_end (o ++ fence_end) = Some (length o) →
      presents o (pre ++ u "```json" ++ 10%N :: o ++ fence_end ++ post).

Lemma json_match_object pre body post :
  123%N ∉ pre → 125%N ∉ body → contains body quoted_action = true →
  json_match (pre ++ (u "{" ++ body ++ u "}") ++ post) = Some (u "{" ++ body ++ u "}").
Proof.
  intros Hp Hb Hc. unfold json_match. change (u "{") with [123%N]. rewrite search_skip by done.
  rewrite <- (assoc_L (++)). apply (search_here [123%N]). unfold object_body.
  rewrite <- (assoc_L (++)). change (u "}") with [125%N]. cbn [app].
  rewrite find_sub_char by done. cbn [mbind option_bind].
  by rewrite take_app_length, Hc.
Qed.

Lemma cleaned_fenced pre o post body :
  96%N ∉ pre → o = u "{" ++ body → find_sub fence_end (o ++ fence_end) = Some (length o) →
  cleaned (pre ++ u "```json" ++ 10%N :: o ++ fence_end ++ post) = o.
Proof.
  intros Hp Ho Hf. unfold cleaned. rewrite contains_app. unfold markdown_match.
  change (u "```json") with (96%N :: [96; 96; 106; 115; 111; 110]%N).
  rewrite search_skip by done. rewrite (search_here _ _ _ o); [done|].
  cbn [fence_body]. change (is_space 10%N) with true. cbv beta iota.
  assert (fence_body (o ++ fence_end ++ post) = None) as ->.
  { rewrite Ho. change (u "{") with [123%N]. done. }
  rewrite bool_decide_true by done.
  rewrite (assoc_L (++)), (find_sub_extend _ _ _ _ Hf). cbn [fmap option_fmap option_map].
  by rewrite <- (assoc_L (++)), take_app_length.
Qed.

Lemma presents_match o text body :
  presents o text → o = u "{" ++ body ++ u "}" → 125%N ∉ body →
  contains body quoted_action = true → json_match (cleaned text) = Some o.
Proof.
  intros Hp Ho Hb Hc. destruct Hp as [pre post H1 H2|pre post H1 H2].
  - unfold cleaned. rewrite H2, Ho. by apply json_match_object.
  - rewrite (cleaned_fenced pre o post (body ++ u "}")) by done.
    rewrite Ho. pose proof (json_match_object [] body []) as H.
    rewrite (right_id_L [] (++)) in H. by apply H; [apply not_elem_of_nil|..].
Qed.

(** What an integer amount comes to *)
Lemma call_amount_integer l z : ∃ n, call_amount (JInt z) l = JInt n.
Proof.
  induction l as [|x l IH]; cbn [call_amount]; [by exists z|].
  destruct (contains _ _); [|done]. destruct (call_match x); eauto.
Qed.

Lemma normalise_integer chips l a z : ∃ a' n, normalise chips l a (JInt z) = Ok (a', JInt n).
Proof.
  unfold normalise. case_match; [eauto|]. case_match.
  { destruct (call_amount_integer l z) as [n ->]. eauto. }
  case_match; [eauto|]. case_match; [|eauto].
  destruct (0 <? min_raise l); cbn; [destruct (z <? min_raise l)|]; eauto.
Qed.

(** The decision that the action [a] with the amount [z] asks for *)
Record asked (offers : list pystr) (chips : Z) (a : pystr) (z : Z) (d : decision) : Prop := Asked {
  as_fold : a = u "fold" ∨ a = u "check" → d = Decision a 0;
  as_call n : a = u "call" → numbered (u "call (") n ∈ offers → d = Decision a n;
  as_raise n : a = u "raise" → numbered (u "raise (min ") n ∈ offers →
               d = Decision a (Z.max z n);
  as_all_in : a = u "all_in" ∨ a = u "all-in" → d = Decision (u "all_in") chips }.

Lemma normalise_asked chips l a z a' n :
  offered l → normalise chips l a (JInt z) = Ok (a', JInt n) → asked l chips a z (Decision a' n).
Proof.
  intros [Ho Hc Hr] H. split.
  - intros [-> | ->]; cbn in H; by injection H as <- <-.
  - intros m -> Hin. unfold normalise in H. rewrite !bool_decide_eq_false_2 in H by str_ne.
    rewrite bool_decide_eq_true_2 in H by done. cbn [orb] in H.
    rewrite (call_amount_offered _ _ m) in H; [by injection H as <- <-|done|..]; naive_solver.
  - intros m -> Hin. destruct (Hr m m Hin Hin) as [_ Hm]. unfold normalise in H.
    rewrite !(bool_decide_eq_false_2 (u "raise" = _)) in H by str_ne.
    rewrite bool_decide_eq_true_2 in H by done. cbn [orb] in H.
    rewrite (min_raise_offered l m), (proj2 (Z.ltb_lt 0 m) Hm) in H;
      [|done|lia|intros k Hk; by apply Hr|done].
    cbn in H. destruct (Z.ltb_spec z m); injection H as <- <-; f_equal; lia.
  - intros [-> | ->]; cbn in H; by injection H as <- <-.
Qed.


(** ** A brace in the reasoning *)

(** The documented object, printed over several lines *)
Definition answer (n : nat) (a : pystr) (z : Z) (r : pystr) : pystr :=
  dumps_indent n (JDict [(u "action", JStr a); (u "amount", JInt z); (u "reasoning", JStr r)]).

Lemma hex_digit_small k : (k < 16)%N → (hex_digit k < 125)%N.
Proof. unfold hex_digit. destruct (k <? 10)%N eqn:E; [apply N.ltb_lt in E|]; lia. Qed.

Lemma escape_no_brace s : 125%N ∉ s → 125%N ∉ (s ≫= escape_char).
Proof.
  intros H [c [Hc Hin]]%list_elem_of_bind. assert (c ≠ 125%N) as Hne by (intros ->; done).
  revert Hc. unfold escape_char. repeat (case_bool_decide; [set_solver|]).
  destruct (N.ltb_spec c 32) as [L|L]; [|set_solver].
  assert (c / 16 < 16)%N as L1 by (apply N.Div0.div_lt_upper_bound; lia).
  pose proof (hex_digit_small _ L1) as HA.
  pose proof (hex_digit_small (c mod 16) ltac:(by apply N.mod_lt)) as HB.
  rewrite !elem_of_cons, elem_of_nil. lia.
Qed.

(** A string that is not closed *)
Lemma parse_str_open s : parse_str ((s ≫= escape_char) ++ [125%N]) = None.
Proof.
  induction s as [|c s IH]; [done|]. rewrite bind_cons, <- (assoc_L (++)).
  set (t := (s ≫= escape_char) ++ [125%N]) in *. unfold escape_char.
  repeat match goal with
  | |- context [bool_decide (c = ?k)] =>
      destruct (decide (c = k)) as [->|];
      [rewrite bool_decide_true by done; cbn; by rewrite IH
      |rewrite (bool_decide_false (c = k)) by done]
  end.
  destruct (N.ltb_spec c 32) as [Hc|Hc].
  - destruct (control_escape c Hc) as [H1 H2]. cbn [app parse_str].
    rewrite bool_decide_false, !bool_decide_true by done. rewrite H1. cbn [mbind option_bind].
    rewrite IH, H2. cbn [mbind option_bind].
    destruct t as [|b [|v [|? [|? [|? [|? ?]]]]]]; try done. by rewrite andb_false_r.
  - cbn [app parse_str]. rewrite !bool_decide_false by done.
    assert ((c <? 32)%N = false) as -> by (by apply N.ltb_ge). by rewrite IH.
Qed.

Section Cut.
Context (n : nat).
Notation nl := (new_line n 1).
Notation mem k v := (member (new_line n) (new_line n) 1 (k, v)).

(** The object up to the text of its reasoning *)
Definition answer_head (a : pystr) (z : Z) : pystr :=
  nl ++ mem (u "action") (JStr a) ++ u "," ++ nl ++ mem (u "amount") (JInt z) ++ u "," ++ nl
    ++ dumps_str (u "reasoning") ++ u ": " ++ [34%N].

Lemma answer_shape a z r :
  answer n a z r
  = u "{" ++ answer_head a z ++ (r ≫= escape_char) ++ [34%N] ++ new_line n 0 ++ u "}".
Proof.
  unfold answer, dumps_indent, answer_head. rewrite dump_dict. rewrite !fmap_cons, !join_cons2.
  cbn [fmap list_fmap join]. unfold member at 3. cbn [fst snd dump]. unfold dumps_str at 2.
  change (u "{") with [123%N]. change (u ",") with [44%N]. cbn [app].
  do 4 (rewrite <- ?(assoc_L (++)); cbn [app]). done.
Qed.

(** What is cut off at the brace does not parse. *)
Lemma loads_cut a z r :
  loads (u "{" ++ answer_head a z ++ (r ≫= escape_char) ++ u "}") = Raise JSONDecodeError.
Proof.
  unfold answer_head. change (u "{") with [123%N]. change (u "}") with [125%N].
  change (u ",") with [44%N].
  set (third := dumps_str (u "reasoning") ++ u ": " ++ [34%N] ++ (r ≫= escape_char) ++ [125%N]).
  assert ([123%N] ++ (nl ++ mem (u "action") (JStr a) ++ [44%N] ++ nl ++ mem (u "amount") (JInt z)
            ++ [44%N] ++ nl ++ dumps_str (u "reasoning") ++ u ": " ++ [34%N])
            ++ (r ≫= escape_char) ++ [125%N]
          = 123%N :: nl ++ mem (u "action") (JStr a) ++ 44%N :: nl ++ mem (u "amount") (JInt z)
            ++ 44%N :: nl ++ third) as ->.
  { unfold third. do 4 (rewrite <- ?(assoc_L (++)); cbn [app]). done. }
  unfold loads. rewrite skip_non_space by done.
  match goal with |- context [(2 * length ?s + 2)%nat] => set (len := length s) end.
  assert (length (mem (u "action") (JStr a)) + length (mem (u "amount") (JInt z)) + 3 ≤ len)%nat
    as Hlen.
  { unfold len. cbn [length]. rewrite !length_app. cbn [length]. rewrite !length_app.
    cbn [length]. lia. }
  destruct (2 * len + 2)%nat as [|[|[|[|fuel]]]] eqn:Ef; [lia..|].
  assert (∀ k (v : json) rest, member (new_line n) (new_line n) 1 (k, v) ++ rest
            = 34%N :: (k ≫= escape_char) ++ 34%N :: 58%N :: 32%N
                :: dump (new_line n) (new_line n) 1 v ++ rest) as Em
    by (intros; apply (member_cons _ _ 1 (k, v))).
  assert (∀ k v m acc rest, reads (new_line n) (new_line n) v → plain v →
    (2 * length (mem k v) ≤ m)%nat → k ∉ acc.*1 →
    parse_members (S m) acc (mem k v ++ 44%N :: nl ++ 34%N :: rest)
    = parse_members m (acc ++ [(k, v)]) (34%N :: rest)) as step.
  { intros. apply (parse_member_comma _ _ 1 (k, v));
      try done. apply new_line_spaces. }
  assert (∃ t, mem (u "amount") (JInt z) ++ 44%N :: nl ++ third = 34%N :: t) as [t Et]
    by (rewrite Em; eauto).
  rewrite Em, parse_object, <- Em by apply new_line_spaces. rewrite Et, step, <- Et;
    [|by apply parse_value_dump; apply new_line_spaces|done|lia|set_solver].
  assert (∃ t, third = 34%N :: t) as [t' Et'] by (unfold third, dumps_str; cbn [app]; eauto).
  rewrite Et', step, <- Et';
    [|by apply parse_value_dump; apply new_line_spaces|done|lia|].
  2:{ cbn. rewrite list_elem_of_singleton. str_ne. }
  unfold third, dumps_str. cbn [app parse_members]. rewrite bool_decide_true by done.
  rewrite <- (assoc_L (++)). cbn [app]. rewrite parse_str_dumps. cbn [mbind option_bind].
  change (u ": ") with [58; 32]%N. cbn [app]. rewrite skip_non_space by done.
  rewrite bool_decide_true by done. change (skip_space (32%N :: ?x)) with (skip_space x).
  rewrite skip_non_space by done. destruct fuel as [|fuel]; [done|]. cbn [parse_value].
  rewrite bool_decide_true by done. by rewrite parse_str_open.
Qed.
End Cut.

Lemma new_line_no_brace n k : 125%N ∉ new_line n k.
Proof.
  unfold new_line. rewrite elem_of_cons. intros [H|H]; [done|].
  by apply elem_of_replicate in H as [H _].
Qed.

Lemma answer_head_no_brace n a z : 125%N ∉ a → 125%N ∉ answer_head n a z.
Proof.
  intros Ha. unfold answer_head, member, dumps_str. cbn [fst snd dump]. unfold dumps_str.
  assert (125%N ∉ str_of_Z z) as Hz by by apply str_of_Z_no.
  pose proof (escape_no_brace a Ha) as He. pose proof (new_line_no_brace n 1) as Hn.
  assert (125%N ∉ (u "action" ≫= escape_char)) as H1 by (vm_compute; set_solver).
  assert (125%N ∉ (u "amount" ≫= escape_char)) as H2 by (vm_compute; set_solver).
  assert (125%N ∉ (u "reasoning" ≫= escape_char)) as H3 by (vm_compute; set_solver).
  assert (125%N ∉ u ": ") as H4 by (vm_compute; set_solver).
  assert (125%N ∉ u ",") as H5 by (vm_compute; set_solver).
  rewrite !not_elem_of_app, !not_elem_of_cons, !not_elem_of_app.
  rewrite !not_elem_of_cons. repeat split; first [done|apply not_elem_of_nil].
Qed.

Lemma answer_head_action n a z s : contains (answer_head n a z ++ s) quoted_action = true.
Proof.
  unfold answer_head. set (tl := u "," ++ _). unfold member. cbn [fst snd].
  change (dumps_str (u "action")) with quoted_action. rewrite <- !(assoc_L (++)).
  apply contains_app.
Qed.

(** C29: an answer in the documented format whose reasoning has a closing brace is not
    understood, whatever the decision: the search for the object stops at the first
    closing brace, the text up to it is no JSON, and the player folds. *)
Theorem brace_in_reasoning_folds n pre post a z r gs p :
  123%N ∉ pre → contains (pre ++ answer n a z r ++ post) (u "```json") = false →
  125%N ∉ a → 125%N ∈ r → Player.last_decision_reasoning p ≠ None →
  parse_llm_response (JStr (pre ++ answer n a z r ++ post)) gs p
  = (Ok fold_decision, p <| Player.last_decision_reasoning := Some parse_failure |>).
Proof.
  intros Hp Hf Ha Hr Hl. apply list_elem_of_split_l in Hr as (r1 & r2 & -> & Hr1).
  assert (∃ post', pre ++ answer n a z (r1 ++ 125%N :: r2) ++ post
    = pre ++ (u "{" ++ (answer_head n a z ++ (r1 ≫= escape_char)) ++ u "}") ++ post')
    as [post' E].
  { eexists. rewrite answer_shape, bind_app, bind_cons.
    change (escape_char 125) with [125%N]. change (u "}") with [125%N].
    rewrite <- !(assoc_L (++)). cbn [app]. reflexivity. }
  unfold parse_llm_response, try_except, find_decision. run_monad. cbn [as_str].
  unfold cleaned. rewrite Hf, E, json_match_object; [|done|..|apply answer_head_action].
  2:{ rewrite not_elem_of_app. split; [by apply answer_head_no_brace|by apply escape_no_brace]. }
  unfold decide_from. run_monad. rewrite <- (assoc_L (++)), loads_cut. cbn.
  by destruct (Player.last_decision_reasoning p).
Qed.

Lemma plain_to_dict gs : plain (JDict (GameState.to_dict gs)).
Proof.
  apply plain_dict. split.
  - apply (bool_decide_unpack _). vm_compute. done.
  - assert (∀ l, plain (JList (JStr <$> l))) as Hs
      by (intros l; apply plain_list, Forall_fmap, Forall_true; done).
    unfold GameState.to_dict. repeat (constructor; [first [done|apply Hs|idtac]|]); [|constructor].
    apply plain_list, Forall_fmap, Forall_true. intros q.
    apply plain_dict. split; [apply (bool_decide_unpack _); vm_compute; done|].
    by repeat constructor.
Qed.

(** C27: the text an agent is sent is the JSON of the state it is shown, and nothing
    is lost on the way: read back, it gives the same state. *)
Theorem input_json_roundtrip gs :
  (d ← loads (input_json gs); as_dict d ≫= GameState.from_dict) = Ok gs.
Proof.
  unfold input_json. rewrite loads_dumps_indent by apply plain_to_dict.
  cbn [mbind result_bind as_dict]. apply GameState_from_to_dict.
Qed.
