(* ===== verification/LogProps.v ===== *)
(** * What the log viewer reads

    A log read piece by piece gives what it gives at once; the prompt an agent is sent
    tells the viewer the state of the game; the actions are not understood. *)
From stdpp Require Import strings.
From S2P Require Import Prelude Py Json JsonProps Regex Floats GameModels PlayerModels LlmPlayers.
From S2P Require Import Game GameProps HandInvariant ServerProps LlmProps.
From S2P Require Import GameLog LogViewer.
Import LogRecord LogParser GameLog.

(** ** Reading piece by piece *)

(** The next line starts a record, if there is one. *)
Definition at_record (lines : list pystr) : Prop :=
  match lines with [] => True | l :: _ => is_record (strip l) = true end.

Lemma collect_lines_app k a b : at_record b → collect_lines k (a ++ b) = collect_lines k a.
Proof.
  intros Hb. revert k. induction a as [|l a IH]; intros k.
  - destruct b as [|l b]; [done|]. cbn in Hb |- *. rewrite Hb. by destruct (0 <? k).
  - cbn. destruct (0 <? k); [|done]. destruct (is_record (strip l)); [done|]. by rewrite IH.
Qed.

Lemma parse_message_next message level a b p : at_record b →
  parse_message message level (a ++ b) p = parse_message message level a p.
Proof.
  intros Hb. unfold parse_message, collect_multi_line_json. by rewrite collect_lines_app.
Qed.

Lemma parse_line_next l a b p : at_record b → parse_line l (a ++ b) p = parse_line l a p.
Proof.
  intros Hb. unfold parse_line. destruct (record_match (strip l)) as [[[ts level] message]|]; [|done].
  unfold mbind at 1 3, M_bind, lift. destruct (strptime ts); [|done].
  unfold mbind, M_bind. by rewrite parse_message_next.
Qed.

Lemma parse_lines_app a b p : at_record b →
  parse_lines (a ++ b) p = (es ← parse_lines a; rest ← parse_lines b; mret (es ++ rest)) p.
Proof.
  intros Hb. revert p. induction a as [|l a IH]; intros p.
  - cbn. unfold mbind, M_bind, mret, M_ret. by destruct (parse_lines b p) as [[]].
  - cbn [parse_lines app]. unfold mbind, M_bind. rewrite parse_line_next by done.
    destruct (parse_line l a p) as [[es|e] p']; [|done]. rewrite IH.
    unfold mbind, M_bind. destruct (parse_lines a p') as [[es'|e] p'']; [|done].
    unfold mret, M_ret. destruct (parse_lines b p'') as [[rest|e] q]; [|done].
    by rewrite (assoc_L (++)).
Qed.

(** A text that is empty or ends with a line *)
Definition full_lines (s : pystr) : Prop := s = [] ∨ last s = Some 10%N.

Lemma readlines_app s t : full_lines s → readlines (s ++ t) = readlines s ++ readlines t.
Proof.
  induction s as [|c s IH]; intros H; [done|]. cbn [app readlines].
  destruct H as [|H]; [done|]. destruct s as [|d s].
  { cbn in H. injection H as ->. done. }
  rewrite IH by (by right). case_bool_decide; [done|].
  destruct (readlines (d :: s)) eqn:E; [|done]. exfalso. clear -E. cbn in E.
  case_bool_decide; [done|]. by destruct (readlines s).
Qed.

(** The position of the file is nothing the lines look at or change. *)
Definition moved (n : nat) (p : t) : t := p <| last_file_position ::= Nat.add n |>.
Definition blind {A} (m : M t A) : Prop := ∀ p,
  last_file_position (m p).2 = last_file_position p ∧
  ∀ n, m (moved n p) = ((m p).1, moved n (m p).2).

Lemma blind_ret {A} (a : A) : blind (mret a).
Proof. done. Qed.
Lemma blind_raise {A} e : blind (A := A) (raise e).
Proof. done. Qed.
Lemma blind_lift {A} (r : result A) : blind (lift r).
Proof. done. Qed.
Lemma blind_modify f :
  (∀ p, last_file_position (f p) = last_file_position p ∧ ∀ n, f (moved n p) = moved n (f p)) →
  blind (modify f).
Proof. intros H p. unfold modify. split; [apply H|]. intros n. by rewrite (proj2 (H p)). Qed.
Lemma blind_bind {A B} (m : M t A) (f : A → M t B) :
  blind m → (∀ a, blind (f a)) → blind (m ≫= f).
Proof.
  intros Hm Hf p. destruct (Hm p) as [H1 H2]. unfold mbind, M_bind.
  destruct (m p) as [[a|e] p']; cbn [fst snd] in *.
  - destruct (Hf a p') as [H3 H4]. split; [congruence|]. intros n. by rewrite H2, H4.
  - split; [done|]. intros n. by rewrite H2.
Qed.
Lemma blind_get {A} (f : t → M t A) :
  (∀ n p, f (moved n p) = f p) → (∀ p, blind (f p)) → blind (get ≫= f).
Proof.
  intros Hf Hb p. unfold mbind, M_bind, get. split; [apply Hb|]. intros n. rewrite Hf. apply Hb.
Qed.
Lemma blind_try {A} (m h : M t A) e : blind m → blind h → blind (try_except m e h).
Proof.
  intros Hm Hh p. destruct (Hm p) as [H1 H2]. unfold try_except.
  destruct (m p) as [[a|x] p']; cbn [fst snd] in *.
  - split; [done|]. intros n. by rewrite H2.
  - destruct (Hh p') as [H3 H4]. destruct (e x) eqn:E.
    + split; [congruence|]. intros n. by rewrite H2, E, H4.
    + split; [done|]. intros n. by rewrite H2, E.
Qed.
Lemma blind_for_each {A} (l : list A) f : (∀ x, blind (f x)) → blind (for_each l f).
Proof. intros H. induction l as [|x l IH]; [apply blind_ret|]. by apply blind_bind. Qed.

#[local] Hint Resolve blind_ret blind_raise blind_lift : core.
Ltac blind_parts :=
  repeat lazymatch goal with
  | |- blind (match ?x with _ => _ end) => destruct x
  | |- blind (mbind _ get) => apply blind_get; [by intros ? ?|intros ?]
  | |- blind (mbind _ _) => apply blind_bind; [|intros ?]
  | |- blind (modify _) => apply blind_modify; done
  | |- blind (try_except _ _ _) => apply blind_try
  | |- blind (for_each _ _) => apply blind_for_each; intros ?
  | |- blind _ => auto 1; fail
  end.

Lemma blind_learn f : blind (set_state f).
Proof. unfold set_state. blind_parts. Qed.
#[local] Hint Resolve blind_learn : core.
Lemma blind_set_player pid f : blind (set_player pid f).
Proof. unfold set_player. blind_parts. Qed.
#[local] Hint Resolve blind_set_player : core.
Lemma blind_update_player v : blind (update_player v).
Proof. unfold update_player. blind_parts. Qed.
#[local] Hint Resolve blind_update_player : core.

Lemma blind_extract m name : blind (extract_cards_from_json_message m name).
Proof.
  unfold extract_cards_from_json_message, target_player, learn_cards, learn_players, learn_bets.
  blind_parts.
Qed.
#[local] Hint Resolve blind_extract : core.

Lemma blind_parse_message m level l : blind (parse_message m level l).
Proof. unfold parse_message. cbv zeta. blind_parts. Qed.
#[local] Hint Resolve blind_parse_message : core.

Lemma blind_parse_lines lines : blind (parse_lines lines).
Proof.
  induction lines as [|l lines IH]; [done|]. cbn [parse_lines]. unfold parse_line.
  blind_parts.
Qed.

Lemma at_record_readlines t : readlines t = [] ∨ is_record (strip (default [] (head (readlines t)))) = true →
  at_record (readlines t).
Proof. intros [->|H]; [done|]. by destruct (readlines t). Qed.


Lemma moved_moved n k p : moved n (moved k p) = moved (n + k) p.
Proof. unfold moved, update. cbn. f_equal. lia. Qed.

Lemma parse_new_lines_eq text p :
  parse_new_lines (Some text) p
  = parse_lines (readlines (drop (last_file_position p) text))
      (moved (length (drop (last_file_position p) text)) p).
Proof. done. Qed.

(** C38: a log that grows is read as if it had been there from the start: when what is
    there at the first reading ends with a line and the next reading starts at a
    record, both readings together have the events, and leave the viewer with the
    state of the game, that one reading of the whole has. *)
Theorem parse_new_lines_incremental pre old new p es p1 :
  full_lines old → at_record (readlines new) → last_file_position p = length pre →
  parse_new_lines (Some (pre ++ old)) p = (Ok es, p1) →
  parse_new_lines (Some (pre ++ old ++ new)) p =
    let '(r, p2) := parse_new_lines (Some (pre ++ old ++ new)) p1 in (app es <$> r, p2).
Proof.
  intros Ho Hn Hp H1. rewrite parse_new_lines_eq, Hp, drop_app_length in H1.
  destruct (blind_parse_lines (readlines old) p) as [K E]. rewrite E in H1.
  destruct (parse_lines (readlines old) p) as [r q] eqn:F. cbn [fst snd] in *.
  injection H1 as -> <-.
  rewrite !parse_new_lines_eq. change (last_file_position (moved ?n q)) with (n + last_file_position q)%nat.
  rewrite K, Hp, drop_app_length, Nat.add_comm, drop_app_add.
  rewrite drop_app_length.
  rewrite readlines_app, parse_lines_app by done. unfold mbind, M_bind.
  rewrite (proj2 (blind_parse_lines _ p)), F. cbn [fst snd].
  destruct (blind_parse_lines (readlines new) q) as [_ B]. rewrite moved_moved, !B, length_app.
  replace (length new + length old)%nat with (length old + length new)%nat by lia.
  by destruct (parse_lines (readlines new) q) as [[rest|e] q'].
Qed.

(** ** Searching *)

(** A text that lacks a character of another does not contain it. *)
(** Membership in concrete texts *)
Ltac by_compute := apply (bool_decide_unpack _); vm_compute; exact I.

Lemma find_sub_elem t s i c : find_sub t s = Some i → c ∈ t → c ∈ s.
Proof.
  revert i. induction s as [|d s IH]; intros i; cbn [find_sub].
  - destruct t as [|e t]; [|done]. by intros _ ?%elem_of_nil.
  - destruct (startswith (d :: s) t) eqn:E.
    + intros _ Hc. apply startswith_spec in E as [r ->]. apply elem_of_app. by left.
    + destruct (find_sub t s) as [j|]; [|done]. intros _ Hc. right. by eapply IH.
Qed.

Lemma not_contains c t s : c ∈ t → c ∉ s → contains s t = false.
Proof.
  intros Hc Hs. apply bool_decide_eq_false. intros [i Hi]. apply Hs. by eapply find_sub_elem.
Qed.

Lemma literal_here {A} t (k : pystr → option A) s : literal t k (t ++ s) = k s.
Proof. unfold literal. by rewrite startswith_app, drop_app_length. Qed.

Lemma span_word_app w s :
  Forall (λ c, is_word c = true) w → from_option (λ c, is_word c = false) True (head s) →
  span_word (w ++ s) = (w, s).
Proof.
  intros Hw Hs. induction Hw as [|c w Hc _ IH]; cbn [app span_word].
  - destruct s as [|c s]; [done|]. cbn in Hs |- *. by rewrite Hs.
  - by rewrite Hc, IH.
Qed.

Lemma span_digits_prefix w s :
  Forall (λ c, is_digit c = true) w → from_option (λ c, is_digit c = false) True (head s) →
  span_digits (w ++ s) = (w, s).
Proof.
  intros Hw Hs. induction Hw as [|c w Hc _ IH]; cbn [app span_digits].
  - destruct s as [|c s]; [done|]. cbn in Hs |- *. by rewrite Hs.
  - by rewrite Hc, IH.
Qed.

(** ** Records *)

Definition timestamp_ok (ts : pystr) : Prop :=
  is_record ts = true ∧ length ts = 23%nat ∧ strptime ts = Ok ts.

Lemma fits_app shape s r : fits shape s = true → fits shape (s ++ r) = true.
Proof.
  revert s. induction shape as [|c shape IH]; intros [|d s]; cbn [fits app]; try done.
  rewrite !andb_true_iff. intros [H1 H2]. split; [exact H1|by apply IH].
Qed.

Lemma is_record_app s r : is_record s = true → is_record (s ++ r) = true.
Proof. exact (fits_app timestamp_shape s r). Qed.

Lemma timestamp_head : timestamp_shape = 48%N :: drop 1 timestamp_shape.
Proof. vm_compute. reflexivity. Qed.

Lemma is_record_digit c s : is_record (c :: s) = true → is_digit c = true.
Proof.
  unfold is_record. rewrite timestamp_head. generalize (drop 1 timestamp_shape). intros shape.
  cbn [fits]. rewrite bool_decide_true by done. rewrite andb_true_iff. by intros [H _].
Qed.

(** A message of one line, which no white space ends *)
Definition one_line (message : pystr) : Prop :=
  10%N ∉ message ∧ from_option (λ c, is_space c = false) False (last message).

Lemma line_rest_id s : 10%N ∉ s → line_rest s = s.
Proof.
  induction s as [|c s IH]; [done|]. rewrite not_elem_of_cons. intros [H1 H2]. cbn [line_rest].
  rewrite bool_decide_false by congruence. by rewrite IH.
Qed.

Lemma strip_line s c : head s = Some c → is_space c = false →
  from_option (λ c, is_space c = false) False (last s) → strip (s ++ [10%N]) = s.
Proof.
  intros Hc Sc Hl. destruct s as [|c' s]; [done|]. injection Hc as ->.
  destruct (last (c :: s)) as [d|] eqn:Hd; [|done]. cbn in Hl.
  apply last_Some in Hd as [r E]. unfold strip. cbn [app]. rewrite lstrip_id by done.
  change (c :: s ++ [10%N]) with ((c :: s) ++ [10%N]). rewrite E, reverse_snoc.
  change (lstrip (10%N :: reverse (r ++ [d]))) with (lstrip (reverse (r ++ [d]))).
  rewrite reverse_snoc, lstrip_id by done. by rewrite <- reverse_snoc, reverse_involutive.
Qed.

Definition header (ts level : pystr) : pystr := ts ++ u " - poker_game - " ++ level ++ u " - ".

Lemma log_record_header ts level message :
  log_record ts level message = (header ts level ++ message) ++ [10%N].
Proof. unfold log_record, header. by rewrite <- !(assoc_L (++)). Qed.

Lemma level_word level : level ∈ [u "DEBUG"; u "INFO"] →
  Forall (λ c, is_word c = true) level ∧ level ≠ [].
Proof.
  revert level. apply Forall_forall.
  repeat constructor; (discriminate || (intros E; vm_compute in E; discriminate E)).
Qed.

Lemma record_match_header ts level message :
  timestamp_ok ts → level ∈ [u "DEBUG"; u "INFO"] → one_line message →
  record_match (strip ((header ts level ++ message) ++ [10%N])) = Some (ts, level, message).
Proof.
  intros (Hr & Hl & _) Hv [Hn He]. destruct ts as [|c ts]; [done|].
  rewrite (strip_line _ c); [|done| |].
  - unfold record_match, header. rewrite <- !(assoc_L (++)), (is_record_app _ _ Hr).
    rewrite <- Hl, drop_app_length, take_app_length, literal_here.
    destruct (level_word level Hv) as [Hw Hne]. unfold word. rewrite span_word_app by done.
    destruct level as [|d level]; [done|]. rewrite literal_here. unfold rest_text.
    rewrite line_rest_id by done. by destruct message.
  - apply is_record_digit in Hr. by apply digit_not_space.
  - rewrite last_app. by destruct (last message).
Qed.

(** A record whose message gives no event changes nothing. *)
Lemma parse_line_header ts level message next p :
  timestamp_ok ts → level ∈ [u "DEBUG"; u "INFO"] → one_line message →
  parse_line ((header ts level ++ message) ++ [10%N]) next p =
    match parse_message message level next p with
    | (Ok None, q) => (Ok [], q)
    | (Ok (Some data), q) =>
        let e := Event ts (current_hand q) message data in
        (Ok [e], q <| events ::= λ l, l ++ [e] |> <| state ::= update_game_state e |>)
    | (Raise e, q) => (Raise e, q)
    end.
Proof.
  intros Ht Hv Hm. unfold parse_line. rewrite record_match_header by done. destruct Ht as (_ & _ & ->).
  run_monad. by destruct (parse_message message level next p) as [[[]|] ?].
Qed.

(** ** The engine's records *)

(** The first test for a marker fails, which has the character [c]. *)
Ltac no_marker N c :=
  rewrite (not_contains c) by first [by_compute|apply N; first [done|by_compute]].

(** The characters of the entry of an action *)
Definition entry_text : pystr := u "-Player folded checked called raised to went all-in with ".
Definition entry_char (c : N) : Prop := is_digit c = true ∨ c ∈ entry_text.

Lemma entry_chars_number z : Forall entry_char (str_of_Z z).
Proof.
  eapply Forall_impl; [apply str_of_Z_chars|]. intros c [H| ->]; [by left|right]. by_compute.
Qed.
Lemma entry_chars_nat n : Forall entry_char (str_of_nat n).
Proof. rewrite str_of_nat_Z. apply entry_chars_number. Qed.
Lemma entry_chars_text (s : pystr) : forallb (λ c, bool_decide (c ∈ entry_text)) s = true → Forall entry_char s.
Proof.
  rewrite forallb_forall, Forall_forall. intros H c Hc. right.
  by eapply bool_decide_eq_true_1, H, list_elem_of_In.
Qed.

Definition ends_visibly (s : pystr) : Prop := from_option (λ c, is_space c = false) False (last s).

Lemma ends_app s t : ends_visibly t → ends_visibly (s ++ t).
Proof. unfold ends_visibly. rewrite last_app. by destruct (last t). Qed.
Lemma ends_number z : ends_visibly (str_of_Z z).
Proof.
  unfold ends_visibly. pose proof (str_of_Z_chars z) as H. destruct (last (str_of_Z z)) as [c|] eqn:E.
  - apply (last_Forall _ _ _ H) in E as [E| ->]; [by apply digit_not_space|done].
  - apply last_None in E. by destruct (str_of_Z_shape z) as (c & r & E' & _); rewrite E in E'.
Qed.

Lemma execute_action_chars i seat q action amount g g' d :
  PokerGame.execute_action i seat q action amount g = Some (g', d) →
  Forall entry_char d ∧ ends_visibly d.
Proof.
  unfold PokerGame.execute_action. cbv zeta.
  assert (∀ s, Forall entry_char s ∧ ends_visibly s →
    Forall entry_char ((u "Player " ++ str_of_nat i) ++ s) ∧
    ends_visibly ((u "Player " ++ str_of_nat i) ++ s)) as A.
  { intros s [Hs He]. split; [|by apply ends_app]. rewrite !Forall_app.
    split_and!; [by apply entry_chars_text|apply entry_chars_nat|done]. }
  assert (∀ (w : pystr) z, forallb (λ c, bool_decide (c ∈ entry_text)) w = true →
    Forall entry_char (w ++ str_of_Z z) ∧ ends_visibly (w ++ str_of_Z z)) as B.
  { intros w z Hw. rewrite Forall_app.
    split; [split; [by apply entry_chars_text|apply entry_chars_number]|apply ends_app, ends_number]. }
  repeat case_match; intros; simplify_eq; apply A;
    first [by apply B|split; [by apply entry_chars_text|done]].
Qed.

Lemma absent_from_entry c d : Forall entry_char d → is_digit c = false → c ∉ entry_text → c ∉ d.
Proof. rewrite Forall_forall. intros H H1 H2 [H3|H3]%H; [congruence|done]. Qed.

Lemma not_in_action_message c d :
  Forall entry_char d → is_digit c = false → c ∉ entry_text → c ∉ u "ACTION_EXECUTED: " →
  c ∉ action_message d.
Proof.
  intros H H1 H2 H3 [?|?]%elem_of_app; [done|]. by eapply absent_from_entry.
Qed.

Lemma search_None {A} t (k : pystr → option A) s :
  (∀ pre post, s = pre ++ post → k post = None) → search t k s = None.
Proof.
  intros H. induction s as [|c s IH]; cbn [search].
  - destruct (startswith [] t); [|done]. rewrite drop_nil. by rewrite (H [] []).
  - assert (search t k s = None) as ->.
    { apply IH. intros pre post ->. by apply (H (c :: pre)). }
    destruct (startswith (c :: s) t) eqn:E; [|done]. apply startswith_spec in E as [r E].
    rewrite E, drop_app_length. by rewrite (H t r).
Qed.

Lemma literal_absent {A} c t (k : pystr → option A) s : c ∈ t → c ∉ s → literal t k s = None.
Proof.
  intros Ht Hs. unfold literal. destruct (startswith s t) eqn:E; [|done].
  apply startswith_spec in E as [r ->]. destruct Hs. apply elem_of_app. by left.
Qed.

Lemma span_digits_split s : (span_digits s).1 ++ (span_digits s).2 = s.
Proof.
  induction s as [|c s IH]; [done|]. cbn [span_digits]. destruct (is_digit c); [|done].
  destruct (span_digits s). cbn in *. by rewrite IH.
Qed.

(** Without a parenthesis no pattern finds a player. *)
Lemma player_match_None k s : 40%N ∉ s → player_match k s = None.
Proof.
  intros H. apply search_None. intros pre post ->. unfold number.
  pose proof (span_digits_split post) as E. destruct (span_digits post) as [[|d ds] r]; [done|].
  apply (literal_absent 40%N); [by_compute|]. cbn in E. subst post.
  rewrite not_elem_of_app, not_elem_of_cons, not_elem_of_app in H. tauto.
Qed.

(** The log of an accepted action is no event: the name in parentheses that every
    pattern asks for is not there. *)
Lemma action_message_silent d level next p :
  Forall entry_char d → parse_message (action_message d) level next p = (Ok None, p).
Proof.
  intros H.
  assert (∀ c, is_digit c = false → c ∉ entry_text → c ∉ u "ACTION_EXECUTED: " →
    c ∉ action_message d) as N by (intros c; by apply not_in_action_message).
  unfold parse_message. no_marker N 61%N. no_marker N 61%N. no_marker N 103%N.
  rewrite (contains_app [] (u "ACTION_EXECUTED:") (32%N :: d) : contains (action_message d) _ = true).
  unfold parse_action, patterns. cbn [omap list_omap].
  by rewrite !player_match_None by (apply N; [done|by_compute|by_compute]).
Qed.

Definition bets_message (pot bet : Z) : pystr :=
  u "Pot: " ++ str_of_Z pot ++ u ", Current bet: " ++ str_of_Z bet.

Lemma not_in_bets_message c pot bet :
  is_digit c = false → c ∉ u "-Pot: , Current bet: " → c ∉ bets_message pot bet.
Proof.
  intros H1 H2. unfold bets_message. rewrite !not_elem_of_app.
  assert (∀ s : pystr, forallb (λ c, bool_decide (c ∈ u "-Pot: , Current bet: ")) s = true → c ∉ s) as A.
  { intros s Hs Hc. apply H2. rewrite forallb_forall in Hs.
    by eapply bool_decide_eq_true_1, Hs, list_elem_of_In. }
  assert (∀ z, c ∉ str_of_Z z) as B.
  { intros z. apply str_of_Z_not_elem; [done|]. intros ->. apply H2. by_compute. }
  split_and!; by first [apply B|apply A].
Qed.

Lemma number_str z (s : pystr) {A} (k : Z → pystr → option A) :
  0 ≤ z → from_option (λ c, is_digit c = false) True (head s) →
  number k (str_of_Z z ++ s) = k z s.
Proof.
  intros Hz Hs. unfold str_of_Z. rewrite (proj2 (Z.ltb_ge _ _)) by lia.
  destruct (str_of_N_shape (Z.to_N z)) as (c & r & E & H). rewrite E. unfold number.
  rewrite span_digits_prefix by done. rewrite <- E, Z_of_digits_str. f_equal. lia.
Qed.

Lemma bets_message_read pot bet level next p :
  0 ≤ pot → 0 ≤ bet →
  parse_message (bets_message pot bet) level next p = (Ok (Some (GAME_STATE pot bet)), p).
Proof.
  intros Hp Hb.
  assert (∀ c, is_digit c = false → c ∉ u "-Pot: , Current bet: " → c ∉ bets_message pot bet) as N
    by (intros c; by apply not_in_bets_message).
  unfold parse_message. no_marker N 61%N. no_marker N 61%N. no_marker N 104%N. no_marker N 65%N.
  no_marker N 83%N. no_marker N 87%N. no_marker N 76%N. no_marker N 83%N. cbn [orb andb].
  rewrite (contains_app [] (u "Pot:") (32%N :: str_of_Z pot ++ u ", Current bet: " ++ str_of_Z bet)
    : contains (bets_message pot bet) (u "Pot:") = true).
  assert (bets_message pot bet = (u "Pot: " ++ str_of_Z pot ++ u ", ") ++ u "Current bet: " ++ str_of_Z bet) as E.
  { unfold bets_message. rewrite <- !(assoc_L (++)). done. }
  replace (contains (bets_message pot bet) (u "Current bet:")) with true.
  2:{ rewrite E. symmetry. apply (contains_app _ (u "Current bet:") (32%N :: str_of_Z bet)). }
  replace (pot_match (bets_message pot bet)) with (Some pot).
  2:{ symmetry. apply search_here. by rewrite number_str. }
  replace (bet_match (bets_message pot bet)) with (Some bet); [done|].
  symmetry. rewrite E. unfold bet_match.
  change (u "Current bet: ") with (67%N :: u "urrent bet: "). rewrite search_skip.
  - apply (search_here (u "Current bet: ")). rewrite <- (right_id_L [] (++) (str_of_Z bet)).
    by rewrite number_str.
  - rewrite !not_elem_of_app. split_and!; [by_compute| |by_compute].
    by apply str_of_Z_not_elem.
Qed.

Lemma strip_elem c s : c ∈ strip s → c ∈ s.
Proof.
  assert (∀ s, c ∈ lstrip s → c ∈ s) as A.
  { intros r. induction r as [|d r IH]; [done|]. cbn. destruct (is_space d); [|done].
    intros ?. right. by apply IH. }
  unfold strip. rewrite elem_of_reverse. by intros ?%A%elem_of_reverse%A.
Qed.

(** The description of the bets has no player. *)
Lemma extract_no_players c message l :
  10%N ∉ message → c ∈ u "chips=" → c ∉ message → extract_player_info_from_message message l = l.
Proof.
  intros Hn Hc Hm. unfold extract_player_info_from_message. rewrite split_absent by done.
  cbn [foldl]. rewrite (not_contains c (u "chips=")) by (done || by intros ?%strip_elem).
  by rewrite !orb_true_r.
Qed.

Lemma one_line_bets pot bet : one_line (bets_message pot bet).
Proof.
  split; [by apply not_in_bets_message; [|by_compute]|].
  unfold bets_message. do 3 apply ends_app. apply ends_number.
Qed.

Lemma one_line_action d : Forall entry_char d → ends_visibly d → one_line (action_message d).
Proof.
  intros H Hl. split; [by apply not_in_action_message; [| |by_compute|by_compute]|by apply ends_app].
Qed.

Lemma update_bets ts h pot bet s :
  update_game_state (Event ts h (bets_message pot bet) (GAME_STATE pot bet)) s
  = s <| gs_pot := JInt pot |> <| gs_current_bet := Json (JInt bet) |>
      <| gs_last_updated := Some ts |>.
Proof.
  destruct s. unfold update_game_state, update. cbn [ev_data ev_message ev_timestamp gs_players
    gs_current_hand gs_current_phase gs_pot gs_current_bet gs_community_cards gs_last_updated].
  rewrite (extract_no_players 104%N); [done| |by_compute|];
    (apply not_in_bets_message; [done|by_compute]).
Qed.

(** Of what the engine logs for an accepted action the viewer reads the pot and
    the bet to match, and nothing else: the line of the action itself is no event for
    it, so that it shows neither the action nor any change of a player. *)
Theorem viewer_reads_action i action amount g g' ts ts' context extra p :
  PokerGame.process_player_action i action amount g = (true, g') →
  timestamp_ok ts → timestamp_ok ts' → 0 ≤ PokerGame.pot g' → 0 ≤ PokerGame.current_bet g' →
  ∃ entry bets e,
    PokerGame.action_history g' = PokerGame.action_history g ++ [entry] ∧
    log_game_state context extra g' !! 3%nat = Some bets ∧
    parse_lines [log_record ts (u "INFO") (action_message entry); log_record ts' (u "INFO") bets] p
    = (Ok [e], p <| events ::= λ l, l ++ [e] |>
                 <| state ::= λ s, s <| gs_pot := JInt (PokerGame.pot g') |>
                      <| gs_current_bet := Json (JInt (PokerGame.current_bet g')) |>
                      <| gs_last_updated := Some ts' |> |>).
Proof.
  intros H Ht Ht' Hp Hb.
  assert (∃ entry, PokerGame.action_history g' = PokerGame.action_history g ++ [entry] ∧
    Forall entry_char entry ∧ ends_visibly entry) as (entry & Hh & Hc & He).
  { apply process_entry in H as (seat & q & g1 & d & _ & _ & X & _ & Hh).
    exists d. split; [done|]. by eapply execute_action_chars. }
  exists entry, (bets_message (PokerGame.pot g') (PokerGame.current_bet g')).
  set (m := bets_message _ _).
  exists (Event ts' (current_hand p) m (GAME_STATE (PokerGame.pot g') (PokerGame.current_bet g'))).
  split_and!; [done|done|].
  assert (u "INFO" ∈ [u "DEBUG"; u "INFO"]) as HI by (right; by left).
  cbn [parse_lines]. rewrite !log_record_header. unfold mbind, M_bind.
  rewrite parse_line_header by (done || by apply one_line_action).
  rewrite action_message_silent by done.
  rewrite parse_line_header by (done || by apply one_line_bets).
  unfold m at 1. rewrite bets_message_read by done. destruct p. unfold update.
  cbn -[update_game_state bets_message u]. unfold m. by rewrite update_bets.
Qed.
