(* ===== verification/LogWindowProps.v ===== *)
(** * What the window of the log viewer shows

    The window follows the log: whatever is clicked and whenever its threads run, it
    shows all that has been read unless an update is pending, and the timer brings
    that.  The log that is loaded is shown twice, however, once it has been read again. *)
From Stdlib Require Import Sorting.Sorted.
From stdpp Require Import strings.
From S2P Require Import Prelude Py Json Regex LogViewer LogWindow LogProps Main.
Import LogRecord LogParser LogViewerApp.

(** ** What reading lines adds *)

Definition has_events (l : list event) (p : LogParser.t) : Prop := events p = l.

#[local] Hint Extern 1 (stable (has_events _) (modify _)) =>
  apply stable_modify; intros ? ?; assumption : poker.
Lemma stable_set_state l f : stable (has_events l) (set_state f).
Proof. unfold set_state. stable_parts. Qed.
#[local] Hint Resolve stable_set_state : poker.
Lemma stable_set_player l pid f : stable (has_events l) (set_player pid f).
Proof. unfold set_player. stable_parts. Qed.
#[local] Hint Resolve stable_set_player : poker.
Lemma stable_update_player l v : stable (has_events l) (update_player v).
Proof. unfold update_player. stable_parts. Qed.
#[local] Hint Resolve stable_update_player : poker.

Lemma stable_try {S A} (I : S → Prop) (m h : M S A) e :
  stable I m → stable I h → stable I (try_except m e h).
Proof.
  intros Hm Hh s Hs. unfold try_except. specialize (Hm s Hs).
  destruct (m s) as [[a|x] s']; [done|]. destruct (e x); [by apply Hh|done].
Qed.

Lemma stable_extract l m name : stable (has_events l) (extract_cards_from_json_message m name).
Proof.
  unfold extract_cards_from_json_message, target_player, learn_cards, learn_players, learn_bets.
  apply stable_try; stable_parts.
Qed.
#[local] Hint Resolve stable_extract : poker.

Lemma stable_parse_message l m level next : stable (has_events l) (parse_message m level next).
Proof. unfold parse_message. cbv zeta. stable_parts. Qed.

(** The kind of a message, and what it says, are read off its text: two parsers that
    read it find the same in it, and where it says nothing, nothing changes. *)
Definition read_off (m : M LogParser.t (option event_data)) (r : option event_data) : Prop :=
  ∀ p, match m p with
       | (Ok r', q) => r' = r ∧ (r = None → q = p)
       | (Raise _, _) => True
       end.

Lemma read_off_message m level next : ∃ r, read_off (parse_message m level next) r.
Proof.
  unfold parse_message. cbv zeta.
  repeat match goal with |- context [if ?b then _ else _] => destruct b end;
    repeat match goal with |- context [match ?x with Some _ => _ | None => _ end] => destruct x end;
    try (eexists; intros p; by split).
  - destruct (word_before_colon m) as [[]|e]; [|by exists None].
    eexists (Some _). intros p. unfold mbind, M_bind, lift, mret, M_ret.
    destruct (extract_cards_from_json_message _ _ p) as [[]]; [by split|done].
  - destruct (word_before_colon m) as [[]|e]; exists None; intros p; [by split|done].
Qed.

(** What an event says, without the hand it is filed under *)
Definition content (e : event) : pystr * pystr * event_data :=
  (ev_timestamp e, ev_message e, ev_data e).

(** Reading [m] finds events that say [c]; it appends them to the list of events, and
    changes nothing where there are none. *)
Definition finds (m : M LogParser.t (list event)) (c : list (pystr * pystr * event_data)) : Prop :=
  ∀ p, match m p with
       | (Ok es, q) => content <$> es = c ∧ events q = events p ++ es ∧ (es = [] → q = p)
       | (Raise _, _) => True
       end.

Lemma finds_nothing : finds (mret []) [].
Proof. intros p. cbn. by rewrite app_nil_r. Qed.

Lemma finds_line l next : ∃ c, finds (parse_line l next) c.
Proof.
  unfold parse_line. destruct (record_match (strip l)) as [[[ts level] message]|];
    [|eexists; apply finds_nothing].
  destruct (strptime ts) as [timestamp|e]; [|by exists []].
  destruct (read_off_message message level next) as [r Hr].
  exists (match r with Some d => [(timestamp, message, d)] | None => [] end).
  intros p. unfold mbind at 1, M_bind, lift. unfold mbind, M_bind.
  specialize (Hr p). pose proof (stable_parse_message (events p) message level next p eq_refl) as He.
  destruct (parse_message message level next p) as [[r'|e] q]; [|done].
  destruct Hr as [-> Hq]. cbn in He. destruct r as [d|]; cbn.
  - by rewrite He.
  - rewrite Hq by done. by rewrite app_nil_r.
Qed.

Lemma finds_lines lines : ∃ c, finds (parse_lines lines) c.
Proof.
  induction lines as [|l lines [c IH]]; [eexists; apply finds_nothing|].
  destruct (finds_line l lines) as [c1 H1]. exists (c1 ++ c). intros p. cbn [parse_lines].
  unfold mbind, M_bind. specialize (H1 p). destruct (parse_line l lines p) as [[es|] q]; [|done].
  destruct H1 as (<- & E1 & K1). specialize (IH q).
  destruct (parse_lines lines q) as [[rest|] q']; [|done]. destruct IH as (<- & E2 & K2). cbn.
  rewrite E2, E1, fmap_app, (assoc_L (++)). split_and!; [done..|].
  intros [-> ->]%app_nil. by rewrite K2, K1.
Qed.

Lemma parse_new_lines_finds file p :
  match parse_new_lines file p with
  | (Ok es, q) => events q = events p ++ es ∧ (es = [] → state q = state p)
  | (Raise _, _) => True
  end.
Proof.
  destruct file as [text|]; cbn; [|by rewrite app_nil_r].
  destruct (finds_lines (readlines (drop (last_file_position p) text))) as [c H].
  unfold mbind, M_bind, get, modify.
  specialize (H (p <| last_file_position ::= Nat.add (length (drop (last_file_position p) text)) |>)).
  destruct (parse_lines _ _) as [[es|] q]; [|done]. destruct H as (_ & E & K).
  split; [exact E|]. intros ->. by rewrite K.
Qed.

(** ** The window in step with the parser *)

Definition controls_of (l : list event) : list control := omap create_event_control l.

Lemma apply_filters_run a : app_events a ≠ [] →
  apply_filters a = (Ok tt, a <| event_list := controls_of (app_events a) |>).
Proof.
  intros H. unfold apply_filters. step. by destruct (app_events a) eqn:E; [|rewrite <- E].
Qed.

(** The events are those of the parser. *)
Lemma shared_events a : own_events a = None → app_events a = events (parser a).
Proof. unfold app_events. by intros ->. Qed.

Record in_step (a : t) : Prop := {
  step_own : own_events a = None;
  step_events : events (parser a) ≠ [];
  step_shown : needs_ui_update a = false →
    event_list a = controls_of (events (parser a)) ∧
    status_view (state (parser a)) = Ok (game_status a) }.

(** The file is there, it can be read, and there is something to show. *)
Definition loads (fs : files) (filepath : pystr) (a : t) : Prop :=
  ∃ text, fs filepath = Some text ∧
    match LogParser.parse_file text (parser a) with
    | (Ok es, p) => es ≠ [] ∧ is_Ok (status_view (state p))
    | (Raise _, _) => False
    end.

Lemma parse_file_events text p :
  match LogParser.parse_file text p with (Ok es, q) => events q = es | (Raise _, _) => True end.
Proof.
  unfold LogParser.parse_file. step. unfold mbind, M_bind.
  by destruct (parse_lines (readlines text) _) as [[]].
Qed.

(** What loading a file leaves in the window *)
Definition loaded (filepath : pystr) (p : LogParser.t) (content : game_view) (a : t) : t :=
  a <| parser := p |> <| own_events := None |> <| current_file := Some filepath |>
    <| event_list := controls_of (events p) |> <| game_status := content |>
    <| stats_text := stats_of (events p) |>
    <| refresh_thread := auto_refresh a || refresh_thread a |>.

Lemma load_run fs filepath a : loads fs filepath a →
  ∃ p content, load_log_file fs filepath a = (Ok tt, loaded filepath p content a) ∧
    events p ≠ [] ∧ status_view (state p) = Ok content ∧
    ∃ text, fs filepath = Some text ∧ LogParser.parse_file text (parser a) = (Ok (events p), p).
Proof.
  intros (text & Hf & H). pose proof (parse_file_events text (parser a)) as E.
  destruct (LogParser.parse_file text (parser a)) as [[es|] p] eqn:R; [|done].
  destruct H as [Hne [content Hs]]. subst es. exists p, content. split_and!; [|done|done|eauto].
  unfold load_log_file. step. erewrite bind_run.
  2:{ unfold parse_file. step. erewrite bind_run; [reflexivity|]. rewrite Hf.
      erewrite bind_run; [reflexivity|]. unfold on_parser, mbind, M_bind. cbn -[LogParser.parse_file].
      by rewrite R. }
  erewrite bind_run; [|by apply apply_filters_run].
  erewrite bind_run; [|unfold update_game_status; step; cbn; rewrite Hs; reflexivity].
  step. step. destruct a as [? ? ? [] ? ? ? ? ? ? ?]; reflexivity.
Qed.

Lemma loaded_in_step filepath p content a :
  events p ≠ [] → status_view (state p) = Ok content → in_step (loaded filepath p content a).
Proof. by intros Hp Hc. Qed.

(** An action in which no file makes the parser raise: one that is selected has events
    that can be shown, and what is read of one that is followed has no record with a
    date that is none. *)
Definition goes_well (a : t) (x : action) : Prop :=
  match x with
  | Select fs i => ∀ text path, file_list a !! i = Some (FileButton text path) → loads fs path a
  | Refresh fs => ∀ path, current_file a = Some path →
      is_Ok (parse_new_lines (fs path) (parser a)).1
  | _ => True
  end.

(** Steps that leave what is read and shown alone *)
Lemma in_step_same a b :
  own_events b = own_events a → parser b = parser a → needs_ui_update b = needs_ui_update a →
  event_list b = event_list a → game_status b = game_status a → in_step a → in_step b.
Proof. intros E1 E2 E3 E4 E5 [Ho He Hs]. split; by rewrite ?E1, ?E2, ?E3, ?E4, ?E5. Qed.

(** A turn of the timer with an update to show *)
Lemma timer_shows a content :
  needs_ui_update a = true → app_events a ≠ [] → status_view (state (parser a)) = Ok content →
  happens a Timer = a <| event_list := controls_of (app_events a) |> <| game_status := content |>
                      <| needs_ui_update := false |>.
Proof.
  intros Hu He Hc. unfold happens, perform, check_ui_updates. step. rewrite Hu.
  unfold try_except. erewrite bind_run by (by apply apply_filters_run).
  erewrite bind_run; [reflexivity|]. unfold update_game_status. step. cbn. by rewrite Hc.
Qed.

Lemma timer_in_step a : in_step a → in_step (happens a Timer).
Proof.
  intros Ha. pose proof Ha as [Ho He Hs]. unfold happens, perform, check_ui_updates. step.
  destruct (needs_ui_update a) eqn:Eu; [|exact Ha].
  unfold try_except. erewrite bind_run by (apply apply_filters_run; by rewrite shared_events).
  rewrite shared_events by done. unfold update_game_status, mbind, M_bind, get, lift. cbn.
  destruct (status_view (state (parser a))) as [content|e] eqn:Ev; cbn.
  - split; cbn; [done..|]. by intros _.
  - assert (is_exception e = true ∨ is_exception e = false) as [-> | ->] by (destruct e; auto);
      (split; cbn; [done..|]; by rewrite Eu).
Qed.

Lemma refresh_in_step a fs : in_step a → goes_well a (Refresh fs) → in_step (happens a (Refresh fs)).
Proof.
  intros Ha Hw. pose proof Ha as [Ho He Hs]. unfold happens, perform, refresh_turn. step.
  destruct (refresh_thread a); cbn [negb]; [|exact Ha]. cbn in Hw.
  destruct (current_file a) as [[|c path]|]; [by apply (in_step_same a)| |by apply (in_step_same a)].
  destruct (auto_refresh a); [|by apply (in_step_same a)].
  specialize (Hw _ eq_refl) as [es Hes]. unfold try_except, on_parser, mbind, M_bind.
  pose proof (parse_new_lines_finds (fs (c :: path)) (parser a)) as HF.
  destruct (parse_new_lines (fs (c :: path)) (parser a)) as [r q]. cbn in Hes. subst r.
  destruct HF as [E K]. destruct es as [|e es]; cbn.
  - rewrite app_nil_r in E. split; cbn; [done|by rewrite E|]. rewrite E, K by done. exact Hs.
  - split; cbn; [done| |done]. rewrite E. by destruct (events (parser a)).
Qed.

Lemma action_in_step a x : in_step a → goes_well a x → in_step (happens a x).
Proof.
  intros Ha Hw. destruct x as [fs i|fs| |value|i|i|data].
  - unfold happens, perform. step. cbn in Hw.
    destruct (file_list a !! i) as [[text path|text]|]; [|done..].
    destruct (load_run fs path a (Hw _ _ eq_refl)) as (p & content & -> & Hp & Hc & _).
    by apply loaded_in_step.
  - by apply refresh_in_step.
  - by apply timer_in_step.
  - apply (in_step_same a); [..|exact Ha];
      (unfold happens, perform, toggle_auto_refresh; step; step; by destruct (_ && _)).
  - apply (in_step_same a); [..|exact Ha];
      (cbn; by destruct (event_list a !! i) as [[| | |? [[]|]]|]).
  - by apply (in_step_same a).
  - apply (in_step_same a); [..|exact Ha];
      (unfold happens, perform, on_window_event; by destruct (bool_decide _)).
Qed.

(** What can happen to a window, in any order *)
Inductive runs : t → t → Prop :=
  | runs_done a : runs a a
  | runs_action a x b : goes_well a x → runs (happens a x) b → runs a b.

Lemma runs_in_step a b : runs a b → in_step a → in_step b.
Proof. induction 1 as [|a x b Hw _ IH]; [done|]. intros Ha. by apply IH, action_in_step. Qed.


(** ** The log that is read again *)

Lemma controls_cons e l :
  controls_of (e :: l) = match create_event_control e with
                         | Some x => x :: controls_of l
                         | None => controls_of l
                         end.
Proof. done. Qed.

Lemma controls_length l k : content <$> l = content <$> k →
  length (controls_of l) = length (controls_of k).
Proof.
  revert k. induction l as [|e l IH]; intros [|e' k] H; try done.
  rewrite !fmap_cons in H. injection H as _ _ Hd Hl. rewrite !controls_cons.
  unfold create_event_control. rewrite Hd. destruct (ev_data e'); cbn; by rewrite (IH k).
Qed.

Lemma parse_file_finds text p es q c : finds (parse_lines (readlines text)) c →
  LogParser.parse_file text p = (Ok es, q) →
  content <$> es = c ∧ last_file_position q = last_file_position
    (parse_lines (readlines text) (p <| events := [] |> <| LogParser.current_hand := None |>)).2.
Proof.
  intros H. unfold LogParser.parse_file. step. unfold mbind, M_bind, get, mret, M_ret.
  specialize (H (p <| events := [] |> <| LogParser.current_hand := None |>)).
  destruct (parse_lines (readlines text) _) as [[es'|] q']; [|done].
  destruct H as (<- & E & _). intros [= <- <-]. by rewrite E.
Qed.

(** A log that is loaded is shown twice: nothing is written to it any more, and
    still the first turn of the thread that follows it reads it from its start, and the
    next turn of the timer shows every event a second time, beside a count of the events
    that has each once. *)
Theorem log_is_shown_twice fs filepath a :
  filepath ≠ [] → loads fs filepath a → last_file_position (parser a) = 0%nat →
  auto_refresh a = true →
  let b := (load_log_file fs filepath a).2 in
  is_Ok (parse_new_lines (fs filepath) (parser b)).1 →
  let c := happens b (Refresh fs) in
  is_Ok (status_view (state (parser c))) →
  let d := happens c Timer in
  content <$> app_events d = (content <$> app_events b) ++ (content <$> app_events b) ∧
  event_list d = controls_of (app_events d) ∧
  length (event_list d) = (2 * length (event_list b))%nat ∧
  stats_text d = stats_of (app_events b).
Proof.
  intros Hf Hl H0 Hr b. destruct (load_run fs filepath a Hl) as (p & view & E & Hp & Hv & text & Ht & Hread).
  assert (b = loaded filepath p view a) as -> by (unfold b; by rewrite E).
  destruct (finds_lines (readlines text)) as [cs Hcs].
  destruct (parse_file_finds _ _ _ _ _ Hcs Hread) as [Hes Hpos].
  assert (last_file_position p = 0%nat) as Hp0.
  { rewrite Hpos, (proj1 (blind_parse_lines _ _)). exact H0. }
  clear E Hpos. intros [es Hes'] c [view' Hv'] d.
  pose proof (parse_new_lines_finds (fs filepath) p) as HF.
  assert (content <$> es = cs) as Hes2.
  { revert Hes'. change (parser (loaded filepath p view a)) with p.
    rewrite Ht, parse_new_lines_eq, Hp0, drop_0. specialize (Hcs (moved (length text) p)).
    destruct (parse_lines (readlines text) _) as [[]]; [|done]. intros [= <-]. apply Hcs. }
  change (parser (loaded filepath p view a)) with p in Hes'.
  destruct (parse_new_lines (fs filepath) p) as [r q] eqn:Eq. cbn in Hes'. subst r.
  destruct HF as [Eev _].
  assert (es ≠ []) as Hne.
  { intros ->. rewrite <- Hes2 in Hes. by destruct (events p). }
  assert (c = loaded filepath p view a <| parser := q |> <| needs_ui_update := true |>) as Ec.
  { unfold c, happens, perform, refresh_turn. step. cbn. rewrite Hr. cbn.
    destruct filepath as [|x filepath]; [done|]. cbn. unfold try_except, on_parser, mbind, M_bind.
    cbn -[parse_new_lines]. rewrite Eq. destruct es; [done|]. cbn. by rewrite Hr. }
  rewrite Ec in Hv'. cbn in Hv'.
  assert (app_events c = events p ++ es) as Eac by by rewrite Ec.
  assert (d = c <| event_list := controls_of (app_events c) |> <| game_status := view' |>
                <| needs_ui_update := false |>) as Ed.
  { apply timer_shows; [by rewrite Ec| |by rewrite Ec]. rewrite Eac. by destruct (events p). }
  assert (app_events d = events p ++ es) as Ead by by rewrite Ed, <- Eac, Ec.
  change (app_events (loaded filepath p view a)) with (events p).
  rewrite Ead, fmap_app, Hes, Hes2. split_and!; [done| | |].
  - rewrite Ed. cbn. by rewrite Eac.
  - rewrite Ed. cbn. unfold controls_of at 1. rewrite Eac, omap_app, length_app. fold (controls_of es).
    rewrite (controls_length es (events p)) by congruence. unfold controls_of. lia.
  - by rewrite Ed, Ec.
Qed.

(** ** The newest log *)

Lemma text_leb_refl s : text_leb s s = true.
Proof. induction s as [|c s IH]; [done|]. cbn. rewrite IH, bool_decide_true by done. by rewrite orb_true_r. Qed.

Lemma text_leb_total s t : text_leb s t = false → text_leb t s = true.
Proof.
  revert t. induction s as [|c s IH]; intros [|d t]; cbn; try done.
  rewrite orb_false_iff, orb_true_iff, andb_true_iff. intros [H1%N.ltb_ge H2].
  case_bool_decide as E; cbn in H2.
  - right. split; [by apply bool_decide_eq_true|by apply IH].
  - left. apply N.ltb_lt. lia.
Qed.

Lemma text_leb_trans r s t : text_leb r s = true → text_leb s t = true → text_leb r t = true.
Proof.
  revert s t. induction r as [|b r IH]; intros [|c s] [|d t]; cbn; try done.
  rewrite !orb_true_iff, !andb_true_iff, !N.ltb_lt, !bool_decide_eq_true.
  intros [H1|[-> H1]] [H2|[-> H2]]; [left; lia|by left|by left|right; eauto].
Qed.

Lemma text_leb_prefix p s t : text_leb (p ++ s) (p ++ t) = text_leb s t.
Proof.
  induction p as [|c p IH]; [done|]. cbn. rewrite IH, bool_decide_true by done. by rewrite N.ltb_irrefl.
Qed.

(** Of two texts that begin with as many characters, those come first. *)
Lemma text_leb_cut s t s' t' : length s = length t →
  text_leb (s ++ s') (t ++ t') = true → text_leb s t = true.
Proof.
  revert t. induction s as [|c s IH]; intros [|d t] L; cbn; try done.
  injection L as L. rewrite !orb_true_iff, !andb_true_iff. intros [H|[H1 H2]]; [by left|].
  right. split; [done|by apply IH].
Qed.

Lemma reverse_log_names listing f rest : log_names listing = f :: rest →
  f ∈ listing ∧ ∀ g, g ∈ listing → endswith g (u ".log") = true → text_leb g f = true.
Proof.
  intros H. unfold log_names in H.
  set (l := filter _ listing) in H. set (before := λ s t, text_leb t s) in H.
  assert (StronglySorted (λ a b, before a b = true) (sort_with before l)) as Hs.
  { apply sort_with_Sorted; unfold before; [intros ??; apply text_leb_total|].
    intros x y z Hxy Hyz. by eapply text_leb_trans. }
  assert (∀ g, g ∈ sort_with before l ↔ g ∈ l) as Hm by (intros g; by rewrite sort_with_Permutation).
  rewrite H in Hs, Hm. split.
  - assert (f ∈ l) as [_ ?]%list_elem_of_filter; [|done]. apply Hm. by left.
  - intros g Hg He. assert (g ∈ f :: rest) as [->|Hin]%elem_of_cons.
    + apply Hm, list_elem_of_filter. by split.
    + apply text_leb_refl.
    + apply StronglySorted_inv in Hs as [_ Hs]. rewrite Forall_forall in Hs. by apply Hs.
Qed.

Lemma endswith_app s t : endswith (s ++ t) t = true.
Proof. unfold endswith. rewrite reverse_app. apply startswith_app. Qed.

Lemma log_file_ends ts uuid : endswith (Main.log_filename ts uuid) (u ".log") = true.
Proof. unfold Main.log_filename. rewrite !(assoc_L (++)). apply endswith_app. Qed.

(** A time as [%Y%m%d_%H%M%S] *)
Definition stamp (ts : pystr) : Prop :=
  ∃ d t, ts = d ++ u "_" ++ t ∧ length d = 8%nat ∧ length t = 6%nat ∧
    forallb is_digit d = true ∧ forallb is_digit t = true.

Lemma stamp_length ts : stamp ts → length ts = 15%nat.
Proof. intros (d & t & -> & Hd & Ht & _). rewrite !length_app, Hd, Ht. done. Qed.

Definition date_text (d t : pystr) : pystr :=
  piece 0 4 d ++ u "/" ++ piece 4 2 d ++ u "/" ++ piece 6 2 d ++ u " "
    ++ piece 0 2 t ++ u ":" ++ piece 2 2 t ++ u ":" ++ piece 4 2 t.

Lemma date_match_skip p s : Forall (λ c, is_digit c = false) p → date_match (p ++ s) = date_match s.
Proof.
  intros H. induction H as [|c p Hc _ IH]; [done|]. cbn [app date_match].
  unfold date_here. cbn [take forallb]. by rewrite Hc.
Qed.

Lemma date_match_here d t s : length d = 8%nat → length t = 6%nat →
  forallb is_digit d = true → forallb is_digit t = true →
  date_match (d ++ u "_" ++ t ++ s) = Some (d, t).
Proof.
  intros Ld Lt Hd Ht. replace (u "_") with [95%N] by (vm_compute; reflexivity).
  assert (date_here (d ++ [95%N] ++ t ++ s) = Some (d, t)) as E.
  { unfold date_here.
    assert (take 8 (d ++ [95%N] ++ t ++ s) = d) as -> by (by rewrite <- Ld, take_app_length).
    assert (drop 9 (d ++ [95%N] ++ t ++ s) = t ++ s) as ->.
    { rewrite (assoc_L (++)). change 9%nat with (8 + 1)%nat. rewrite <- Ld.
      change 1%nat with (length [95%N]). by rewrite <- length_app, drop_app_length. }
    assert (take 6 (t ++ s) = t) as -> by (by rewrite <- Lt, take_app_length).
    rewrite Hd, Ht, Lt, bool_decide_true; [done|].
    change ([95%N] ++ t ++ s) with (95%N :: t ++ s). by rewrite list_lookup_middle. }
  by destruct d as [|c d]; [done|]; cbn [app date_match] in *; rewrite E.
Qed.

Lemma formatted_log_name d t uuid : length d = 8%nat → length t = 6%nat →
  forallb is_digit d = true → forallb is_digit t = true →
  formatted_date (Main.log_filename (d ++ u "_" ++ t) uuid) = date_text d t.
Proof.
  intros. unfold formatted_date, Main.log_filename. rewrite <- !(assoc_L (++)).
  rewrite date_match_skip.
  - by rewrite date_match_here.
  - by_compute.
Qed.

(** Without a log on its command line the viewer lists the logs, and opens the one that
    was started last: among logs as the program names them it is the first of the list,
    no other has a later time in its name, and its button shows that time. *)
Theorem newest_log_is_opened fs listing a :
  listing ≠ [] →
  Forall (λ f, ∃ ts uuid, stamp ts ∧ f = Main.log_filename ts uuid) listing.*1 →
  ∃ d t uuid rest,
    let f := Main.log_filename (d ++ u "_" ++ t) uuid in
    f ∈ listing.*1 ∧ stamp (d ++ u "_" ++ t) ∧
    (∀ ts' uuid', stamp ts' → Main.log_filename ts' uuid' ∈ listing.*1 →
       text_leb ts' (d ++ u "_" ++ t) = true) ∧
    let listed := a <| file_list ::= λ l, l ++
      FileButton (date_text d t ++ u " (" ++ size_text (dict_get_default f 0 listing) ++ u ")")
        (log_path f) :: rest |> in
    main fs (Some listing) None a = load_log_file fs (log_path f) listed.
Proof.
  intros Hne Hn. destruct (log_names listing.*1) as [|f rest] eqn:E.
  { exfalso. destruct listing as [|[f z] listing]; [done|]. inversion_clear Hn as [|?? (ts & uuid & _ & ->) _].
    assert (Main.log_filename ts uuid ∈ log_names (Main.log_filename ts uuid :: listing.*1)) as Hi.
    { unfold log_names. rewrite sort_with_Permutation. apply list_elem_of_filter. split; [apply log_file_ends|by left]. }
    rewrite fmap_cons in E. cbn [fst] in E. rewrite E in Hi. by apply elem_of_nil in Hi. }
  apply reverse_log_names in E as E'. destruct E' as [Hf Hmax].
  rewrite Forall_forall in Hn. destruct (Hn f Hf) as (ts & uuid & Hts & Ef).
  pose proof Hts as (d & t & Et & Hd & Ht & Dd & Dt). subst ts f.
  exists d, t, uuid, (file_button listing <$> rest). split_and!; [done|done| |].
  - intros ts' uuid' Hts' Hin. specialize (Hmax _ Hin (log_file_ends ts' uuid')).
    unfold Main.log_filename in Hmax. rewrite text_leb_prefix in Hmax.
    apply text_leb_cut in Hmax; [done|]. by rewrite (stamp_length _ Hts'), (stamp_length _ Hts).
  - unfold main, load_log_files, auto_select_latest_log. rewrite E, fmap_cons. step.
    unfold file_button at 1. by rewrite formatted_log_name.
Qed.
