(* ===== verification/PromptProps.v ===== *)
(** * The log viewer learns what an agent is sent

    The state an agent is sent is logged as JSON over many lines; the viewer collects
    the lines, strips and reads them, and knows the state. *)
From stdpp Require Import strings.
From S2P Require Import Prelude Py Json JsonProps Regex Floats GameModels PlayerModels LlmPlayers.
From S2P Require Import Game GameProps HandInvariant LlmProps GameLog LogViewer LogProps.
Import LogRecord LogParser GameLog.

(** ** Lines of a text *)

Fixpoint lines (s : pystr) : list pystr :=
  match s with
  | [] => [[]]
  | c :: r =>
      if bool_decide (c = 10%N) then [] :: lines r
      else match lines r with l :: ls => (c :: l) :: ls | [] => [[c]] end
  end.

Lemma lines_not_nil s : lines s ≠ [].
Proof. destruct s as [|c s]; [done|]. cbn. case_bool_decide; [done|]. by destruct (lines s). Qed.

Lemma lines_single l : 10%N ∉ l → lines l = [l].
Proof.
  induction l as [|c l IH]; [done|]. rewrite not_elem_of_cons. intros [H1 H2]. cbn [lines].
  rewrite bool_decide_false by congruence. by rewrite IH.
Qed.

Lemma lines_cons l r : 10%N ∉ l → lines (l ++ 10%N :: r) = l :: lines r.
Proof.
  induction l as [|c l IH]; [done|]. rewrite not_elem_of_cons. intros [H1 H2]. cbn [lines app].
  rewrite bool_decide_false by congruence. by rewrite IH.
Qed.

(** Induction over the lines *)
Lemma lines_ind (P : pystr → Prop) :
  (∀ l, 10%N ∉ l → P l) → (∀ l r, 10%N ∉ l → P r → P (l ++ 10%N :: r)) → ∀ s, P s.
Proof.
  intros H1 H2 s.
  assert (∀ l, 10%N ∉ l → P (l ++ s)) as A; [|exact (A [] (not_elem_of_nil _))].
  induction s as [|c s IH]; intros l Hl.
  - rewrite (right_id_L [] (++)). by apply H1.
  - destruct (decide (c = 10%N)) as [->|Hc].
    + apply H2; [done|]. apply (IH []). apply not_elem_of_nil.
    + change (c :: s) with ([c] ++ s). rewrite (assoc_L (++)). apply IH.
      rewrite not_elem_of_app, list_elem_of_singleton. by split.
Qed.

Lemma join_lines s : join [10%N] (lines s) = s.
Proof.
  induction s as [l Hl|l r Hl IH] using lines_ind.
  - by rewrite lines_single.
  - rewrite lines_cons by done. rewrite <- IH at 2.
    destruct (lines r) eqn:E; [by apply lines_not_nil in E|done].
Qed.

Lemma readlines_lines s : readlines (s ++ [10%N]) = (λ l, l ++ [10%N]) <$> lines s.
Proof.
  induction s as [l Hl|l r Hl IH] using lines_ind.
  - rewrite lines_single by done. clear -Hl. induction l as [|c l IH]; [done|].
    rewrite not_elem_of_cons in Hl. destruct Hl as [H1 H2]. cbn [readlines app].
    rewrite bool_decide_false by congruence. by rewrite IH.
  - rewrite lines_cons by done. rewrite fmap_cons, <- IH, <- (assoc_L (++)). cbn [app].
    clear -Hl. induction l as [|c l IH]; [done|].
    rewrite not_elem_of_cons in Hl. destruct Hl as [H1 H2]. cbn [readlines app].
    rewrite bool_decide_false by congruence. by rewrite IH.
Qed.

(** ** Indentation *)

(** The text without the spaces at the start of its lines, and whether it ends at the
    start of a line; [b] says whether it starts there. *)
Fixpoint unindent (b : bool) (s : pystr) : pystr :=
  match s with
  | [] => []
  | c :: r => if bool_decide (c = 10%N) then c :: unindent true r
              else if b && is_space c then unindent true r
              else c :: unindent false r
  end.
Fixpoint line_start (b : bool) (s : pystr) : bool :=
  match s with
  | [] => b
  | c :: r => if bool_decide (c = 10%N) then line_start true r else line_start (b && is_space c) r
  end.

(** No line ends with a space; the last character so far was one if [p]. *)
Fixpoint tidy (p : bool) (s : pystr) : option bool :=
  match s with
  | [] => Some p
  | c :: r => if bool_decide (c = 10%N) then (if p then None else tidy false r)
              else tidy (is_space c) r
  end.

(** No line starts with a digit. *)
Fixpoint wordy (b : bool) (s : pystr) : option bool :=
  match s with
  | [] => Some b
  | c :: r => if b && is_digit c then None else wordy (bool_decide (c = 10%N)) r
  end.

(** Braces are closed after they are opened; [n] are open. *)
Fixpoint level (n : Z) (s : pystr) : option Z :=
  match s with
  | [] => Some n
  | c :: r => if bool_decide (c = 123%N) then level (n + 1) r
              else if bool_decide (c = 125%N) then (if 0 <? n then level (n - 1) r else None)
              else level n r
  end.

Lemma unindent_app b s t : unindent b (s ++ t) = unindent b s ++ unindent (line_start b s) t.
Proof.
  revert b. induction s as [|c s IH]; intros b; [done|]. cbn.
  destruct (bool_decide (c = 10%N)); [cbn; by rewrite IH|].
  destruct (b && is_space c); cbn; by rewrite IH.
Qed.
Lemma line_start_app b s t : line_start b (s ++ t) = line_start (line_start b s) t.
Proof.
  revert b. induction s as [|c s IH]; intros b; [done|]. cbn.
  destruct (bool_decide (c = 10%N)); apply IH.
Qed.
Lemma tidy_app p s t : tidy p (s ++ t) = tidy p s ≫= λ p, tidy p t.
Proof.
  revert p. induction s as [|c s IH]; intros p; [done|]. cbn.
  destruct (bool_decide (c = 10%N)); [destruct p; [done|]|]; apply IH.
Qed.
Lemma wordy_app b s t : wordy b (s ++ t) = wordy b s ≫= λ b, wordy b t.
Proof.
  revert b. induction s as [|c s IH]; intros b; [done|]. cbn.
  destruct (b && is_digit c); [done|]. apply IH.
Qed.
Lemma level_app n s t : level n (s ++ t) = level n s ≫= λ n, level n t.
Proof.
  revert n. induction s as [|c s IH]; intros n; [done|]. cbn.
  destruct (bool_decide (c = 123%N)); [apply IH|]. destruct (bool_decide (c = 125%N)); [|apply IH].
  destruct (0 <? n); [apply IH|done].
Qed.

(** *** Pieces of a text that start and end visibly, with their braces closed *)

Record piece (s s' : pystr) : Prop := Piece {
  pc_unindent : ∀ b, unindent b s = s';
  pc_start : ∀ b, line_start b s = false;
  pc_tidy : ∀ p, tidy p s = Some false;
  pc_level : ∀ n, 0 ≤ n → level n s' = Some n;
  pc_wordy : wordy false s' = Some false }.

Definition starter (s' : pystr) : Prop := wordy true s' = Some false.

Lemma level_plain n s : 123%N ∉ s → 125%N ∉ s → level n s = Some n.
Proof.
  induction s as [|c s IH]; [done|]. rewrite !not_elem_of_cons. intros [H1 H2] [H3 H4]. cbn.
  rewrite !bool_decide_false by congruence. by apply IH.
Qed.

Section Line.
Context (s : pystr) (no_newline : 10%N ∉ s).

Lemma unindent_line : unindent false s = s.
Proof.
  induction s as [|c r IH]; [done|]. rewrite not_elem_of_cons in no_newline.
  destruct no_newline as [H1 H2]. cbn. rewrite bool_decide_false by congruence. by rewrite IH.
Qed.
Lemma line_start_line : line_start false s = false.
Proof.
  induction s as [|c r IH]; [done|]. rewrite not_elem_of_cons in no_newline.
  destruct no_newline as [H1 H2]. cbn. rewrite bool_decide_false by congruence. by apply IH.
Qed.
Lemma wordy_line : wordy false s = Some false.
Proof.
  induction s as [|c r IH]; [done|]. rewrite not_elem_of_cons in no_newline.
  destruct no_newline as [H1 H2]. cbn. rewrite bool_decide_false by congruence. by apply IH.
Qed.
Lemma tidy_line p : ends_visibly s → tidy p s = Some false.
Proof.
  revert p. induction s as [|c r IH]; intros p; [done|]. rewrite not_elem_of_cons in no_newline.
  destruct no_newline as [H1 H2]. cbn [tidy]. rewrite bool_decide_false by congruence.
  destruct r as [|d r]; [intros H; cbn in H |- *; by rewrite H|]. intros H. by apply IH.
Qed.
End Line.

Lemma piece_text s c :
  head s = Some c → is_space c = false → ends_visibly s → 10%N ∉ s → 123%N ∉ s → 125%N ∉ s →
  piece s s.
Proof.
  intros Hc Sc He Hn H1 H2. split.
  - intros b. destruct s as [|d r]; [done|]. injection Hc as ->.
    rewrite not_elem_of_cons in Hn. destruct Hn as [Hc Hn].
    cbn. rewrite bool_decide_false by congruence. rewrite Sc, andb_false_r. by rewrite unindent_line.
  - intros b. destruct s as [|d r]; [done|]. injection Hc as ->.
    rewrite not_elem_of_cons in Hn. destruct Hn as [Hc Hn].
    cbn. rewrite bool_decide_false by congruence. rewrite Sc, andb_false_r. by apply line_start_line.
  - intros p. by apply tidy_line.
  - intros n _. by apply level_plain.
  - by apply wordy_line.
Qed.

Lemma starter_text s c :
  head s = Some c → is_digit c = false → 10%N ∉ s → starter s.
Proof.
  intros Hc Sc Hn. destruct s as [|d r]; [done|]. injection Hc as ->.
  rewrite not_elem_of_cons in Hn. destruct Hn as [Hc Hn]. unfold starter. cbn.
  rewrite Sc, bool_decide_false by congruence. by apply wordy_line.
Qed.

(** A text in between that has neither newlines nor braces *)
Lemma piece_between s s' m t t' :
  piece s s' → piece t t' → 10%N ∉ m → 123%N ∉ m → 125%N ∉ m → piece (s ++ m ++ t) (s' ++ m ++ t').
Proof.
  intros [U1 L1 T1 V1 W1] [U2 L2 T2 V2 W2] Hn H1 H2. split.
  - intros b. rewrite !unindent_app, U1, L1, unindent_line, line_start_line by done. by rewrite U2.
  - intros b. rewrite !line_start_app, L1, line_start_line by done. apply L2.
  - intros p. rewrite tidy_app, T1. cbn. rewrite tidy_app. destruct (tidy false m) as [q|] eqn:E; [apply T2|].
    exfalso. clear -E Hn. revert E. generalize false. induction m as [|c m IH]; intros p; [done|].
    rewrite not_elem_of_cons in Hn. destruct Hn as [? ?]. cbn.
    rewrite bool_decide_false by congruence. by apply IH.
  - intros n H. rewrite level_app, V1 by done. cbn. rewrite level_app, level_plain by done. by apply V2.
  - rewrite wordy_app, W1. cbn. rewrite wordy_app, wordy_line by done. exact W2.
Qed.

Lemma starter_app s m : starter s → wordy false m = Some false → starter (s ++ m).
Proof. unfold starter. intros H1 H2. rewrite wordy_app, H1. exact H2. Qed.

(** *** Brackets *)

(** A visible character *)
Definition visible (c : N) : Prop := is_space c = false ∧ c ≠ 10%N.

Lemma unindent_char b c s : visible c → unindent b (c :: s) = c :: unindent false s.
Proof. intros [H1 H2]. cbn. by rewrite bool_decide_false, H1, andb_false_r. Qed.
Lemma line_start_char b c s : visible c → line_start b (c :: s) = line_start false s.
Proof. intros [H1 H2]. cbn. by rewrite bool_decide_false, H1, andb_false_r. Qed.
Lemma tidy_char p c s : visible c → tidy p (c :: s) = tidy false s.
Proof. intros [H1 H2]. cbn. by rewrite bool_decide_false, H1. Qed.
Lemma wordy_char b c s : c ≠ 10%N → is_digit c = false → wordy b (c :: s) = wordy false s.
Proof. intros H1 H2. cbn. by rewrite bool_decide_false, H2, andb_false_r. Qed.
Lemma wordy_newline b s : wordy b (10%N :: s) = wordy true s.
Proof. cbn. by rewrite bool_decide_true, andb_false_r. Qed.

Lemma unindent_new_line b n k : unindent b (new_line n k) = [10%N] ∧ line_start b (new_line n k) = true.
Proof.
  unfold new_line. cbn. induction (n * k)%nat as [|j IH]; [done|]. destruct IH as [IH1 IH2].
  cbn. split; [exact IH1|exact IH2].
Qed.
Lemma tidy_new_line n k : ∃ q, tidy false (new_line n k) = Some q.
Proof.
  unfold new_line. cbn. generalize false. induction (n * k)%nat as [|j IH]; intros p; [by eexists|].
  cbn. apply IH.
Qed.

Lemma pieces_joined n k x x' l l' :
  Forall2 piece (x :: l) (x' :: l') → Forall starter (x' :: l') →
  let J := join (44%N :: new_line n k) (x :: l) in
  let J' := join [44; 10]%N (x' :: l') in
  unindent true J = J' ∧ line_start true J = false ∧ (∀ p, tidy p J = Some false) ∧
  (∀ n, 0 ≤ n → level n J' = Some n) ∧ wordy true J' = Some false.
Proof.
  revert x x' l'. induction l as [|y l IH]; intros x x' l' H HS;
    apply Forall2_cons in H as [[U1 L1 T1 V1 W1] H]; apply Forall_cons in HS as [HS HSs].
  - apply Forall2_nil_inv_l in H as ->. by split_and!.
  - destruct l' as [|y' l']; [by apply Forall2_cons_nil_inv in H|].
    destruct (IH y y' l' H HSs) as (U2 & L2 & T2 & V2 & W2). clear IH.
    destruct (unindent_new_line false n k) as [Un Ln]. destruct (tidy_new_line n k) as [q Tn].
    cbv zeta. rewrite !join_cons2.
    set (J := join _ (y :: l)) in *. set (J' := join _ (y' :: l')) in *. clearbody J J'. cbn [app].
    split_and!.
    + by rewrite unindent_app, U1, L1, unindent_char, unindent_app, Un, Ln, U2 by done.
    + by rewrite line_start_app, L1, line_start_char, line_start_app, Ln by done.
    + intros p. rewrite tidy_app, T1. cbn [mbind option_bind].
      rewrite tidy_char, tidy_app, Tn by done. apply T2.
    + intros z Hz. rewrite level_app, V1 by done. cbn. by apply V2.
    + unfold starter in HS. rewrite wordy_app, HS. cbn. exact W2.
Qed.

(** An opening and its closing bracket *)
Definition brackets (o c : N) : Prop := (o, c) = (91, 93)%N ∨ (o, c) = (123, 125)%N.

Lemma level_shift n m s k : 0 ≤ k → level n s = Some m → level (n + k) s = Some (m + k).
Proof.
  intros Hk. revert n. induction s as [|c s IH]; intros n; cbn [level].
  - by intros [= ->].
  - destruct (bool_decide (c = 123%N)).
    { intros H. apply IH in H. by replace (n + k + 1) with (n + 1 + k) by lia. }
    destruct (bool_decide (c = 125%N)); [|apply IH].
    destruct (Z.ltb_spec 0 n) as [Hn|]; [|done]. rewrite (proj2 (Z.ltb_lt _ _)) by lia.
    intros H. apply IH in H. by replace (n + k - 1) with (n - 1 + k) by lia.
Qed.

Lemma piece_enclose o c n k k' x x' l l' :
  brackets o c → Forall2 piece (x :: l) (x' :: l') → Forall starter (x' :: l') →
  piece (o :: new_line n k ++ join (44%N :: new_line n k) (x :: l) ++ new_line n k' ++ [c])
        (o :: 10%N :: join [44; 10]%N (x' :: l') ++ [10; c]%N) ∧
  starter (o :: 10%N :: join [44; 10]%N (x' :: l') ++ [10; c]%N).
Proof.
  intros Hb H HS. destruct (pieces_joined n k x x' l l' H HS) as (U & L & T & V & W).
  set (J := join _ (x :: l)) in *. set (J' := join _ (x' :: l')) in *. clearbody J J'.
  destruct (unindent_new_line false n k) as [U1 L1]. destruct (tidy_new_line n k) as [q T1].
  destruct (unindent_new_line false n k') as [U2 L2]. destruct (tidy_new_line n k') as [q' T2].
  assert (∀ b, wordy b (o :: 10%N :: J' ++ [10; c]%N) = Some false) as WE.
  { intros b. destruct Hb as [[= -> ->]|[= -> ->]];
      by rewrite wordy_char, wordy_newline, wordy_app, W by done. }
  assert (visible o ∧ visible c) as [Ho Hc] by (destruct Hb as [[= -> ->]|[= -> ->]]; done).
  split; [|apply WE]. split.
  - intros b. by rewrite unindent_char, unindent_app, U1, L1, unindent_app, U, L, unindent_app, U2,
      L2, unindent_char by done.
  - intros b. by rewrite line_start_char, line_start_app, L1, line_start_app, L, line_start_app, L2,
      line_start_char by done.
  - intros p. rewrite tidy_char, tidy_app, T1 by done. cbn [mbind option_bind].
    rewrite tidy_app, T. cbn [mbind option_bind]. rewrite tidy_app, T2. cbn [mbind option_bind].
    by rewrite tidy_char.
  - intros z Hz. destruct Hb as [[= -> ->]|[= -> ->]].
    + change (level z (91%N :: 10%N :: J' ++ [10; 93]%N)) with (level z (J' ++ [10; 93]%N)).
      by rewrite level_app, V.
    + change (level z (123%N :: 10%N :: J' ++ [10; 125]%N)) with (level (z + 1) (J' ++ [10; 125]%N)).
      rewrite level_app, V by lia. cbn [mbind option_bind].
      change (level (z + 1) [10; 125]%N) with (if 0 <? z + 1 then Some (z + 1 - 1) else None).
      rewrite (proj2 (Z.ltb_lt _ _)) by lia. f_equal. lia.
  - apply WE.
Qed.

(** ** JSON *)

Definition braceless (s : pystr) : Prop := 123%N ∉ s ∧ 125%N ∉ s.

(** No brace in a string, and no list of numbers *)
Fixpoint nice (v : json) : Prop :=
  match v with
  | JStr s => braceless s
  | JList l => foldr (λ v P, (nice v ∧ ∀ z, v ≠ JInt z) ∧ P) True l
  | JDict d => foldr (λ kv P, (braceless kv.1 ∧ nice kv.2) ∧ P) True d
  | _ => True
  end.

Lemma nice_list l : nice (JList l) ↔ Forall (λ v, nice v ∧ ∀ z, v ≠ JInt z) l.
Proof.
  cbn [nice]. induction l as [|v l IH]; cbn [foldr]; [by rewrite Forall_nil|].
  by rewrite Forall_cons, IH.
Qed.
Lemma nice_dict d : nice (JDict d) ↔ Forall (λ kv, braceless kv.1 ∧ nice kv.2) d.
Proof.
  cbn [nice]. induction d as [|kv d IH]; cbn [foldr]; [by rewrite Forall_nil|].
  by rewrite Forall_cons, IH.
Qed.

Lemma escape_char_plain c : c ≠ 123%N → c ≠ 125%N →
  10%N ∉ escape_char c ∧ 123%N ∉ escape_char c ∧ 125%N ∉ escape_char c.
Proof.
  intros H1 H2. unfold escape_char.
  repeat (case_bool_decide; [split_and!; by_compute|]).
  destruct (N.ltb_spec c 32) as [Hc|Hc].
  - assert (∀ n, (n < 16)%N → hex_digit n ∉ [10; 123; 125]%N) as A.
    { intros n Hn. unfold hex_digit. destruct (N.ltb_spec n 10);
        rewrite !not_elem_of_cons; split_and!; try lia; apply not_elem_of_nil. }
    pose proof (A (c / 16)%N) as A1. pose proof (A (c mod 16)%N) as A2.
    rewrite !not_elem_of_cons in A1, A2.
    assert (c / 16 < 16)%N by (apply N.Div0.div_lt_upper_bound; lia).
    assert (c mod 16 < 16)%N by (apply N.mod_lt; lia).
    destruct A1 as (? & ? & ? & _); [done|]. destruct A2 as (? & ? & ? & _); [done|].
    split_and!; repeat (apply not_elem_of_cons; split); first [done|congruence|apply not_elem_of_nil].
  - split_and!; (apply not_elem_of_cons; split; [congruence|apply not_elem_of_nil]).
Qed.

Lemma dumps_str_piece s : braceless s → piece (dumps_str s) (dumps_str s) ∧ starter (dumps_str s).
Proof.
  intros [H1 H2].
  assert (10%N ∉ dumps_str s ∧ 123%N ∉ dumps_str s ∧ 125%N ∉ dumps_str s) as (A & B & C).
  { unfold dumps_str. rewrite !not_elem_of_cons, !not_elem_of_app, !list_elem_of_singleton.
    enough (10%N ∉ s ≫= escape_char ∧ 123%N ∉ s ≫= escape_char ∧ 125%N ∉ s ≫= escape_char)
      by (split_and!; tauto || congruence).
    induction s as [|c s IH]; [split_and!; apply not_elem_of_nil|].
    rewrite not_elem_of_cons in H1, H2. destruct H1 as [? ?], H2 as [? ?].
    destruct (escape_char_plain c) as (? & ? & ?); [congruence|congruence|].
    destruct IH as (? & ? & ?); [done|done|].
    rewrite !bind_cons, !not_elem_of_app. tauto. }
  split.
  - apply (piece_text _ 34%N); try done. unfold dumps_str.
    change (34%N :: ?x ++ ?y) with ((34%N :: x) ++ y). by apply ends_app.
  - by apply (starter_text _ 34%N).
Qed.

(** The same JSON, with its lines indented and without *)
Notation indented n := (dump (new_line n) (new_line n)).
Notation stripped := (dump (λ _, [10%N]) (λ _, [10%N])).

Lemma piece_word (w : pystr) c :
  head w = Some c → is_space c = false → is_digit c = false → ends_visibly w → 10%N ∉ w →
  123%N ∉ w → 125%N ∉ w → piece w w ∧ starter w.
Proof. intros. split; [by eapply piece_text|by eapply starter_text]. Qed.

Lemma piece_number z : piece (str_of_Z z) (str_of_Z z).
Proof.
  destruct (str_of_Z_head z) as (c & r & E & Hc). apply (piece_text _ c).
  - by rewrite E.
  - destruct Hc as [Hc|[-> _]]; [by apply digit_not_space|done].
  - apply ends_number.
  - by apply str_of_Z_not_elem.
  - by apply str_of_Z_not_elem.
  - by apply str_of_Z_not_elem.
Qed.

Lemma piece_member s (d d' : pystr) :
  braceless s → piece d d' →
  piece (dumps_str s ++ u ": " ++ d) (dumps_str s ++ u ": " ++ d') ∧
  starter (dumps_str s ++ u ": " ++ d').
Proof.
  intros Hs Hd. destruct (dumps_str_piece s Hs) as [H1 H2]. split.
  - apply piece_between; [done|done|by_compute|by_compute|by_compute].
  - apply starter_app; [done|]. rewrite wordy_app, wordy_line by by_compute. apply Hd.
Qed.

Lemma members_pieces n k d :
  Forall (λ kv, braceless kv.1 ∧ piece (indented n k kv.2) (stripped k kv.2)) d →
  Forall2 piece (member (new_line n) (new_line n) k <$> d)
    (member (λ _, [10%N]) (λ _, [10%N]) k <$> d) ∧
  Forall starter (member (λ _, [10%N]) (λ _, [10%N]) k <$> d).
Proof.
  rewrite Forall2_fmap_l, Forall2_fmap_r, Forall_fmap, Forall_forall. intros H. split.
  - apply Forall_Forall2_diag, Forall_forall. intros kv Hkv. destruct (H kv Hkv).
    by apply piece_member.
  - apply Forall_forall. intros kv Hkv. destruct (H kv Hkv). by eapply piece_member.
Qed.

Lemma piece_dump n v k :
  plain v → nice v →
  piece (indented n k v) (stripped k v) ∧ ((∀ z, v ≠ JInt z) → starter (stripped k v)).
Proof.
  revert k. induction v as [|b|z|x|s|l IH|d IH] using json_nested_ind; intros k HP HN.
  - destruct (piece_word (u "null") 110%N) as [H1 H2]; try done; try by_compute.
  - destruct b; [destruct (piece_word (u "true") 116%N) as [H1 H2]
                |destruct (piece_word (u "false") 102%N) as [H1 H2]]; try done; try by_compute.
  - split; [apply piece_number|]. intros H. by destruct (H z).
  - done.
  - destruct (dumps_str_piece s HN). done.
  - apply plain_list in HP. apply nice_list in HN. destruct l as [|v l].
    { destruct (piece_word (u "[]") 91%N) as [H1 H2]; try done; by_compute. }
    assert (Forall2 piece (indented n (S k) <$> v :: l) (stripped (S k) <$> v :: l) ∧
      Forall starter (stripped (S k) <$> v :: l)) as [H2 HS].
    { rewrite Forall2_fmap_l, Forall2_fmap_r, Forall_fmap.
      rewrite Forall_forall in IH, HP, HN. split.
      - apply Forall_Forall2_diag, Forall_forall. intros w Hw. apply IH; [done|by apply HP|by apply HN].
      - apply Forall_forall. intros w Hw. apply IH; [done|by apply HP|by apply HN|]. by apply HN. }
    rewrite !dump_list. rewrite !fmap_cons in *.
    destruct (piece_enclose 91 93 n (S k) k _ _ _ _ (or_introl eq_refl) H2 HS) as [H H'].
    split; [exact H|]. intros _. exact H'.
  - apply plain_dict in HP as [_ HP]. apply nice_dict in HN. destruct d as [|kv d].
    { split; [|done]. split; [by intros []|by intros []|by intros []| |done].
      intros z Hz. assert (level z (u "{}") = if 0 <? z + 1 then Some (z + 1 - 1) else None) as E by done.
      etrans; [exact E|]. rewrite (proj2 (Z.ltb_lt _ _)) by lia. f_equal. lia. }
    destruct (members_pieces n (S k) (kv :: d)) as [H2 HS].
    { rewrite Forall_forall in *. intros w Hw. destruct (HN w Hw). split; [done|].
      by apply IH; [|apply HP|]. }
    rewrite !dump_dict. rewrite !fmap_cons in *.
    destruct (piece_enclose 123 125 n (S k) k _ _ _ _ (or_intror eq_refl) H2 HS) as [H H'].
    split; [exact H|]. intros _. exact H'.
Qed.

(** ** Stripping the lines *)

Lemma strip_ends l : l = [] ∨ ends_visibly l → strip (l ++ [10%N]) = lstrip l.
Proof.
  intros [->|H]; [done|]. unfold strip.
  assert (∃ r, lstrip (l ++ [10%N]) = r ++ [10%N] ∧ lstrip l = r ∧ ends_visibly r) as (r & -> & -> & Hr).
  { induction l as [|c l IH]; [done|]. cbn. destruct (is_space c) eqn:E.
    - apply IH. destruct l as [|d l]; [|done]. cbn in H. congruence.
    - exists (c :: l). done. }
  rewrite reverse_snoc. change (lstrip (10%N :: reverse r)) with (lstrip (reverse r)).
  unfold ends_visibly in Hr. destruct (last r) as [d|] eqn:E; [|done].
  apply last_Some in E as [r' ->]. rewrite reverse_snoc, lstrip_id by done.
  by rewrite <- reverse_snoc, reverse_involutive.
Qed.

Lemma unindent_lstrip l : 10%N ∉ l → unindent true l = lstrip l.
Proof.
  induction l as [|c l IH]; [done|]. rewrite not_elem_of_cons. intros [H1 H2]. cbn.
  rewrite bool_decide_false by congruence. destruct (is_space c); [by apply IH|].
  by rewrite unindent_line.
Qed.

Lemma lstrip_elem c s : c ∈ lstrip s → c ∈ s.
Proof.
  induction s as [|d s IH]; [done|]. cbn. destruct (is_space d); [|done]. right. by apply IH.
Qed.

Lemma tidy_ends p l q : 10%N ∉ l → tidy p l = Some q →
  (q = false → l = [] ∨ ends_visibly l) ∧ (l = [] → q = p).
Proof.
  revert p. induction l as [|c l IH]; intros p; [intros _ [= ->]; split; [by left|done]|].
  rewrite not_elem_of_cons. intros [H1 H2]. cbn. rewrite bool_decide_false by congruence.
  intros H. apply IH in H as [A B]; [|done]. split; [|done]. intros ->. right.
  destruct A as [->|A]; [done| |].
  - unfold ends_visibly. cbn. symmetry. by apply B.
  - destruct l; [done|]. exact A.
Qed.

Lemma strip_lines s : tidy false s = Some false →
  (λ l, strip (l ++ [10%N])) <$> lines s = lines (unindent true s).
Proof.
  induction s as [l Hl|l r Hl IH] using lines_ind; intros H.
  - apply tidy_ends in H as [H _]; [|done]. rewrite lines_single by done. cbn.
    rewrite strip_ends by auto. rewrite unindent_lstrip by done.
    rewrite lines_single; [done|]. by intros ?%lstrip_elem.
  - rewrite tidy_app in H. destruct (tidy false l) as [q|] eqn:E; [|done]. cbn in H.
    destruct q; [done|]. apply tidy_ends in E as [E _]; [|done].
    rewrite lines_cons by done. rewrite fmap_cons, IH by done.
    rewrite strip_ends by auto. rewrite unindent_app, (unindent_lstrip l) by done.
    change (unindent ?b (10%N :: r)) with (10%N :: unindent true r).
    rewrite lines_cons; [done|]. by intros ?%lstrip_elem.
Qed.

(** ** Counting the braces *)

Lemma count_app c s t : count c (s ++ t) = count c s + count c t.
Proof. unfold count. rewrite filter_app, length_app. lia. Qed.
Lemma brace_count_app s t : brace_count (s ++ t) = brace_count s + brace_count t.
Proof. unfold brace_count. rewrite !count_app. lia. Qed.
Lemma count_cons c d s : count c (d :: s) = (if decide (d = c) then 1 else 0) + count c s.
Proof. unfold count. rewrite filter_cons. destruct (decide (d = c)); cbn [length]; lia. Qed.

Lemma level_count n s m : level n s = Some m → 0 ≤ n → m = n + brace_count s ∧ 0 ≤ m.
Proof.
  revert n. induction s as [|c s IH]; intros n; cbn [level];
    [intros [= ->]; change (brace_count []) with 0; lia|].
  unfold brace_count in *. rewrite !count_cons.
  destruct (decide (c = 123%N)) as [->|H1].
  { rewrite bool_decide_true by done. rewrite decide_False by done.
    intros H Hn. apply IH in H; lia. }
  rewrite bool_decide_false by done. destruct (decide (c = 125%N)) as [->|H2].
  { rewrite bool_decide_true by done. destruct (Z.ltb_spec 0 n); [|done].
    intros H' Hn. apply IH in H'; lia. }
  rewrite bool_decide_false by done. intros H Hn. apply IH in H; lia.
Qed.

(** In an object braces are open until its last character. *)
Lemma open_until_end body p q :
  level 0 body = Some 0 → 123%N :: body ++ [125%N] = p ++ q → p ≠ [] → q ≠ [] → 0 < brace_count p.
Proof.
  intros H E Hp Hq. destruct p as [|c p]; [done|]. injection E as <- E.
  destruct q as [|d q _] using rev_ind; [done|]. rewrite (assoc_L (++)) in E.
  apply app_inj_2 in E as [-> _]; [|done]. rewrite level_app in H.
  destruct (level 0 p) as [m|] eqn:L; [|done].
  apply level_count in L as [L1 L2]; [|done]. unfold brace_count in *. rewrite !count_cons.
  rewrite decide_True, decide_False by done. lia.
Qed.

(** ** The lines of a prompt are collected *)

Lemma collect_all raw ls braces next :
  strip <$> raw = ls → Forall (λ l, is_record l = false) ls →
  (∀ ls1 ls2, ls = ls1 ++ ls2 → ls2 ≠ [] → 0 < braces + sum_by brace_count ls1) →
  braces + sum_by brace_count ls = 0 →
  collect_lines braces (raw ++ next) = ls.
Proof.
  intros <-. revert braces. induction raw as [|r raw IH]; intros braces HR HP H0.
  - assert (braces = 0) as -> by (change (braces + 0 = 0) in H0; lia). by destruct next.
  - rewrite !fmap_cons in *. cbn [app collect_lines]. apply Forall_cons in HR as [Hr HR].
    specialize (HP []) as H1. rewrite sum_by_nil in H1. specialize (H1 _ eq_refl ltac:(done)).
    rewrite (proj2 (Z.ltb_lt _ _)) by lia. rewrite Hr. f_equal.
    rewrite sum_by_cons in H0. apply IH; [done| |lia].
    intros ls1 ls2 E Hne. pose proof (HP (strip r :: ls1) ls2) as H2.
    rewrite sum_by_cons, E in H2. specialize (H2 eq_refl Hne).
    by rewrite (Z.add_assoc braces) in H2.
Qed.

Lemma brace_count_join ls : brace_count (join [10%N] ls) = sum_by brace_count ls.
Proof.
  induction ls as [|l [|l' ls] IH]; [done| |].
  - rewrite sum_by_cons, sum_by_nil. cbn [join]. lia.
  - rewrite join_cons2, !brace_count_app, IH, (sum_by_cons _ l).
    change (brace_count [10%N]) with 0. lia.
Qed.

Lemma join_app ls1 ls2 : ls1 ≠ [] → ls2 ≠ [] →
  join [10%N] (ls1 ++ ls2) = (join [10%N] ls1 ++ [10%N]) ++ join [10%N] ls2.
Proof.
  intros H1 H2. induction ls1 as [|l [|l' ls1] IH]; [done| |].
  - destruct ls2; [done|]. cbn [app]. rewrite join_cons2. cbn [join]. by rewrite (assoc_L (++)).
  - change ((l :: l' :: ls1) ++ ls2) with (l :: (l' :: ls1) ++ ls2).
    change ((l' :: ls1) ++ ls2) with (l' :: ls1 ++ ls2). rewrite !join_cons2.
    change (l' :: ls1 ++ ls2) with ((l' :: ls1) ++ ls2). rewrite IH by done.
    by rewrite <- !(assoc_L (++)).
Qed.

(** ** The object of a prompt *)

(** What is left of an object when its lines are stripped *)
Lemma object_lines n kv d :
  plain (JDict (kv :: d)) → nice (JDict (kv :: d)) →
  ∃ R J, indented n 0 (JDict (kv :: d)) = 123%N :: 10%N :: R ∧
    stripped 0 (JDict (kv :: d)) = 123%N :: 10%N :: J ++ [10; 125]%N ∧
    level 0 J = Some 0 ∧ tidy false R = Some false ∧
    unindent true R = J ++ [10; 125]%N ∧ wordy true (J ++ [10; 125]%N) = Some false.
Proof.
  intros HP HN. apply plain_dict in HP as [_ HP]. apply nice_dict in HN.
  destruct (members_pieces n 1 (kv :: d)) as [H2 HS].
  { rewrite Forall_forall in *. intros w Hw. destruct (HN w Hw). split; [done|].
    by apply piece_dump; [apply HP|]. }
  rewrite !dump_dict. rewrite !fmap_cons in *.
  destruct (pieces_joined n 1 _ _ _ _ H2 HS) as (U & L & T & V & W).
  set (J := join (44%N :: new_line n 1) _) in *. set (J' := join [44; 10]%N _) in *.
  destruct (unindent_new_line false n 1) as [U1 L1]. destruct (tidy_new_line n 1) as [q T1].
  destruct (unindent_new_line false n 0) as [U2 L2]. destruct (tidy_new_line n 0) as [q' T2].
  assert (new_line n 1 = 10%N :: replicate (n * 1) 32%N) as E by done.
  exists (replicate (n * 1) 32%N ++ J ++ new_line n 0 ++ [125%N]), J'.
  clearbody J J'. split_and!.
  - by rewrite E.
  - done.
  - by apply V.
  - change (tidy false (10%N :: replicate (n * 1) 32%N ++ J ++ new_line n 0 ++ [125%N]) = Some false).
    rewrite (app_comm_cons (replicate (n * 1) 32%N)), <- E.
    rewrite tidy_app, T1. cbn [mbind option_bind]. rewrite tidy_app, T. cbn [mbind option_bind].
    rewrite tidy_app, T2. cbn [mbind option_bind]. by rewrite tidy_char.
  - apply (inj (cons 10%N)).
    change (unindent false (10%N :: replicate (n * 1) 32%N ++ J ++ new_line n 0 ++ [125%N])
      = 10%N :: J' ++ [10; 125]%N).
    rewrite (app_comm_cons (replicate (n * 1) 32%N)), <- E.
    by rewrite unindent_app, U1, L1, unindent_app, U, L, unindent_app, U2, L2, unindent_char.
  - by rewrite wordy_app, W.
Qed.

Lemma wordy_not_record s q : wordy true s = Some q → Forall (λ l, is_record l = false) (lines s).
Proof.
  assert (∀ b l, wordy true (l : pystr) = Some b → is_record l = false) as A.
  { intros b [|c l] H; [done|]. destruct (is_record (c :: l)) eqn:E; [|done].
    apply is_record_digit in E. cbn in H. by rewrite E in H. }
  induction s as [l Hl|l r Hl IH] using lines_ind; intros H.
  - rewrite lines_single by done. apply Forall_singleton. by eapply A.
  - rewrite wordy_app in H. destruct (wordy true l) as [b|] eqn:E; [|done].
    rewrite lines_cons by done. apply Forall_cons. split; [by eapply A|].
    apply IH. cbn in H. by destruct (b && _).
Qed.

(** The lines of an object are collected, and no more. *)
Lemma collect_object prefix R J next :
  braceless prefix → level 0 J = Some 0 → tidy false R = Some false →
  unindent true R = J ++ [10; 125]%N → wordy true (J ++ [10; 125]%N) = Some false →
  collect_multi_line_json (readlines (R ++ [10%N]) ++ next) (prefix ++ [123%N])
  = prefix ++ 123%N :: 10%N :: J ++ [10; 125]%N.
Proof.
  intros Hp HL HT HU HW. unfold collect_multi_line_json.
  set (S := J ++ [10; 125]%N) in *.
  assert (brace_count (prefix ++ [123%N]) = 1) as HB.
  { rewrite brace_count_app. destruct (level_count 0 prefix 0) as [H _]; [|lia|].
    - by apply level_plain; apply Hp.
    - change (brace_count [123%N]) with 1. lia. }
  rewrite HB. rewrite (collect_all _ (lines S)).
  - pose proof (join_lines S) as HJ. destruct (lines S) as [|l ls] eqn:E; [by apply lines_not_nil in E|].
    rewrite join_cons2, HJ, <- (assoc_L (++)). done.
  - rewrite readlines_lines, <- list_fmap_compose, <- HU. by apply strip_lines.
  - by eapply wordy_not_record.
  - intros ls1 ls2 E Hne. destruct (decide (ls1 = [])) as [->|H1]; [done|].
    pose proof (join_lines S) as HJ. rewrite E, join_app in HJ by done.
    enough (0 < brace_count (123%N :: 10%N :: join [10%N] ls1 ++ [10%N])) as H.
    { change (123%N :: 10%N :: ?x) with ([123; 10]%N ++ x) in H.
      rewrite !brace_count_app, brace_count_join in H.
      change (brace_count [10%N]) with 0 in H. change (brace_count [123; 10]%N) with 1 in H. lia. }
    apply (open_until_end (10%N :: J ++ [10%N]) _ (join [10%N] ls2)).
    + change (level 0 (J ++ [10%N]) = Some 0). by rewrite level_app, HL.
    + cbn [app]. rewrite HJ. unfold S. by rewrite <- (assoc_L (++)).
    + done.
    + intros E2. rewrite E2, (right_id_L [] (++)) in HJ. unfold S in HJ.
      change [10; 125]%N with ([10] ++ [125])%N in HJ. rewrite (assoc_L (++)) in HJ.
      apply app_inj_2 in HJ as [_ HJ]; done.
  - rewrite <- brace_count_join, join_lines. unfold S.
    rewrite brace_count_app. apply level_count in HL; [|done].
    change (brace_count [10; 125]%N) with (-1). lia.
Qed.
