(* ===== verification/ViewerProps.v ===== *)
(** * The viewer knows the game

    The state an agent is sent, as the engine has it, and what the viewer keeps after
    it has read the record of the prompt. *)
From stdpp Require Import strings.
From S2P Require Import Prelude Py Json JsonProps Regex Floats GameModels PlayerModels LlmPlayers.
From S2P Require Import Game GameProps HandInvariant LlmProps GameLog LogViewer LogProps PromptProps.
Import LogRecord LogParser GameLog PokerGame.

(** ** What is to be shown *)

(** The viewer's state shows the game to the player [i]. *)
Record shows (i : nat) (g : PokerGame.t) (s : game_state) : Prop := Shows {
  shows_pot : gs_pot s = JInt (pot g);
  shows_community : gs_community_cards s = (λ c, JStr (Card.str c)) <$> community_cards g;
  shows_own p : get_player i g = Some p →
    gs_current_bet s = Json (JInt (Z.max (current_bet g) (Player.current_bet p))) ∧
    ∃ v, dict_get (JInt (Z.of_nat i)) (gs_players s) = Some v ∧
      cards v = (λ c, JStr (Card.str c)) <$> Player.hole_cards p;
  shows_others p : p ∈ players g → Player.id p ≠ i → Player.status p ≠ BUSTED →
    ∃ v, dict_get (JInt (Z.of_nat (Player.id p))) (gs_players s) = Some v ∧
      chips v = JInt (Player.chips p) ∧ LogParser.current_bet v = JInt (Player.current_bet p) ∧
      status v = JStr (status_value (Player.status p)) }.

(** The name of the player with an agent *)
Definition agent_name (i : nat) : pystr := u "Agent" ++ str_of_nat i.

(** ** The players of a prompt *)

Definition learn_player (l : list (json * player)) (x : PlayerInfo.t) : list (json * player) :=
  let pid := JInt (PlayerInfo.id x) in
  let q := default (Player (u "Player" ++ str_of_Z (PlayerInfo.id x)) (JInt 0) (JInt 0) [] (JInt 0)
                      None None) (dict_get pid l) in
  dict_set pid (q <| chips := JInt (PlayerInfo.chips x) |>
                  <| LogParser.current_bet := JInt (PlayerInfo.bet x) |>
                  <| status := JStr (PlayerInfo.status x) |>) l.

(** A change of the state of the game *)
Definition learnt (f : game_state → game_state) (p : LogParser.t) : LogParser.t := p <| state ::= f |>.

Lemma learnt_learnt f h p : learnt f (learnt h p) = learnt (λ s, f (h s)) p.
Proof. done. Qed.

Lemma set_player_run pid f p v : dict_get pid (gs_players (state p)) = Some v →
  LogParser.set_player pid f p
  = (Ok tt, learnt (λ s, s <| gs_players ::= dict_set pid (f v) |>) p).
Proof.
  intros H. unfold LogParser.set_player, dict_item. run_monad. by rewrite H.
Qed.

Lemma update_player_run x p :
  update_player (PlayerInfo.to_dict x) p
  = (Ok tt, learnt (λ s, s <| gs_players ::= λ l, learn_player l x |>) p).
Proof.
  unfold update_player, PlayerInfo.to_dict.
  set (d := [_; _; _; _]).
  assert (jget "id" d = Some (JInt (PlayerInfo.id x))) as -> by by vm_compute.
  assert (jget "chips" d = Some (JInt (PlayerInfo.chips x))) as -> by by vm_compute.
  assert (jget "bet" d = Some (JInt (PlayerInfo.bet x))) as -> by by vm_compute.
  assert (jget "status" d = Some (JStr (PlayerInfo.status x))) as -> by by vm_compute.
  clearbody d. unfold learn_player, set_state.
  cbn [hash_key str_of_json]. run_monad. destruct p as [es h s n].
  unfold learnt, update. cbn [state gs_players events current_hand last_file_position].
  destruct (dict_get _ (gs_players s)) eqn:E; [|done]. by erewrite set_player_run.
Qed.

Lemma update_players_run l p :
  for_each (PlayerInfo.to_dict <$> l) update_player p
  = (Ok tt, learnt (λ s, s <| gs_players ::= λ d, foldl learn_player d l |>) p).
Proof.
  revert p. induction l as [|x l IH]; intros p; [by destruct p as [? ? [] ?]|].
  rewrite fmap_cons. cbn [for_each]. unfold mbind, M_bind. rewrite update_player_run, IH.
  by destruct p as [? ? [] ?].
Qed.

Lemma learn_player_same l x : ∃ v, dict_get (JInt (PlayerInfo.id x)) (learn_player l x) = Some v ∧
  chips v = JInt (PlayerInfo.chips x) ∧ LogParser.current_bet v = JInt (PlayerInfo.bet x) ∧
  status v = JStr (PlayerInfo.status x).
Proof. unfold learn_player. rewrite dict_get_set_eq. by eexists. Qed.

Lemma learn_player_other l x z : z ≠ PlayerInfo.id x →
  dict_get (JInt z) (learn_player l x) = dict_get (JInt z) l.
Proof. intros H. unfold learn_player. rewrite dict_get_set_ne; [done|]. congruence. Qed.

Lemma learn_players_other xs l z : z ∉ PlayerInfo.id <$> xs →
  dict_get (JInt z) (foldl learn_player l xs) = dict_get (JInt z) l.
Proof.
  revert l. induction xs as [|x xs IH]; intros l; [done|].
  rewrite fmap_cons, not_elem_of_cons. intros [H1 H2]. cbn [foldl].
  by rewrite IH, learn_player_other.
Qed.

Lemma learn_players_same xs l x : NoDup (PlayerInfo.id <$> xs) → x ∈ xs →
  ∃ v, dict_get (JInt (PlayerInfo.id x)) (foldl learn_player l xs) = Some v ∧
    chips v = JInt (PlayerInfo.chips x) ∧ LogParser.current_bet v = JInt (PlayerInfo.bet x) ∧
    status v = JStr (PlayerInfo.status x).
Proof.
  revert l. induction xs as [|y xs IH]; intros l; [by intros _ ?%elem_of_nil|].
  rewrite fmap_cons, NoDup_cons, elem_of_cons. intros [H1 H2] [->|Hx]; cbn [foldl].
  - rewrite learn_players_other by done. apply learn_player_same.
  - by apply IH.
Qed.

(** ** Reading a prompt *)

Lemma replace_agent i : replace (u "Agent") [] (agent_name i) = str_of_nat i.
Proof.
  unfold agent_name, replace.
  assert (split (u "Agent") ([] ++ u "Agent" ++ str_of_nat i) = [[]; str_of_nat i]) as E.
  { apply (split_once _ _ 65%N (u "gent")); [done|done|].
    rewrite str_of_nat_Z. by apply str_of_Z_not_elem. }
  cbn [app] in E. by rewrite E.
Qed.

Lemma new_player_id_agent i d : new_player_id (agent_name i) d = Ok (Some (JInt (Z.of_nat i))).
Proof.
  unfold new_player_id.
  rewrite (startswith_app (str_of_nat i) (u "Agent") : startswith (agent_name i) _ = true).
  by rewrite replace_agent, str_of_nat_Z, int_of_str_of_Z.
Qed.

Lemma find_by_name_get n l pid : find_by_name n l = Some pid → ∃ v, dict_get pid l = Some v.
Proof.
  unfold find_by_name. destruct (find _ l) as [[k q]|] eqn:E; [|done]. intros [= <-].
  apply find_some in E as [E _]. apply list_elem_of_In in E. destruct (dict_get k l) as [w|] eqn:F; [by eexists|].
  apply dict_get_None in F. destruct F. apply list_elem_of_fmap. by exists (k, q).
Qed.

(** The viewer has no other player under the name of the agent *)
Definition no_namesake (i : nat) (s : game_state) : Prop :=
  ∀ pid, find_by_name (agent_name i) (gs_players s) = Some pid → pid = JInt (Z.of_nat i).

Lemma target_run i d p : no_namesake i (state p) →
  ∃ v l, dict_get (JInt (Z.of_nat i)) l = Some v ∧
    target_player (agent_name i) d p
    = (Ok (Some (JInt (Z.of_nat i))), learnt (λ s, s <| gs_players := l |>) p).
Proof.
  intros H. unfold target_player. run_monad. destruct p as [es h s n]. cbn [state] in *.
  destruct (find_by_name _ _) as [pid|] eqn:E.
  - pose proof (H pid E) as ->. apply find_by_name_get in E as [v E]. exists v, (gs_players s).
    split; [done|]. by destruct s.
  - rewrite new_player_id_agent. eexists _, (dict_set _ _ (gs_players s)).
    split; [apply dict_get_set_eq|]. done.
Qed.

(** What is known once the prompt is read *)
Definition told (gs : GameState.t) (l : list (json * player)) (s : game_state) : game_state :=
  s <| gs_players := foldl learn_player l (GameState.players gs) |>
    <| gs_community_cards := JStr <$> GameState.community gs |>
    <| gs_pot := JInt (GameState.pot gs) |>
    <| gs_current_bet := Json (JInt (GameState.your_bet_this_round gs + GameState.to_call gs)) |>.

Lemma learn_run i gs p : no_namesake i (state p) → length (GameState.your_cards gs) = 2%nat →
  ∃ v l, dict_get (JInt (Z.of_nat i)) l = Some v ∧ cards v = JStr <$> GameState.your_cards gs ∧
    (target ← target_player (agent_name i) (GameState.to_dict gs);
     match target with
     | None => mret tt
     | Some target =>
         learn_cards target (GameState.to_dict gs) ;;
         learn_players (GameState.to_dict gs) ;;
         learn_bets (GameState.to_dict gs)
     end) p = (Ok tt, learnt (told gs l) p).
Proof.
  intros H Hl. destruct (target_run i (GameState.to_dict gs) p H) as (v & l & Hv & Ht).
  exists (v <| cards := JStr <$> GameState.your_cards gs |>),
    (dict_set (JInt (Z.of_nat i)) (v <| cards := JStr <$> GameState.your_cards gs |>) l).
  split; [apply dict_get_set_eq|]. split; [done|].
  unfold mbind at 1, M_bind at 1. rewrite Ht. unfold learn_cards, learn_players, learn_bets, GameState.to_dict.
  set (d := _ :: _).
  assert (jget "your_cards" d = Some (JList (JStr <$> GameState.your_cards gs))) as -> by by vm_compute.
  assert (jget "community" d = Some (JList (JStr <$> GameState.community gs))) as -> by by vm_compute.
  assert (jget "players" d = Some (JList (PlayerInfo.to_dict <$> GameState.players gs))) as ->
    by by vm_compute.
  assert (jget "pot" d = Some (JInt (GameState.pot gs))) as -> by by vm_compute.
  assert (jget "to_call" d = Some (JInt (GameState.to_call gs))) as -> by by vm_compute.
  assert (jget "your_bet_this_round" d = Some (JInt (GameState.your_bet_this_round gs))) as ->
    by by vm_compute.
  clearbody d. rewrite length_fmap, Hl. cbn [Nat.eqb default json_add].
  unfold mbind, M_bind. rewrite (set_player_run _ _ _ v) by done. unfold LogParser.set_state, modify.
  rewrite update_players_run. by destruct p as [? ? [] ?].
Qed.

(** ** The record of a prompt *)

Definition prompt_prefix (i : nat) : pystr := u "LLM Prompt for " ++ agent_name i ++ u ": ".

Lemma not_in_prompt_prefix i c :
  is_digit c = false → c ∉ u "-LLM Prompt for Agent: " → c ∉ prompt_prefix i.
Proof.
  intros H1 H2. unfold prompt_prefix, agent_name. rewrite !not_elem_of_app.
  assert (∀ s : pystr, forallb (λ c, bool_decide (c ∈ u "-LLM Prompt for Agent: ")) s = true → c ∉ s)
    as A.
  { intros s Hs Hc. apply H2. rewrite forallb_forall in Hs.
    by eapply bool_decide_eq_true_1, Hs, list_elem_of_In. }
  split_and!; try by apply A. rewrite str_of_nat_Z. apply str_of_Z_not_elem; [done|].
  intros ->. apply H2. by_compute.
Qed.

Lemma agent_name_word i : Forall (λ c, is_word c = true) (agent_name i).
Proof.
  unfold agent_name. rewrite Forall_app. split; [by apply (bool_decide_unpack _)|].
  rewrite str_of_nat_Z. unfold str_of_Z. rewrite (proj2 (Z.ltb_ge _ _)) by lia.
  destruct (str_of_N_shape (Z.to_N (Z.of_nat i))) as (c & r & -> & H).
  eapply Forall_impl; [exact H|]. intros d Hd. unfold is_word. by rewrite Hd.
Qed.

Lemma prompt_match_prefix i s : prompt_match (prompt_prefix i ++ s) = Some (agent_name i).
Proof.
  unfold prompt_match, prompt_prefix. rewrite <- !(assoc_L (++)). apply search_here.
  unfold word. rewrite span_word_app; [|apply agent_name_word|done].
  unfold agent_name. destruct (u "Agent" ++ str_of_nat i) eqn:E; [done|].
  change (u ": " ++ s) with (u ":" ++ 32%N :: s). by rewrite literal_here.
Qed.

Lemma word_before_prefix i s : word_before_colon (prompt_prefix i ++ s) = Ok tt.
Proof.
  unfold word_before_colon.
  assert (prompt_prefix i ++ s = (u "LLM Prompt for " ++ agent_name i) ++ 58%N :: 32%N :: s) as ->.
  { unfold prompt_prefix. by rewrite <- !(assoc_L (++)). }
  destruct (split_char_head 58%N (u "LLM Prompt for " ++ agent_name i) (32%N :: s)) as [r E].
  { unfold agent_name. rewrite !not_elem_of_app. split_and!; [by_compute|by_compute|].
    rewrite str_of_nat_Z. by apply str_of_Z_not_elem. }
  change (u ":") with [58%N]. rewrite E. cbn [head default]. rewrite bool_decide_true; [done|].
  apply Exists_app. left. by apply (bool_decide_unpack _).
Qed.

Lemma prompt_dispatch i level next p : level ∈ [u "DEBUG"; u "INFO"] →
  parse_message (prompt_prefix i ++ [123%N]) level next p =
    let full := collect_multi_line_json next (prompt_prefix i ++ [123%N]) in
    (extract_cards_from_json_message full (agent_name i) ;;
     mret (Some (LLM_DECISION (agent_name i) (u "prompt") 0 (prompt_content full) (Some full)))) p.
Proof.
  intros Hl.
  assert (∀ c, is_digit c = false → c ∉ u "-LLM Prompt for Agent: {" → c ∉ prompt_prefix i ++ [123%N])
    as N.
  { intros c H1 H2. rewrite not_elem_of_app. split.
    - apply not_in_prompt_prefix; [done|]. intros H. apply H2.
      assert (u "-LLM Prompt for Agent: {" = u "-LLM Prompt for Agent: " ++ u "{") as -> by done.
      apply elem_of_app. by left.
    - intros ->%list_elem_of_singleton. apply H2. by_compute. }
  unfold parse_message. no_marker N 61%N. no_marker N 61%N. no_marker N 104%N. no_marker N 67%N.
  no_marker N 83%N. no_marker N 87%N. cbn [orb].
  assert (contains (prompt_prefix i ++ [123%N]) (u "LLM Prompt for") = true) as ->.
  { unfold prompt_prefix. rewrite <- !(assoc_L (++)).
    apply (contains_app [] (u "LLM Prompt for") (32%N :: agent_name i ++ u ": " ++ [123%N])). }
  rewrite bool_decide_true by done. cbn [andb]. rewrite word_before_prefix, prompt_match_prefix.
  done.
Qed.

(** ** Texts without braces *)

Lemma braceless_app s t : braceless s → braceless t → braceless (s ++ t).
Proof. unfold braceless. rewrite !not_elem_of_app. tauto. Qed.
Lemma braceless_number z : braceless (str_of_Z z).
Proof. split; by apply str_of_Z_not_elem. Qed.

Lemma card_braceless c : braceless (Card.str c).
Proof.
  apply braceless_app.
  - unfold Card.rank_name, Card.name_of_rank.
    destruct (dict_get (Card.rank c) Card.RANK_NAMES) as [s|] eqn:E; [|split; apply not_elem_of_nil].
    apply dict_get_elem in E.
    assert (Forall (λ kv, 123%N ∉ kv.2 ∧ 125%N ∉ kv.2) Card.RANK_NAMES) as F by by_compute.
    rewrite Forall_forall in F. exact (F _ E).
  - unfold Card.suit_symbol. destruct (Card.suit c); split; by_compute.
Qed.

Record braceless_state (gs : GameState.t) : Prop := BracelessState {
  bs_phase : braceless (GameState.phase gs);
  bs_cards : Forall braceless (GameState.your_cards gs);
  bs_community : Forall braceless (GameState.community gs);
  bs_players : Forall (λ x, braceless (PlayerInfo.status x)) (GameState.players gs);
  bs_actions : Forall braceless (GameState.actions gs);
  bs_history : Forall braceless (GameState.history gs) }.

Lemma nice_texts l : Forall braceless l → nice (JList (JStr <$> l)).
Proof. intros H. apply nice_list, Forall_fmap. eapply Forall_impl; [exact H|]. done. Qed.

Lemma nice_to_dict gs : braceless_state gs → nice (JDict (GameState.to_dict gs)).
Proof.
  intros [H1 H2 H3 H4 H5 H6]. apply nice_dict. unfold GameState.to_dict.
  repeat (apply Forall_cons; split; [split; [split; by_compute|cbn [snd]]|]); try done;
    try by apply nice_texts.
  apply nice_list, Forall_fmap. eapply Forall_impl; [exact H4|]. intros x Hx. split; [|done].
  apply nice_dict. unfold PlayerInfo.to_dict.
  repeat (apply Forall_cons; split; [split; [split; by_compute|done]|]). done.
Qed.

(** The engine writes no brace but in the history it keeps. *)
Lemma engine_braceless i g gs :
  get_llm_game_state i g = Ok gs → Forall braceless (action_history g) → braceless_state gs.
Proof.
  unfold get_llm_game_state. destruct (get_player i g) as [p|]; [|done].
  destruct (has_status BUSTED p); [done|]. intros [= <-] H.
  assert (∀ l, Forall braceless (Card.str <$> l)) as HC.
  { intros l. apply Forall_fmap, Forall_true. intros c. apply card_braceless. }
  split; cbn [GameState.phase GameState.your_cards GameState.community GameState.players
    GameState.actions GameState.history]; [|apply HC|apply HC| | |].
  - destruct (current_phase g); split; by_compute.
  - apply Forall_fmap, Forall_true. intros q. unfold compose. cbn.
    destruct (Player.status q); split; by_compute.
  - unfold get_available_actions. destruct (get_player i g) as [q|]; [|constructor].
    destruct (negb _); [constructor|]. cbv zeta.
    assert (∀ (w : pystr) z, braceless w → braceless (w ++ str_of_Z z ++ u ")")) as HA.
    { intros w z Hw. apply braceless_app; [done|]. apply braceless_app; [apply braceless_number|].
      split; by_compute. }
    rewrite !Forall_app. split_and!; repeat case_match; repeat constructor; try by_compute;
      apply HA; split; by_compute.
  - unfold recent_history. by apply Forall_drop.
Qed.

(** ** The object in a message *)

Lemma object_text_found prefix body :
  braceless prefix → object_text (prefix ++ 123%N :: body ++ [125%N]) = Some (123%N :: body ++ [125%N]).
Proof.
  intros [H _]. unfold object_text, rfind. change (u "{") with [123%N].
  rewrite find_sub_char by done. cbn [mbind option_bind].
  assert (reverse (prefix ++ 123%N :: body ++ [125%N]) = 125%N :: reverse (prefix ++ 123%N :: body)) as ->.
  { by rewrite app_comm_cons, (assoc_L (++)), reverse_snoc. }
  rewrite (find_sub_char 125%N [] _ (not_elem_of_nil _) :
    find_sub [125%N] (125%N :: reverse (prefix ++ 123%N :: body)) = Some 0%nat).
  rewrite length_app. cbn [length mbind option_bind fmap option_fmap option_map]. rewrite length_app. cbn [length].
  rewrite (proj2 (Nat.ltb_lt _ _)) by lia. rewrite drop_app_length. f_equal.
  apply take_ge. cbn [length]. rewrite length_app. cbn [length]. lia.
Qed.

(** The summary of a prompt *)
Definition summary (gs : GameState.t) : reasoning :=
  Summary [(u "カード", JList (JStr <$> GameState.your_cards gs)); (u "フェーズ", JStr (GameState.phase gs));
           (u "ポット", JInt (GameState.pot gs)); (u "コール額", JInt (GameState.to_call gs));
           (u "所持チップ", JInt (GameState.your_chips gs))].

Lemma prompt_summary_to_dict gs : prompt_summary (GameState.to_dict gs) =
  [(u "カード", JList (JStr <$> GameState.your_cards gs)); (u "フェーズ", JStr (GameState.phase gs));
   (u "ポット", JInt (GameState.pot gs)); (u "コール額", JInt (GameState.to_call gs));
   (u "所持チップ", JInt (GameState.your_chips gs))].
Proof. by vm_compute. Qed.

(** The message whose lines are stripped *)
Definition full_prompt i gs : pystr := prompt_prefix i ++ stripped 0 (JDict (GameState.to_dict gs)).

Lemma stripped_loads gs : loads (stripped 0 (JDict (GameState.to_dict gs))) = Ok (JDict (GameState.to_dict gs)).
Proof. apply loads_dump; [intros ?; by repeat constructor..|apply plain_to_dict]. Qed.

Lemma prompt_braceless i : braceless (prompt_prefix i).
Proof. split; (apply not_in_prompt_prefix; [done|by_compute]). Qed.

Lemma try_ok {A} (m h : M LogParser.t A) e p a q :
  m p = (Ok a, q) → try_except m e h p = (Ok a, q).
Proof. intros H. unfold try_except. by rewrite H. Qed.

Section Object.
Context (i : nat) (gs : GameState.t) (texts_ok : braceless_state gs).

Lemma to_dict_lines : ∃ R J,
  indented 2 0 (JDict (GameState.to_dict gs)) = 123%N :: 10%N :: R ∧
  stripped 0 (JDict (GameState.to_dict gs)) = 123%N :: 10%N :: J ++ [10; 125]%N ∧
  level 0 J = Some 0 ∧ tidy false R = Some false ∧
  unindent true R = J ++ [10; 125]%N ∧ wordy true (J ++ [10; 125]%N) = Some false.
Proof. apply object_lines; [apply plain_to_dict|by apply nice_to_dict]. Qed.

Lemma full_prompt_object :
  object_text (full_prompt i gs) = Some (stripped 0 (JDict (GameState.to_dict gs))).
Proof.
  unfold full_prompt. destruct to_dict_lines as (R & J & _ & -> & _).
  change (10%N :: J ++ [10; 125]%N) with (10%N :: J ++ [10]%N ++ [125]%N).
  rewrite (assoc_L (++) J), app_comm_cons. apply object_text_found, prompt_braceless.
Qed.

Lemma full_prompt_content : prompt_content (full_prompt i gs) = summary gs.
Proof.
  unfold prompt_content. rewrite full_prompt_object, stripped_loads. cbn [mbind result_bind as_dict].
  by rewrite prompt_summary_to_dict.
Qed.

Lemma extract_run p : no_namesake i (state p) → length (GameState.your_cards gs) = 2%nat →
  ∃ v l, dict_get (JInt (Z.of_nat i)) l = Some v ∧ cards v = JStr <$> GameState.your_cards gs ∧
    extract_cards_from_json_message (full_prompt i gs) (agent_name i) p
    = (Ok tt, learnt (told gs l) p).
Proof.
  intros H Hl. destruct (learn_run i gs p H Hl) as (v & l & Hv & Hc & E).
  exists v, l. split; [done|]. split; [done|].
  unfold extract_cards_from_json_message. rewrite full_prompt_object, stripped_loads.
  apply try_ok. exact E.
Qed.
End Object.

(** The lines of an object are no records. *)
Lemma parse_object_lines raw next p :
  Forall (λ l, is_record (strip l) = false) raw → parse_lines (raw ++ next) p = parse_lines next p.
Proof.
  intros H. induction H as [|l raw Hl _ IH]; [done|]. cbn [app parse_lines].
  unfold parse_line, record_match. rewrite Hl. unfold mbind, M_bind, mret, M_ret. rewrite IH.
  by destruct (parse_lines next p) as [[]].
Qed.

Lemma one_line_prompt i : one_line (prompt_prefix i ++ [123%N]).
Proof.
  split; [|by apply ends_app]. rewrite not_elem_of_app. split; [|by_compute].
  apply not_in_prompt_prefix; [done|by_compute].
Qed.

Lemma fits_absent c shape s :
  fits shape s = true → length s = length shape → is_digit c = false → c ∉ shape → c ∉ s.
Proof.
  revert s. induction shape as [|d shape IH]; intros [|e s]; try discriminate.
  - intros _ _ _ _. apply not_elem_of_nil.
  - cbn [fits length]. rewrite andb_true_iff, !not_elem_of_cons. intros [H1 H2] [= Hl] Hc [Hd Hs].
    split; [|by apply IH]. case_bool_decide; [congruence|]. apply bool_decide_eq_true in H1. congruence.
Qed.

Lemma header_one_line ts level :
  timestamp_ok ts → level ∈ [u "DEBUG"; u "INFO"] → 10%N ∉ header ts level.
Proof.
  intros (H & Hl & _) Hv. unfold header. rewrite !not_elem_of_app.
  split_and!; [|by_compute| |by_compute].
  - by apply (fits_absent _ timestamp_shape); [|rewrite Hl| |by_compute].
  - intros Hc. destruct (level_word level Hv) as [Hw _]. rewrite Forall_forall in Hw.
    by apply Hw in Hc.
Qed.

(** The event of a prompt *)
Definition prompt_event i gs ts (h : option Z) : event :=
  Event ts h (prompt_prefix i ++ [123%N])
    (LLM_DECISION (agent_name i) (u "prompt") 0 (summary gs) (Some (full_prompt i gs))).

Lemma parse_prompt i gs ts level next p :
  braceless_state gs → timestamp_ok ts → level ∈ [u "DEBUG"; u "INFO"] → no_namesake i (state p) →
  length (GameState.your_cards gs) = 2%nat →
  ∃ v l, dict_get (JInt (Z.of_nat i)) l = Some v ∧ cards v = JStr <$> GameState.your_cards gs ∧
    parse_lines (readlines (log_record ts level (prompt_message (agent_name i) gs)) ++ next) p
    = (rest ← parse_lines next; mret (prompt_event i gs ts (current_hand p) :: rest))
        (learnt (told gs l) p <| events ::= λ l, l ++ [prompt_event i gs ts (current_hand p)] |>).
Proof.
  intros Hb Ht Hv Hn Hl. destruct (extract_run i gs Hb p Hn Hl) as (v & l & Hd & Hc & E).
  exists v, l. split; [done|]. split; [done|].
  destruct (to_dict_lines gs Hb) as (R & J & E1 & E2 & HL & HT & HU & HW).
  assert (log_record ts level (prompt_message (agent_name i) gs)
    = ((header ts level ++ prompt_prefix i ++ [123%N]) ++ [10%N]) ++ R ++ [10%N]) as ->.
  { unfold prompt_message, LLM.input_json, dumps_indent. rewrite log_record_header, E1.
    unfold prompt_prefix. by rewrite <- !(assoc_L (++)). }
  rewrite readlines_app by (right; apply last_snoc).
  rewrite (readlines_lines (_ ++ _ ++ _)), lines_single.
  2:{ rewrite not_elem_of_app. split; [exact (header_one_line ts level Ht Hv)|exact (proj1 (one_line_prompt i))]. }
  set (raw := readlines (R ++ [10%N])).
  match goal with |- _ = ?r => set (result := r) end.
  change (parse_lines (((header ts level ++ (prompt_prefix i ++ [123%N])) ++ [10%N]) :: (raw ++ next)) p
    = result).
  cbn [parse_lines]. unfold mbind at 1, M_bind at 1. rewrite (parse_line_header _ _ _ _ _ Ht Hv (one_line_prompt i)).
  rewrite (prompt_dispatch _ _ _ _ Hv). cbv zeta.
  pose proof (collect_object _ _ _ next (prompt_braceless i) HL HT HU HW) as HF.
  rewrite <- E2 in HF. fold (full_prompt i gs) raw in HF. rewrite HF. unfold mbind, M_bind. rewrite E, full_prompt_content by done.
  cbn [mret M_ret]. cbv zeta. rewrite parse_object_lines.
  - destruct p. done.
  - assert (Forall (λ l, is_record l = false) (strip <$> raw)) as A; [|by rewrite Forall_fmap in A].
    unfold raw. rewrite readlines_lines, <- list_fmap_compose. pose proof (strip_lines R HT) as S.
    rewrite HU in S.
    unfold compose. rewrite S. exact (wordy_not_record _ _ HW).
Qed.

(** ** What the engine sends *)

Lemma seated_NoDup g : seated g → NoDup (Player.id <$> players g).
Proof.
  intros H. apply NoDup_alt. intros i j n Hi Hj. rewrite list_lookup_fmap in Hi, Hj.
  destruct (players g !! i) as [p|] eqn:Ei; [|done]. destruct (players g !! j) as [q|] eqn:Ej; [|done].
  apply H in Ei, Ej. cbn in *. congruence.
Qed.

Lemma told_shows i g gs l v s :
  seated g → get_llm_game_state i g = Ok gs →
  dict_get (JInt (Z.of_nat i)) l = Some v → cards v = JStr <$> GameState.your_cards gs →
  shows i g (told gs l s).
Proof.
  intros Hs. unfold get_llm_game_state. destruct (get_player i g) as [p|] eqn:Ep; [|done].
  destruct (has_status BUSTED p); [done|].
  set (others := filter _ (players g)). intros [= <-] Hv Hc.
  cbn [GameState.your_cards] in Hc. unfold told. cbn [GameState.players GameState.community
    GameState.pot GameState.your_bet_this_round GameState.to_call].
  set (info := λ q, PlayerInfo.PlayerInfo _ _ _ _).
  assert (∀ q, PlayerInfo.id (info q) = Z.of_nat (Player.id q)) as Hid by done.
  assert (NoDup (PlayerInfo.id <$> (info <$> others))) as HN.
  { rewrite <- list_fmap_compose.
    assert (sublist others (players g)) as S by apply sublist_filter.
    assert (NoDup (Player.id <$> others)) as N.
    { eapply sublist_NoDup; [by apply seated_NoDup|by apply fmap_sublist]. }
    rewrite (list_fmap_ext _ (Z.of_nat ∘ Player.id)) by done.
    rewrite list_fmap_compose. by apply NoDup_fmap_2; [intros ? ? ?%Nat2Z.inj|]. }
  assert (Z.of_nat i ∉ PlayerInfo.id <$> (info <$> others)) as Hi.
  { rewrite <- list_fmap_compose. intros (q & E & Hq)%list_elem_of_fmap.
    apply list_elem_of_filter in Hq as [[Hq _] _]. cbn in E. apply Nat2Z.inj in E. congruence. }
  split.
  - done.
  - symmetry. apply (list_fmap_compose Card.str JStr).
  - intros q Eq. rewrite Ep in Eq. injection Eq as <-. split.
    + unfold update. cbn [gs_current_bet]. unfold amount_to_call. do 2 f_equal. lia.
    + exists v. split; [etrans; [by apply learn_players_other|done]|].
      rewrite Hc. symmetry. apply (list_fmap_compose Card.str JStr).
  - intros q Hq Hne Hb. apply (learn_players_same _ l (info q) HN). apply list_elem_of_fmap.
    exists q. split; [done|]. apply list_elem_of_filter. done.
Qed.

