(* ===== verification/BettingProps.v ===== *)
(** * A hand comes to its end

    The betting of a round ends when nobody has bet more than the bet to match
    ([capped]): every action that is not a check takes chips or a player out of
    the game, and the checks in between bring the turn to the player who closes
    the round or to one who owes chips.  Only a big blind of fewer chips than the
    small blind breaks the condition ([short_big_blind_never_settles]); on every
    street after the first it holds, because the bets start from zero. *)
From stdpp Require Import strings.
From S2P Require Import Prelude Py Json GameModels PlayerModels Evaluator GameHistory Game.
From S2P Require Import GameProps HandInvariant StartHand HandProps Seating Cli CliGames CliProps.
Import PokerGame Games.

(** ** When a round is closed *)

(** The test of [check_betting_round_complete] *)
Definition round_closed (g : t) : bool :=
  let active_players := filter (λ p, has_status ACTIVE p) (players g) in
  let all_in_players := filter (λ p, has_status ALL_IN p) (players g) in
  if (length active_players + length all_in_players <=? 1)%nat then true
  else
    match active_players with
    | [] => true
    | [single_player] => negb (Player.current_bet single_player <? current_bet g)
    | _ =>
        if negb (forallb (λ p, Player.current_bet p =? current_bet g) active_players) then false
        else
          match last_raiser_index g with
          | None => bool_decide (Some (current_player_index g) = get_first_actor_for_phase g)
          | Some raiser =>
              if has_bet_or_raise_this_round g then true
              else if negb (bool_decide (raiser ∈ active_indices g)) then true
              else bool_decide (Some (current_player_index g) = get_next_active_player_from raiser g)
          end
    end.

Lemma check_betting_round_complete_eq g :
  check_betting_round_complete g =
    if round_closed g then g <| betting_round_complete := true |> else g.
Proof.
  unfold check_betting_round_complete, round_closed. cbv zeta.
  repeat (case_match; try done).
Qed.

(** What the test looks at, but for whose turn it is *)
Record same_round (g g' : t) : Prop := SameRound {
  sr_players : players g' = players g;
  sr_bet : current_bet g' = current_bet g;
  sr_raiser : last_raiser_index g' = last_raiser_index g;
  sr_raised : has_bet_or_raise_this_round g' = has_bet_or_raise_this_round g;
  sr_phase : current_phase g' = current_phase g;
  sr_dealer : dealer_button g' = dealer_button g }.

Notation at_turn g i := (g <| current_player_index := i |>).

Lemma round_closed_same g g' i :
  same_round g g' → round_closed (at_turn g' i) = round_closed (at_turn g i).
Proof. destruct g, g'. intros []. cbn in *. subst. reflexivity. Qed.

(** When it depends on the turn, the turn is that of an active player. *)
Lemma closing_seat_active g i j :
  round_closed (at_turn g i) = true → round_closed (at_turn g j) = false →
  i ∈ active_indices g.
Proof.
  unfold round_closed. cbv zeta.
  change (players (at_turn g i)) with (players g). change (players (at_turn g j)) with (players g).
  change (current_bet (at_turn g i)) with (current_bet g).
  change (current_bet (at_turn g j)) with (current_bet g).
  destruct (_ <=? 1)%nat; [done|]. destruct (filter _ (players g)) as [|p [|q l]]; [done| |].
  { intros H1 H2. congruence. }
  destruct (negb _); [done|].
  change (last_raiser_index (at_turn g i)) with (last_raiser_index g).
  change (last_raiser_index (at_turn g j)) with (last_raiser_index g).
  destruct (last_raiser_index g) as [r|].
  - change (has_bet_or_raise_this_round (at_turn g i)) with (has_bet_or_raise_this_round g).
    change (has_bet_or_raise_this_round (at_turn g j)) with (has_bet_or_raise_this_round g).
    destruct (has_bet_or_raise_this_round g); [done|].
    change (active_indices (at_turn g i)) with (active_indices g).
    change (active_indices (at_turn g j)) with (active_indices g).
    destruct (negb _); [done|]. intros H%bool_decide_eq_true _.
    change (Some i = next_active_in r g) in H. symmetry in H.
    apply find_first_Some in H as [H _]. by apply bool_decide_eq_true in H.
  - intros H%bool_decide_eq_true _. change (Some i = get_first_actor_for_phase g) in H.
    by apply first_actor_active.
Qed.

(** ** Where a sequence of checks leads *)

(** The player at a seat can act and owes chips. *)
Definition owes (g : t) (i : nat) : bool :=
  seat_is (λ p, has_status ACTIVE p && (Player.current_bet p <? current_bet g)) g i.

(** The seat [d] places clockwise of the turn *)
Definition seat_at (g : t) (d : nat) : nat :=
  ((current_player_index g + d) mod length (players g))%nat.

(** The round is closed, or the player owes chips, when the turn comes there. *)
Definition target (g : t) (d : nat) : Prop :=
  (0 < d)%nat ∧ round_closed (at_turn g (seat_at g d)) = true ∨ owes g (seat_at g d) = true.

(** Nobody has bet more than the bet to match. *)
Definition capped (g : t) : Prop :=
  ∀ i p, players g !! i = Some p → Player.status p = ACTIVE →
         Player.current_bet p ≤ current_bet g.

Lemma seat_distance n c j :
  (c < n)%nat → (j < n)%nat → ∃ d, (1 ≤ d ≤ n)%nat ∧ ((c + d) mod n = j)%nat.
Proof.
  intros Hc Hj. destruct (Nat.lt_ge_cases c j).
  - exists (j - c)%nat. split; [lia|]. rewrite Nat.mod_small; lia.
  - exists (n - c + j)%nat. split; [lia|].
    replace (c + (n - c + j))%nat with (j + 1 * n)%nat by lia.
    rewrite Nat.Div0.mod_add. by apply Nat.mod_small.
Qed.

Lemma active_index g i :
  i ∈ active_indices g ↔ ∃ p, players g !! i = Some p ∧ Player.status p = ACTIVE.
Proof.
  unfold active_indices. rewrite elem_of_indices_where. unfold has_status.
  by setoid_rewrite bool_decide_eq_true.
Qed.

Lemma active_index_bound g i : i ∈ active_indices g → (i < length (players g))%nat.
Proof. intros (p & H & _)%active_index. by eapply lookup_lt_Some. Qed.

(** Another active player is found from the seat of an active player. *)
Lemma next_active_exists g r :
  r ∈ active_indices g → (2 ≤ length (active_indices g))%nat → is_Some (next_active_in r g).
Proof.
  intros Hr L. unfold next_active_in. destruct (find_first _ _) as [j|] eqn:F; [by eexists|].
  apply find_first_None in F. exfalso.
  assert (∃ j, j ∈ active_indices g ∧ j ≠ r) as (j & Hj & Hne).
  { pose proof (indices_from_NoDup (has_status ACTIVE) 0 (players g)) as Hn.
    fold (indices_where (has_status ACTIVE) (players g)) in Hn. fold (active_indices g) in Hn.
    destruct (active_indices g) as [|a [|b l]]; simpl in L; try lia.
    apply NoDup_cons in Hn as [Hn _]. destruct (decide (a = r)) as [->|]; [|by exists a; set_solver].
    exists b. set_solver. }
  pose proof (active_index_bound _ _ Hj) as Bj. pose proof (active_index_bound _ _ Hr) as Br.
  destruct (seat_distance (length (players g)) r j Br Bj) as (d & Hd & E).
  assert (d ≠ length (players g)) as Hdn.
  { intros ->. replace (r + length (players g))%nat with (r + 1 * length (players g))%nat in E by lia.
    rewrite Nat.Div0.mod_add, Nat.mod_small in E by done. congruence. }
  rewrite Forall_forall in F. specialize (F j). rewrite bool_decide_eq_false in F.
  apply F; [|done]. unfold other_seats. apply list_elem_of_fmap. exists d.
  split; [done|]. apply elem_of_seq. lia.
Qed.

Lemma filter_active_length g :
  length (filter (λ p, has_status ACTIVE p) (players g)) = length (active_indices g).
Proof.
  unfold active_indices. rewrite indices_where_length. induction (players g) as [|p l IH]; [done|].
  rewrite !filter_cons. destruct (has_status ACTIVE p);
    [rewrite !decide_True by done | rewrite !decide_False by auto]; simpl; auto.
Qed.

(** In an open round there is always such a seat. *)
Lemma target_exists g p :
  players g !! current_player_index g = Some p → Player.status p = ACTIVE → capped g →
  ∃ d, (d ≤ length (players g))%nat ∧ target g d.
Proof.
  intros Hp Ha Hcap. pose proof (lookup_lt_Some _ _ _ Hp) as Bn.
  assert (∀ j, (j < length (players g))%nat → ∃ d, (1 ≤ d ≤ length (players g))%nat ∧ seat_at g d = j)
    as Hdist by (intros j Hj; by apply seat_distance).
  destruct (round_closed (at_turn g (seat_at g 1))) eqn:C1.
  { exists 1%nat. split; [lia|]. left. split; [lia|done]. }
  assert (∀ q j, players g !! j = Some q → Player.status q = ACTIVE →
    Player.current_bet q < current_bet g → ∃ d, (d ≤ length (players g))%nat ∧ target g d) as Howe.
  { intros q j Hj Hq Hb. destruct (Hdist j) as (d & Hd & E); [by eapply lookup_lt_Some|].
    exists d. split; [lia|]. right. unfold owes, seat_is. rewrite E, Hj. unfold has_status.
    rewrite bool_decide_eq_true_2 by done. by apply Z.ltb_lt. }
  assert (∀ j, j ∈ active_indices g → round_closed (at_turn g j) = true →
    ∃ d, (d ≤ length (players g))%nat ∧ target g d) as Hclose.
  { intros j Hj Hr. destruct (Hdist j) as (d & Hd & E); [by apply active_index_bound|].
    exists d. split; [lia|]. left. rewrite E. split; [lia|done]. }
  pose proof (filter_active_length g) as Lact.
  unfold round_closed in C1. cbv zeta in C1.
  change (players (at_turn g (seat_at g 1))) with (players g) in C1.
  change (current_bet (at_turn g (seat_at g 1))) with (current_bet g) in C1.
  destruct (_ <=? 1)%nat eqn:Cn; [done|].
  assert (∀ q, q ∈ filter (λ p, has_status ACTIVE p) (players g) →
    Player.status q = ACTIVE ∧ ∃ j, players g !! j = Some q) as Hin.
  { intros q [Hs Hq]%list_elem_of_filter. split; [by apply bool_decide_unpack in Hs|].
    by apply list_elem_of_lookup in Hq. }
  destruct (filter (λ p, has_status ACTIVE p) (players g)) as [|q [|q' l]] eqn:Ef; [done| |].
  { apply negb_false_iff, Z.ltb_lt in C1. destruct (Hin q) as [Hq (j & Hj)]; [by left|]. eauto. }
  destruct (forallb _ _) eqn:Same; cbn [negb] in C1.
  - (* everybody has matched the bet *)
    assert (∀ j, (match last_raiser_index g with
       | None => bool_decide (Some j = get_first_actor_for_phase g)
       | Some r => if has_bet_or_raise_this_round g then true
                   else if negb (bool_decide (r ∈ active_indices g)) then true
                   else bool_decide (Some j = next_active_in r g) end) = true →
       round_closed (at_turn g j) = true) as Hrc.
    { intros j H. unfold round_closed. cbv zeta.
      change (players (at_turn g j)) with (players g).
      change (current_bet (at_turn g j)) with (current_bet g).
      rewrite Ef, Cn, Same. exact H. }
    change (last_raiser_index (at_turn g (seat_at g 1))) with (last_raiser_index g) in C1.
    destruct (last_raiser_index g) as [r|].
    + change (has_bet_or_raise_this_round (at_turn g (seat_at g 1)))
        with (has_bet_or_raise_this_round g) in C1.
      destruct (has_bet_or_raise_this_round g); [done|].
      change (active_indices (at_turn g (seat_at g 1))) with (active_indices g) in C1.
      case_bool_decide as Hr; cbn [negb] in C1; [|done].
      destruct (next_active_exists g r Hr) as [j Hj]; [simpl in Lact; lia|].
      assert (j ∈ active_indices g) as Haj.
      { apply find_first_Some in Hj as [H _]. by apply bool_decide_eq_true in H. }
      apply (Hclose j Haj), Hrc. cbn [negb]. by apply bool_decide_eq_true_2.
    + assert (is_Some (get_first_actor_for_phase g)) as [j Hj].
      { unfold get_first_actor_for_phase. destruct (if bool_decide _ then _ else _); [by eexists|].
        destruct (active_indices g); [simpl in Lact; lia|by eexists]. }
      apply (Hclose j); [by apply first_actor_active|]. apply Hrc. by apply bool_decide_eq_true_2.
  - (* somebody has not *)
    assert (∃ q0, q0 ∈ q :: q' :: l ∧ Player.current_bet q0 ≠ current_bet g) as (q0 & H0 & Hne).
    { apply not_true_iff_false in Same. rewrite forallb_forall in Same.
      destruct (decide (Exists (λ q0, Player.current_bet q0 ≠ current_bet g) (q :: q' :: l))) as [He|He].
      - apply Exists_exists in He as (q0 & ? & ?). eauto.
      - exfalso. apply Same. intros x Hx%list_elem_of_In. apply Z.eqb_eq.
        destruct (decide (Player.current_bet x = current_bet g)); [done|].
        exfalso. apply He, Exists_exists. eauto. }
    destruct (Hin q0 H0) as [Hq (j & Hj)]. pose proof (Hcap j q0 Hj Hq). apply (Howe q0 j); [done..|lia].
Qed.

(** ** One action *)

(** An accepted action is its own effect, then the turn passes and the round is
    tested. *)
Lemma process_player_action_shape player_id action amount g g' :
  process_player_action player_id action amount g = (true, g') →
  ∃ seat p g1 d g2, player_id = current_player_index g ∧
    find_player player_id g = Some (seat, p) ∧ Player.status p = ACTIVE ∧
    execute_action player_id seat p action amount g = Some (g1, d) ∧
    same_round g1 g2 ∧ current_player_index g2 = current_player_index g1 ∧
    betting_round_complete g2 = betting_round_complete g1 ∧
    g' = check_betting_round_complete (advance_to_next_player g2).
Proof.
  unfold process_player_action. case_bool_decide as Ht; [|done]. cbn [negb].
  destruct (find_player player_id g) as [[seat p]|] eqn:F; [|done].
  unfold has_status. case_bool_decide as Hs; [|done]. cbn [negb].
  destruct (execute_action player_id seat p action amount g) as [[g1 d]|] eqn:X; [|done].
  intros [= <-]. exists seat, p, g1, d. eexists. split_and!; [done..| | | |reflexivity].
  all: match goal with |- context [if_hand_recorded ?f ?h] =>
    destruct (if_hand_recorded_frame f h) as [x ->] end; done.
Qed.

(** The chips in front of the players, and the players who can act *)
Definition potential (g : t) : nat := Z.to_nat (chips_of g) + length (active_indices g).

Lemma active_count_insert (l : list player) i p p' :
  l !! i = Some p → Player.status p = ACTIVE →
  length (filter (λ q, has_status ACTIVE q) (<[i := p']> l))
  = if has_status ACTIVE p' then length (filter (λ q, has_status ACTIVE q) l)
    else pred (length (filter (λ q, has_status ACTIVE q) l)).
Proof.
  revert i. induction l as [|x l IH]; intros [|i] Hp Ha; simplify_eq/=.
  - rewrite !filter_cons. assert (has_status ACTIVE p = true) as E by (unfold has_status; by rewrite Ha).
    rewrite (decide_True (P := has_status ACTIVE p)) by (by rewrite E).
    destruct (has_status ACTIVE p'); [by rewrite decide_True by done|by rewrite decide_False by auto].
  - rewrite !filter_cons. specialize (IH i Hp Ha). case_decide; [|done].
    cbn [length]. rewrite IH. destruct (has_status ACTIVE p'); [done|].
    assert (0 < length (filter (λ q, has_status ACTIVE q) l))%nat; [|lia].
    assert (p ∈ filter (λ q, has_status ACTIVE q) l) as Hin.
    { apply list_elem_of_filter. split; [unfold has_status; by rewrite Ha|].
      by eapply list_elem_of_lookup_2. }
    destruct (filter _ l); [by apply elem_of_nil in Hin|simpl; lia].
Qed.

(** A player pays or leaves. *)
Lemma pays_potential seat p p' paid g g' :
  pays seat p p' paid g g' → Forall (λ p, 0 ≤ Player.chips p) (players g) →
  Player.status p = ACTIVE → 0 < paid ∨ Player.status p' ≠ ACTIVE →
  (potential g' < potential g)%nat.
Proof.
  intros [] Hc Ha Hd. unfold potential. rewrite <- !filter_active_length, pays_players.
  rewrite (active_count_insert _ _ p) by done.
  assert (chips_of g' = chips_of g - paid) as ->.
  { unfold chips_of. rewrite pays_players, (sum_by_insert _ _ _ p) by done. lia. }
  assert (Player.chips p ≤ chips_of g) as Hle.
  { apply (sum_by_elem_le Player.chips); [|by eapply list_elem_of_lookup_2].
    intros y Hy. rewrite Forall_forall in Hc. by apply Hc. }
  assert (0 ≤ paid ≤ Player.chips p) as Hr.
  { apply pays_range. by eapply Forall_lookup_1 in Hc. }
  assert (0 < length (filter (λ q, has_status ACTIVE q) (players g)))%nat as Hl.
  { assert (p ∈ filter (λ q, has_status ACTIVE q) (players g)) as Hin.
    { apply list_elem_of_filter. split; [unfold has_status; by rewrite Ha|].
      by eapply list_elem_of_lookup_2. }
    destruct (filter _ (players g)); [by apply elem_of_nil in Hin|simpl; lia]. }
  destruct (has_status ACTIVE p') eqn:E; [|lia].
  destruct Hd as [|Hd]; [lia|]. unfold has_status in E. by rewrite bool_decide_eq_true in E.
Qed.

(** A raise is by a positive amount. *)
Definition proper (action : pystr) (amount : Z) : Prop := action = u "raise" → 0 < amount.

(** What an action may be: a check, which leaves the table as it is and owes
    nothing, or one that takes chips or a player out. *)
Lemma execute_progress seat p action amount g g1 d :
  players g !! seat = Some p → Player.status p = ACTIVE → 0 < Player.chips p →
  Forall (λ p, 0 ≤ Player.chips p) (players g) → capped g → proper action amount →
  execute_action seat seat p action amount g = Some (g1, d) →
  capped g1 ∧ ((potential g1 < potential g)%nat ∨
               g1 = g ∧ current_bet g ≤ Player.current_bet p).
Proof.
  intros Hp Ha Hpos Hc Hcap Hpr X. pose proof (Hcap seat p Hp Ha) as Hb.
  destruct (execute_action_effect seat seat p g Hp Ha action amount g1 d X) as (p' & A).
  destruct A as [P B St S _ _ _ _]. split.
  - assert (current_bet g ≤ current_bet g1 ∧
      (Player.status p' = ACTIVE → Player.current_bet p' ≤ current_bet g1)) as [H1 H2].
    { rewrite B, St, (pays_current _ _ _ _ _ _ P). unfold bet_after, payment, status_after.
      action_cases action; action_tests; try specialize (Hpr eq_refl); split; intros; try lia; done. }
    intros i q. rewrite (pays_players _ _ _ _ _ _ P).
    intros [(-> & <- & _)|(_ & H)]%list_lookup_insert_Some Hq; [by apply H2|].
    specialize (Hcap i q H Hq). lia.
  - assert (0 < payment p action amount g ∨ action = u "fold" →
            (potential g1 < potential g)%nat) as Hdec.
    { intros H. eapply pays_potential; [exact P|done|done|].
      destruct H as [|H]; [by left|right]. rewrite St, H. unfold status_after. by action_tests. }
    revert X Hdec. unfold execute_action, payment. cbv zeta. action_cases action; action_tests.
    + intros _ Hd. left. apply Hd. by right.
    + destruct (Z.ltb_spec (Player.current_bet p) (current_bet g)); [done|].
      intros [= <- _] _. by right.
    + destruct (Z.leb_spec (current_bet g - Player.current_bet p) 0).
      * intros [= <- _] _. right. split; [done|lia].
      * intros _ Hd. left. apply Hd. left. lia.
    + intros _ Hd. left. apply Hd. left. specialize (Hpr eq_refl). lia.
    + intros _ Hd. left. apply Hd. left. lia.
    + done.
Qed.

Lemma capped_same g g' : same_round g g' → capped g → capped g'.
Proof. intros [] H i p. rewrite sr_players0, sr_bet0. apply H. Qed.

Lemma owes_same g g' i : same_round g g' → owes g' i = owes g i.
Proof. intros []. unfold owes, seat_is. by rewrite sr_players0, sr_bet0. Qed.

(** A check brings the turn closer to a seat that closes the round or owes. *)
Lemma check_progress g g2 p d :
  players g !! current_player_index g = Some p → Player.status p = ACTIVE →
  current_bet g ≤ Player.current_bet p → same_round g g2 →
  current_player_index g2 = current_player_index g → betting_round_complete g2 = false →
  target g d →
  let g' := check_betting_round_complete (advance_to_next_player g2) in
  betting_round_complete g' = false →
  same_round g g' ∧ ∃ d', (d' < d)%nat ∧ target g' d' ∧
  ∃ p', players g' !! current_player_index g' = Some p' ∧ Player.status p' = ACTIVE.
Proof.
  intros Hp Ha Hb Hsr Ht Hopen Htg g' Hopen'. subst g'.
  pose proof (sr_players _ _ Hsr) as Ep.
  destruct (advance_to_next_player_cases g2) as [(k & Hk & Hact & Hmin & E)|[Hno _]].
  2: { rewrite Ep in Hno. eapply Forall_lookup_1 in Hno; [|exact Hp]. done. }
  rewrite E in *. clear E. rewrite Ht, Ep in *.
  set (i' := ((current_player_index g + k) mod length (players g))%nat) in *.
  rewrite check_betting_round_complete_eq in *.
  destruct (round_closed (at_turn g2 i')) eqn:C; [done|].
  assert (same_round g (at_turn g2 i')) as Hsr' by by destruct Hsr.
  split; [done|].
  unfold active_at in Hact, Hmin. rewrite Ep in Hact. setoid_rewrite Ep in Hmin.
  fold i' in Hact.
  (* the seat of the target is active *)
  assert ((0 < d)%nat ∧ seat_is (has_status ACTIVE) g2 (seat_at g d) = true) as [Hd Hsa].
  { destruct Htg as [[Hd Hc]|Ho].
    - split; [done|]. rewrite (round_closed_same g g2 i' Hsr) in C.
      pose proof (closing_seat_active g _ _ Hc C) as (q & Hq & Haq)%active_index.
      unfold seat_is. rewrite Ep, Hq. unfold has_status. by rewrite Haq.
    - unfold owes, seat_is in Ho. unfold seat_is. rewrite Ep.
      destruct (players g !! seat_at g d) as [q|] eqn:Hq; [|done].
      apply andb_true_iff in Ho as [Ho1 Ho2]. split; [|done].
      destruct (Nat.eq_dec d 0) as [->|]; [|lia]. exfalso. unfold seat_at in Hq.
      rewrite Nat.add_0_r, Nat.mod_small, Hp in Hq by by eapply lookup_lt_Some.
      injection Hq as <-. zbool. lia. }
  assert (k ≤ d)%nat as Hkd.
  { destruct (Nat.le_gt_cases k d) as [|Hlt]; [done|]. exfalso.
    unfold seat_at in Hsa. rewrite Hmin in Hsa by lia. done. }
  assert (seat_at (at_turn g2 i') (d - k) = seat_at g d) as Es.
  { unfold seat_at. change (current_player_index (at_turn g2 i')) with i'.
    change (players (at_turn g2 i')) with (players g2). rewrite Ep. unfold i'.
    rewrite Nat.Div0.add_mod_idemp_l. f_equal. lia. }
  exists (d - k)%nat. split; [lia|]. split.
  - unfold target. rewrite Es, (owes_same g _ _ Hsr'). destruct Htg as [[_ Hc]|Ho]; [|by right].
    left. rewrite (round_closed_same g _ _ Hsr'). split; [|done].
    destruct (Nat.eq_dec k d) as [->|]; [|lia]. exfalso.
    unfold seat_at in Hc. rewrite (round_closed_same g g2 i' Hsr) in C. unfold i' in C. congruence.
  - unfold seat_is in Hact. change (players (at_turn g2 i')) with (players g2).
    change (current_player_index (at_turn g2 i')) with i'.
    destruct (players g2 !! i') as [q|]; [|done]. exists q. split; [done|].
    by apply bool_decide_eq_true in Hact.
Qed.

(** The distance to the end of the round, in turns *)
Definition turns_left (g : t) (d : nat) : nat := potential g * S (length (players g)) + d.

(** The turn of an open round is an active player's. *)
Definition turn_active (g : t) : Prop :=
  ∃ p, players g !! current_player_index g = Some p ∧ Player.status p = ACTIVE.

Lemma same_round_potential g g' : same_round g g' → potential g' = potential g.
Proof.
  intros [E _ _ _ _ _]. unfold potential. rewrite <- !filter_active_length. unfold chips_of.
  by rewrite E.
Qed.

Lemma advanced_turn_active g :
  betting_round_complete (check_betting_round_complete (advance_to_next_player g)) = false →
  turn_active (check_betting_round_complete (advance_to_next_player g)) ∧
  same_round g (check_betting_round_complete (advance_to_next_player g)).
Proof.
  intros Hopen. rewrite check_betting_round_complete_eq in *.
  destruct (round_closed _) eqn:C; [done|].
  destruct (advance_to_next_player_cases g) as [(k & _ & Hact & _ & E)|[_ E]]; rewrite E in *.
  2: { done. }
  split; [|by split]. unfold active_at, seat_is in Hact.
  destruct (players g !! _) as [p|] eqn:Hp; [|done]. exists p. split; [done|].
  by apply bool_decide_eq_true in Hact.
Qed.

Lemma turn_progress g player_id action amount g' d :
  hand_ok g → capped g → proper action amount → turn_active g →
  process_player_action player_id action amount g = (true, g') → target g d →
  betting_round_complete g = false → betting_round_complete g' = false →
  capped g' ∧ turn_active g' ∧
  ∃ d', (d' ≤ length (players g') ∨ d' < d)%nat ∧ target g' d' ∧
        (turns_left g' d' < turns_left g d)%nat ∧ length (players g') = length (players g).
Proof.
  intros Hok Hcap Hpr (q & Hq & Haq) E Htg Hopen Hopen'.
  pose proof E as (seat & p & g1 & e & g2 & -> & F & Ha & X & Hsr & Ht & Hc & ->)
    %process_player_action_shape.
  apply find_player_Some in F as [Hp Hid].
  assert (seat = current_player_index g) as -> by (by rewrite <- Hid; symmetry; apply (ok_seated _ Hok)).
  assert (q = p) as -> by congruence.
  pose proof (ok_players _ Hok) as Hps.
  assert (Forall (λ p, 0 ≤ Player.chips p) (players g)) as Hch.
  { eapply Forall_impl; [exact Hps|]. by intros r [[]]. }
  assert (0 < Player.chips p) as Hpos.
  { eapply Forall_lookup_1 in Hps; [|exact Hp]. by apply (po_active _ (po_stack _ Hps)). }
  destruct (execute_progress _ _ _ _ _ _ _ Hp Ha Hpos Hch Hcap Hpr X) as [Hcap1 Hprog].
  destruct (execute_action_effect _ _ _ _ Hp Ha _ _ _ _ X) as (p' & A).
  assert (length (players g1) = length (players g)) as L1
    by by rewrite (pays_players _ _ _ _ _ _ (acted_pays _ _ _ _ _ _ _ A)), length_insert.
  destruct (advanced_turn_active g2 Hopen') as [Hact Hsr2].
  set (g' := check_betting_round_complete (advance_to_next_player g2)) in *.
  assert (same_round g1 g') as Hsr' by (destruct Hsr, Hsr2; split; congruence).
  assert (length (players g') = length (players g)) as L by by rewrite (sr_players _ _ Hsr'), L1.
  split; [by eapply capped_same|]. split; [done|].
  destruct Hprog as [Hlt|[-> Hb]].
  - destruct Hact as (r & Hr & Har).
    destruct (target_exists g' r Hr Har) as (d' & Hd' & Htg'); [by eapply capped_same|].
    exists d'. split_and!; [by left|done| |done]. unfold turns_left.
    rewrite (same_round_potential _ _ Hsr'), L. rewrite L in Hd'. nia.
  - destruct (check_progress g g2 p d Hp Ha Hb Hsr Ht) as (_ & d' & Hd' & Htg' & _); try done.
    { by rewrite Hc. }
    exists d'. split_and!; [by right|done| |done]. unfold turns_left.
    rewrite (same_round_potential _ _ Hsr'), L. lia.
Qed.

(** ** The loops *)

Section Loops.
Context (make_decision : nat → player → GameState.t → result decision).

(** Every player decides, and raises only by positive amounts. *)
Hypothesis decides : ∀ k p g gs,
  hand_ok g → p ∈ players g → Player.status p = ACTIVE →
  get_llm_game_state (Player.id p) g = Ok gs →
  ∃ d, make_decision k p gs = Ok d ∧ proper (d_action d) (d_amount d).

Lemma betting_loop_complete turn fuel s :
  betting_round_complete (game s) = true → betting_loop turn fuel s = (Ok tt, s).
Proof. intros H. destruct fuel; cbn [betting_loop]; run_monad; by rewrite H. Qed.

Lemma betting_loop_ends fuel s d :
  hand_ok (game s) → capped (game s) → turn_active (game s) → target (game s) d →
  betting_round_complete (game s) = false → (turns_left (game s) d < fuel)%nat →
  ∃ s', betting_loop (auto_turn make_decision) fuel s = (Ok tt, s').
Proof.
  revert s d. induction fuel as [|fuel IH]; intros s d Hok Hcap Hact Htg Hopen Hf; [lia|].
  pose proof Hact as (p & Hp & Ha).
  destruct (game_state_ok (game s) p) as [gs Egs];
    [apply Hok|by eapply list_elem_of_lookup_2|by rewrite Ha|].
  destruct (decides (decisions s) p (game s) gs) as (dc & Ed & Hpr);
    [done|by eapply list_elem_of_lookup_2|done..|].
  destruct (auto_turn_step make_decision s p gs dc Hok Hp Ha Egs Ed) as (s1 & E1 & Eact).
  assert (∃ a x, proper a x ∧ process_player_action (Player.id p) a x (game s) = (true, game s1))
    as (a & x & Hpr' & E).
  { destruct (legal _ _ _ _); [by exists (d_action dc), (d_amount dc)|].
    exists (u "fold"), 0. split; [|done]. intros H. exfalso. revert H. str_ne. }
  cbn [betting_loop]. run_monad. rewrite Hopen. unfold nth_item. rewrite Hp.
  unfold has_status. rewrite bool_decide_eq_true_2 by done. cbn [negb]. rewrite E1.
  destruct (betting_round_complete (game s1)) eqn:C1.
  { exists s1. by apply betting_loop_complete. }
  destruct (turn_progress _ _ _ _ _ d Hok Hcap Hpr' Hact E Htg Hopen C1)
    as (Hcap1 & Hact1 & d1 & _ & Htg1 & Hlt & _).
  apply (IH s1 d1); try done; [by eapply hand_ok_action|lia].
Qed.

(** Turns that are enough for a round of at most [n] chips *)
Definition round_turns (n : Z) : nat := (Z.to_nat n + 10) * 11 + 13.

Lemma active_count_le g : (length (active_indices g) ≤ length (players g))%nat.
Proof. rewrite <- filter_active_length. apply length_filter. Qed.

Lemma round_turns_enough n st g d :
  in_play n st g → (d ≤ length (players g))%nat → (turns_left g d < round_turns n - 1)%nat.
Proof.
  intros [Hok Hc _ Hl _] Hd. unfold turns_left, round_turns, potential.
  assert (0 ≤ chips_of g) as H0.
  { apply sum_by_nonneg. intros p Hp. pose proof (ok_players _ Hok) as H.
    rewrite Forall_forall in H. by destruct (H p Hp) as [[]]. }
  assert (chips_of g ≤ n) as Hle.
  { unfold total_chips in Hc. assert (0 ≤ pot g); [|lia]. rewrite (ok_pot _ Hok).
    apply sum_by_nonneg. intros p Hp. pose proof (ok_players _ Hok) as H.
    rewrite Forall_forall in H. destruct (H p Hp) as [[]]. lia. }
  pose proof (active_count_le g). assert (Z.to_nat (chips_of g) ≤ Z.to_nat n)%nat by lia. nia.
Qed.

Lemma round_ends n st fuel s :
  in_play n st (game s) → capped (game s) → (round_turns n ≤ fuel)%nat →
  ∃ s', betting_loop (auto_turn make_decision) fuel s = (Ok tt, s').
Proof.
  intros Hi Hcap Hf. destruct (betting_round_complete (game s)) eqn:C.
  { exists s. by apply betting_loop_complete. }
  assert (∀ s f, in_play n st (game s) → capped (game s) → (round_turns n - 1 ≤ f)%nat →
    betting_round_complete (game s) = false → turn_active (game s) →
    ∃ s', betting_loop (auto_turn make_decision) f s = (Ok tt, s')) as Hgo.
  { clear s Hi Hcap C. intros s f Hi Hcap Hf' C Hact. pose proof Hact as (p & Hp & Ha).
    destruct (target_exists _ _ Hp Ha Hcap) as (d & Hd & Htg).
    pose proof (round_turns_enough n st _ _ Hi Hd). apply (betting_loop_ends f s d); try done; [apply Hi|lia]. }
  pose proof (ip_turn _ _ _ Hi C) as [p Hp].
  destruct (decide (Player.status p = ACTIVE)) as [Ha|Ha].
  { apply Hgo; try done; [lia|by exists p]. }
  (* the turn first passes to an active player *)
  destruct fuel as [|fuel]; [unfold round_turns in Hf; lia|].
  cbn [betting_loop]. run_monad. rewrite C. unfold nth_item. rewrite Hp.
  unfold has_status. rewrite bool_decide_eq_false_2 by done. cbn [negb].
  set (s1 := s <| game ::= advance_to_next_player |>).
  assert (game s1 = advance_to_next_player (game s)) as Es by done.
  assert (in_play n st (game s1)) as Hi1 by (rewrite Es; by apply in_play_advance_player).
  destruct (betting_round_complete (game s1)) eqn:C1.
  { exists s1. by apply betting_loop_complete. }
  apply (Hgo s1 fuel); try done; [|unfold round_turns in *; lia|].
  - rewrite Es. destruct (advance_to_next_player_frame (game s)) as (i & b & ->). exact Hcap.
  - rewrite Es in C1 |- *. destruct (advance_to_next_player_cases (game s))
      as [(k & _ & Hact & _ & E)|[_ E]]; rewrite E in C1 |- *; [|done].
    unfold active_at, seat_is in Hact. set (j := (_ mod _)%nat) in *.
    destruct (players (game s) !! j) as [q|] eqn:Hq; [|done]. exists q. split; [exact Hq|].
    by apply bool_decide_eq_true in Hact.
Qed.

Lemma decides_ok st k p g gs :
  hand_ok g → seating g = st → p ∈ players g → Player.status p = ACTIVE →
  get_llm_game_state (Player.id p) g = Ok gs → is_Ok (make_decision k p gs).
Proof. intros Hok _ Hp Ha E. destruct (decides k p g gs) as (d & -> & _); try done. by eexists. Qed.

Lemma phase_step_capped g b g' :
  phase_step g b g' → betting_phase g = true → betting_round_complete g = true →
  betting_phase g' = true → capped g'.
Proof.
  intros St Hp Hc Hp'. destruct St as [C|C L|g' C L Hin [D P O B F T]|C L F|C L F]; try done.
  - congruence.
  - intros i p. rewrite P, B. intros (q & -> & _)%list_lookup_fmap_Some _. done.
  - unfold betting_phase in Hp. by rewrite F in Hp.
Qed.

Lemma phase_loop_ends n st fuel phases s :
  in_play n st (game s) → capped (game s) → (round_turns n ≤ fuel)%nat →
  (phases_left (current_phase (game s)) ≤ phases)%nat →
  ∃ s', phase_loop (auto_turn make_decision) (mret true) fuel phases s = (Ok true, s') ∧
        in_play n st (game s') ∧ current_phase (game s') = SHOWDOWN.
Proof.
  revert s. induction phases as [|phases IH]; intros s Hi Hcap Hf Hl.
  - pose proof (phase_loop_safe make_decision n st (decides_ok st) fuel 0 _ Hl s (conj Hi eq_refl)) as H.
    revert H. cbn [phase_loop]. run_monad. unfold betting_phase.
    destruct (current_phase (game s)); simpl in Hl; try lia; cbn [negb].
    all: intros (_ & ? & ?); by exists s.
  - destruct (betting_phase (game s)) eqn:B.
    2: { pose proof (phase_loop_safe make_decision n st (decides_ok st) fuel (S phases) _ Hl s
           (conj Hi eq_refl)) as H.
         revert H. cbn [phase_loop]. run_monad. rewrite B. cbn [negb].
         intros (_ & ? & ?). by exists s. }
    destruct (round_ends n st fuel s Hi Hcap Hf) as (s1 & E1).
    pose proof (betting_loop_safe make_decision n st (decides_ok st) (current_phase (game s)) fuel s
      (conj Hi eq_refl)) as H1. rewrite E1 in H1. destruct H1 as [[Hi1 Hp1] C1].
    assert (betting_phase (game s1) = true) as B1 by (unfold betting_phase in *; by rewrite Hp1).
    destruct (in_play_phase n st (game s1) Hi1 C1 B1) as (g2 & E2 & Hi2 & Hlt).
    pose proof (advance_phase_step _ _ _ (ip_ok _ _ _ Hi1) E2) as St.
    cbn [phase_loop]. run_monad. rewrite B. cbn [negb]. rewrite E1. unfold on_game. rewrite E2.
    set (s2 := s1 <| game := g2 |>).
    destruct (betting_phase g2) eqn:B2.
    + apply (IH s2); [exact Hi2|by eapply phase_step_capped|done|].
      change (game s2) with g2. rewrite Hp1 in Hlt. lia.
    + exists s2. split.
      * assert (negb (betting_phase (game s2)) = true) as N by (change (game s2) with g2; by rewrite B2).
        destruct phases; cbn [phase_loop]; run_monad; by rewrite N.
      * split; [exact Hi2|]. change (current_phase g2 = SHOWDOWN).
        pose proof (ok_board _ (ip_ok _ _ _ Hi2)) as Hb. unfold board_ok, betting_phase in *.
        by destruct (current_phase g2).
Qed.
End Loops.

(** C5: a hand comes to its end.  When nobody has bet more than the bet to match,
    and the players that decide by themselves raise only by positive amounts, the
    betting of every street closes within a number of turns given by the chips in
    play, and the loop over the phases ends at the showdown. *)
Theorem hand_terminates make_decision n fuel s :
  (∀ k p g gs, hand_ok g → p ∈ players g → Player.status p = ACTIVE →
     get_llm_game_state (Player.id p) g = Ok gs →
     ∃ d, make_decision k p gs = Ok d ∧ (d_action d = u "raise" → 0 < d_amount d)) →
  hand_ok (game s) → turn_ok (game s) → (length (players (game s)) ≤ 10)%nat →
  chips_of (game s) + pot (game s) ≤ n →
  Forall (λ p, Player.current_bet p ≤ current_bet (game s)) (players (game s)) →
  ((Z.to_nat n + 10) * 11 + 13 ≤ fuel)%nat →
  ∃ s', phase_loop (auto_turn make_decision) (mret true) fuel 5 s = (Ok true, s') ∧
        hand_ok (game s') ∧ current_phase (game s') = SHOWDOWN.
Proof.
  intros Hdec Hok Ht Hl Hn Hcap Hf.
  destruct (phase_loop_ends make_decision Hdec n (seating (game s)) fuel 5 s) as (s' & E & Hi & Hp).
  - by split.
  - intros i p Hp _. eapply Forall_lookup_1 in Hcap; [|exact Hp]. done.
  - done.
  - destruct (current_phase (game s)); simpl; lia.
  - exists s'. split_and!; [done|apply Hi|done].
Qed.
