(* ===== verification/GameUiProps.v ===== *)
(** * What the screen shows

    The screen of a person shows nothing of the other players' cards, every hand can be
    shown, the buttons are what the game accepts, and an accepted action is at the top
    of the history. *)
From stdpp Require Import strings.
From S2P Require Import Prelude Py Json Regex GameModels PlayerModels Evaluator EvaluatorProps.
From S2P Require Import GameHistory Game GameProps HandInvariant StartHand HandProps ViewProps.
From S2P Require Import Showdown ShowdownProps ServerProps Cli CliProps LlmProps LogViewer LogProps.
From S2P Require Import BettingProps GameUi.
Import PokerGame GameUI.

(** ** Every game can be shown *)

Lemma face_total s : ∃ f, create_card_widget s = Ok f.
Proof.
  unfold create_card_widget. case_bool_decide as H; [by eexists|].
  destruct (bool_decide (s = u "??")); [by eexists|]. unfold last_char.
  destruct (last s) eqn:E; [by eexists|]. by apply last_None in E.
Qed.

Lemma item_total game s : ∃ i, create_action_history_item game s = Ok i.
Proof.
  unfold create_action_history_item. destruct (action_item game s); [by eexists|].
  destruct (dealt "Flop dealt: " s) as [c|].
  - destruct (map_total create_card_widget (strip <$> split (u ",") c)) as [l E];
      [by intros; apply face_total|]. rewrite E. by eexists.
  - destruct (dealt "Turn dealt: " s) as [c|]; [destruct (face_total (strip c)) as [f E]; rewrite E; by eexists|].
    destruct (dealt "River dealt: " s) as [c|]; [|by eexists].
    destruct (face_total (strip c)) as [f E]. rewrite E. by eexists.
Qed.

Lemma card_row_total cards : ∃ l, card_row cards = Ok l.
Proof.
  apply map_total. intros c _. destruct (face_total (Card.str c)) as [f E]. rewrite E. by eexists.
Qed.

Lemma seat_total i g p : ∃ s, build_seat i g p = Ok s.
Proof.
  unfold build_seat. destruct (face_total (u "??")) as [f E]. rewrite E. cbn [mbind result_bind].
  destruct (map_total (λ c, create_card_widget (Card.str c)) (Player.hole_cards p)) as [l El];
    [by intros; apply face_total|]. rewrite El. destruct (negb _ && _); by eexists.
Qed.

(** Every hand of the table is worth something from the flop on. *)
Definition readable (g : PokerGame.t) : Prop := ∀ p, p ∈ players g →
  Player.hole_cards p ≠ [] → (3 ≤ length (community_cards g))%nat →
  ∃ h, HandEvaluator.evaluate_hand (Player.hole_cards p) (community_cards g) = Ok h.

Lemma hand_ok_readable g : hand_ok g → readable g.
Proof. intros Hok p. by apply own_hand_total. Qed.

(** It depends on the hands and the board only. *)
Definition cards_of (g : PokerGame.t) : list (list card) * list card :=
  (Player.hole_cards <$> players g, community_cards g).

Lemma readable_same g g' : cards_of g' = cards_of g → readable g → readable g'.
Proof.
  intros [= Eh Eb] H p Hp. rewrite Eb.
  apply (list_elem_of_fmap_2 Player.hole_cards) in Hp. rewrite Eh in Hp.
  apply list_elem_of_fmap in Hp as (q & -> & Hq). by apply H.
Qed.

Lemma your_cards_total i g : readable g → ∃ l, your_cards i g = Ok l.
Proof.
  intros Hr. unfold your_cards. destruct (get_player i g) as [p|] eqn:Hp; [|by eexists].
  apply get_player_in in Hp. case_bool_decide as Hc; [by eexists|].
  destruct (card_row_total (Player.hole_cards p)) as [l E]. rewrite E. cbn [mbind result_bind].
  destruct (Nat.leb_spec 3 (length (community_cards g))) as [L|L]; [|by eexists].
  destruct (Hr p Hp Hc L) as [h Eh]. rewrite Eh. by eexists.
Qed.

Lemma display_readable i g : readable g → ∃ s, display i g = Ok s.
Proof.
  intros Hr. unfold display.
  destruct (card_row_total (community_cards g)) as [c Ec].
  destruct (map_total (build_seat i g) (players g)) as [l El]; [by intros; apply seat_total|].
  destruct (your_cards_total i g Hr) as [y Ey].
  destruct (map_total (create_action_history_item (Some g)) (reverse (action_history g))) as [h Eh];
    [by intros; apply item_total|].
  unfold build_seat_controls. rewrite Ec, El, Ey, Eh. destruct (bool_decide _); by eexists.
Qed.

Lemma display_total i g : hand_ok g → ∃ s, display i g = Ok s.
Proof. intros Hok. by apply display_readable, hand_ok_readable. Qed.

(** ** The screen and the others' cards *)

Section Redact.
Context (i : nat).

Lemma get_display_name_unhand p : get_display_name (unhand p) = get_display_name p.
Proof. done. Qed.

Lemma get_player_name_redact k g :
  get_player_name k (Some (redact i g)) = get_player_name k (Some g).
Proof.
  unfold get_player_name. cbn [mbind option_bind]. rewrite get_player_redact.
  destruct (get_player k g) as [p|]; [|done]. cbn. by apply hide_forgets.
Qed.

Lemma item_redact g s :
  create_action_history_item (Some (redact i g)) s = create_action_history_item (Some g) s.
Proof.
  unfold create_action_history_item.
  assert (action_item (Some (redact i g)) s = action_item (Some g) s) as ->; [|done].
  unfold action_item. do 2 f_equal; apply list_omap_ext, Forall_Forall2_diag, Forall_true; intros x;
    apply option_fmap_ext; intros y; by rewrite get_player_name_redact.
Qed.

Lemma seat_hide g p : build_seat i (redact i g) (hide i p) = build_seat i g p.
Proof.
  unfold hide. destruct (decide (Player.id p = i)) as [E|E]; [done|]. unfold build_seat.
  change (Player.id (unhand p)) with (Player.id p).
  rewrite (bool_decide_false (Player.id p = i)) by done. by rewrite !andb_false_r.
Qed.

Lemma screen_redact g : display i (redact i g) = display i g.
Proof.
  unfold display.
  assert (build_seat_controls i (redact i g) = build_seat_controls i g) as ->.
  { unfold build_seat_controls. change (players (redact i g)) with (hide i <$> players g).
    induction (players g) as [|p l IH]; [done|]. rewrite fmap_cons. cbn [map_result].
    by rewrite seat_hide, IH. }
  assert (your_cards i (redact i g) = your_cards i g) as ->.
  { unfold your_cards. destruct (get_player i g) as [p|] eqn:Hp; [by rewrite (get_player_own i g p Hp)|].
    by rewrite get_player_redact, Hp. }
  assert (∀ l, map_result (create_action_history_item (Some (redact i g))) l
    = map_result (create_action_history_item (Some g)) l) as E.
  { induction l as [|s l IH]; [done|]. cbn [map_result]. by rewrite item_redact, IH. }
  by rewrite E.
Qed.
End Redact.


(** ** The history *)

(** The badge of an accepted action and its amount *)
Definition badge_of (action : pystr) (g g' : PokerGame.t) : pystr * option Z :=
  if bool_decide (action = u "fold") then (u "FOLD", None)
  else if bool_decide (action = u "raise") then (u "RAISE", Some (current_bet g'))
  else if bool_decide (action = u "all_in") then (u "ALL-IN", Some (pot g' - pot g))
  else if pot g' =? pot g then (u "CHECK", None) else (u "CALL", Some (pot g' - pot g)).

Definition entry_item (i : nat) (game : option PokerGame.t) (b : pystr * option Z) : item :=
  Badge b.1 (get_player_name i game) b.2.

Section Entries.
Context (i : nat) (game : option PokerGame.t).
Notation entry rest := ((u "Player " ++ str_of_nat i) ++ rest).

Lemma player_number {A} (k : Z → pystr → option A) rest :
  from_option (λ c, is_digit c = false) True (head rest) →
  literal (u "Player ") (number k) (entry rest) = k (Z.of_nat i) rest.
Proof.
  intros H. rewrite <- (assoc_L (++)), literal_here, str_of_nat_Z. by apply number_str; [lia|].
Qed.

Lemma player_action_entry w rest :
  from_option (λ c, is_digit c = false) True (head rest) →
  player_action w (entry rest) = literal (u w) (λ _, Some i) rest.
Proof. intros H. unfold player_action. rewrite player_number by done. by rewrite Nat2Z.id. Qed.

Lemma player_amount_entry w rest :
  from_option (λ c, is_digit c = false) True (head rest) →
  player_amount w (entry rest) = literal (u w) (number (λ amt _, Some (i, amt))) rest.
Proof. intros H. unfold player_amount. rewrite player_number by done. by rewrite Nat2Z.id. Qed.

Lemma other_literal {A} t (k : pystr → option A) s : startswith s t = false → literal t k s = None.
Proof. intros H. unfold literal. by rewrite H. Qed.

Lemma amount_read (w : pystr) n : 0 ≤ n →
  literal w (number (λ amt _, Some (i, amt))) (w ++ str_of_Z n) = Some (i, n).
Proof.
  intros H. rewrite literal_here, <- (right_id_L [] (++) (str_of_Z n)). by apply number_str.
Qed.

(** Reads an entry: the literals that are not its words fail. *)
Ltac read_entry :=
  unfold create_action_history_item, action_item, plain_patterns, amount_patterns;
  cbn [omap list_omap fst snd];
  rewrite !player_action_entry, !player_amount_entry by done;
  repeat (rewrite other_literal by reflexivity).

Lemma folded_item : create_action_history_item game (entry (u " folded"))
  = Ok (entry_item i game (u "FOLD", None)).
Proof. read_entry. by rewrite <- (right_id_L [] (++) (u " folded")), literal_here. Qed.
Lemma checked_item : create_action_history_item game (entry (u " checked"))
  = Ok (entry_item i game (u "CHECK", None)).
Proof. read_entry. by rewrite <- (right_id_L [] (++) (u " checked")), literal_here. Qed.
Lemma called_item n : 0 ≤ n → create_action_history_item game (entry (u " called " ++ str_of_Z n))
  = Ok (entry_item i game (u "CALL", Some n)).
Proof. intros H. read_entry. by rewrite amount_read. Qed.
Lemma raised_item n : 0 ≤ n → create_action_history_item game (entry (u " raised to " ++ str_of_Z n))
  = Ok (entry_item i game (u "RAISE", Some n)).
Proof. intros H. read_entry. by rewrite amount_read. Qed.
Lemma all_in_item n : 0 ≤ n →
  create_action_history_item game (entry (u " went all-in with " ++ str_of_Z n))
  = Ok (entry_item i game (u "ALL-IN", Some n)).
Proof. intros H. read_entry. by rewrite amount_read. Qed.
End Entries.

Lemma paid_nonneg x p paid q :
  stack_ok p → Player.bet x p = (paid, q) → 0 ≤ paid ∧ 0 ≤ Player.current_bet q.
Proof.
  intros H B. pose proof (po_chips _ H). pose proof (po_bets _ H).
  destruct (bet_spec x p) as (E1 & _ & E2 & _). rewrite B in E1, E2. cbn in E1, E2.
  destruct (Z.leb_spec x 0); lia.
Qed.

(** The entry of an accepted action is shown as its badge. *)
Lemma action_shown i seat p action amount g g1 d game :
  stack_ok p → execute_action i seat p action amount g = Some (g1, d) →
  create_action_history_item game d = Ok (entry_item i game (badge_of action g g1)).
Proof.
  intros Hs. unfold execute_action, badge_of. cbv zeta. action_cases action; action_tests.
  - intros [= <- <-]. apply folded_item.
  - destruct (_ <? _); [done|]. intros [= <- <-]. rewrite Z.eqb_refl. apply checked_item.
  - destruct (Z.leb_spec (current_bet g - Player.current_bet p) 0) as [H|H].
    { intros [= <- <-]. rewrite Z.eqb_refl. apply checked_item. }
    destruct (Z.ltb_spec (Player.chips p) (current_bet g - Player.current_bet p)); [done|].
    destruct (Player.bet _ p) as [paid q] eqn:B. intros [= <- <-].
    pose proof (paid_nonneg _ _ _ _ Hs B) as [Hp _].
    assert (paid = current_bet g - Player.current_bet p) as E.
    { unfold Player.bet in B. destruct (Z.leb_spec (current_bet g - Player.current_bet p) 0); [lia|].
      injection B as <- _. lia. }
    cbn [pot]. rewrite (proj2 (Z.eqb_neq _ _)) by lia. replace (pot g + paid - pot g) with paid by lia.
    by apply called_item.
  - destruct (_ <? _); [done|]. destruct (Player.bet _ p) as [paid q] eqn:B. intros [= <- <-].
    apply raised_item. by apply (paid_nonneg _ _ _ _ Hs B).
  - destruct (_ <=? _); [done|]. destruct (Player.bet _ p) as [paid q] eqn:B. intros [= <- <-].
    pose proof (paid_nonneg _ _ _ _ Hs B) as [Hp _].
    match goal with |- context [Some (?x - pot g)] =>
      replace (x - pot g) with paid by (destruct (_ <? _); cbn; lia) end.
    by apply all_in_item.
  - done.
Qed.

(** ** The turn stays at the table *)

Lemma turn_in_range i action amount g g' :
  seated g → process_player_action i action amount g = (true, g') →
  is_Some (players g' !! current_player_index g').
Proof.
  intros Hs H. apply process_player_action_shape in H as
    (seat & p & g1 & d & g2 & Ht & F & A & X & R & Hi & _ & ->).
  apply find_player_Some in F as [Hp Hid]. pose proof (Hs _ _ Hp) as E.
  destruct (execute_action_effect _ _ _ _ Hp A _ _ _ _ X) as [p' [P _ _ _ T _ _ _]].
  destruct (check_betting_round_complete_frame (advance_to_next_player g2)) as [b ->].
  change (is_Some (players (advance_to_next_player g2) !!
    current_player_index (advance_to_next_player g2))).
  unfold advance_to_next_player. destruct (find_first _ _) as [n|] eqn:Hn.
  - apply find_first_Some in Hn as [Hn _]. unfold seat_is in Hn. cbn.
    by destruct (players g2 !! n).
  - cbn. rewrite Hi, T, (sr_players _ _ R), (pays_players _ _ _ _ _ _ P). apply lookup_lt_is_Some.
    rewrite length_insert. apply lookup_lt_Some in Hp. congruence.
Qed.

(** ** Buttons *)

(** The button of an offer *)
Definition button_of (offer : pystr) : option button :=
  match action_button offer with Ok b => b | Raise _ => None end.

Lemma button_call n : action_button (numbered (u "call (") n)
  = Ok (Some (Button (u "コール (" ++ str_of_Z n ++ u ")") (Handle (u "call") n))).
Proof.
  unfold action_button. rewrite bracketed_int_eq, bracketed_call. cbn [mbind result_bind].
  by rewrite int_of_str_of_Z.
Qed.
Lemma button_raise n : action_button (numbered (u "raise (min ") n)
  = Ok (Some (Button (u "レイズ (最低" ++ str_of_Z n ++ u ")") (ShowRaiseDialog n))).
Proof.
  unfold action_button. rewrite !bracketed_int_eq, bracketed_raise. cbn [mbind result_bind].
  by rewrite int_of_str_of_Z.
Qed.
Lemma button_all_in n : action_button (numbered (u "all-in (") n)
  = Ok (Some (Button (u "オールイン (" ++ str_of_Z n ++ u ")") (Handle (u "all_in") n))).
Proof.
  unfold action_button. rewrite !bracketed_int_eq, bracketed_all_in. cbn [mbind result_bind].
  by rewrite int_of_str_of_Z.
Qed.

(** What a button promises to the player [p] *)
Definition promises (g : PokerGame.t) (p : player) (b : button) : Prop :=
  match on_click b with
  | Handle action amount => legal p action amount g = true
  | ShowRaiseDialog n =>
      n = min_raise_total g ∧ n ≤ Player.chips p ∧
      (legal p (u "raise") n g = true ↔ current_bet g - Player.current_bet p + n ≤ Player.chips p)
  | _ => False
  end.

Lemma offer_button g i p offer :
  get_player i g = Some p → Player.status p = ACTIVE → offer ∈ get_available_actions i g →
  ∃ b, action_button offer = Ok (Some b) ∧ promises g p b.
Proof.
  intros Hp Ha H. apply (elem_of_available g i p Hp Ha) in H. unfold promises, legal.
  destruct H as [->|[[H ->]|[[H ->]|[(_ & H & _ & ->)|(H & _ & ->)]]]].
  - eexists. split; [reflexivity|]. cbn [on_click]. by action_tests.
  - eexists. split; [reflexivity|]. cbn [on_click]. action_tests. apply Z.leb_le.
    unfold amount_to_call in H. lia.
  - eexists. split; [apply button_call|]. cbn [on_click]. action_tests. apply Z.leb_le.
    unfold amount_to_call in H. lia.
  - eexists. split; [apply button_raise|]. cbn [on_click]. action_tests. rewrite Z.leb_le. done.
  - eexists. split; [apply button_all_in|]. cbn [on_click]. action_tests. by apply Z.ltb_lt.
Qed.

Lemma add_buttons_run l s :
  Forall (λ x, ∃ b, action_button x = Ok (Some b)) l →
  add_buttons l s = (Ok tt, s <| action_buttons ::= λ k, k ++ omap button_of l |>).
Proof.
  intros H. revert s. induction H as [|x l [b Hb] _ IH]; intros s.
  - destruct s. unfold update. cbn. by rewrite (right_id_L [] (++)).
  - cbn [add_buttons]. rewrite Hb. run_monad. rewrite IH. destruct s. unfold update. cbn.
    unfold button_of at 2. rewrite Hb. by rewrite <- (assoc_L (++)).
Qed.

Lemma get_turn_player g p :
  seated g → players g !! current_player_index g = Some p →
  Player.id p = current_player_index g ∧ get_player (Player.id p) g = Some p.
Proof.
  intros Hs Hp. pose proof (Hs _ _ Hp) as E. split; [done|]. by rewrite get_player_seated, E.
Qed.

Lemma game_state_of g i p : get_player i g = Some p → Player.status p = ACTIVE →
  ∃ gs, get_llm_game_state i g = Ok gs ∧ GameState.actions gs = get_available_actions i g.
Proof.
  intros Hp Ha. destruct (get_llm_game_state i g) as [gs|e] eqn:E.
  - exists gs. split; [done|]. by apply game_state_actions.
  - unfold get_llm_game_state in E. rewrite Hp in E. unfold has_status in E. by rewrite Ha in E.
Qed.

Definition choose_text : pystr := u "アクションを選択してください".

(** The turn of the person at this interface *)
Record your_turn (g : PokerGame.t) (p : player) (s : GameUI.t) : Prop := YourTurn {
  yt_game : game s = Some g;
  yt_turn : players g !! current_player_index g = Some p;
  yt_you : current_player_id s = Player.id p;
  yt_kind : Player.kind p = HumanPlayer;
  yt_active : Player.status p = ACTIVE;
  yt_phase : current_phase g ∉ [SHOWDOWN; FINISHED];
  yt_waiting : is_waiting_phase_confirmation s = false }.

Lemma buttons_run g p s :
  seated g → your_turn g p s →
  update_action_buttons s
  = (Ok tt, s <| action_buttons := omap button_of (get_available_actions (Player.id p) g) |>
              <| status_text := choose_text |>).
Proof.
  intros Hs [Hg Ht Hy Hk Ha Hf Hw]. destruct (get_turn_player g p Hs Ht) as [_ Hp].
  destruct (game_state_of g (Player.id p) p Hp Ha) as (gs & Egs & Eac).
  unfold update_action_buttons. run_monad. rewrite Hw, Hg, bool_decide_false by done.
  unfold nth_item. rewrite Ht, Hy, Hk.
  rewrite (bool_decide_true (Player.id p = Player.id p)) by reflexivity.
  rewrite (bool_decide_true (HumanPlayer = HumanPlayer)) by reflexivity.
  unfold has_status. rewrite Ha, (bool_decide_true (ACTIVE = ACTIVE)) by reflexivity.
  cbn [negb orb]. rewrite Egs. unfold set_status. run_monad. rewrite Eac, add_buttons_run.
  { unfold choose_text. generalize (omap button_of (get_available_actions (Player.id p) g)).
    generalize (u "アクションを選択してください"). intros text bs. by destruct s. }
  apply Forall_forall. intros x Hx. destruct (offer_button g _ p x Hp Ha Hx) as (b & Eb & _). by exists b.
Qed.

(** Whose ever turn it is, the buttons can be made. *)
Lemma buttons_total g s :
  seated g → game s = Some g → is_Some (players g !! current_player_index g) →
  ∃ s', update_action_buttons s = (Ok tt, s') ∧ game s' = Some g ∧ shown s' = shown s.
Proof.
  intros Hs Hg [p Hp].
  destruct (is_waiting_phase_confirmation s) eqn:W;
    [unfold update_action_buttons; run_monad; rewrite W; by eexists|].
  destruct (decide (current_phase g ∈ [SHOWDOWN; FINISHED])) as [Hf|Hf];
    [unfold update_action_buttons; run_monad; rewrite W, Hg, bool_decide_true by done; by eexists|].
  destruct (decide (Player.id p = current_player_id s ∧ Player.kind p = HumanPlayer)) as [[Hi Hk]|Hn].
  - destruct (decide (Player.status p = ACTIVE)) as [Ha|Ha].
    + eexists. split; [by apply (buttons_run g p s Hs); split|]. done.
    + unfold update_action_buttons. run_monad. rewrite W, Hg, bool_decide_false by done.
      unfold nth_item. rewrite Hp, Hi, Hk. rewrite !(bool_decide_true (_ = _)) by reflexivity.
      unfold has_status. rewrite bool_decide_false by done. by eexists.
  - unfold update_action_buttons. run_monad. rewrite W, Hg, bool_decide_false by done.
    unfold nth_item. rewrite Hp.
    replace (negb _ || negb _) with true; [by eexists|]. symmetry.
    apply orb_true_iff. rewrite !negb_true_iff, !bool_decide_eq_false.
    destruct (decide (Player.id p = current_player_id s)); tauto.
Qed.

(** ** Clicking *)

Lemma display_latest i g h d it sc :
  action_history g = h ++ [d] → create_action_history_item (Some g) d = Ok it →
  display i g = Ok sc → head (action_history_column sc) = Some it.
Proof.
  intros Hh Hi. unfold display. rewrite Hh, reverse_snoc. cbn [map_result]. rewrite Hi.
  destruct (if bool_decide _ then _ else _); [|done]. cbn [mbind result_bind].
  destruct (build_seat_controls i g); [|done]. destruct (your_cards i g); [|done].
  cbn [mbind result_bind]. destruct (map_result _ (reverse h)); [|done]. by intros [= <-].
Qed.

Lemma badge_same action g g1 g' : same_table g1 g' → badge_of action g g1 = badge_of action g g'.
Proof. intros H. unfold badge_of. by rewrite (st_pot _ _ H), (st_bet _ _ H). Qed.

Lemma update_display_run g s sc :
  game s = Some g → display (current_player_id s) g = Ok sc →
  update_display s = (Ok tt, s <| shown := sc |>).
Proof. intros Hg Hd. unfold update_display. run_monad. by rewrite Hg, Hd. Qed.

Lemma click_run g g' s action amount :
  hand_ok g → game s = Some g →
  process_player_action (current_player_id s) action amount g = (true, g') →
  ∃ s', handle_action action amount s = (Ok tt, s') ∧ game s' = Some g' ∧
    display (current_player_id s) g' = Ok (shown s') ∧
    head (action_history_column (shown s')) =
      Some (entry_item (current_player_id s) (Some g') (badge_of action g g')).
Proof.
  intros Hok Hg H. set (i := current_player_id s) in *.
  pose proof (hand_ok_action _ _ _ _ _ Hok H) as Hok'.
  pose proof (turn_in_range _ _ _ _ _ (ok_seated _ Hok) H) as Ht.
  pose proof H as (seat & p & g1 & d & F & _ & X & T & Hh)%process_entry.
  apply find_player_Some in F as [Hp _].
  pose proof (ok_players _ Hok) as Hps. rewrite Forall_forall in Hps.
  pose proof (po_stack _ (Hps p (list_elem_of_lookup_2 _ _ _ Hp))) as Hst.
  pose proof (action_shown i seat p action amount g g1 d (Some g') Hst X) as Hi.
  rewrite (badge_same _ _ _ _ T) in Hi.
  destruct (display_total i g' Hok') as [sc Hsc].
  pose proof (display_latest i g' _ _ _ _ Hh Hi Hsc) as Hd.
  unfold handle_action, set_status. run_monad. rewrite Hg. fold i. rewrite H.
  match goal with |- context [update_display ?q] => set (q1 := q) end.
  rewrite (update_display_run g' q1 sc eq_refl Hsc). set (q2 := q1 <| shown := sc |>).
  destruct (buttons_total g' q2 (ok_seated _ Hok') eq_refl Ht) as (s' & E & Eg & Es).
  exists s'. change (shown q2) with sc in Es. rewrite E, Es.
  split; [reflexivity|]. split; [exact Eg|]. split; [exact Hsc|exact Hd].
Qed.

(** C13: at a person's turn there is one button for each action on offer, in order.
    A click on a button is accepted, except that the button of a raise asks for the
    amount first: its least amount is accepted exactly when the player can pay it on
    top of the call.  A click that is accepted ends without an exception, with the new
    game on the screen and the action, its player and its amount at the top of the
    history. *)
Theorem offered_buttons g p s :
  hand_ok g → your_turn g p s →
  ∃ s', update_action_buttons s = (Ok tt, s') ∧ game s' = Some g ∧
    Forall2 (λ offer b, action_button offer = Ok (Some b) ∧ promises g p b)
      (get_available_actions (Player.id p) g) (action_buttons s') ∧
    ∀ b action amount, b ∈ action_buttons s' → on_click b = Handle action amount →
      ∃ g' s'', process_player_action (Player.id p) action amount g = (true, g') ∧
        handle_action action amount s' = (Ok tt, s'') ∧ game s'' = Some g' ∧
        display (Player.id p) g' = Ok (shown s'') ∧
        head (action_history_column (shown s'')) =
          Some (entry_item (Player.id p) (Some g') (badge_of action g g')).
Proof.
  intros Hok Hy. pose proof (ok_seated _ Hok) as Hs.
  destruct (get_turn_player g p Hs (yt_turn _ _ _ Hy)) as [Hi Hp].
  pose proof (yt_active _ _ _ Hy) as Ha.
  eexists. split; [by apply (buttons_run g p s)|]. split; [apply Hy|]. cbn [action_buttons update].
  set (offers := get_available_actions (Player.id p) g).
  assert (Forall2 (λ offer b, action_button offer = Ok (Some b) ∧ promises g p b) offers
    (omap button_of offers)) as HB.
  { assert (∀ x, x ∈ offers → ∃ b, action_button x = Ok (Some b) ∧ promises g p b) as H
      by (intros x Hx; by apply (offer_button g (Player.id p))).
    clearbody offers. induction offers as [|x l IH]; [constructor|].
    destruct (H x ltac:(by left)) as (b & Eb & Hb). cbn. unfold button_of at 1. rewrite Eb.
    constructor; [done|]. apply IH. intros y Hy'. apply H. by right. }
  split; [exact HB|]. intros b action amount Hb Hc.
  apply list_elem_of_lookup in Hb as [k Hk].
  destruct (Forall2_lookup_r _ _ _ _ _ HB Hk) as (x & _ & _ & HP). unfold promises in HP.
  rewrite Hc in HP.
  destruct (process_player_action (Player.id p) action amount g) as [ok g'] eqn:E.
  assert (ok = true) as ->.
  { change ok with (ok, g').1. rewrite <- E. apply process_accepts; [done|]. split; [done|].
    exists p. rewrite Hi. split; [apply Hy|]. done. }
  exists g'. pose proof (yt_you _ _ _ Hy) as Hyou.
  match goal with |- context [handle_action _ _ ?q] =>
    destruct (click_run g g' q action amount Hok) as (s'' & H1 & H2 & H3 & H4) end.
  - apply Hy.
  - cbn. by rewrite Hyou.
  - exists s''. cbn [current_player_id update] in H3, H4. rewrite Hyou in H3, H4. done.
Qed.

(** An action that is refused at the person's turn leaves the text that asks for an
    action: the message that it was not valid is overwritten at once. *)
Lemma refused_silently g p s action amount :
  hand_ok g → your_turn g p s → (process_player_action (Player.id p) action amount g).1 = false →
  ∃ s', handle_action action amount s = (Ok tt, s') ∧ game s' = Some g ∧ status_text s' = choose_text.
Proof.
  intros Hok Hy H. pose proof Hy as [Hg Ht Hyou Hk Ha Hf Hw].
  destruct (process_player_action (Player.id p) action amount g) as [ok g'] eqn:E.
  cbn in H. subst ok. pose proof (process_rejected _ _ _ _ _ E) as ->.
  destruct (display_total (current_player_id s) g Hok) as [sc Hsc].
  unfold handle_action, set_status. run_monad. rewrite Hg, Hyou, E.
  match goal with |- context [update_display ?q] => set (q1 := q) end.
  rewrite (update_display_run g q1 sc eq_refl Hsc).
  assert (your_turn g p (q1 <| shown := sc |>)) as Hq by (by split).
  rewrite (buttons_run g p _ (ok_seated _ Hok) Hq). by eexists.
Qed.

(** ** What the methods of the screen leave alone *)

(** The game held by the screen and the overlay with the final results *)
Definition holds (x : option PokerGame.t * option (list (list widget + button))) (s : GameUI.t) : Prop :=
  (game s, final_overlay s) = x.

#[export] Hint Extern 1 (stable (holds _) (modify _)) =>
  apply stable_modify; intros ? ?; assumption : poker.

Lemma stable_update_display x : stable (holds x) update_display.
Proof. unfold update_display. stable_parts. Qed.

Lemma stable_add_buttons x l : stable (holds x) (add_buttons l).
Proof. induction l as [|action l IH]; cbn [add_buttons]; stable_parts. Qed.

#[export] Hint Resolve stable_update_display stable_add_buttons : poker.

Lemma stable_update_action_buttons x : stable (holds x) update_action_buttons.
Proof. unfold update_action_buttons, set_status. stable_parts. Qed.

Lemma stable_show_results x r : stable (holds x) (show_showdown_results_inline r).
Proof. unfold show_showdown_results_inline. stable_parts. Qed.

#[export] Hint Resolve stable_update_action_buttons stable_show_results : poker.

(** An action changes the game as [process_player_action] does, whatever becomes of the
    screen. *)
Lemma handle_action_holds g action amount s : game s = Some g →
  holds (Some (process_player_action (current_player_id s) action amount g).2, final_overlay s)
    (handle_action action amount s).2.
Proof.
  intros Hg. unfold handle_action. step. rewrite Hg.
  destruct (process_player_action _ _ _ _) as [success g']. cbn [snd].
  set (x := (Some g', final_overlay s)).
  assert (stable (holds x) (set_status (if success then u "アクション実行: " ++ action
    else u "無効なアクションです") ;; update_display ;; update_action_buttons)) as H.
  { unfold set_status. stable_parts. }
  step. apply H. done.
Qed.

Lemma confirm_raise_holds g s : game s = Some g →
  (∃ amount, holds (Some (process_player_action (current_player_id s) (u "raise") amount g).2, final_overlay s)
    (confirm_raise s).2) ∨ holds (Some g, final_overlay s) (confirm_raise s).2.
Proof.
  intros Hg. unfold confirm_raise. step. destruct (int_of_str (raise_amount_field s)) as [amount|e].
  - left. exists amount. unfold close_raise_dialog, mbind, M_bind, modify.
    set (s1 := s <| raise_dialog_open := false |>).
    exact (handle_action_holds g (u "raise") amount s1 Hg).
  - right. unfold holds. destruct e; cbn; by rewrite Hg.
Qed.

(** The buttons can be made but for a turn that is no player's. *)
Lemma buttons_end g s : seated g → game s = Some g →
  (update_action_buttons s).1 = Ok tt ∨ (update_action_buttons s).1 = Raise IndexError.
Proof.
  intros Hs Hg. destruct (players g !! current_player_index g) as [p|] eqn:Hp.
  - destruct (buttons_total g s Hs Hg) as (s' & E & _); [by eexists|]. left. by rewrite E.
  - unfold update_action_buttons. step. destruct (is_waiting_phase_confirmation s); [by left|].
    step. rewrite Hg. destruct (bool_decide _); [by left|]. right.
    unfold nth_item. by rewrite Hp.
Qed.

Lemma showdown_rows_total game results : ∃ rows, showdown_rows game results = Ok rows.
Proof.
  unfold showdown_rows.
  destruct (map_total create_card_widget (Card.str <$> default [] (community_cards <$> game)))
    as [c Ec]; [by intros; apply face_total|].
  destruct (map_total (hand_row game) (default [] (sr_all_hands results))) as [h Eh].
  { intros i _. unfold hand_row.
    destruct (map_total create_card_widget (sh_cards i)) as [l El]; [by intros; apply face_total|].
    rewrite El. by eexists. }
  rewrite Ec, Eh. by eexists.
Qed.
