(* ===== verification/FletProps.v ===== *)
(** * The game of the graphical interface never fails

    Whatever the models decide or raise, whatever buttons are clicked, and however
    the hands are ended, the loop that plays a game raises no exception and keeps
    the chips. *)
From stdpp Require Import strings.
From S2P Require Import Prelude Py Json GameModels PlayerModels Evaluator GameHistory Game.
From S2P Require Import GameProps HandInvariant StartHand HandProps Showdown FletGame.
From S2P Require Import CliGames ShowdownProps Seating CliProps GameUi GameUiProps.
Import PokerGame FletGame.

(** ** Handled computations *)

Section Handled.
Context {S : Type}.

(** [tame I m]: the computation keeps [I], and raises only what [except Exception]
    catches. *)
Definition tame {A} (I : S → Prop) (m : M S A) : Prop := ∀ s, I s →
  I (m s).2 ∧ ∀ e, (m s).1 = Raise e → is_exception e = true.

Lemma tame_ret {A} I (a : A) : tame I (mret a).
Proof. by intros s Hs. Qed.
Lemma tame_get {A} I (f : S → M S A) : (∀ s0, tame I (f s0)) → tame I (get ≫= f).
Proof. intros H s. apply H. Qed.
Lemma tame_modify I f : (∀ s, I s → I (f s)) → tame I (modify f).
Proof. intros H s Hs. split; [by apply H|done]. Qed.
Lemma tame_lift {A} I (r : result A) :
  (∀ e, r = Raise e → is_exception e = true) → tame I (lift r).
Proof. intros H s Hs. split; [done|]. apply H. Qed.
Lemma tame_bind {A B} I (m : M S A) (f : A → M S B) :
  tame I m → (∀ a, tame I (f a)) → tame I (m ≫= f).
Proof.
  intros Hm Hf s Hs. unfold mbind, M_bind. destruct (Hm s Hs) as [H1 H2].
  destruct (m s) as [[a|e] s']; [by apply Hf|]. split; [done|]. intros e' [= <-]. by apply H2.
Qed.

Lemma safe_handled {A} F I (m h : M S A) :
  tame I m → safe F I h (λ _, I) → safe F I (try_except m is_exception h) (λ _, I).
Proof.
  intros Hm Hh s Hs. unfold try_except. destruct (Hm s Hs) as [H1 H2].
  destruct (m s) as [[a|e] s']; [done|]. rewrite (H2 e eq_refl). by apply Hh.
Qed.
End Handled.

(** ** The loops of a hand *)

(** *** The screen *)

(** A method of the screen that leaves the game alone *)
Lemma on_ui_keeps {A} (m : M GameUI.t A) s : (∀ x, stable (holds x) m) →
  game (on_ui m s).2 = game s ∧
  GameUI.final_overlay (game_ui (on_ui m s).2) = GameUI.final_overlay (game_ui s).
Proof.
  intros Hm. set (u := live_ui s).
  specialize (Hm (Some (game s), GameUI.final_overlay (game_ui s)) u eq_refl). unfold on_ui. fold u.
  destruct (m u) as [r u']. injection Hm as Hg Ho. cbn in *. by rewrite Hg.
Qed.

Lemma on_ui_run {A} (m : M GameUI.t A) s a u :
  m (live_ui s) = (Ok a, u) → GameUI.game u = Some (game s) →
  on_ui m s = (Ok a, s <| game_ui := u |>).
Proof. intros Hm Hu. unfold on_ui. rewrite Hm, Hu. by destruct s. Qed.

(** A game whose hands can be read is shown. *)
Lemma display_shown s : readable (game s) →
  ∃ u, on_ui GameUI.update_display s = (Ok tt, s <| game_ui := u |>) ∧
    GameUI.game u = Some (game s) ∧
    GameUI.display (GameUI.current_player_id u) (game s) = Ok (GameUI.shown u).
Proof.
  intros Hr. set (u0 := live_ui s).
  destruct (display_readable (GameUI.current_player_id u0) (game s) Hr) as [sc Hsc].
  exists (u0 <| GameUI.shown := sc |>). split; [|done].
  apply on_ui_run; [|done]. by apply (update_display_run (game s)).
Qed.

(** At the turn of a player at the table the screen and its buttons are updated. *)
Lemma screen_updated s : readable (game s) → seated (game s) →
  is_Some (players (game s) !! current_player_index (game s)) →
  ∃ u, update_screen s = (Ok tt, s <| game_ui := u |>).
Proof.
  intros Hr Hs Ht. destruct (display_shown s Hr) as (u & E & Eg & _).
  unfold update_screen. erewrite bind_run by exact E.
  destruct (buttons_total (game s) (u <| GameUI.game := Some (game s) |>) Hs)
    as (u' & E' & Eg' & _); [done|done|]. exists u'.
  exact (on_ui_run GameUI.update_action_buttons (s <| game_ui := u |>) tt u' E' Eg').
Qed.

(** The cards are not changed by a showdown. *)
Lemma showdown_cards g : cards_of (Showdown.conduct_showdown g).2 = cards_of g.
Proof.
  apply showdown_unpaid.
  - intros i p c h Hp. unfold cards_of. cbn. f_equal. rewrite list_fmap_insert.
    apply list_insert_id. by rewrite list_lookup_fmap, Hp.
  - intros h h' [Hp Hb _]. unfold cards_of. by rewrite Hp, Hb.
Qed.

(** *** What a person does *)

Notation never := (λ _ : FletGame.t, False).

(** A property of the game that any action keeps, accepted or not, is kept by whatever
    a person does at the screen. *)
Definition lasting (I : PokerGame.t → Prop) : Prop :=
  ∀ i action amount g, I g → I (process_player_action i action amount g).2.

Section Gestures.
Context (I : PokerGame.t → Prop) (Hlasting : lasting I).
Notation kept := (λ s : FletGame.t, I (game s)).

Lemma ui_keeps {A} (m : M GameUI.t A) s : (∀ x, stable (holds x) m) → kept s → kept (on_ui m s).2.
Proof. intros Hm Hs. cbv beta. by rewrite (proj1 (on_ui_keeps m s Hm)). Qed.

Lemma acted_keeps {A} (m : M GameUI.t A) i action amount s :
  holds (Some (process_player_action i action amount (game s)).2, GameUI.final_overlay (live_ui s))
    (m (live_ui s)).2 →
  kept s → kept (on_ui m s).2.
Proof.
  intros H Hs. unfold on_ui. destruct (m (live_ui s)) as [r u']. injection H as Hg _.
  cbn in *. rewrite Hg. by apply Hlasting.
Qed.

Lemma perform_safe x : safe never kept (perform x) (λ _, kept).
Proof.
  intros s Hs. unfold perform, handler. cbn [fst snd].
  destruct x as [[action amount|n| | |]|text| |]; try (by apply ui_keeps; [intros ?;
    unfold GameUI.show_raise_dialog, GameUI.on_phase_transition_confirmed,
      GameUI.on_showdown_continue_confirmed, GameUI.clear_showdown_results_inline,
      GameUI.close_raise_dialog; stable_parts|]).
  - eapply acted_keeps; [|exact Hs]. by apply handle_action_holds.
  - exact Hs.
  - destruct (confirm_raise_holds (game s) (live_ui s) eq_refl) as [[amount H]|H];
      [by eapply acted_keeps|].
    unfold on_ui. destruct (GameUI.confirm_raise _) as [r u']. injection H as Hg _. cbn in *.
    by rewrite Hg.
Qed.

Lemma wait_safe : safe never kept wait (λ _, kept).
Proof.
  unfold wait. apply safe_get. intros s0 Hs0.
  eapply safe_bind; [apply (safe_modify _ _ _ (λ _, kept)); by intros s ->|]. intros ?.
  apply safe_for_each. intros x _. apply perform_safe.
Qed.

Lemma flag_safe button flag reset :
  safe never kept (wait_for_flag button flag reset) (λ _, kept).
Proof.
  unfold wait_for_flag. apply safe_get. intros s0 Hs0.
  apply (safe_bind _ _ _ _ (λ _, kept)); [|intros _; by apply safe_modify].
  destruct (flag (game_ui s0)); [by apply safe_ret; intros s ->|].
  eapply safe_bind; [eapply safe_weaken; [apply wait_safe| |done]; by intros s ->|].
  intros ?. apply safe_get. intros s1 Hs1.
  destruct (flag (game_ui s1)); [by apply safe_ret; intros s ->|].
  eapply safe_weaken; [apply perform_safe| |done]. by intros s ->.
Qed.
End Gestures.

Section Loops.
Context (make_decision : nat → player → GameState.t → result decision).
Context (shuffle : nat → Deck.t → Deck.t) (n : Z) (st : seatings).

(** A model may raise what [except Exception] catches. *)
Hypothesis handled : ∀ k p gs e, make_decision k p gs = Raise e → is_exception e = true.
Hypothesis shuffles : ∀ k, shuffle k Deck.full ≡ₚ Deck.full.

Definition on_street (ph : GamePhase) (g : PokerGame.t) : Prop := in_play n st g ∧ current_phase g = ph.
Notation playing ph := (λ s, on_street ph (game s)).

Lemma street_lasts ph : lasting (on_street ph).
Proof.
  intros i action amount g [Hs Hp]. destruct (process_player_action _ _ _ _) as [b g'] eqn:E.
  split; [by eapply in_play_action|]. cbn. destruct b; [|by apply process_rejected in E as ->].
  apply process_player_action_pays in E as (? & ? & ? & _ & _ & _ & _ & _ & []). congruence.
Qed.

Lemma process_keeps ph i action amount s :
  playing ph s → playing ph (process i action amount s).2.
Proof.
  intros Hs. pose proof (street_lasts ph i action amount _ Hs) as H. unfold process.
  by destruct (process_player_action _ _ _ _).
Qed.

Lemma process_tame ph i action amount : tame (playing ph) (process i action amount).
Proof.
  intros s Hs. split; [by apply process_keeps|]. unfold process. by destruct (process_player_action _ _ _ _).
Qed.

Lemma process_safe ph i action amount :
  safe never (playing ph) (process i action amount) (λ _, playing ph).
Proof.
  intros s Hs. pose proof (process_keeps ph i action amount s Hs) as H. unfold process in *.
  by destruct (process_player_action _ _ _ _).
Qed.

Lemma advance_keeps ph s :
  playing ph s → playing ph (s <| game ::= advance_to_next_player |>).
Proof.
  intros [Hi Hp]. split; [by apply in_play_advance_player|]. cbn.
  destruct (advance_to_next_player_frame (game s)) as (i & b & ->). done.
Qed.

Lemma fold_safe ph i : safe never (playing ph)
  (try_except (_ ← process i (u "fold") 0; mret tt) (λ _, true)
     (modify (λ s, s <| game ::= advance_to_next_player |>))) (λ _, playing ph).
Proof.
  intros s Hs. pose proof (process_keeps ph i (u "fold") 0 s Hs) as H. unfold try_except, process in *.
  run_monad. by destruct (process_player_action _ _ _ _).
Qed.

Lemma display_safe ph : safe never (playing ph) (on_ui GameUI.update_display) (λ _, playing ph).
Proof.
  intros s [Hi Hp]. destruct (display_shown s) as (u & -> & _); [|done].
  by apply hand_ok_readable, Hi.
Qed.

(** A change of the screen raises at most that there is no player on turn. *)
Lemma screen_tame ph : tame (playing ph) update_screen.
Proof.
  intros s [Hi Hp]. pose proof (ip_ok _ _ _ Hi) as Hok.
  destruct (display_shown s) as (u & E & Eg & _); [by apply hand_ok_readable|].
  unfold update_screen. erewrite bind_run by exact E. set (s1 := s <| game_ui := u |>).
  split; [by apply (ui_keeps (on_street ph) _ s1); [auto with poker|]|].
  pose proof (buttons_end (game s1) (live_ui s1)
    (ok_seated _ Hok) eq_refl) as Hb. unfold on_ui.
  destruct (GameUI.update_action_buttons _) as [r u']. cbn in *.
  intros e ->. by destruct Hb as [?|[= ->]].
Qed.

(** The turn of a player that decides: whatever it decides or raises *)
Lemma ai_turn_safe ph p :
  safe never (λ s, playing ph s ∧ p ∈ players (game s) ∧ Player.status p = ACTIVE)
    (ai_turn make_decision p) (λ _, playing ph).
Proof.
  intros s (Hi & Hp & Ha).
  destruct (game_state_ok (game s) p) as [gs Egs]; [apply Hi|done|by rewrite Ha|].
  set (old := current_player_index (game s)).
  set (body := modify (λ s, s <| decisions ::= S |>) ;;
     d ← lift (make_decision (decisions s) p gs);
     success ← process (Player.id p) (d_action d) (d_amount d);
     update_screen ;;
     (if success : bool then mret tt
      else (_ ← process (Player.id p) (u "fold") 0; update_screen)) ;;
     s ← get;
     if (current_player_index (game s) =? old)%nat && negb (betting_round_complete (game s))
     then modify (λ s, s <| game ::= advance_to_next_player |>) ;; update_screen else mret tt).
  assert (tame (playing ph) body) as Hb.
  { apply tame_bind; [by apply tame_modify|]. intros _.
    apply tame_bind; [apply tame_lift; by eauto|]. intros d.
    apply tame_bind; [apply process_tame|]. intros b.
    apply tame_bind; [apply screen_tame|]. intros _. apply tame_bind.
    - destruct b; [apply tame_ret|]. apply tame_bind; [apply process_tame|]. intros ?.
      apply screen_tame.
    - intros _. apply tame_get. intros s0. destruct (_ && _); [|apply tame_ret].
      apply tame_bind; [apply tame_modify, advance_keeps|]. intros _. apply screen_tame. }
  pose proof (safe_handled never (playing ph) body _ Hb (fold_safe ph (Player.id p)) s Hi) as H.
  replace (ai_turn make_decision p s) with (try_except body is_exception
    (try_except (_ ← process (Player.id p) (u "fold") 0; mret tt) (λ _, true)
       (modify (λ s, s <| game ::= advance_to_next_player |>))) s); [exact H|].
  unfold ai_turn, try_except. run_monad. rewrite Egs. reflexivity.
Qed.

Lemma confirm_safe ph : safe never (playing ph) confirm_phase (λ _, playing ph).
Proof.
  unfold confirm_phase. apply safe_get. intros s0 Hs0.
  destruct (existsb _ _); [|by apply safe_ret; intros s ->].
  apply (safe_bind _ _ _ _ (λ _, playing ph)); [|intros _; apply flag_safe, street_lasts].
  intros s ->. exact Hs0.
Qed.

(** A street always ends, and leaves a hand in play. *)
Lemma flet_betting_safe ph k :
  safe never (playing ph) (betting_loop make_decision k) (λ _, playing ph).
Proof.
  induction k as [|k IH]; cbn [betting_loop]; apply safe_get; intros s0 [Hs Hph];
    (destruct (betting_round_complete (game s0)) eqn:C; [by apply safe_ret; intros s ->|]).
  { apply safe_ret. by intros s ->. }
  destruct (ip_turn _ _ _ Hs C) as [p Hp].
  eapply safe_bind; [apply (safe_lift _ _ _ (λ x s, x = p ∧ s = s0) p); [|done];
    by unfold nth_item; rewrite Hp|].
  intros q. apply (safe_bind _ _ _ _ (λ _, playing ph)); [|intros _; exact IH]. intros s [-> ->].
  unfold has_status. case_bool_decide as Ha; cbn [negb].
  - destruct (screen_updated s0) as [v E].
    + by apply hand_ok_readable, Hs.
    + by apply ok_seated, Hs.
    + by eexists.
    + erewrite bind_run by exact E. destruct (is_human p).
      * apply (wait_safe _ (street_lasts ph)). exact (conj Hs Hph).
      * apply ai_turn_safe. split; [exact (conj Hs Hph)|]. split; [|done].
        by eapply list_elem_of_lookup_2.
  - by apply (advance_keeps ph s0).
Qed.

Lemma advance_waits g : betting_round_complete g = false → advance_to_next_phase g = (Ok false, g).
Proof. intros H. unfold advance_to_next_phase. run_monad. by rewrite H. Qed.

Lemma flet_phases_safe phases ph :
  (phases_left ph ≤ phases)%nat →
  safe never (playing ph) (phase_loop make_decision phases) (λ _ s, in_play n st (game s)).
Proof.
  revert ph. induction phases as [|phases IH]; intros ph Hl; cbn [phase_loop];
    apply safe_get; intros s0 [Hs Hph];
    (destruct (betting_phase (game s0)) eqn:B; cbn [negb];
     [|by apply safe_ret; intros s ->]).
  { unfold betting_phase in B. rewrite Hph in B. destruct ph; simpl in Hl; done || lia. }
  eapply safe_bind; [eapply safe_weaken; [apply (flet_betting_safe ph)| |done]; by intros s ->|].
  intros ?. eapply safe_bind; [apply (confirm_safe ph)|]. intros ? s [Hi Hp].
  destruct (betting_round_complete (game s)) eqn:C.
  - assert (Games.betting_phase (game s) = true) as B'.
    { unfold betting_phase, Games.betting_phase in *. by rewrite Hp, <- Hph. }
    destruct (in_play_phase n st (game s) Hi C B') as (g' & E & Hi' & Hlt).
    set (s1 := s <| game := g' |>).
    assert (on_game advance_to_next_phase s = (Ok true, s1)) as Eg by (unfold on_game; by rewrite E).
    erewrite bind_run by exact Eg. rewrite Hp in Hlt.
    destruct (display_shown s1) as (v & Ev & _); [by apply hand_ok_readable, Hi'|].
    erewrite bind_run by exact Ev. apply (IH (current_phase g')); [lia|]. done.
  - assert (on_game advance_to_next_phase s = (Ok false, s)) as Eg.
    { unfold on_game. rewrite advance_waits by done. by destruct s. }
    erewrite bind_run by exact Eg. exact Hi.
Qed.

(** A hand that is given up: its pot is lost, and the players are as between hands. *)
Lemma in_play_rest g : in_play n st g → at_rest n st g.
Proof.
  intros [Hok Hc _ Hl Hse]. split; [split| |done].
  - apply Hok.
  - eapply Forall_impl; [apply Hok|]. by intros p [[]].
  - done.
  - unfold total_chips in Hc. pose proof (awarded_range g Hok). lia.
Qed.

(** Between hands, with a table that can be shown *)
Definition resting (s : FletGame.t) : Prop := at_rest n st (game s) ∧ readable (game s).

Lemma in_play_resting s : in_play n st (game s) → resting s.
Proof. intros Hi. split; [by apply in_play_rest|]. by apply hand_ok_readable, Hi. Qed.

(** A hand that starts with players to play it *)
Lemma hand_starts g k : at_rest n st g → is_game_over g = false →
  ∃ g', start_new_hand (shuffle k) g = (Ok tt, g') ∧ current_phase g' = PREFLOP ∧ in_play n st g'.
Proof.
  intros [Hr Hc Hse] Ho. assert (2 ≤ with_chips g)%nat as L.
  { unfold is_game_over in Ho. apply Nat.leb_gt in Ho. exact Ho. }
  destruct (start_new_hand_ok (shuffle k) g Hr (shuffles k) L) as (g' & E & H).
  exists g'. split; [done|]. destruct H. split; [done|].
  split; [done|lia|done|rewrite hs_size; apply Hr|].
  by rewrite <- Hse, <- (keeps_start_new_hand (shuffle k) g), E.
Qed.

(** A showdown on the screen *)
Lemma showdown_shown s : in_play n st (game s) → current_phase (game s) = SHOWDOWN →
  ∃ r s1 s2 s3, on_game Showdown.conduct_showdown s = (Ok r, s1) ∧
    on_ui GameUI.update_display s1 = (Ok tt, s2) ∧
    on_ui (GameUI.show_showdown_results_inline r) s2 = (Ok tt, s3) ∧ resting s3.
Proof.
  intros Hi Hp. destruct (in_play_showdown n st (game s) Hi Hp) as (r & g' & E & Hr).
  set (s1 := s <| game := g' |>).
  assert (readable g') as Hd.
  { apply (readable_same (game s)); [|by apply hand_ok_readable, Hi].
    change g' with (Ok r, g').2. rewrite <- E. apply showdown_cards. }
  destruct (display_shown s1 Hd) as (v & Ev & Eg & _). set (s2 := s1 <| game_ui := v |>).
  destruct (showdown_rows_total (Some g') r) as [rows Erows].
  set (w := live_ui s2 <| GameUI.showdown_overlay := Some rows |>).
  exists r, s1, s2, (s2 <| game_ui := w |>). split_and!; [unfold on_game; by rewrite E|exact Ev| |done].
  apply on_ui_run; [|done]. unfold GameUI.show_showdown_results_inline. step.
  change (GameUI.game (live_ui s2)) with (Some g'). by rewrite Erows.
Qed.

(** An action that is accepted between hands costs its player no more than is there. *)
Lemma rest_lasts : lasting (λ g, at_rest n st g ∧ readable g).
Proof.
  intros i action amount g [[[Hs Hc Hl] Hn Hse] Hr].
  pose proof (keeps_process i action amount g) as Hk.
  destruct (process_player_action i action amount g) as [b g'] eqn:E. cbn [snd] in *.
  destruct b; [|by apply process_rejected in E as ->].
  apply process_player_action_pays in E as (k & p & q & _ & _ & [Hp Hpl _ Hch _ _ Hid Hh Hr'] & _ & _ & [_ Hb _ _]).
  pose proof (Hr' (proj1 (Forall_lookup _ _) Hc k p Hp)) as Hpaid.
  split; [split; [split|..]|].
  - intros j r. rewrite Hpl. destruct (decide (j = k)) as [->|Hj].
    + rewrite list_lookup_insert_eq by (by eapply lookup_lt_Some). intros [= <-]. rewrite Hid. by apply Hs.
    + rewrite list_lookup_insert_ne by done. apply Hs.
  - rewrite Hpl. apply Forall_insert; [done|]. lia.
  - by rewrite Hpl, length_insert.
  - unfold chips_of in *. rewrite Hpl, (sum_by_insert _ _ _ p) by done. lia.
  - congruence.
  - apply (readable_same g); [|done]. unfold cards_of. rewrite Hpl, list_fmap_insert, Hh, Hb.
    f_equal. apply list_insert_id. by rewrite list_lookup_fmap, Hp.
Qed.

(** Where the loop ends, and what it leaves *)
Definition ended (how : ending) (s : FletGame.t) : Prop :=
  resting s ∧ (how = Over → is_game_over (game s) = true).

Lemma hands_safe answers :
  safe never resting (hands_loop make_decision shuffle answers) ended.
Proof.
  induction answers as [|go_on answers IH]; cbn [hands_loop]; apply safe_get; intros s0 Hs0;
    (destruct (is_game_over (game s0)) eqn:Ho; [by apply safe_ret; intros s ->|]).
  all: destruct (hand_starts (game s0) (S (hand_number (game s0))) (proj1 Hs0) Ho) as (g' & E & Hp & Hi).
  all: intros s ->; set (s1 := s0 <| game := g' |>).
  all: assert (on_game (start_new_hand (shuffle (S (hand_number (game s0))))) s0 = (Ok tt, s1)) as E1
      by (unfold on_game; by rewrite E).
  all: erewrite bind_run by exact E1; step; change (game s1) with g'; rewrite bool_decide_false by congruence.
  all: destruct (display_shown s1) as (v & Ev & _); [by apply hand_ok_readable, Hi|].
  all: erewrite bind_run by exact Ev.
  all: pose proof (flet_phases_safe 5 PREFLOP ltac:(simpl; lia) (s1 <| game_ui := v |>) (conj Hi Hp)) as HP.
  all: unfold mbind at 1, M_bind at 1; destruct (phase_loop make_decision 5 _) as [[[]|e] s2]; [|by destruct e].
  all: step; case_bool_decide as Hw.
  1,3: destruct (showdown_shown s2 HP Hw) as (r & s3 & s4 & s5 & E3 & E4 & E5 & H5);
    erewrite bind_run by exact E3; erewrite bind_run by exact E4; erewrite bind_run by exact E5.
  - done.
  - pose proof (flag_safe _ rest_lasts GameUI.ConfirmShowdown GameUI.showdown_continue_confirmed
      (λ u, u <| GameUI.showdown_continue_confirmed := false |>) s5 H5) as HF.
    unfold mbind at 1, M_bind at 1. destruct (wait_for_flag _ _ _ s5) as [[[]|e] s6]; [|by destruct e].
    step. destruct (is_game_over (game s6)) eqn:Ho6; [done|]. by apply IH.
  - split; [by apply in_play_resting|done].
  - destruct go_on; [|split; [by apply in_play_resting|done]]. by apply IH, in_play_resting.
Qed.

(** The end of a game on the screen *)
Lemma final_shown s : readable (game s) → ∃ u, final_screen s = (Ok tt, s <| game_ui := u |>) ∧
  (is_game_over (game s) = true →
   GameUI.final_overlay u = Some (GameUI.final_rows (Some (game s)))).
Proof.
  intros Hr. unfold final_screen, try_except. step.
  destruct (is_game_over (game s)); [|exists (game_ui s); by destruct s].
  destruct (display_shown s Hr) as (v & Ev & Eg & _). erewrite bind_run by exact Ev.
  set (s1 := s <| game_ui := v |>).
  set (w := live_ui s1 <| GameUI.final_overlay := Some (GameUI.final_rows (Some (game s))) |>).
  exists w. split; [|done].
  assert (on_ui GameUI.show_final_results s1 = (Ok tt, s1 <| game_ui := w |>)) as E by (by apply on_ui_run).
  by rewrite E.
Qed.

Lemma game_loop_safe answers s : resting s →
  ∃ how s', game_loop make_decision shuffle answers s = (Ok how, s') ∧ resting s' ∧
    (how = Over → is_game_over (game s') = true) ∧
    (how ≠ Waiting → is_game_over (game s') = true →
     GameUI.final_overlay (game_ui s') = Some (GameUI.final_rows (Some (game s')))).
Proof.
  intros Hs. pose proof (hands_safe answers s Hs) as H. unfold game_loop.
  unfold mbind at 1, M_bind at 1.
  destruct (hands_loop make_decision shuffle answers s) as [[how|e] s1]; [|by destruct e].
  destruct H as [H1 Ho]. destruct (final_shown s1 (proj2 H1)) as (v & E & Hv).
  assert (how = Waiting ∨ how ≠ Waiting) as [->|Hn] by (destruct how; auto).
  - exists Waiting, s1. split; [reflexivity|]. by split; [exact H1|].
  - exists how, (s1 <| game_ui := v |>).
    assert ((match how with Waiting => mret tt | _ => final_screen end : M t ()) s1
      = (Ok tt, s1 <| game_ui := v |>)) as E' by (by destruct how).
    erewrite bind_run by exact E'. split; [reflexivity|]. split; [exact H1|].
    split; [exact Ho|]. intros _ Hg. by apply Hv.
Qed.
End Loops.

(** ** The start of a game *)

(** A configuration of one of the four types of players *)
Definition known_type (cfg : config) : Prop :=
  cfg_type cfg ∈ [Some (u "human"); Some (u "random"); Some (u "llm"); Some (u "llm_api")].

Lemma add_configs k configs g :
  Forall known_type configs → (length (players g) + length configs ≤ 10)%nat →
  ∃ l, add_players_of_configs k configs g = (Ok tt, g <| players := players g ++ l |>) ∧
    length l = length configs ∧
    (∀ i p, l !! i = Some p → Player.id p = (k + i)%nat ∧ Player.chips p = initial_chips g) ∧
    ∀ cfg, head configs = Some cfg → cfg_type cfg = Some (u "human") →
      ∃ p, head l = Some p ∧ is_human p = true.
Proof.
  intros HF. revert k g. induction HF as [|cfg configs Hc HF IH]; intros k g L.
  { exists []. split_and!; [|done|done|done]. cbn. rewrite (right_id_L [] (++)). by destruct g. }
  cbn [length] in L.
  assert (∃ p, Player.id p = k ∧ Player.chips p = initial_chips g ∧
    (cfg_type cfg = Some (u "human") → is_human p = true) ∧
    add_players_of_configs k (cfg :: configs) g
    = (add_player p ;; add_players_of_configs (S k) configs) g) as (p & Hk & Hch & Hh & E).
  { cbn [add_players_of_configs]. unfold known_type in Hc.
    repeat (apply elem_of_cons in Hc as [Hc|Hc]; [rewrite Hc|]); [..|by apply elem_of_nil in Hc].
    all: rewrite ?(bool_decide_eq_false_2 (Some _ = Some _)) by str_ne.
    all: rewrite bool_decide_eq_true_2 by done.
    all: eexists; split_and!; [| | |reflexivity]; [done|done|].
    all: first [done|by intros H; exfalso; revert H; str_ne]. }
  rewrite E. unfold add_player. run_monad. rewrite (proj2 (Nat.leb_gt 10 _)) by lia.
  set (g1 := g <| players := _ |>).
  destruct (IH (S k) g1) as (l & -> & Hl & Hat & _); [unfold g1; cbn; rewrite length_app; cbn; lia|].
  exists (p :: l). split_and!.
  - unfold g1. cbn. by rewrite <- (assoc_L (++)).
  - cbn. by rewrite Hl.
  - intros [|i] q Hq; [injection Hq as <-; split; [lia|done]|].
    destruct (Hat i q Hq) as [-> ->]. split; [lia|done].
  - intros c [= <-] Hc'. by exists p; split; [|apply Hh].
Qed.

(** Every new table is as between hands. *)
Lemma new_table_rest g (l : list player) :
  (length l ≤ 10)%nat → players g = l →
  (∀ i p, l !! i = Some p → Player.id p = i ∧ Player.chips p = 2000) →
  at_rest (2000 * Z.of_nat (length l)) (seating g) g.
Proof.
  intros L <- Hat. split; [split| |done].
  - intros i p Hp. by apply Hat.
  - apply Forall_lookup. intros i p Hp. by destruct (Hat i p Hp) as [_ ->].
  - exact L.
  - unfold chips_of. rewrite (sum_by_ext _ (λ _, 2000)); [by rewrite sum_by_const|].
    intros p [i Hp]%list_elem_of_lookup. by apply (Hat i).
Qed.

Lemma start_game_rest shuffle randint configs s :
  Forall known_type configs → (2 ≤ length configs ≤ 10)%nat →
  ∃ s', start_game shuffle randint configs s = (Ok tt, s') ∧
    length (players (game s')) = length configs ∧
    resting (2000 * Z.of_nat (length configs)) (seating (game s')) s' ∧
    game_ui s' = GameUI.set_game (game s') (current_player_id s') (game_ui s) ∧ page s' = page s ∧
    ∀ cfg, head configs = Some cfg → cfg_type cfg = Some (u "human") → current_player_id s' = 0%nat.
Proof.
  intros HF L. unfold start_game, setup_configurable_game_with_models.
  rewrite !(proj2 (Nat.leb_le _ _)) by lia. cbn [andb negb].
  unfold on_game. run_monad. set (g0 := PokerGame.new (shuffle 0%nat) 10 20 2000 <| players := [] |>).
  destruct (add_configs 0 configs g0 HF) as (l & E & Hl & Hat & Hh); [cbn; lia|].
  change (game (s <| game := ?x |>)) with x.
  unfold put. fold g0. rewrite E. cbn [fst snd]. set (g1 := g0 <| players := players g0 ++ l |>).
  set (g2 := g1 <| dealer_button := _ |>).
  assert (at_rest (2000 * Z.of_nat (length l)) (seating g2) g2) as Hr.
  { apply new_table_rest; [lia|done|]. intros i p Hp. by apply Hat. }
  rewrite Hl in Hr.
  assert (readable g2) as Hd by (intros ? _ _ L3; cbn in L3; lia).
  eexists. split; [reflexivity|]. cbn.
  split; [by destruct (find is_human _)|]. split; [by destruct (find is_human _)|].
  split; [by destruct (find is_human _)|]. split; [by destruct (find is_human _)|].
  intros cfg Hc Hcfg. destruct (Hh cfg Hc Hcfg) as (p & Hp & Hip).
  destruct l as [|q l]; [done|]. injection Hp as ->. cbn. rewrite Hip. cbn.
  by destruct (Hat 0%nat p eq_refl) as [-> _].
Qed.

(** The callback of the page of settings lays out the table, and starts the game. *)
Lemma on_game_start_rest shuffle randint configs s :
  Forall known_type configs → (2 ≤ length configs ≤ 10)%nat →
  ∃ s', on_game_start shuffle randint configs s = (Ok tt, s') ∧
    length (players (game s')) = length configs ∧
    resting (2000 * Z.of_nat (length configs)) (seating (game s')) s' ∧
    game_ui s' = GameUI.set_game (game s') (current_player_id s') (game_ui s) ∧ page s' = Table ∧
    ∀ cfg, head configs = Some cfg → cfg_type cfg = Some (u "human") → current_player_id s' = 0%nat.
Proof.
  exact (start_game_rest shuffle randint configs
    (s <| player_configs := configs |> <| game_started := true |> <| page := Table |>)).
Qed.

(** What is on the screen when the thread of a game has ended *)
Definition results_shown (how : ending) (s : FletGame.t) : Prop :=
  (how = Over → is_game_over (game s) = true) ∧
  (how ≠ Waiting → is_game_over (game s) = true →
   GameUI.final_overlay (game_ui s) = Some (GameUI.final_rows (Some (game s)))).

(** The loop of a game from a table between hands *)
Lemma game_loop_plays make_decision shuffle n st answers s1 :
  (∀ k p gs e, make_decision k p gs = Raise e → is_exception e = true) →
  (∀ k, shuffle k Deck.full ≡ₚ Deck.full) →
  resting n st s1 →
  ∃ how s2, game_loop make_decision shuffle answers s1 = (Ok how, s2) ∧
    length (players (game s2)) = length (players (game s1)) ∧
    Forall (λ p, 0 ≤ Player.chips p) (players (game s2)) ∧ chips_of (game s2) ≤ n ∧
    results_shown how s2.
Proof.
  intros Hd Hs Hr.
  destruct (game_loop_safe make_decision shuffle n st Hd Hs answers s1 Hr)
    as (how & s2 & E & [H _] & Hres).
  exists how, s2. split; [exact E|]. split; [|by split_and!; [apply H|apply H|..]].
  pose proof (ar_seats _ _ _ H) as Es. rewrite <- (ar_seats _ _ _ (proj1 Hr)) in Es.
  apply (f_equal (λ x, length x.1)) in Es. cbn in Es. by rewrite !length_fmap in Es.
Qed.

(** C11: whatever the players of a game of the interface are, whatever the models
    decide or raise, whatever a person clicks and types and however often while the loop
    waits, and however the hands are ended, the thread that plays the game and updates
    the screen raises no exception.  No stack is ever negative, and there are never more
    chips than the players were given.  A game that is over ends with the final ranking
    on the screen. *)
Theorem flet_game_safe make_decision shuffle randint configs s answers :
  (∀ k p gs e, make_decision k p gs = Raise e → is_exception e = true) →
  (∀ k, shuffle k Deck.full ≡ₚ Deck.full) →
  Forall known_type configs → (2 ≤ length configs ≤ 10)%nat →
  ∃ s1 how s2, on_game_start shuffle randint configs s = (Ok tt, s1) ∧
    game_loop make_decision shuffle answers s1 = (Ok how, s2) ∧
    length (players (game s2)) = length configs ∧
    Forall (λ p, 0 ≤ Player.chips p) (players (game s2)) ∧
    chips_of (game s2) ≤ 2000 * Z.of_nat (length configs) ∧
    results_shown how s2.
Proof.
  intros Hd Hs HF L.
  destruct (on_game_start_rest shuffle randint configs s HF L) as (s1 & E1 & <- & Hr & _).
  destruct (game_loop_plays make_decision shuffle _ _ answers s1 Hd Hs Hr) as (how & s2 & H).
  by exists s1, how, s2.
Qed.

(** ** The results of the game before *)

(** Computations that leave the overlay with the final results alone *)
Definition overlaid (o : option (list (list GameUI.widget + GameUI.button))) (s : FletGame.t) : Prop :=
  GameUI.final_overlay (game_ui s) = o.

Section Overlay.
Context (o : option (list (list GameUI.widget + GameUI.button))).
Notation kept := (stable (overlaid o)).

#[local] Hint Extern 1 (kept (modify _)) => by apply stable_modify : poker.

Lemma overlay_ui {A} (m : M GameUI.t A) : (∀ x, stable (holds x) m) → kept (on_ui m).
Proof. intros Hm s Hs. unfold overlaid. by rewrite (proj2 (on_ui_keeps m s Hm)). Qed.
Lemma overlay_game {A} (m : M PokerGame.t A) : kept (on_game m).
Proof. intros s Hs. unfold on_game. by destruct (m (game s)). Qed.
Lemma overlay_process i action amount : kept (process i action amount).
Proof. intros s Hs. unfold process. by destruct (process_player_action _ _ _ _). Qed.
#[local] Hint Resolve overlay_game overlay_process : poker.
#[local] Hint Extern 2 (kept (on_ui _)) => apply overlay_ui; intros ?; auto with poker : poker.

Lemma overlay_acted {A} (m : M GameUI.t A) :
  (∀ s, ∃ g, holds (g, GameUI.final_overlay (live_ui s)) (m (live_ui s)).2) → kept (on_ui m).
Proof.
  intros H s Hs. destruct (H s) as [g Hg]. unfold on_ui.
  destruct (m (live_ui s)) as [r u']. injection Hg as _ Ho. unfold overlaid in *. cbn in *. congruence.
Qed.

Lemma overlay_perform x : kept (perform x).
Proof.
  intros s Hs. unfold perform, handler. cbn [snd].
  destruct x as [[action amount|n| | |]|text| |]; revert s Hs;
    try (by apply overlay_ui; intros ?;
    unfold GameUI.show_raise_dialog, GameUI.on_phase_transition_confirmed,
      GameUI.on_showdown_continue_confirmed, GameUI.clear_showdown_results_inline,
      GameUI.close_raise_dialog; stable_parts).
  - apply overlay_acted. intros s. eexists. by apply (handle_action_holds (game s)).
  - unfold on_back_to_setup, build_layout. stable_parts.
  - apply overlay_acted. intros s.
    destruct (confirm_raise_holds (game s) (live_ui s) eq_refl) as [[amount H]|H]; by eexists.
Qed.
#[local] Hint Resolve overlay_perform : poker.

Lemma overlay_wait : kept wait.
Proof. unfold wait. stable_parts. Qed.
#[local] Hint Resolve overlay_wait : poker.

Lemma overlay_try {A} (m h : M FletGame.t A) e : kept m → kept h → kept (try_except m e h).
Proof.
  intros Hm Hh s Hs. unfold try_except. specialize (Hm s Hs).
  destruct (m s) as [[a|x] s']; [done|]. destruct (e x); [by apply Hh|done].
Qed.

Lemma overlay_ai make_decision p : kept (ai_turn make_decision p).
Proof.
  unfold ai_turn, update_screen. apply overlay_try; [stable_parts|]. apply overlay_try; stable_parts.
Qed.
#[local] Hint Resolve overlay_ai : poker.

Lemma overlay_betting make_decision k : kept (betting_loop make_decision k).
Proof. induction k as [|k IH]; cbn [betting_loop]; unfold update_screen; stable_parts. Qed.
#[local] Hint Resolve overlay_betting : poker.

Lemma overlay_flag button flag (reset : GameUI.t → GameUI.t) :
  (∀ v, GameUI.final_overlay (reset v) = GameUI.final_overlay v) → kept (wait_for_flag button flag reset).
Proof.
  intros H. unfold wait_for_flag. apply stable_bind; [stable_parts|]. intros s0.
  apply stable_bind; [stable_parts|]. intros _. apply stable_modify. intros s Hs.
  unfold overlaid in *. cbn. by rewrite H.
Qed.

Lemma overlay_confirm : kept confirm_phase.
Proof.
  unfold confirm_phase. apply stable_bind; [stable_parts|]. intros s0.
  destruct (existsb _ _); [|stable_parts]. apply stable_bind; [|intros _; by apply overlay_flag].
  apply overlay_ui. intros ?. unfold GameUI.show_phase_transition_confirmation. stable_parts.
Qed.
#[local] Hint Resolve overlay_confirm : poker.

Lemma overlay_phases make_decision k : kept (phase_loop make_decision k).
Proof. induction k as [|k IH]; cbn [phase_loop]; stable_parts. Qed.
#[local] Hint Resolve overlay_phases : poker.

Lemma overlay_hands make_decision shuffle answers : kept (hands_loop make_decision shuffle answers).
Proof.
  induction answers as [|go_on answers IH]; cbn [hands_loop]; stable_parts.
Qed.
End Overlay.

(** C12: nothing takes the results of a game off the screen: when another game is started
    they cover its table, whatever is played and clicked, until its own results are
    shown. *)
Theorem old_results_stay make_decision shuffle randint configs answers s rows :
  GameUI.final_overlay (game_ui s) = Some rows →
  Forall known_type configs → (2 ≤ length configs ≤ 10)%nat →
  let s1 := (on_game_start shuffle randint configs s).2 in
  page s1 = Table ∧ GameUI.game (game_ui s1) = Some (game s1) ∧
  GameUI.final_overlay (game_ui s1) = Some rows ∧
  let s2 := (hands_loop make_decision shuffle answers s1).2 in
  GameUI.final_overlay (game_ui s2) = Some rows.
Proof.
  intros Ho HF L s1.
  destruct (on_game_start_rest shuffle randint configs s HF L) as (s1' & E & _ & _ & Eu & Ep & _).
  assert (s1 = s1') as -> by (unfold s1; by rewrite E).
  assert (GameUI.final_overlay (game_ui s1') = Some rows) as Ho1 by by rewrite Eu.
  split; [exact Ep|]. split; [by rewrite Eu|]. split; [exact Ho1|]. by apply overlay_hands.
Qed.

(** ** A game *)

(** A person and two programs, one of which fails at every turn *)
Definition three_players : list config :=
  [ Config (Some (u "human")) None None None; Config (Some (u "random")) None None None;
    Config (Some (u "llm")) None None None ].

(** The program that answers always calls. *)
Definition one_fails (k : nat) (p : player) (gs : GameState.t) : result decision :=
  if bool_decide (Player.kind p = RandomPlayer) then Ok (Decision (u "call") 0) else Raise ValueError.
Arguments one_fails : simpl never.

(** The person clicks twice at the first turn, and once at the second, after the wait for
    the confirmation that the street is over. *)
Definition handle (action : string) : gesture := Clicked (GameUI.Handle (u action) 0).
Definition seat_down (gestures : list (list gesture)) : FletGame.t :=
  FletGame (PokerGame.new id 10 20 2000) 0 false [] Settings GameUI.initialize gestures 0.
Definition clicking : FletGame.t := seat_down [[handle "call"; handle "fold"]; []; [handle "all_in"]].

Lemma flet_game_safe_witness :
  ∃ s1 how s2, on_game_start (λ _, reverse) (λ _, 1%nat) three_players clicking = (Ok tt, s1) ∧
    game_loop one_fails (λ _, reverse) [true; false] s1 = (Ok how, s2) ∧
    length (players (game s2)) = 3%nat ∧
    Forall (λ p, 0 ≤ Player.chips p) (players (game s2)) ∧
    chips_of (game s2) ≤ 2000 * 3 ∧ results_shown how s2.
Proof.
  apply (flet_game_safe one_fails (λ _, reverse) (λ _, 1%nat) three_players clicking [true; false]).
  - intros k p gs e. unfold one_fails. destruct (bool_decide _); [done|]. by intros [= <-].
  - intros _. apply reverse_Permutation.
  - repeat constructor; apply bool_decide_eq_true_1; vm_compute; done.
  - vm_compute. lia.
Defined.

(** The person loses everything at once to a flush; two hands later the program that
    fails has folded its blinds away. *)
Example three_hands :
  let s1 := (start_game (λ _, reverse) (λ _, 1%nat) three_players clicking).2 in
  let '(how, s2) := game_loop one_fails (λ _, reverse) [true; false] s1 in
  how = Ok Waiting ∧ hand_number (game s2) = 3%nat ∧
  Player.chips <$> players (game s2) = [0; 4030; 1970].
Proof. vm_compute. done. Qed.

(** A person who never clicks: the hand is given up after a hundred waits, and the
    thirty chips of its pot are in no stack when the next one starts. *)
Example never_clicking :
  let s1 := (start_game (λ _, reverse) (λ _, 1%nat) three_players
               (seat_down [])).2 in
  let '(how, s2) := game_loop one_fails (λ _, reverse) [true; false] s1 in
  how = Ok Left ∧ hand_number (game s2) = 2%nat ∧
  total_chips (game s2) = 5970.
Proof. vm_compute. done. Qed.

(** The button at the end of a street clicked twice: the second click comes when the next
    street is played, and the confirmation at its end is not waited for, but its button
    stands where the person, whose turn it is, should find the actions. *)
Definition street : M FletGame.t bool :=
  betting_loop one_fails 100 ;; confirm_phase ;; on_game advance_to_next_phase.

Example second_click_hides_actions :
  let s := (start_game (λ _, reverse) (λ _, 1%nat) three_players ;;
            on_game (start_new_hand reverse) ;;
            _ ← street; _ ← street; update_screen)
    (seat_down [[handle "call"]; []; [Clicked GameUI.ConfirmPhase; handle "check"]]) in
  s.1 = Ok tt ∧ current_phase (game s.2) = TURN ∧
  current_player_index (game s.2) = current_player_id s.2 ∧
  betting_round_complete (game s.2) = false ∧
  get_available_actions (current_player_id s.2) (game s.2)
  = [u "fold"; u "check"; u "raise (min 20)"; u "all-in (1980)"] ∧
  GameUI.action_buttons (game_ui s.2) = [GameUI.Button (u "ターンに進む") GameUI.ConfirmPhase].
Proof. vm_compute. done. Qed.

(** A game that starts while the results of another are shown *)
Definition earlier_results : list (list GameUI.widget + GameUI.button) :=
  GameUI.final_rows (Some (PokerGame.new id 10 20 2000)).
Definition after_a_game : FletGame.t :=
  seat_down [] <| game_ui := GameUI.initialize <| GameUI.final_overlay := Some earlier_results |> |>.

Lemma old_results_stay_witness :
  let s1 := (on_game_start (λ _, reverse) (λ _, 1%nat) three_players after_a_game).2 in
  page s1 = Table ∧ GameUI.game (game_ui s1) = Some (game s1) ∧
  GameUI.final_overlay (game_ui s1) = Some earlier_results ∧
  let s2 := (hands_loop one_fails (λ _, reverse) [true; false] s1).2 in
  GameUI.final_overlay (game_ui s2) = Some earlier_results.
Proof.
  apply (old_results_stay one_fails (λ _, reverse) (λ _, 1%nat) three_players [true; false] after_a_game).
  - reflexivity.
  - repeat constructor; apply bool_decide_eq_true_1; vm_compute; done.
  - vm_compute. lia.
Defined.
