(* ===== verification/SetupProps.v ===== *)
(** * From the page of settings to the game

    Whatever the agent server answers and whatever is chosen on the page, the
    configuration it hands over is one that a game is played with: the invariant of the
    page, and the game of [FletProps.v] on top of it.  Then the cards of the agents: a
    test shows on the card of its agent, until the list is fetched again. *)
From stdpp Require Import strings.
From S2P Require Import Prelude Py Json GameModels PlayerModels Game GameProps HandInvariant.
From S2P Require Import FletGame AgentManager SetupUi CliProps FletProps.
Import FletGame AgentManager SetupUI.

(** ** The events of the page *)

(** What is done on the page: a choice, a test of one agent or of all, or another look
    at the server *)
Inductive event :=
  | ChangePlayers (value : pystr)
  | ChangeType (i : nat) (type : pystr)
  | ChooseAgent (i : nat) (key : json)
  | Test (net : network) (agent_id : json)
  | TestAll (net : nat → network)
  | Refresh (response : answer).

Section Page.
Context (path_exists : json → bool) (hash : N).

Definition on_event (e : event) : M SetupUI.t () :=
  match e with
  | ChangePlayers value => on_total_players_changed value
  | ChangeType i type => on_player_type_changed i type
  | ChooseAgent i key => choose_agent i key
  | Test net agent_id => on_manager (test_agent_connection path_exists hash net agent_id)
  | TestAll net => on_manager (test_all_agents path_exists hash net)
  | Refresh response => refresh_agents hash response
  end.

Definition is_text (v : json) : bool := match v with JStr _ => true | _ => false end.

(** The server answers with agents whose ids are texts, or the request fails with what
    [except Exception] catches. *)
Definition lists_texts (response : answer) : Prop := ∀ url,
  match agents_of_answer url response with
  | Ok agents => Forall (λ a, is_text (id a) = true) agents
  | Raise e => is_exception e = true
  end.

(** What the page lets one do: the types on offer for one of the nine players, and
    among the agents on offer where there is a choice to see *)
Definition allowed (s : SetupUI.t) (e : event) : Prop :=
  match e with
  | ChangeType i type => type ∈ [u "random"; u "llm_api"]
  | ChooseAgent i key => ∃ d, agent_dropdowns s !! i = Some d ∧ visible d = true ∧
      disabled d = false ∧ key ∈ (options d).*1
  | Refresh response => lists_texts response
  | _ => True
  end.

(** The pages that can be seen *)
Inductive page : SetupUI.t → Prop :=
  | page_opened url response r s :
      lists_texts response → initialize hash response (SetupUI.new url) = (r, s) → page s
  | page_event s e r s' :
      page s → allowed s e → on_event e s = (r, s') → page s'.

(** ** The invariant *)

(** An agent of the list of the server, or the word for none at all *)
Definition listed (agents : list agent) (key : json) : Prop :=
  key ∈ id <$> agents ∨ agents = [] ∧ key = JStr (u "not_found").

(** The choice of an agent has one of its options as its value. *)
Definition offers (agents : list agent) (d : dropdown) : Prop :=
  Forall (listed agents) (options d).*1 ∧ ∃ key, value d = Some key ∧ key ∈ (options d).*1.

Definition choice_ok (agents : list agent) (type : pystr) (d : dropdown) : Prop :=
  (type = u "random" ∧ visible d = false) ∨
  (type = u "llm_api" ∧ visible d = true ∧ offers agents d).

Record manager_ok (am : AgentManager.t) : Prop := ManagerOk {
  mo_agents : Forall (λ a, is_text (id a) = true) (dynamic_agents am);
  mo_cards : Forall (λ c, is_text (card_id c) = true) (agent_cards am) }.

Record page_ok (s : SetupUI.t) : Prop := PageOk {
  po_players : 2 ≤ total_players s ≤ 10;
  po_manager : manager_ok (agent_manager s);
  po_nine : length (cpu_types s) = 9%nat;
  po_choices : Forall2 (choice_ok (dynamic_agents (agent_manager s))) (cpu_types s)
                 (agent_dropdowns s) }.

Notation never := (λ _, False).

(** What raises nothing needs no handler. *)
Lemma never_handled {S A} (P : S → Prop) (m h : M S A) Q :
  safe never P m Q → safe never P (try_except m is_exception h) Q.
Proof.
  intros Hm s Hs. specialize (Hm s Hs). unfold try_except.
  destruct (m s) as [[a|e] s']; [done|]. by destruct e.
Qed.

(** *** The manager of the agents *)

Notation listing l := (λ am, manager_ok am ∧ dynamic_agents am = l).

Lemma user_id_safe l : safe never (listing l) (get_browser_user_id hash) (λ _, listing l).
Proof.
  unfold get_browser_user_id. apply safe_get. intros s0 H0.
  destruct (browser_user_id s0); [by apply safe_ret; intros s ->|].
  eapply safe_bind; [apply (safe_modify _ _ _ (λ _, listing l)); intros s ->; by destruct H0 as [[]]|].
  intros []. by apply safe_ret.
Qed.

Lemma add_cards_safe l agents :
  Forall (λ a, is_text (id a) = true) agents →
  safe never (listing l) (add_cards hash agents) (λ _, listing l).
Proof.
  induction 1 as [|a agents Ha _ IH]; [by apply safe_ret|]. cbn [add_cards].
  eapply safe_bind; [apply user_id_safe|]. intros ?.
  apply (safe_bind _ _ _ _ (λ _, listing l)); [|intros []; exact IH]. apply safe_modify. intros s [[HA HC] Hl].
  split; [split; [done|]|done]. cbn. apply Forall_app. by split; [|constructor].
Qed.

Lemma populate_safe l agents :
  Forall (λ a, is_text (id a) = true) agents →
  safe never (listing l) (populate_agent_cards hash agents) (λ _, listing l).
Proof.
  intros HF. apply (safe_bind _ _ _ _ (λ _, listing l)); [|intros []; by apply add_cards_safe].
  apply safe_modify. by intros s [[]].
Qed.

Lemma fetch_safe response (P : AgentManager.t → Prop) :
  lists_texts response → (∀ s, P s → manager_ok s) →
  safe never P (fetch_agents_from_server response) (λ _, manager_ok).
Proof.
  intros Ht HP s Hs. apply HP in Hs as [HA HC]. specialize (Ht (agent_server_url s)).
  unfold fetch_agents_from_server, try_except. run_monad.
  destruct (agents_of_answer _ _) as [agents|e]; [by split|]. rewrite Ht. by split.
Qed.

Lemma populate_current_safe : safe never manager_ok
  (s ← get; match agent_cards_column s with
            | Some _ => populate_agent_cards hash (get_available_agents s)
            | None => mret tt
            end) (λ _, manager_ok).
Proof.
  apply safe_get. intros s0 H0. destruct (agent_cards_column s0); [|by apply safe_ret; intros s ->].
  eapply safe_weaken; [apply (populate_safe (dynamic_agents s0)), H0| |by intros ? ? []].
  by intros s ->.
Qed.

Lemma refresh_safe response :
  lists_texts response →
  safe never manager_ok (AgentManager.refresh_agents hash response) (λ _, manager_ok).
Proof.
  intros Ht. apply never_handled. eapply safe_bind; [by apply (fetch_safe response manager_ok)|].
  intros ?. apply populate_current_safe.
Qed.

Lemma section_safe :
  safe never manager_ok (create_agent_test_section hash) (λ _, manager_ok).
Proof.
  apply (safe_bind _ _ _ _ (λ _, manager_ok)).
  - apply safe_modify. intros s [HA HC]. by split.
  - intros []. apply safe_get. intros s0 H0.
    eapply safe_weaken; [apply (populate_safe (dynamic_agents s0)), H0| |by intros ? ? []].
    by intros s ->.
Qed.

Lemma show_failure_safe l i agent_id msg :
  is_text agent_id = true →
  safe never (listing l) (show_failure i agent_id msg) (λ _, listing l).
Proof.
  intros Ht s [[HA HC] Hl]. destruct agent_id; try done. cbn. run_monad.
  split; [split; [done|]|done]. by apply Forall_alter.
Qed.

Lemma test_safe l net agent_id :
  safe never (listing l) (test_agent_connection path_exists hash net agent_id) (λ _, listing l).
Proof.
  apply safe_get. intros s0 H0.
  destruct (list_find _ _) as [[i c]|] eqn:E; [|by apply safe_ret; intros s ->].
  apply list_find_Some in E as (Hi & <- & _).
  assert (is_text (card_id c) = true) as Ht
    by (destruct H0 as [[_ HC] _]; by apply (Forall_lookup_1 _ _ _ _ HC Hi)).
  apply (safe_bind _ _ _ _ (λ _, listing l)).
  { eapply safe_weaken; [apply (user_id_safe l)| |done]. by intros s ->. }
  intros ?. destruct (test_agent _ _ _ _) as [[[icon text] result]|msg]; [|by apply show_failure_safe].
  apply (safe_bind _ _ _ _ (λ _, listing l)).
  - intros s [[HA HC] Hl]. split; [split; [done|]|done]. by apply Forall_alter.
  - intros [] s Hs. unfold store_result, try_except. run_monad. destruct (card_id c); try done.
    by destruct Hs as [[]].
Qed.

Lemma test_all_safe l net :
  safe never (listing l) (test_all_agents path_exists hash net) (λ _, listing l).
Proof.
  apply safe_get. intros s0 H0.
  apply (safe_weaken _ _ (listing l) _ _ (λ _, listing l)); [apply never_handled|by intros s ->|done].
  apply safe_for_each. intros [k a] _. destruct (truthy _); [apply test_safe|by apply safe_ret].
Qed.

(** *** The page *)

(** The manager's operations that leave the list of agents alone *)
Lemma on_manager_safe {A} (m : M AgentManager.t A) :
  (∀ l, safe never (listing l) m (λ _, listing l)) →
  safe never page_ok (on_manager m) (λ _, page_ok).
Proof.
  intros Hm s [Hp Ha Hn Hc]. unfold on_manager.
  specialize (Hm _ (agent_manager s) (conj Ha eq_refl)).
  destruct (m (agent_manager s)) as [[a|e] am]; [|by destruct e].
  destruct Hm as [Hm El]. split; [done|done|done|]. cbn. by rewrite El.
Qed.

Lemma find_elem {A} (f : A → bool) l x : find f l = Some x → x ∈ l.
Proof. intros [H _]%find_some. by apply list_elem_of_In. Qed.

Lemma successful_listed am a : a ∈ successful_agents am → a ∈ dynamic_agents am.
Proof.
  intros ([agent_id result] & _ & H)%list_elem_of_omap.
  destruct (bool_decide _); [|done]. by apply find_elem in H.
Qed.

(** Where a choice of agents is filled, its value is its first option, and each option
    is an agent of the list. *)
Lemma offer_agents_offers am n d : offers (dynamic_agents am) (offer_agents am n d).
Proof.
  unfold offer_agents.
  assert (∀ a, a ∈ match successful_agents am with [] => dynamic_agents am | l => l end →
    a ∈ dynamic_agents am) as Hin.
  { intros a. destruct (successful_agents am) as [|b l] eqn:E; [done|]. rewrite <- E.
    apply successful_listed. }
  assert (match successful_agents am with [] => dynamic_agents am | l => l end = [] →
    dynamic_agents am = []) as Hnil by (by destruct (successful_agents am)).
  unfold get_available_agents. destruct (match successful_agents am with [] => _ | l => l end) as [|b l].
  - split; [constructor; [right; by split; [apply Hnil|]|constructor]|].
    exists (JStr (u "not_found")). split; [done|by left].
  - split; [|exists (id b); split; [done|by left]].
    apply Forall_forall. intros key. cbn [options update]. rewrite <- list_fmap_compose.
    intros (a & -> & Ha)%list_elem_of_fmap. left. apply list_elem_of_fmap. exists a. auto.
Qed.

Lemma offer_agents_visible am n d : visible (offer_agents am n d) = visible d.
Proof. unfold offer_agents. by destruct (match successful_agents am with [] => _ | l => l end). Qed.

Lemma choices_random agents n l :
  n = length l → Forall (λ d, visible d = false) l →
  Forall2 (choice_ok agents) (replicate n (u "random")) l.
Proof. intros ->. induction 1; constructor; [by left|done]. Qed.

Lemma visibility_safe (P : SetupUI.t → Prop) :
  (∀ s l, P s → P (s <| cpu_visible := l |>)) →
  safe never P update_cpu_visibility (λ _, P).
Proof. intros H. apply safe_modify. intros s Hs. by apply (H s). Qed.

Lemma page_ok_visible s l : page_ok s → page_ok (s <| cpu_visible := l |>).
Proof. by intros []. Qed.

Lemma initialize_safe url response :
  lists_texts response →
  safe never (λ s, s = SetupUI.new url) (initialize hash response) (λ _, page_ok).
Proof.
  intros Ht. apply (safe_bind _ _ _ _ (λ _ s, manager_ok (agent_manager s) ∧ total_players s = 4)).
  { intros s ->. unfold on_manager.
    pose proof (fetch_safe response (λ am, am = AgentManager.new url) Ht) as H.
    specialize (H ltac:(by intros s ->; split; constructor) (AgentManager.new url) eq_refl).
    cbn [agent_manager SetupUI.new]. by destruct (fetch_agents_from_server _ _) as [[a|[]] am]. }
  intros []. apply (safe_bind _ _ _ _ (λ _, page_ok)).
  - apply safe_modify. intros s [Hm Hp]. split; [cbn; lia|done|done|].
    cbn -[u cpu_label seq replicate]. apply choices_random; [done|]. by repeat constructor.
  - intros []. apply (safe_bind _ _ _ _ (λ _, page_ok)).
    + intros s [Hp Ha Hn Hc]. unfold on_manager.
      assert (safe never (listing (dynamic_agents (agent_manager s))) (create_agent_test_section hash)
        (λ _, listing (dynamic_agents (agent_manager s)))) as H.
      { apply (safe_bind _ _ _ _ (λ _, listing (dynamic_agents (agent_manager s)))).
        - apply safe_modify. intros am [[HA HC] El]. by split_and!.
        - intros []. apply safe_get. intros s0 [H0 El].
          eapply safe_weaken; [apply (populate_safe (dynamic_agents (agent_manager s))), H0| |done].
          by intros ? ->. }
      specialize (H (agent_manager s) (conj Ha eq_refl)).
      destruct (create_agent_test_section _ _) as [[a|[]] am]; try done.
      destruct H as [H El]. split; [done|done|done|]. cbn. by rewrite El.
    + intros []. apply visibility_safe, page_ok_visible.
Qed.

Lemma players_safe value : safe never page_ok (on_total_players_changed value) (λ _, page_ok).
Proof.
  apply (safe_bind _ _ _ _ (λ _, page_ok)).
  - apply safe_modify. intros s [Hp Ha Hn Hc]. split; [|done..]. cbn.
    destruct (int_of_str value); lia.
  - intros []. apply visibility_safe, page_ok_visible.
Qed.

Lemma insert_is_alter {A} i (x : A) (l : list A) : <[i := x]> l = alter (λ _, x) i l.
Proof. revert i. induction l as [|y l IH]; intros [|i]; [done..|]. exact (f_equal (cons y) (IH i)). Qed.

Lemma type_safe i type :
  type ∈ [u "random"; u "llm_api"] →
  safe never page_ok (on_player_type_changed i type) (λ _, page_ok).
Proof.
  intros Ht s [Hp Ha Hn Hc]. split; [done|done| |].
  - cbn. by rewrite length_insert.
  - cbn. rewrite insert_is_alter. apply Forall2_alter; [done|]. intros t d _ _ _.
    apply elem_of_cons in Ht as [->|Ht]; [|apply list_elem_of_singleton in Ht as ->].
    + left. rewrite bool_decide_eq_false_2 by str_ne. done.
    + right. rewrite bool_decide_eq_true_2 by done. split; [done|].
      split; [by rewrite offer_agents_visible|apply offer_agents_offers].
Qed.

Lemma choose_safe i key s :
  page_ok s →
  (∃ d, agent_dropdowns s !! i = Some d ∧ visible d = true ∧ disabled d = false ∧ key ∈ (options d).*1) →
  page_ok (choose_agent i key s).2.
Proof.
  intros [Hp Ha Hn Hc] (d & Hd & Hv & _ & Hk). split; [done|done|done|].
  cbn. apply Forall2_alter_r; [done|]. intros t d' _ Hd' [[_ Hf]|(-> & Hv' & Ho & _)].
  - cbn in Hd'. congruence.
  - assert (d' = d) as -> by (cbn in Hd'; congruence). right. split; [done|]. split; [done|].
    split; [done|]. by exists key.
Qed.

Lemma refresh_dropdowns_ok s :
  2 ≤ total_players s ≤ 10 → manager_ok (agent_manager s) → length (cpu_types s) = 9%nat →
  (∃ agents, Forall2 (choice_ok agents) (cpu_types s) (agent_dropdowns s)) →
  page_ok (refresh_agent_dropdowns s).2.
Proof.
  intros Hp Hm Hn [agents Hc]. split; [done|done|done|]. cbn. apply Forall2_same_length_lookup_2.
  - rewrite length_imap. by eapply Forall2_length.
  - intros i t d Ht. rewrite list_lookup_imap.
    destruct (agent_dropdowns s !! i) as [d'|] eqn:Hd; [|done]. intros [= <-].
    rewrite Ht. destruct (Forall2_lookup_lr _ _ _ _ _ _ Hc Ht Hd) as [[-> Hv]|(-> & Hv & _)].
    + left. rewrite bool_decide_eq_false_2 by str_ne. done.
    + right. rewrite bool_decide_eq_true_2 by done. rewrite Hv. cbn [andb]. split; [done|].
      split; [by rewrite offer_agents_visible|apply offer_agents_offers].
Qed.

(** Every event that the page lets happen is handled, and the page stays as it must be. *)
Lemma event_safe e s : page_ok s → allowed s e →
  ∃ s', on_event e s = (Ok tt, s') ∧ page_ok s'.
Proof.
  intros Hs Ha.
  assert (∀ m, safe never page_ok m (λ _, page_ok) → ∃ s', m s = (Ok tt, s') ∧ page_ok s') as Hsafe.
  { intros m H. specialize (H s Hs). destruct (m s) as [[[]|e'] s']; [by eexists|by destruct e']. }
  destruct e as [value|i type|i key|net agent_id|net|response]; cbn [on_event allowed] in *.
  - apply Hsafe, players_safe.
  - by apply Hsafe, type_safe.
  - eexists. split; [reflexivity|]. by apply choose_safe.
  - apply Hsafe, on_manager_safe. intros l. apply test_safe.
  - apply Hsafe, on_manager_safe. intros l. apply test_all_safe.
  - pose proof (refresh_safe response Ha (agent_manager s) (po_manager _ Hs)) as H.
    unfold refresh_agents, on_manager. run_monad.
    destruct (AgentManager.refresh_agents _ _ _) as [[[]|e] am]; [|by destruct e].
    eexists. split; [reflexivity|]. destruct Hs as [Hp _ Hn Hc].
    apply (refresh_dropdowns_ok (s <| agent_manager := am |>)); [done|done|done|by eexists].
Qed.

Lemma page_inv s : page s → page_ok s.
Proof.
  induction 1 as [url response r s Ht E|s e r s' _ IH Ha E].
  - pose proof (initialize_safe url response Ht _ eq_refl) as H. rewrite E in H. by destruct r as [[]|[]].
  - destruct (event_safe e s IH Ha) as (s1 & E1 & H). rewrite E in E1. by injection E1 as _ ->.
Qed.

(** *** The configuration *)

Definition random_config : PokerGame.config := PokerGame.Config (Some (u "random")) None None None.
Definition agent_config (agent_id user_id : pystr) : PokerGame.config :=
  PokerGame.Config (Some (u "llm_api")) None (Some agent_id) (Some user_id).

(** What becomes of a type and the agent chosen with it: a random player, also where
    there is no agent, or the agent, which the server has listed *)
Definition chosen (agents : list agent) (user_id : pystr) (choice : pystr * option json)
    (c : PokerGame.config) : Prop :=
  (choice.1 = u "random" ∧ c = random_config) ∨
  (choice = (u "llm_api", Some (JStr (u "not_found"))) ∧ c = random_config) ∨
  ∃ agent_id, choice = (u "llm_api", Some (JStr agent_id)) ∧ JStr agent_id ∈ id <$> agents ∧
    c = agent_config agent_id user_id.

Definition user_of (s : SetupUI.t) : pystr :=
  default (u "user-" ++ pad4 (hash mod 10000)) (browser_user_id (agent_manager s)).

Lemma user_id_run s : ∃ s',
  on_manager (get_browser_user_id hash) s = (Ok (user_of s), s') ∧ user_of s' = user_of s.
Proof.
  unfold on_manager, get_browser_user_id, user_of. run_monad.
  destruct (browser_user_id _) eqn:E; (eexists; split; [reflexivity|]); cbn -[u pad4]; by rewrite ?E.
Qed.

Lemma config_run agents type d s :
  Forall (λ a, is_text (id a) = true) agents → choice_ok agents type d →
  ∃ c s', config_of hash type (value d) s = (Ok c, s') ∧ user_of s' = user_of s ∧
    chosen agents (user_of s) (type, value d) c.
Proof.
  intros HT [[-> _]|(-> & _ & HL & key & Hk & Hin)].
  { exists random_config, s. unfold config_of. rewrite bool_decide_eq_false_2 by str_ne.
    split_and!; [done|done|by left]. }
  rewrite Hk. rewrite Forall_forall in HL. specialize (HL key Hin).
  unfold config_of. rewrite bool_decide_eq_true_2 by done.
  destruct HL as [Ha|[_ ->]].
  - pose proof Ha as (a & -> & Hin')%list_elem_of_fmap. rewrite Forall_forall in HT.
    specialize (HT a Hin'). case_bool_decide as Hn.
    { exists random_config, s. injection Hn as ->. split_and!; [done|done|]. by right; left. }
    destruct (id a) as [| | | |x| |] eqn:E; try done.
    destruct (user_id_run s) as (s' & E' & Hu). exists (agent_config x (user_of s)), s'.
    run_monad. rewrite E'. split_and!; [done|done|]. right. right. by exists x.
  - rewrite bool_decide_eq_true_2 by done. exists random_config, s.
    split_and!; [done|done|]. by right; left.
Qed.

Lemma configs_run agents types dropdowns k s :
  Forall (λ a, is_text (id a) = true) agents → Forall2 (choice_ok agents) types dropdowns →
  ∃ cs s', configs_of hash (zip (take k types) (value <$> dropdowns)) s = (Ok cs, s') ∧
    user_of s' = user_of s ∧
    Forall2 (chosen agents (user_of s)) (zip (take k types) (value <$> dropdowns)) cs.
Proof.
  intros HT H. revert k s. induction H as [|type d types dropdowns Hc _ IH]; intros [|k] s.
  1-3: by exists [], s.
  destruct (config_run agents type d s HT Hc) as (c & s1 & E1 & U1 & C1).
  destruct (IH k s1) as (cs & s2 & E2 & U2 & C2). exists (c :: cs), s2.
  change (zip _ _) with ((type, value d) :: zip (take k types) (value <$> dropdowns)).
  cbn [configs_of]. run_monad. rewrite E1, E2. split; [done|].
  split; [congruence|]. constructor; [done|congruence].
Qed.
End Page.

Definition human_config : PokerGame.config := PokerGame.Config (Some (u "human")) None None None.

Lemma chosen_known agents user_id choice c : chosen agents user_id choice c → known_type c.
Proof.
  intros [[_ ->]|[[_ ->]|(a & _ & _ & ->)]]; [right; left| right; left|right; right; right; left].
Qed.

Lemma take_zip {A B} n (l : list A) (k : list B) : take n (zip l k) = zip (take n l) k.
Proof. revert n k. induction l as [|x l IH]; intros [|n] [|y k]; cbn; [done..|]. by rewrite IH. Qed.

(** The nine choices are as many as the players that are needed. *)
Lemma choices_length s : page_ok s →
  length (zip (take (Z.to_nat (cpu_needed (total_players s))) (cpu_types s))
    (value <$> agent_dropdowns s)) = Z.to_nat (total_players s - 1).
Proof.
  intros [Hp _ Hn Hc]. apply Forall2_length in Hc.
  rewrite length_zip_with, length_take, length_fmap. unfold cpu_needed. lia.
Qed.


(** ** The cards of the agents *)

Definition fresh_card (a : agent) : AgentManager.card := Card (id a) CIRCLE (u "未テスト").

Lemma user_id_ok hash s : ∃ b,
  get_browser_user_id hash s = (Ok b, s <| browser_user_id ::= λ x, Some (default b x) |>).
Proof. unfold get_browser_user_id. run_monad. destruct s as [? ? ? ? ? [b|]]; by eexists. Qed.

Lemma add_cards_run hash agents s : ∃ s', add_cards hash agents s = (Ok tt, s') ∧
  agent_cards s' = agent_cards s ++ (fresh_card <$> agents) ∧
  agent_cards_column s' =
    (λ l, l ++ seq (length (agent_cards s)) (length agents)) <$> agent_cards_column s ∧
  dynamic_agents s' = dynamic_agents s ∧ test_results s' = test_results s.
Proof.
  revert s. induction agents as [|a agents IH]; intros s.
  { exists s. split; [done|]. cbn. rewrite (right_id_L [] (++)). split; [done|].
    split; [|done]. destruct (agent_cards_column s); cbn; [by rewrite (right_id_L [] (++))|done]. }
  destruct (user_id_ok hash s) as [b E].
  cbn [add_cards]. run_monad. rewrite E.
  match goal with |- context [add_cards hash agents ?q] => destruct (IH q) as (s' & -> & H1 & H2 & H3 & H4) end.
  exists s'. split; [done|]. rewrite H1, H2, H3, H4. cbn. split; [by rewrite <- (assoc_L (++))|].
  split; [|done]. rewrite length_app, Nat.add_1_r.
  destruct (agent_cards_column s); cbn; [by rewrite <- (assoc_L (++))|done].
Qed.

(** The outcome of a test is one of success only with the icon of success. *)
Lemma test_agent_outcome path_exists s net agent_id icon text result :
  test_agent path_exists s net agent_id = inl (icon, text, result) →
  icon = CHECK_CIRCLE ↔ status result = u "success".
Proof.
  assert (u "warning" ≠ u "success") as Hw by str_ne.
  unfold test_agent, test_session, after_reply. intros H. revert H.
  repeat case_goal; intros [= <- <- <-]; done.
Qed.

(** A test writes on the first card of its agent, and stores its result. *)
Lemma test_run path_exists hash net s i c :
  list_find (λ c', card_id c' = card_id c) (agent_cards s) = Some (i, c) →
  is_text (card_id c) = true →
  ∃ icon text result s',
    test_agent_connection path_exists hash net (card_id c) s = (Ok tt, s') ∧
    agent_cards s' = <[i := Card (card_id c) icon text]> (agent_cards s) ∧
    agent_cards_column s' = agent_cards_column s ∧
    dict_get (card_id c) (test_results s') = Some result ∧
    (icon = CHECK_CIRCLE ↔ status result = u "success").
Proof.
  intros Hf Ht. assert (agent_cards s !! i = Some c) as Hi by by (apply list_find_Some in Hf; apply Hf).
  assert (∀ icon text, alter (λ c, Card (card_id c) icon text) i (agent_cards s)
    = <[i := Card (card_id c) icon text]> (agent_cards s)) as Halt.
  { intros icon text. apply list_eq. intros j. destruct (decide (i = j)) as [<-|Hij].
    - rewrite list_lookup_alter_eq, Hi, list_lookup_insert_eq; [done|]. by eapply lookup_lt_Some.
    - by rewrite list_lookup_alter_ne, list_lookup_insert_ne. }
  destruct (card_id c) as [| | | |x| |] eqn:Ec; try done.
  unfold test_agent_connection. run_monad. rewrite Hf.
  destruct (user_id_ok hash s) as [b E].
  rewrite E. destruct (test_agent _ _ _ _) as [[[icon text] result]|msg] eqn:Eo.
  - apply test_agent_outcome in Eo. exists icon, text, result. eexists. split; [reflexivity|].
    split; [apply Halt|]. split; [done|]. split; [apply dict_get_set_eq|done].
  - exists ERROR, (error_text msg), (TestResult (u "error") msg). eexists. split; [reflexivity|].
    split; [apply Halt|]. split; [done|]. split; [apply dict_get_set_eq|].
    split; [done|]. cbn. intros H. exfalso. revert H. str_ne.
Qed.

Lemma omap_seq {A} (l k : list A) : omap (λ i, (l ++ k) !! i) (seq (length l) (length k)) = k.
Proof.
  revert l. induction k as [|x k IH]; intros l; [done|]. cbn [length seq].
  cbn [omap list_omap]. rewrite list_lookup_middle by done. f_equal.
  specialize (IH (l ++ [x])). by rewrite <- (assoc_L (++)), length_app, Nat.add_1_r in IH.
Qed.

Lemma omap_ext_elem {A B} (f g : A → option B) (l : list A) :
  (∀ x, x ∈ l → f x = g x) → omap f l = omap g l.
Proof.
  induction l as [|x l IH]; intros H; [done|]. cbn. rewrite (H x (list_elem_of_here _ _)).
  destruct (g x); [f_equal|]; apply IH; intros y Hy; apply H; by right.
Qed.

(** When the page is opened there is a card for each agent of the server, in
    order.  A test of an agent, whatever the network does, raises no exception, stores
    a result and writes on the card of that agent and on no other; the card has the
    icon of success exactly when the result is one. *)
Theorem tested_card_shown path_exists hash net s i a :
  Forall (λ a, is_text (id a) = true) (dynamic_agents s) → NoDup (id <$> dynamic_agents s) →
  dynamic_agents s !! i = Some a →
  ∃ s1 icon text result s2, create_agent_test_section hash s = (Ok tt, s1) ∧
    visible_cards s1 = fresh_card <$> dynamic_agents s ∧
    test_agent_connection path_exists hash net (id a) s1 = (Ok tt, s2) ∧
    visible_cards s2 = <[i := Card (id a) icon text]> (visible_cards s1) ∧
    dict_get (id a) (get_test_results s2) = Some result ∧
    (icon = CHECK_CIRCLE ↔ status result = u "success").
Proof.
  intros HT HN Ha. set (s0 := s <| agent_cards := [] |> <| agent_cards_column := Some [] |>).
  destruct (add_cards_run hash (dynamic_agents s) (s0 <| agent_cards_column := Some [] |>))
    as (s1 & E1 & C1 & L1 & _ & _).
  cbn in C1, L1. set (cards := fresh_card <$> dynamic_agents s) in *.
  assert (length (dynamic_agents s) = length cards) as Hlen by (by unfold cards; rewrite length_fmap).
  assert (list_find (λ c, card_id c = card_id (fresh_card a)) cards = Some (i, fresh_card a)) as Hf.
  { apply list_find_Some. split; [by unfold cards; rewrite list_lookup_fmap, Ha|]. split; [done|].
    intros j c Hj Hlt Hid. unfold cards in Hj. rewrite list_lookup_fmap in Hj.
    destruct (dynamic_agents s !! j) as [b|] eqn:Hb; [|done]. injection Hj as <-.
    enough (j = i) by lia. apply (NoDup_lookup _ _ _ (id a) HN); rewrite list_lookup_fmap.
    - rewrite Hb. cbn. by f_equal.
    - by rewrite Ha. }
  rewrite <- C1 in Hf.
  destruct (test_run path_exists hash net s1 i (fresh_card a) Hf) as (ic & tx & r & s2 & E2 & C2 & L2 & R2 & S2).
  { rewrite Forall_forall in HT. apply HT. by eapply list_elem_of_lookup_2. }
  assert (∀ s' l, agent_cards_column s' = Some (seq 0 (length l)) → agent_cards s' = l →
    visible_cards s' = l) as HV.
  { intros s' l Hl Hc. unfold visible_cards. rewrite Hl, Hc. apply (omap_seq []). }
  assert (visible_cards s1 = cards) as V1 by (apply HV; [by rewrite L1, Hlen|done]).
  exists s1, ic, tx, r, s2. split; [unfold create_agent_test_section, populate_agent_cards; run_monad; exact E1|].
  split; [exact V1|]. split; [exact E2|]. split; [|by split].
  rewrite V1. apply HV; [by rewrite L2, L1, Hlen, length_insert|by rewrite C2, C1].
Qed.

(** Where an agent had a card before the list was fetched again, its test raises no
    exception and stores a result, and nothing on the page changes: the card that is
    written on is the old one, which is no longer shown. *)
Theorem refreshed_cards_stale path_exists hash net response s agent_id :
  lists_texts response → is_Some (agent_cards_column s) →
  is_text agent_id = true → agent_id ∈ card_id <$> agent_cards s →
  ∃ s1 s2, AgentManager.refresh_agents hash response s = (Ok tt, s1) ∧
    visible_cards s1 = fresh_card <$> dynamic_agents s1 ∧
    test_agent_connection path_exists hash net agent_id s1 = (Ok tt, s2) ∧
    is_Some (dict_get agent_id (get_test_results s2)) ∧
    visible_cards s2 = visible_cards s1.
Proof.
  intros Hr [col Hcol] Ht Hin.
  assert (∃ l, fetch_agents_from_server response s = (Ok tt, s <| dynamic_agents := l |>)) as [l E].
  { unfold fetch_agents_from_server, try_except. run_monad. specialize (Hr (agent_server_url s)).
    destruct (agents_of_answer _ _) as [l|e]; [by exists l|]. rewrite Hr. by exists []. }
  destruct (add_cards_run hash l (s <| dynamic_agents := l |> <| agent_cards_column ::= fmap (λ _, []) |>))
    as (s1 & E1 & C1 & L1 & D1 & _).
  cbn in C1, L1, D1. rewrite Hcol in L1. cbn in L1. set (old := agent_cards s) in *.
  assert (∃ i c, list_find (λ c, card_id c = agent_id) old = Some (i, c)) as (i & c & Hf).
  { apply list_elem_of_fmap in Hin as (c & -> & Hc).
    destruct (list_find_elem_of (λ c', card_id c' = card_id c) old c Hc eq_refl) as [[i c'] Hf].
    by exists i, c'. }
  pose proof Hf as (Hi & <- & _)%list_find_Some.
  apply (list_find_app_l _ _ (fresh_card <$> l)) in Hf. rewrite <- C1 in Hf.
  destruct (test_run path_exists hash net s1 i c Hf Ht) as (ic & tx & r & s2 & E2 & C2 & L2 & R2 & _).
  exists s1, s2. split.
  { unfold AgentManager.refresh_agents, try_except. run_monad. rewrite E.
    assert (agent_cards_column (s <| dynamic_agents := l |>) = Some col) as -> by exact Hcol.
    unfold populate_agent_cards. run_monad.
    change (get_available_agents _) with l. by rewrite E1. }
  assert (length l = length (fresh_card <$> l)) as Hlen by (by rewrite length_fmap).
  split; [unfold visible_cards; rewrite L1, C1, D1, Hlen; apply omap_seq|].
  split; [exact E2|]. split; [by exists r|].
  unfold visible_cards. rewrite L2, C2, L1. apply omap_ext_elem. intros j Hj.
  apply elem_of_seq in Hj. rewrite list_lookup_insert_ne; [done|].
  apply lookup_lt_Some in Hi. lia.
Qed.
