(* ===== verification/SpectatorProps.v ===== *)
(** * What spectators see

    The page for spectators, fed with the answers of the state server, shows of a game
    what the screens of the players show, and all cards: the server, the page and the
    screen of a person agree on every text they share. *)
From stdpp Require Import strings.
From S2P Require Import Prelude Py Json Regex GameModels PlayerModels Evaluator Game GameProps HandInvariant.
From S2P Require Import Showdown ShowdownProps StateServer GameUi ViewerUi GameUiProps.
Import PokerGame StateServer GameUI ViewerUI.

(** A column that was appended to *)
Ltac column :=
  repeat match goal with s : ViewerUI.t |- _ => destruct s end; unfold update; cbn;
  rewrite ?(right_id_L [] (++)), <- ?(assoc_L (++)); reflexivity.

(** ** Cards *)

Definition face (s : pystr) : card_face :=
  match create_card_widget s with Ok f => f | Raise _ => Back end.

Lemma face_ok s : create_card_widget s = Ok (face s).
Proof. unfold face. by destruct (face_total s) as [f ->]. Qed.

Definition faces (cards : list card) : list card_face := (λ c, face (Card.str c)) <$> cards.

Lemma card_row_faces cards : card_row cards = Ok (Card <$> faces cards).
Proof.
  unfold card_row, faces. rewrite <- list_fmap_compose. apply map_result_ok.
  intros c. by rewrite face_ok.
Qed.

Lemma faces_read cards : map_result card_of (JStr <$> (Card.str <$> cards)) = Ok (faces cards).
Proof. rewrite <- list_fmap_compose. apply map_result_fmap. intros c. apply face_ok. Qed.

(** ** Names *)

Lemma int_or_zero z : int_of_json (or_else (JInt z) (JInt 0)) = Ok z.
Proof. unfold or_else. cbn [truthy]. by destruct (Z.eqb_spec z 0) as [->|]. Qed.

(** A player whose name can be shown: it is not empty, and an agent's has more than
    blanks and underscores *)
Definition name_ok (p : player) : Prop :=
  Player.name p ≠ [] ∧
  match Player.kind p with
  | LLMApiPlayer app _ => app = [] ∨ strip (replace (u "_") (u " ") app) ≠ []
  | _ => True
  end.

Lemma title_nonempty s : s ≠ [] → title s ≠ [].
Proof. destruct s as [|c s]; [done|]. intros _. unfold title. cbn. by destruct (is_letter c). Qed.

(** The server and the screen show a player by the same name. *)
Lemma display_names p : name_ok p →
  display_name_for_player p = get_display_name p ∧ get_display_name p ≠ [].
Proof.
  intros [Hn Hk]. unfold display_name_for_player, get_display_name.
  destruct (Player.kind p) as [| | |app user]; [done..|].
  case_bool_decide as Ha; [done|]. destruct Hk as [?|Hc]; [done|].
  rewrite bool_decide_false by done. split; [done|]. by apply title_nonempty.
Qed.

Lemma viewer_name k p : name_ok p →
  name_of (Z.of_nat k) (viewer_player p) =
    Ok (if decide (Player.id p = k) then Some (get_display_name p) else None).
Proof.
  intros Hp. destruct (display_names p Hp) as [E Hne]. unfold name_of, viewer_player.
  json_lookup. unfold json_nat. cbn [int_of_json mbind result_bind].
  destruct (decide (Player.id p = k)) as [->|Hk].
  - rewrite Z.eqb_refl. json_lookup. unfold or_else. cbn [truthy].
    rewrite E, bool_decide_false by done. cbn [negb truthy]. by rewrite bool_decide_false.
  - by rewrite (proj2 (Z.eqb_neq _ _)) by lia.
Qed.

Lemma viewer_names k l : Forall name_ok l →
  name_in (Z.of_nat k) (viewer_player <$> l) =
    match snd <$> list_find (λ p, Player.id p = k) l with
    | Some p => get_display_name p
    | None => u "Player " ++ str_of_nat k
    end.
Proof.
  induction 1 as [|p l Hp _ IH]; [by rewrite str_of_nat_Z|]. rewrite fmap_cons. cbn [name_in list_find].
  rewrite viewer_name by done. destruct (decide (Player.id p = k)); [done|]. rewrite IH.
  by destruct (list_find _ l) as [[i q]|].
Qed.

(** The state that the server answers with *)
Definition state_of (g : PokerGame.t) : json := build_viewer_state (SharedState.SharedState (Some g)).

Lemma state_dict g : or_else (state_of g) (JDict []) = state_of g.
Proof. done. Qed.

Lemma player_names k g : Forall name_ok (players g) →
  ViewerUI.get_player_name (state_of g) (Z.of_nat k) = Ok (GameUI.get_player_name k (Some g)).
Proof.
  intros H. unfold ViewerUI.get_player_name. rewrite state_dict.
  unfold state_of, build_viewer_state. cbn [SharedState.get_current_game SharedState.current_game].
  json_lookup. cbn [json_iter mbind result_bind]. rewrite viewer_names by done.
  by unfold GameUI.get_player_name, get_player, find_player; cbn; destruct (list_find _ _) as [[i p]|].
Qed.

(** ** The history *)

Lemma head_fmap {A B} (f : A → B) (l : list A) : head (f <$> l) = f <$> head l.
Proof. by destruct l. Qed.

Lemma fmap_omap {A B C} (f : B → C) (h : A → option B) (l : list A) : f <$> omap h l = omap (λ x, f <$> h x) l.
Proof. induction l as [|x l IH]; [done|]. cbn. destruct (h x); cbn; by rewrite <- ?IH. Qed.

(** The two pages read a line of the history alike. *)
Lemma action_item_badge game s :
  action_item game s = (λ '(b, pid, amt), Badge b (GameUI.get_player_name pid game) amt) <$> player_badge s.
Proof.
  unfold action_item, player_badge. rewrite <- head_fmap, fmap_app, !fmap_omap. f_equal. f_equal;
    apply list_omap_ext, Forall_Forall2_diag, Forall_true; intros x;
    by rewrite <- option_fmap_compose.
Qed.

Definition item_of (g : PokerGame.t) (s : pystr) : item :=
  match GameUI.create_action_history_item (Some g) s with Ok i => i | Raise _ => Generic s end.

Lemma item_ok g s : GameUI.create_action_history_item (Some g) s = Ok (item_of g s).
Proof. unfold item_of. by destruct (item_total (Some g) s) as [i ->]. Qed.

Lemma item_read g s : Forall name_ok (players g) →
  ViewerUI.create_action_history_item (state_of g) (JStr s) = Ok (item_of g s).
Proof.
  intros H. rewrite <- item_ok. unfold ViewerUI.create_action_history_item, GameUI.create_action_history_item.
  cbn [as_str mbind result_bind]. rewrite action_item_badge.
  destruct (player_badge s) as [[[b pid] amt]|]; [|done]. cbn [fmap option_fmap option_map].
  by rewrite player_names.
Qed.

(** ** Seats *)

(** The seat of the spectators is that of the screen, but for the marks of the turn and
    of the person. *)
Definition seen (s : GameUI.seat) : ViewerUI.seat :=
  {| ViewerUI.seat_cards := GameUI.seat_cards s;
     ViewerUI.seat_name := JStr (GameUI.seat_name s);
     ViewerUI.seat_badges := GameUI.seat_badges s;
     ViewerUI.seat_chips := GameUI.seat_chips s;
     ViewerUI.seat_bet := GameUI.seat_bet s;
     ViewerUI.seat_shade := match GameUI.seat_shade s with OnTurn | You => Other | c => c end;
     ViewerUI.seat_overlay := GameUI.seat_overlay s |}.

(** The seat of a player as that player sees it *)
Definition own_seat (g : PokerGame.t) (p : player) : GameUI.seat :=
  match GameUI.build_seat (Player.id p) g p with
  | Ok s => s
  | Raise _ => GameUI.Seat [] [] [] [] [] Gone false None
  end.

Lemma own_seat_ok g p : GameUI.build_seat (Player.id p) g p = Ok (own_seat g p).
Proof. unfold own_seat. by destruct (seat_total (Player.id p) g p) as [s ->]. Qed.

Lemma status_read p : normal_status (viewer_player p) = Ok (status_value (Player.status p)).
Proof. unfold normal_status, viewer_player. json_lookup. by destruct (Player.status p). Qed.

Lemma status_tests p :
  bool_decide (status_value (Player.status p) ∈ [u "folded"; u "busted"]) = out_of_play p ∧
  bool_decide (status_value (Player.status p) = u "all_in") = has_status ALL_IN p ∧
  bool_decide (status_value (Player.status p) = u "folded") = has_status FOLDED p.
Proof. unfold out_of_play, has_status. destruct (Player.status p); by vm_compute. Qed.

Lemma seat_cards_read p hidden : hidden = Back →
  (if truthy (JList (JStr <$> (Card.str <$> Player.hole_cards p)))
   then l ← json_iter (JList (JStr <$> (Card.str <$> Player.hole_cards p))); map_result card_of l
   else Ok [Back; Back])
  = (if negb (bool_decide (Player.hole_cards p = [])) && true
     then map_result (λ c, create_card_widget (Card.str c)) (Player.hole_cards p)
     else Ok [hidden; hidden]).
Proof.
  intros ->. cbn [json_iter mbind result_bind]. rewrite faces_read.
  destruct (Player.hole_cards p) as [|c l]; [done|]. rewrite bool_decide_false by done.
  cbn [negb andb]. symmetry. cbn [fmap list_fmap truthy]. apply map_result_ok. intros x. apply face_ok.
Qed.

Lemma seat_read i g p : name_ok p →
  ViewerUI.build_seat i (viewer_player p) = Ok (seen (own_seat g p)).
Proof.
  intros Hp. destruct (display_names p Hp) as [En Hne].
  pose proof (own_seat_ok g p) as E. unfold GameUI.build_seat in E.
  rewrite (bool_decide_true (Player.id p = Player.id p)) in E by done.
  change (create_card_widget (u "??")) with (Ok Back) in E. cbn [mbind result_bind] in E.
  rewrite <- (seat_cards_read p Back eq_refl) in E. unfold ViewerUI.build_seat. rewrite status_read.
  destruct (status_tests p) as (T1 & T2 & T3). unfold badge_if, viewer_player. json_lookup.
  destruct (if truthy _ then _ else Ok [Back; Back]) as [cs|e]; [|done].
  cbn [mbind result_bind] in E |- *. injection E as <-.
  cbn [json_grouped json_positive mbind result_bind json_str json_repr truthy].
  rewrite T1, T2, T3. unfold seen, or_else. cbn [truthy]. rewrite En, bool_decide_false by done.
  cbn [negb]. do 2 f_equal. cbn [GameUI.seat_shade].
  destruct (out_of_play p); [done|]. destruct (has_status ALL_IN p); [done|].
  by destruct (bool_decide (Player.id p = current_player_index g)).
Qed.

Lemma seats_read i g l : Forall name_ok l →
  build_seats i (viewer_player <$> l) = Ok (seen ∘ own_seat g <$> l).
Proof.
  intros H. revert i. induction H as [|p l Hp _ IH]; intros i; [done|].
  rewrite fmap_cons. cbn [build_seats]. by rewrite (seat_read i g p Hp), IH.
Qed.

(** ** The results of a showdown *)

Definition hand_shown (g : PokerGame.t) (h : shown_hand) : list widget :=
  Label (GameUI.get_player_name (sh_player_id h) (Some g))
  :: (GameUI.Card <$> (face <$> sh_cards h)) ++ [Label (Game.sh_hand h)].

(** A heading and what is under it, where there is anything *)
Definition titled {A} (heading : pystr) (row : A → list widget) (l : list A) : list (list widget) :=
  match l with [] => [] | _ => [Label heading] :: (row <$> l) end.

Definition rows_of (g : PokerGame.t) (r : showdown_result) : list (list widget) :=
  [Label (u "🎉 ショーダウン結果")]
  :: (match community_cards g with
      | [] => []
      | cards => [[Label (u "コミュニティカード")]; GameUI.Card <$> faces cards]
      end)
  ++ titled (u "各プレイヤーのハンド") (hand_shown g) (default [] (sr_all_hands r))
  ++ titled (u "勝者") (GameUI.winner_row (Some g)) (sr_results r).

(** The overlay of the screen has the same rows, and a button. *)
Lemma showdown_rows_of g r :
  showdown_rows (Some g) r =
    Ok ((inl <$> rows_of g r) ++ [inr (Button (u "次のハンドへ") ConfirmShowdown)]).
Proof.
  unfold showdown_rows. cbn [fmap option_fmap option_map default].
  rewrite (map_result_ok create_card_widget face) by apply face_ok. cbn [mbind result_bind].
  rewrite (map_result_ok (GameUI.hand_row (Some g)) (hand_shown g));
    [|intros h; unfold GameUI.hand_row;
      by rewrite (map_result_ok create_card_widget face) by apply face_ok].
  cbn [mbind result_bind]. f_equal. unfold rows_of, titled, faces. rewrite fmap_cons.
  rewrite !fmap_app. rewrite <- (list_fmap_compose Card.str face).
  destruct (community_cards g) as [|c l], (default [] (sr_all_hands r)) as [|h k], (sr_results r) as [|w m];
    try rewrite !(bool_decide_false (_ :: _ = [])) by done;
    try rewrite !(bool_decide_true ([] = [])) by done; cbn; by rewrite <- ?(assoc_L (++)).
Qed.

Lemma section_run {A} heading (row : json → result (list widget)) (f : A → list widget) (enc : A → json) l s :
  (∀ x, row (enc x) = Ok (f x)) →
  section heading row (JList (enc <$> l)) s =
    (Ok tt, s <| showdown_results_column ::= λ k, k ++ titled heading f l |>).
Proof.
  intros H. unfold section. destruct l as [|x l]; [column|].
  change (truthy (JList (enc <$> x :: l))) with true. cbv iota. step.
  rewrite (lift_run _ _ _ (enc <$> x :: l)) by done.
  rewrite (for_each_appends _ _ (λ k s, s <| showdown_results_column ::= λ l, l ++ k |>) f);
    [column| |intros; column..]. intros y s' _. by rewrite (lift_run _ _ _ _ (H y)).
Qed.

(** ** The cards of the agents *)

(** The actions read from the history are in lower case. *)
Lemma action_of_rest_lower rest found : action_of_rest rest = Ok (Some found) → lower found.1 = found.1.
Proof.
  unfold action_of_rest. repeat case_goal; try done.
  1-2: by intros [= <-].
  all: intros H; repeat (match type of H with context [?r ≫= _] =>
    destruct r; [|done] end; cbn [mbind result_bind] in H); by injection H as <-.
Qed.

Lemma latest_lower i g : lower (latest_action_for_player i g).1 = (latest_action_for_player i g).1.
Proof.
  unfold latest_action_for_player. induction (reverse (action_history g)) as [|e l IH]; [done|].
  cbn [latest_in]. destruct (action_of_entry i e) as [[found|]|] eqn:E; [|done..].
  unfold action_of_entry in E. destruct (startswith _ _); [|done].
  destruct (nth_item _ _) as [rest|]; [|done]. by apply action_of_rest_lower in E.
Qed.

(** What the card of an agent says: its name, its last action as read from the history,
    and the reasoning of its last decision *)
Definition agent_shown (g : PokerGame.t) (p : player) : agent_card :=
  let '(action, amount) := latest_action_for_player (Player.id p) g in
  let reasoning := strip (json_str (default (JStr []) (Player.last_decision_reasoning p))) in
  AgentCard (get_display_name p) (agent_items action amount)
    (if bool_decide (reasoning = []) then u "(理由なし)" else reasoning).

Lemma agent_read g p : name_ok p →
  create_llm_agent_card (viewer_agent g p) = Ok (agent_shown g p).
Proof.
  intros Hp. destruct (display_names p Hp) as [En Hne].
  unfold agent_shown, viewer_agent, create_llm_agent_card. pose proof (latest_lower (Player.id p) g) as Hl.
  destruct (latest_action_for_player (Player.id p) g) as [action amount]. cbn [fst] in Hl.
  json_lookup. rewrite int_or_zero. json_lookup. rewrite En. unfold or_else.
  assert (truthy (JStr (get_display_name p)) = true) as Ht by (cbn [truthy]; by rewrite bool_decide_false).
  rewrite !Ht. cbn [json_str]. by rewrite Hl.
Qed.

Section Table.
Context (g : PokerGame.t) (Hnames : Forall name_ok (players g)).

Lemma hand_row_read h : ViewerUI.hand_row (state_of g) (json_shown_hand h) = Ok (hand_shown g h).
Proof.
  unfold ViewerUI.hand_row, json_shown_hand. json_lookup. unfold json_nat.
  cbn [int_of_json mbind result_bind]. rewrite player_names by done. json_lookup.
  cbn [json_iter mbind result_bind].
  rewrite (map_result_fmap card_of JStr face) by (intros x; apply face_ok). done.
Qed.

Lemma winner_row_read r :
  ViewerUI.winner_row (state_of g) (json_payout r) = Ok (GameUI.winner_row (Some g) r).
Proof.
  unfold ViewerUI.winner_row, json_payout. json_lookup. unfold json_nat.
  cbn [int_of_json mbind result_bind]. json_lookup.
  rewrite int_or_zero. json_lookup. by rewrite player_names.
Qed.

Lemma state_community dflt :
  json_get (u "community_cards") dflt (state_of g) = Ok (JList (JStr <$> (Card.str <$> community_cards g))).
Proof.
  unfold state_of, build_viewer_state. cbn [SharedState.get_current_game SharedState.current_game].
  by json_lookup.
Qed.

(** The cards of the board in the overlay *)
Lemma community_run s :
  (let community := JList (JStr <$> (Card.str <$> community_cards g)) in
   if truthy community then
     append_row [Label (u "コミュニティカード")] ;;
     l ← lift (json_iter community);
     faces ← lift (map_result card_of l);
     append_row (GameUI.Card <$> faces)
   else mret tt) s
  = (Ok tt, s <| showdown_results_column ::= λ k, k ++
      match community_cards g with
      | [] => []
      | cards => [[Label (u "コミュニティカード")]; GameUI.Card <$> faces cards]
      end |>).
Proof.
  destruct (community_cards g) as [|c l]; [column|].
  cbv zeta. change (truthy _) with true. cbv iota. cbn [json_iter]. step.
  rewrite (lift_run _ _ _ _ eq_refl), (lift_run _ _ _ _ (faces_read (c :: l))).
  unfold append_row, modify. column.
Qed.

Lemma populate_run r s : last_state s = Some (state_of g) →
  populate_showdown_results (json_showdown r) s =
    (Ok tt, s <| showdown_results_column := rows_of g r |> <| showdown_overlay_visible := true |>).
Proof.
  intros Hs. unfold populate_showdown_results.
  set (hands := default [] (sr_all_hands r)).
  assert (json_get (u "all_hands") (JList []) (json_showdown r) = Ok (JList (json_shown_hand <$> hands))) as Eh.
  { unfold json_showdown, hands. destruct (sr_all_hands r); cbn [app]; by json_lookup. }
  assert (json_get (u "results") (JList []) (json_showdown r) = Ok (JList (json_payout <$> sr_results r))) as Er.
  { unfold json_showdown. cbn [app]. by json_lookup. }
  do 3 step. cbv zeta. match goal with |- context [default JNull (last_state ?q)] =>
    change (last_state q) with (last_state s) end. rewrite Hs.
  change (default JNull (Some (state_of g))) with (state_of g).
  rewrite state_dict, (lift_run _ _ _ _ (state_community _)).
  erewrite bind_run; [|apply community_run]. rewrite (lift_run _ _ _ _ Eh).
  erewrite bind_run; [|apply (section_run _ _ (hand_shown g)), hand_row_read].
  rewrite (lift_run _ _ _ _ Er).
  erewrite bind_run; [|apply (section_run _ _ (GameUI.winner_row (Some g))), winner_row_read].
  unfold rows_of. fold hands. by destruct s, (community_cards g).
Qed.

(** *** The parts of the page *)

Lemma show_community_run s :
  show_community (state_of g) s =
    (Ok tt, s <| community_cards_row := match community_cards g with
                                        | [] => [Label (u "まだカードがありません")]
                                        | cards => GameUI.Card <$> faces cards
                                        end |>).
Proof.
  unfold show_community. step. rewrite (lift_run _ _ _ _ (state_community _)).
  destruct (community_cards g) as [|c l]; [by destruct s|].
  change (truthy _) with true. cbv iota. cbn [json_iter].
  rewrite (lift_run _ _ _ _ eq_refl), (lift_run _ _ _ _ (faces_read (c :: l))). by destruct s.
Qed.

Lemma seats_run : build_seat_controls (state_of g) = Ok (seen ∘ own_seat g <$> players g).
Proof.
  unfold build_seat_controls. rewrite state_dict. unfold state_of, build_viewer_state.
  cbn [SharedState.get_current_game SharedState.current_game]. json_lookup.
  cbn [json_iter mbind result_bind]. by apply seats_read.
Qed.

Lemma show_table_run s : last_state s = Some (state_of g) →
  show_table (state_of g) s =
    (Ok tt, s <| showdown_results_column := from_option (rows_of g) [] (last_showdown_results g) |>
              <| showdown_overlay_visible := bool_decide (is_Some (last_showdown_results g)) |>
              <| stack_seats := seen ∘ own_seat g <$> players g |>
              <| stack_overlay := bool_decide (is_Some (last_showdown_results g)) |>).
Proof.
  intros Hs. unfold show_table. rewrite (lift_run _ _ _ _ seats_run).
  assert (json_get (u "showdown_results") JNull (state_of g) =
    Ok (from_option json_showdown JNull (last_showdown_results g))) as E.
  { unfold state_of, build_viewer_state. cbn [SharedState.get_current_game SharedState.current_game].
    json_lookup. by destruct (last_showdown_results g). }
  rewrite (lift_run _ _ _ _ E). destruct (last_showdown_results g) as [r|]; cbn [from_option].
  - change (truthy (json_showdown r)) with true. cbv iota.
    erewrite bind_run; [|by apply populate_run]. by destruct s.
  - change (truthy JNull) with false. cbv iota. step. by destruct s.
Qed.

Lemma show_history_run s :
  show_history (state_of g) s =
    (Ok tt, s <| action_history_column := item_of g <$> reverse (action_history g) |>).
Proof.
  unfold show_history. step.
  assert (json_get (u "action_history") (JList []) (state_of g) = Ok (JList (JStr <$> action_history g))) as E.
  { unfold state_of, build_viewer_state. cbn [SharedState.get_current_game SharedState.current_game].
    by json_lookup. }
  rewrite (lift_run _ _ _ _ E).
  assert ((if truthy (JList (JStr <$> action_history g)) then json_iter (JList (JStr <$> action_history g))
    else Ok []) = Ok (JStr <$> action_history g)) as E' by (by destruct (action_history g)).
  rewrite (lift_run _ _ _ _ E'), <- fmap_reverse.
  rewrite (for_each_appends _ _ (λ k s, s <| action_history_column ::= λ l, l ++ k |>) (item_of g));
    [by destruct s| |intros; column..]. intros x s' _. by rewrite (lift_run _ _ _ _ (item_read g x Hnames)).
Qed.

Lemma show_agents_run s :
  show_agents (state_of g) s =
    (Ok tt, s <| llm_agents_grid :=
                   agent_shown g <$> filter (λ p, is_api_player p) (players g) |>).
Proof.
  unfold show_agents. step. set (agents := filter (λ p, is_api_player p) (players g)).
  assert (json_get (u "llm_api_agents") (JList []) (state_of g) = Ok (JList (viewer_agent g <$> agents))) as E.
  { unfold state_of, build_viewer_state. cbn [SharedState.get_current_game SharedState.current_game].
    by json_lookup. }
  rewrite (lift_run _ _ _ _ E).
  assert (json_iter (or_else (JList (viewer_agent g <$> agents)) (JList [])) = Ok (viewer_agent g <$> agents))
    as E' by (by destruct agents).
  rewrite (lift_run _ _ _ _ E').
  rewrite (for_each_appends _ _ (λ k s, s <| llm_agents_grid ::= λ l, l ++ k |>) (agent_shown g));
    [by destruct s| |intros; column..].
  intros p s' [_ Hp]%list_elem_of_filter. rewrite Forall_forall in Hnames.
  by rewrite (lift_run _ _ _ _ (agent_read g p (Hnames p Hp))).
Qed.

(** *** The whole page *)

(** The page on which the game is shown.  Nothing of what was shown before is left. *)
Definition spectator_page : ViewerUI.t :=
  {| last_state := Some (state_of g);
     ViewerUI.game_info_text := u "🎯 ハンド #" ++ str_of_Z (Z.of_nat (hand_number g)) ++ u " | 🎲 フェーズ: "
                                ++ GameUI.phase_name (current_phase g);
     ViewerUI.community_cards_row := match community_cards g with
                                     | [] => [Label (u "まだカードがありません")]
                                     | cards => GameUI.Card <$> faces cards
                                     end;
     ViewerUI.pot_text := u "💰 Pot: " ++ grouped (pot g) ++ u "   💵 Bet: " ++ grouped (current_bet g);
     ViewerUI.table_status_text := u "Hand #" ++ str_of_Z (Z.of_nat (hand_number g)) ++ u "  •  "
                                   ++ GameUI.phase_name (current_phase g);
     stack_seats := seen ∘ own_seat g <$> players g;
     stack_overlay := bool_decide (is_Some (last_showdown_results g));
     ViewerUI.action_history_column := item_of g <$> reverse (action_history g);
     llm_agents_grid := agent_shown g <$> filter (λ p, is_api_player p) (players g);
     showdown_results_column := from_option (rows_of g) [] (last_showdown_results g);
     showdown_overlay_visible := bool_decide (is_Some (last_showdown_results g)) |}.

Lemma phase_read : ViewerUI.phase_name (JStr (phase_value (current_phase g)))
  = Ok (GameUI.phase_name (current_phase g)).
Proof. by destruct (current_phase g). Qed.

Lemma page_update_run s : last_state s = Some (state_of g) →
  ViewerUI.update_display s = (Ok tt, spectator_page).
Proof.
  intros Hs. unfold ViewerUI.update_display. step. cbv zeta. rewrite Hs.
  change (default JNull (Some (state_of g))) with (state_of g).
  change (truthy (state_of g)) with true. cbv iota.
  assert (json_get (u "ready") JNull (state_of g) = Ok (JBool true) ∧
    json_get (u "phase") (JStr []) (state_of g) = Ok (JStr (phase_value (current_phase g))) ∧
    json_get (u "hand_number") (JInt 0) (state_of g) = Ok (json_nat (hand_number g)) ∧
    json_get (u "pot") (JInt 0) (state_of g) = Ok (JInt (pot g)) ∧
    json_get (u "current_bet") (JInt 0) (state_of g) = Ok (JInt (current_bet g)))
    as (E1 & E2 & E3 & E4 & E5).
  { unfold state_of, build_viewer_state. cbn [SharedState.get_current_game SharedState.current_game].
    split_and!; by json_lookup. }
  rewrite (lift_run _ _ _ _ E1). change (negb (truthy (JBool true))) with false. cbv iota.
  rewrite (lift_run _ _ _ _ E2), (lift_run _ _ _ _ phase_read), (lift_run _ _ _ _ E3). step.
  erewrite bind_run; [|apply show_community_run].
  rewrite (lift_run _ _ _ _ E4), (lift_run _ _ _ _ E5). do 4 step.
  erewrite bind_run; [|by apply show_table_run; rewrite <- Hs].
  erewrite bind_run; [|apply show_history_run]. rewrite show_agents_run.
  destruct s as [st]. change (st = Some (state_of g)) in Hs. rewrite Hs. reflexivity.
Qed.
End Table.

(** The answer to a request for the state *)
Definition fetched (registry : SharedState.t) : ViewerUI.answer :=
  let '(status, body) := do_GET (u "/state") registry in
  Ok (status <? 400, match body with Some v => Ok v | None => Raise JSONDecodeError end).

Lemma poll_run g s : Forall name_ok (players g) →
  poll (fetched (SharedState.SharedState (Some g))) s = (Ok tt, spectator_page g).
Proof.
  intros H. unfold poll, fetched. change (do_GET _ _) with (200, Some (state_of g)).
  cbv beta iota zeta. change (200 <? 400) with true. unfold try_except at 1.
  erewrite bind_run; [|by unfold try_except; run_monad; reflexivity].
  by rewrite (page_update_run g).
Qed.

(** The texts that the screens of the players and the page share *)
Lemma display_shared i g sc : display i g = Ok sc →
  ViewerUI.game_info_text (spectator_page g) = GameUI.game_info_text sc ∧
  ViewerUI.community_cards_row (spectator_page g) = GameUI.community_cards_row sc ∧
  ViewerUI.pot_text (spectator_page g) = GameUI.pot_text sc ∧
  ViewerUI.table_status_text (spectator_page g) = GameUI.table_status_text sc ∧
  ViewerUI.action_history_column (spectator_page g) = GameUI.action_history_column sc.
Proof.
  unfold display. rewrite card_row_faces.
  destruct (GameUI.build_seat_controls i g) as [ss|]; [|by destruct (bool_decide _)].
  destruct (your_cards i g) as [ys|]; [|by destruct (bool_decide _)].
  rewrite (map_result_ok (GameUI.create_action_history_item (Some g)) (item_of g)) by apply item_ok.
  intros H. assert (community_cards g = [] ∨ community_cards g ≠ []) as Hc
    by (destruct (community_cards g); auto).
  destruct Hc as [Hc|Hc]; [rewrite bool_decide_true in H by done|rewrite bool_decide_false in H by done];
    cbn [mbind result_bind] in H; injection H as <-; unfold spectator_page;
    cbn [ViewerUI.game_info_text ViewerUI.community_cards_row ViewerUI.pot_text
         ViewerUI.table_status_text ViewerUI.action_history_column GameUI.game_info_text
         GameUI.community_cards_row GameUI.pot_text GameUI.table_status_text
         GameUI.action_history_column]; rewrite str_of_nat_Z; split_and!; try reflexivity.
  - by rewrite Hc.
  - by destruct (community_cards g).
Qed.

(** C34: the page for spectators, fed with the answer of the state server, shows a game
    whatever it showed before, without an exception.  The line on top, the board, the
    pot and the history are those on the screen of every player; each seat is the one
    its player sees, so with its cards face up, but for the marks of the turn; the
    results of a showdown have the rows of the players' overlay, and nothing is shown
    of them once the next hand begins; and the card of each agent has its name and the
    last action that the server reads from the history. *)
Theorem spectators_see_the_table g :
  Forall name_ok (players g) →
  ∃ page, (∀ s, poll (fetched (SharedState.SharedState (Some g))) s = (Ok tt, page)) ∧
    (∀ i sc, display i g = Ok sc →
       ViewerUI.game_info_text page = GameUI.game_info_text sc ∧
       ViewerUI.community_cards_row page = GameUI.community_cards_row sc ∧
       ViewerUI.pot_text page = GameUI.pot_text sc ∧
       ViewerUI.table_status_text page = GameUI.table_status_text sc ∧
       ViewerUI.action_history_column page = GameUI.action_history_column sc) ∧
    Forall2 (λ p seat, ∃ own, GameUI.build_seat (Player.id p) g p = Ok own ∧ seat = seen own)
      (players g) (stack_seats page) ∧
    match last_showdown_results g with
    | None => overlay page = None
    | Some r => ∃ rows, overlay page = Some rows ∧
        showdown_rows (Some g) r =
          Ok ((inl <$> rows) ++ [inr (Button (u "次のハンドへ") ConfirmShowdown)])
    end ∧
    Forall2 (λ p card, agent_name card = get_display_name p ∧
        let '(action, amount) := latest_action_for_player (Player.id p) g in
        agent_row card = agent_items action amount)
      (filter (λ p, is_api_player p) (players g)) (llm_agents_grid page).
Proof.
  intros Hn. exists (spectator_page g). split; [intros s; by apply poll_run|].
  split; [intros i sc; apply display_shared|]. split.
  { cbn [stack_seats spectator_page]. apply Forall2_fmap_r, Forall_Forall2_diag, Forall_true.
    intros p. exists (own_seat g p). split; [apply own_seat_ok|done]. }
  split.
  { unfold overlay, spectator_page. cbn [stack_overlay showdown_overlay_visible showdown_results_column].
    destruct (last_showdown_results g) as [r|]; [|done].
    exists (rows_of g r). split; [done|apply showdown_rows_of]. }
  cbn [llm_agents_grid spectator_page]. apply Forall2_fmap_r, Forall_Forall2_diag, Forall_true.
  intros p. unfold agent_shown, compose. by destruct (latest_action_for_player (Player.id p) g).
Qed.
