(* ===== verification/AgentsProps.v ===== *)
(** * Properties of the games of agents

    The specification of the agents is parsed as documented and everything else
    is refused; the results add up. *)
From stdpp Require Import strings.
From S2P Require Import Prelude Py Json GameModels PlayerModels Evaluator GameHistory Game.
From S2P Require Import GameProps ShowdownProps Cli CliGames.
Import PokerGame AgentsConfig Games.

(** ** Splitting what was joined *)

Lemma split_max_join n c l :
  l ≠ [] → Forall (λ s, c ∉ s) l → (length l ≤ S n)%nat → split_max n [c] (join [c] l) = l.
Proof.
  revert n. induction l as [|s [|t l] IH]; intros n Hne Hc Hn; [done| |].
  - inversion_clear Hc as [|? ? Hs]. by apply split_max_absent.
  - inversion_clear Hc as [|? ? Hs Hl]. destruct n as [|n]; [simpl in Hn; lia|].
    change (join [c] (s :: t :: l)) with (s ++ c :: join [c] (t :: l)).
    cbn [split_max]. rewrite find_sub_char by done. rewrite take_app_length. f_equal.
    rewrite (cons_middle c s), (assoc_L (++)), <- (length_app s [c]), drop_app_length.
    apply IH; [done..|simpl in *; lia].
Qed.

Lemma join_length c l : (length l ≤ S (length (join [c] l)))%nat.
Proof.
  induction l as [|s [|t l] IH]; [simpl; lia..|].
  change (join [c] (s :: t :: l)) with (s ++ [c] ++ join [c] (t :: l)).
  rewrite !length_app. cbn [length] in *. lia.
Qed.

Lemma split_join c l : l ≠ [] → Forall (λ s, c ∉ s) l → split [c] (join [c] l) = l.
Proof. intros Hne Hc. apply split_max_join; [done|done|apply join_length]. Qed.

(** ** The agents of a game *)

(** A name that can be written in a specification *)
Definition plain_name (name : pystr) : Prop :=
  name ≠ [] ∧ Forall (λ c, is_space c = false ∧ c ≠ 44%N ∧ c ≠ 58%N) name.

(** [name:count] *)
Definition spec_text (spec : pystr * nat) : pystr := spec.1 ++ u ":" ++ str_of_nat spec.2.
Definition specs_text (specs : list (pystr * nat)) : pystr := join (u ",") (spec_text <$> specs).

(** The agents of the players in order *)
Definition agents_of (specs : list (pystr * nat)) : list pystr :=
  specs ≫= λ spec, replicate spec.2 spec.1.
Definition configs_of (agents : list pystr) : list config :=
  imap (λ i name, player_config name i) agents.

Lemma str_of_nat_digits k :
  str_of_nat k ≠ [] ∧ Forall (λ c, is_digit c = true) (str_of_nat k).
Proof.
  unfold str_of_nat. destruct (str_of_N_shape (N.of_nat k)) as (c & r & -> & H). done.
Qed.

Lemma digits_not_elem c s : Forall (λ c, is_digit c = true) s → is_digit c = false → c ∉ s.
Proof. rewrite Forall_forall. intros H Hc Hin. rewrite (H c Hin) in Hc. done. Qed.

Lemma spec_text_no_comma spec : plain_name spec.1 → 44%N ∉ spec_text spec.
Proof.
  intros [_ Hn]. rewrite Forall_forall in Hn. unfold spec_text. rewrite !elem_of_app.
  intros [H|[H|H]].
  - by apply Hn in H as (_ & H & _).
  - change (44%N ∈ [58%N]) in H. apply list_elem_of_singleton in H. done.
  - revert H. by apply digits_not_elem; [apply str_of_nat_digits|].
Qed.

Lemma strip_plain s c d :
  head s = Some c → last s = Some d → is_space c = false → is_space d = false → strip s = s.
Proof. apply strip_id. Qed.

Lemma strip_no_space s : Forall (λ c, is_space c = false) s → strip s = s.
Proof.
  intros H. destruct s as [|c s]; [done|].
  destruct (last (c :: s)) as [d|] eqn:E; [|by apply last_None in E].
  apply (strip_id _ c d); [done|done|by inversion H|by apply (last_Forall _ _ _ H E)].
Qed.

Lemma plain_spaces name : plain_name name → Forall (λ c, is_space c = false) name.
Proof. intros [_ H]. eapply Forall_impl; [exact H|]. by intros c [? _]. Qed.

Lemma spec_text_strip spec : plain_name spec.1 → strip (spec_text spec) = spec_text spec.
Proof.
  intros Hn. apply strip_no_space. unfold spec_text. rewrite !Forall_app. split_and!.
  - by apply plain_spaces.
  - by repeat constructor.
  - eapply Forall_impl; [apply str_of_nat_digits|]. by intros c ?%digit_not_space.
Qed.

Lemma parse_spec_text available spec :
  plain_name spec.1 → spec.1 ∈ available → (0 < spec.2)%nat →
  parse_spec available (spec_text spec) = Ok spec.
Proof.
  destruct spec as [name count]. cbn [fst snd]. intros Hn Ha Hc.
  assert (58%N ∉ name) as Hcolon.
  { destruct Hn as [_ Hn]. rewrite Forall_forall in Hn. intros H. by apply Hn in H as (_ & _ & ?). }
  assert (find_sub (u ":") (spec_text (name, count)) = Some (length name)) as Hf
    by (apply (find_sub_char 58%N); done).
  unfold parse_spec. rewrite (spec_text_strip (name, count) Hn).
  unfold contains. rewrite Hf, bool_decide_eq_true_2 by (by eexists). cbn [negb].
  cbn [split_max]. rewrite Hf. unfold spec_text. cbn [fst snd].
  rewrite take_app_length. cbn [nth_item lookup list_lookup mbind result_bind].
  rewrite (strip_no_space name) by by apply plain_spaces.
  rewrite bool_decide_eq_true_2 by done. cbn [negb].
  rewrite (assoc_L (++)), <- (length_app name (u ":")), drop_app_length.
  destruct (str_of_nat_digits count) as [H1 H2]. rewrite strip_digits by done.
  unfold str_of_nat. rewrite int_of_str_of_N.
  destruct (Z.leb_spec (Z.of_N (N.of_nat count)) 0); [lia|]. do 2 f_equal. lia.
Qed.

Lemma imap_from (name : pystr) count rest k :
  imap (λ i x, player_config x (k + i)) (replicate count name ++ rest)
  = (player_config name <$> seq k count) ++ imap (λ i x, player_config x (k + count + i)) rest.
Proof.
  rewrite imap_app. f_equal.
  - revert k. induction count as [|count IH]; intros k; [done|].
    cbn [replicate seq]. rewrite imap_cons, fmap_cons, Nat.add_0_r. f_equal.
    rewrite <- IH. apply imap_ext. intros i x _. simpl. f_equal. lia.
  - rewrite length_replicate. apply imap_ext. intros i x _. f_equal. lia.
Qed.

Lemma parse_specs_text available k specs :
  Forall (λ spec, plain_name spec.1 ∧ spec.1 ∈ available ∧ (0 < spec.2)%nat) specs →
  parse_specs available k (spec_text <$> specs)
  = Ok (imap (λ i name, player_config name (k + i)) (agents_of specs)).
Proof.
  intros H. revert k. induction H as [|[name count] specs (Hn & Ha & Hc) _ IH]; intros k; [done|].
  rewrite fmap_cons. cbn [parse_specs]. rewrite parse_spec_text by done.
  cbn [mbind result_bind]. rewrite IH. cbn [mbind result_bind]. unfold agents_of at 2.
  rewrite bind_cons. cbn [fst snd]. by rewrite imap_from.
Qed.

(** A specification of two to ten players of agents that exist gives one
    configuration per player, in the order of the specification, numbered from
    zero. *)
Theorem parse_agents_config_text found specs :
  found ≠ [] →
  Forall (λ spec, plain_name spec.1 ∧ spec.1 ∈ found ∧ (0 < spec.2)%nat) specs →
  (2 ≤ length (agents_of specs) ≤ 10)%nat →
  parse_agents_config found (specs_text specs) = Ok (configs_of (agents_of specs)).
Proof.
  intros Hf Hs Hl. unfold parse_agents_config, specs_text.
  change (u ",") with [44%N]. rewrite split_join.
  - destruct found as [|a found]; [done|]. rewrite parse_specs_text by done.
    cbn [mbind result_bind]. rewrite length_imap.
    rewrite (proj2 (Nat.ltb_ge _ 2)), (proj2 (Nat.ltb_ge 10 _)) by lia. done.
  - destruct specs; [simpl in Hl; lia|done].
  - apply Forall_fmap. eapply Forall_impl; [exact Hs|]. intros spec (? & _). by apply spec_text_no_comma.
Qed.

(** What one specification can give *)
Lemma parse_spec_cases available spec :
  parse_spec available spec = Raise ValueError ∨
  ∃ name count, parse_spec available spec = Ok (name, count) ∧ name ∈ available ∧ (0 < count)%nat.
Proof.
  unfold parse_spec, contains. case_bool_decide as Hc; cbn [negb]; [|by left].
  destruct Hc as [i Hi]. cbn [split_max]. rewrite Hi. cbn [nth_item lookup list_lookup mbind result_bind].
  case_bool_decide as Ha; cbn [negb]; [|by left].
  destruct (int_of_str _) as [z|]; [|by left]. destruct (Z.leb_spec z 0); [by left|].
  right. eexists _, _. split_and!; [done|done|lia].
Qed.

Lemma parse_specs_cases available k specs :
  parse_specs available k specs = Raise ValueError ∨
  ∃ agents, parse_specs available k specs = Ok (imap (λ i name, player_config name (k + i)) agents) ∧
            Forall (λ name, name ∈ available) agents.
Proof.
  revert k. induction specs as [|spec specs IH]; intros k; cbn [parse_specs].
  { right. by exists []. }
  destruct (parse_spec_cases available spec) as [->|(name & count & -> & Ha & Hc)]; [by left|].
  cbn [mbind result_bind]. destruct (IH (k + count)%nat) as [->|(agents & -> & HF)]; [by left|].
  right. exists (replicate count name ++ agents). cbn [mbind result_bind]. rewrite imap_from.
  split; [done|]. apply Forall_app. split; [|done].
  apply Forall_forall. intros x [-> _]%elem_of_replicate. done.
Qed.

(** What a whole specification can give *)
Lemma parse_agents_config_cases found text :
  let available := match found with [] => fallback_agents | _ => found end in
  parse_agents_config found text = Raise ValueError ∨
  ∃ agents, parse_agents_config found text = Ok (configs_of agents) ∧
    (2 ≤ length agents ≤ 10)%nat ∧ Forall (λ name, name ∈ available) agents.
Proof.
  intros available. unfold parse_agents_config. fold available.
  destruct (parse_specs_cases available 0 (split (u ",") text)) as [->|(agents & -> & Ha)]; [by left|].
  cbn [mbind result_bind]. rewrite length_imap.
  destruct (Nat.ltb_spec (length agents) 2); [by left|].
  destruct (Nat.ltb_spec 10 (length agents)); [by left|].
  right. exists agents. split_and!; [done|lia|lia|done].
Qed.

(** Whatever the text, the agents of a game are refused with a [ValueError],
    or there are two to ten players, all of known agents and numbered from zero. *)
Theorem parse_agents_config_sound found text :
  let available := match found with [] => fallback_agents | _ => found end in
  parse_agents_config found text = Raise ValueError ∨
  ∃ agents, parse_agents_config found text = Ok (configs_of agents) ∧
    (2 ≤ length agents ≤ 10)%nat ∧ Forall (λ name, name ∈ available) agents.
Proof. apply parse_agents_config_cases. Qed.

(** ** The results *)

Lemma sum_fold (f : agent_stats → Z) (h : pystr * stats → Z) g d l :
  (∀ d kv, sum_by (λ x, f x.2) (add_agent_stats g d kv) = sum_by (λ x, f x.2) d + h kv) →
  sum_by (λ x, f x.2) (foldl (add_agent_stats g) d l) = sum_by (λ x, f x.2) d + sum_by h l.
Proof.
  intros H. revert d. induction l as [|kv l IH]; intros d; cbn [foldl].
  - rewrite sum_by_nil. lia.
  - rewrite IH, H, sum_by_cons. lia.
Qed.

Ltac add_stats :=
  intros d [name st]; unfold add_agent_stats; cbn [fst snd];
  match goal with |- sum_by (λ x, ?f x.2) _ = _ => rewrite (sum_by_dict_set f) end;
  destruct (dict_get _ d); simpl; lia.

(** The results by agent add up to those of the players: the wins, the
    winnings, the hands and the number of players. *)
Theorem agent_results_total player_stats g :
  let r := agent_results player_stats g in
  sum_by (λ x, as_players x.2) r = Z.of_nat (length player_stats) ∧
  sum_by (λ x, as_total_wins x.2) r = total_wins player_stats ∧
  sum_by (λ x, as_total_winnings x.2) r = sum_by (λ x, total_winnings x.2) player_stats ∧
  sum_by (λ x, as_total_hands x.2) r = sum_by (λ x, hands_played x.2) player_stats.
Proof.
  intros r. subst r. unfold agent_results. split_and!.
  - rewrite (sum_fold as_players (λ _, 1)), sum_by_const by add_stats. rewrite sum_by_nil. lia.
  - rewrite (sum_fold as_total_wins (λ x, hands_won x.2)) by add_stats.
    unfold total_wins. rewrite sum_by_nil. lia.
  - rewrite (sum_fold as_total_winnings (λ x, total_winnings x.2)) by add_stats.
    rewrite sum_by_nil. lia.
  - rewrite (sum_fold as_total_hands (λ x, hands_played x.2)) by add_stats.
    rewrite sum_by_nil. lia.
Qed.
