(* ===== verification/AgentGames.v ===== *)
(** * Games of language model agents

    [run_agent_only_mode] with players that decide over the network: the whole of
    the game, from the text that names the agents to its end. *)
From stdpp Require Import strings.
From S2P Require Import Prelude Py Json GameModels PlayerModels LlmPlayers Evaluator GameHistory.
From S2P Require Import Game GameProps HandInvariant StartHand HandProps Showdown ShowdownProps.
From S2P Require Import ViewProps Seating Cli CliGames CliProps LlmProps AgentsProps.
Import PokerGame AgentsConfig Games.

(** Every player decides by the method of its class; a decision meets its own draws
    and its own network.  The game keeps nothing of the reasoning. *)
Definition agent_decisions (randint : nat → nat → Z) (choice : nat → list Z → nat)
    (nets : nat → LLM.network) : nat → player → GameState.t → result decision :=
  λ k p gs, (LLM.make_decision (randint k) (choice k) (nets k) gs p).1.

Lemma agents_decide randint choice nets k p g gs :
  (∀ k, fair_draws (randint k) (choice k)) → (∀ k, uninterrupted (nets k)) →
  hand_ok g → p ∈ players g → Player.status p = ACTIVE → Player.kind p ≠ HumanPlayer →
  get_llm_game_state (Player.id p) g = Ok gs →
  is_Ok (agent_decisions randint choice nets k p gs).
Proof.
  intros Hd Hn Hok Hp Ha Hk Hgs.
  destruct (decides_and_fits (randint k) (choice k) g p gs (Hd k) Hok Hp Ha Hgs (nets k) (Hn k) Hk)
    as (d & p' & E & _). exists d. unfold agent_decisions. by rewrite E.
Qed.

(** ** The statistics *)

(** Every seat has its entry. *)
Definition known (st : seatings) (s : session) : Prop :=
  ∀ x, x ∈ st.1 → x.1.2 ∈ (player_stats s).*1.

Lemma known_frame st s s' : player_stats s' = player_stats s → known st s → known st s'.
Proof. intros E H x Hx. rewrite E. by apply H. Qed.

Lemma dict_item_known {V} k (d : list (pystr * V)) : k ∈ d.*1 → is_Ok (dict_item k d).
Proof.
  intros H. unfold dict_item. destruct (dict_get k d) eqn:E; [by eexists|].
  by apply dict_get_None in E.
Qed.

Section Stats.
Context (F : session → Prop) (P : t → Prop) (st : seatings).
Notation inv := (λ s, P (game s) ∧ known st s).

Lemma update_stats_safe name f :
  (∃ x, x ∈ st.1 ∧ x.1.2 = name) → safe F inv (update_stats name f) (λ _, inv).
Proof.
  intros (x & Hx & <-) s [Hp Hk]. unfold update_stats. unfold mbind, M_bind, get, lift, put.
  destruct (dict_item_known _ _ (Hk x Hx)) as [v ->]. split; [exact Hp|].
  intros y Hy. cbn. apply dict_set_keys_elem. right. by apply Hk.
Qed.
End Stats.

Lemma seat_of g st p : seating g = st → p ∈ players g → identity p ∈ st.1.
Proof. intros <- Hp. apply list_elem_of_fmap. by exists p. Qed.

Section Stats.
Context (F : session → Prop) (n : Z) (st : seatings).
Notation inv := (λ s, at_rest n st (game s) ∧ known st s).

Lemma count_hand_safe : safe F inv count_hand (λ _, inv).
Proof.
  unfold count_hand. apply safe_get. intros s0 [Hr Hk].
  eapply safe_weaken; [apply (safe_for_each F inv)| |done].
  - intros p Hp. destruct (not_busted p); [|by apply safe_ret].
    apply update_stats_safe. exists (identity p). split; [|done].
    eapply seat_of; [apply Hr|done].
  - by intros s ->.
Qed.

Lemma count_wins_safe results : safe F inv (count_wins results) (λ _, inv).
Proof.
  unfold count_wins. apply safe_get. intros s0 [Hr Hk].
  eapply safe_weaken; [apply (safe_for_each F inv)| |done].
  - intros r _. destruct (get_player _ _) as [p|] eqn:Hp; [|by apply safe_ret].
    apply update_stats_safe. exists (identity p). split; [|done].
    eapply seat_of; [apply Hr|by eapply get_player_in].
  - by intros s ->.
Qed.
End Stats.

(** ** What the loops do not touch *)

Lemma stable_on_game {A} st (m : M t A) : stable (known st) (on_game m).
Proof. intros s Hs. unfold on_game. by destruct (m (game s)). Qed.

Lemma stable_act st i d : stable (known st) (act i d).
Proof. intros s Hs. unfold act. by destruct (process_player_action _ _ _ _). Qed.

#[export] Hint Resolve stable_on_game stable_act : poker.
#[export] Hint Extern 1 (stable _ (modify _)) => by apply stable_modify; intros ? ? : poker.

Lemma stable_auto_turn st make_decision p : stable (known st) (auto_turn make_decision p).
Proof. unfold auto_turn. stable_parts. Qed.

Lemma stable_betting_loop st make_decision fuel :
  stable (known st) (betting_loop (auto_turn make_decision) fuel).
Proof.
  induction fuel as [|fuel IH]; cbn [betting_loop]; stable_parts.
Qed.

#[export] Hint Resolve stable_betting_loop : poker.

Lemma stable_phase_loop st make_decision fuel phases :
  stable (known st) (phase_loop (auto_turn make_decision) (mret true) fuel phases).
Proof.
  induction phases as [|phases IH]; cbn [phase_loop]; stable_parts.
Qed.

Lemma stable_start_hand st shuffle : stable (known st) (start_hand shuffle).
Proof. unfold start_hand. stable_parts. Qed.

(** ** A hand *)

Section Hand.
Context (make_decision : nat → player → GameState.t → result decision).
Context (shuffle : nat → Deck.t → Deck.t) (n : Z) (st : seatings).
Hypothesis decides : ∀ k p g gs,
  hand_ok g → seating g = st → p ∈ players g → Player.status p = ACTIVE →
  get_llm_game_state (Player.id p) g = Ok gs → is_Ok (make_decision k p gs).
Hypothesis shuffles : ∀ k, shuffle k Deck.full ≡ₚ Deck.full.

Notation out := (λ s, (at_rest n st (game s) ∨ in_play n st (game s)) ∧ known st s).
Notation resting := (λ s, at_rest n st (game s) ∧ known st s).
Notation playing ph := (λ s, (in_play n st (game s) ∧ current_phase (game s) = ph) ∧ known st s).

Lemma finished_hand_safe :
  safe out (playing SHOWDOWN)
    (results ← on_game Showdown.conduct_showdown; count_wins results ;; mret true)
    (λ _, resting).
Proof.
  eapply safe_bind.
  - intros s [[Hi Hp] Hk]. unfold on_game.
    destruct (in_play_showdown n st (game s) Hi Hp) as (r & g' & -> & H).
    instantiate (1 := λ _, resting). done.
  - intros r. eapply safe_bind; [apply count_wins_safe|]. intros ?. by apply safe_ret.
Qed.

Lemma agent_hand_safe fuel :
  safe out resting (agent_hand make_decision shuffle fuel) (λ _, resting).
Proof.
  unfold agent_hand. eapply safe_bind; [by apply (safe_modify _ _ _ (λ _, resting))|]. intros ?.
  eapply safe_bind; [apply count_hand_safe|]. intros ?.
  eapply safe_bind.
  { apply safe_frame; [by apply start_hand_safe|apply stable_start_hand]. }
  intros ?. apply safe_get. intros s0 [[[Hp Hr]|[Hi Hp]] Hk].
  { rewrite bool_decide_eq_true_2 by done. apply safe_ret. by intros s ->. }
  rewrite bool_decide_eq_false_2 by (by rewrite Hp).
  eapply safe_bind.
  { eapply (safe_weaken _ _ (playing PREFLOP)); [| |by intros ? ? ?].
    - apply safe_frame; [by apply (phase_loop_safe make_decision n st decides); simpl; lia
                        |apply stable_phase_loop].
    - by intros s ->. }
  intros b. apply safe_get. intros s1 [(_ & Hi1 & Hp1) Hk1].
  rewrite bool_decide_eq_true_2 by done.
  eapply safe_weaken; [apply finished_hand_safe| |done]. by intros s ->.
Qed.
End Hand.

(** ** The set-up *)

(** The players of the named agents *)
Definition agent_player (chips : Z) (i : nat) (agent : pystr) : player :=
  Player.new (LLMApiPlayer agent (u "player_" ++ str_of_nat i)) i (u "Agent" ++ str_of_nat i) chips.

Lemma add_agents k agents g :
  (length (players g) + length agents ≤ 10)%nat →
  add_players_of_configs k (imap (λ i a, player_config a (k + i)) agents) g
  = (Ok tt, g <| players := players g
                   ++ imap (λ i a, agent_player (initial_chips g) (k + i) a) agents |>).
Proof.
  revert k g. induction agents as [|a agents IH]; intros k g L.
  - cbn [imap add_players_of_configs]. rewrite (right_id_L [] (++)). by destruct g.
  - rewrite !imap_cons. cbn [add_players_of_configs]. run_monad.
    rewrite !bool_decide_eq_false_2 by str_ne. rewrite bool_decide_eq_true_2 by done.
    rewrite !Nat.add_0_r. unfold add_player. run_monad. cbn [length] in L.
    rewrite (proj2 (Nat.leb_gt 10 _)) by lia.
    set (g1 := g <| players := _ |>).
    rewrite (imap_ext _ (λ i x, player_config x (S k + i)))
      by (intros i x _; cbn; f_equal; lia).
    rewrite IH by (unfold g1; cbn; rewrite length_app; cbn; lia).
    match goal with |- (_, g1 <| players := ?l1 |>) = (_, g <| players := ?l2 |>) =>
      assert (l1 = l2) as ->; [|done] end.
    unfold g1. cbn. rewrite <- (assoc_L (++)). cbn [app]. do 2 f_equal.
    apply imap_ext. intros i x _. cbn. by rewrite Nat.add_succ_r.
Qed.

(** The game as the agents find it *)
Definition agents_table (shuffle : Deck.t → Deck.t) (button : nat) (agents : list pystr) : t :=
  PokerGame.new shuffle 10 20 2000 <| players := imap (agent_player 2000) agents |>
    <| dealer_button := button |>.

Lemma setup_agents shuffle (randint : nat → nat) agents :
  (2 ≤ length agents ≤ 10)%nat →
  setup_configurable_game_with_models randint (configs_of agents) (PokerGame.new shuffle 10 20 2000)
  = (Ok tt, agents_table shuffle (randint (length agents - 1)%nat) agents).
Proof.
  intros L. unfold setup_configurable_game_with_models, configs_of. rewrite !length_imap.
  rewrite !(proj2 (Nat.leb_le _ _)) by lia. cbn [andb negb]. run_monad.
  set (g0 := PokerGame.new shuffle 10 20 2000 <| players := [] |>).
  rewrite (imap_ext _ (λ i x, player_config x (0 + i))) by done.
  rewrite add_agents by (cbn; lia). cbn [app].
  unfold agents_table. do 2 f_equal.
  change (players g0) with (@nil player). cbn [app].
  set (l := imap _ agents). set (l' := imap (agent_player 2000) agents).
  assert (l = l') as -> by done.
  assert (length l' = length agents) as <- by apply length_imap. done.
Qed.

Lemma agents_table_rest shuffle button agents :
  (length agents ≤ 10)%nat →
  at_rest (2000 * Z.of_nat (length agents)) (seating (agents_table shuffle button agents))
    (agents_table shuffle button agents).
Proof.
  intros L. split; [split| |done].
  - intros i p Hp. change (imap (agent_player 2000) agents !! i = Some p) in Hp.
    rewrite list_lookup_imap in Hp. by destruct (agents !! i); simplify_eq/=.
  - change (players (agents_table shuffle button agents)) with (imap (agent_player 2000) agents).
    apply Forall_lookup. intros i p Hp. rewrite list_lookup_imap in Hp.
    by destruct (agents !! i); simplify_eq/=.
  - change (players (agents_table shuffle button agents)) with (imap (agent_player 2000) agents).
    by rewrite length_imap.
  - change (chips_of (agents_table shuffle button agents))
      with (sum_by Player.chips (imap (agent_player 2000) agents)).
    rewrite (sum_by_ext _ (λ _, 2000)).
    + by rewrite sum_by_const, length_imap.
    + intros p [i Hp]%list_elem_of_lookup. rewrite list_lookup_imap in Hp.
      by destruct (agents !! i); simplify_eq/=.
Qed.

(** No person among them *)
Lemma agents_seats shuffle button agents x :
  x ∈ (seating (agents_table shuffle button agents)).1 → x.2 ≠ HumanPlayer.
Proof.
  intros (p & -> & Hp)%list_elem_of_fmap.
  change (p ∈ imap (agent_player 2000) agents) in Hp.
  apply list_elem_of_lookup in Hp as [i Hp]. rewrite list_lookup_imap in Hp.
  by destruct (agents !! i); simplify_eq/=.
Qed.

Lemma initial_stats_known configs g s :
  known (seating g) (s <| player_stats := initial_stats configs g |>).
Proof.
  intros x Hx. change (x.1.2 ∈ (initial_stats configs g).*1).
  apply list_elem_of_fmap in Hx as (p & -> & Hp). unfold initial_stats.
  enough (∀ l d, (∃ q, q ∈ l ∧ Player.name q = Player.name p) ∨ Player.name p ∈ d.*1 →
    Player.name p ∈ (foldl (λ d p, dict_set (Player.name p)
      (Stats 0 0 0 (get_agent_type_for_player p configs)) d) d l).*1) as H.
  { apply H. left. by exists p. }
  clear Hp. intros l. induction l as [|q l IH]; intros d; cbn [foldl].
  - intros [(q & Hq & _)|H]; [by apply elem_of_nil in Hq|done].
  - intros H. apply IH. destruct H as [(r & [->|Hr]%elem_of_cons & E)|H].
    + right. rewrite dict_set_keys_elem. by left.
    + left. by exists r.
    + right. rewrite dict_set_keys_elem. by right.
Qed.

