(* ===== verification/Scenario.v ===== *)
(** * Concrete hands

    Tables, hands and actions on which the general theorems are applied, and the
    concrete runs that show where the program departs from the rules. *)
From stdpp Require Import strings relations.
From S2P Require Import Prelude Py Json GameModels PlayerModels Evaluator EvaluatorProps.
From S2P Require Import GameHistory Game GameProps HandInvariant StartHand HandProps.
From S2P Require Import ViewProps Showdown ShowdownProps.
Import PokerGame.

(** ** Checking a concrete state *)

(** The invariant of a hand as a test *)
Definition hand_ok_check (g : t) : bool :=
  bool_decide (imap (λ i _, i) (players g) = (Player.id <$> players g)) &&
  forallb (λ p, (0 <=? Player.chips p) && (0 <=? Player.current_bet p) &&
                (Player.current_bet p <=? Player.total_bet_this_hand p) &&
                (negb (has_status ACTIVE p) || (0 <? Player.chips p)) &&
                (negb (has_status ALL_IN p) || (Player.chips p =? 0)) &&
                (negb (has_status BUSTED p) ||
                   (Player.chips p =? 0) && (Player.total_bet_this_hand p =? 0)) &&
                (length (Player.hole_cards p) =? if not_busted p then 2 else 0)%nat)
    (players g) &&
  (pot g =? bets_of g) &&
  bool_decide (NoDup (table_cards g)) &&
  forallb (λ c, (2 <=? Card.rank c) && (Card.rank c <=? 14)) (table_cards g) &&
  match current_phase g with
  | SHOWDOWN => (length (community_cards g) <=? 5)%nat &&
                ((still_in g <=? 1)%nat || (length (community_cards g) =? 5)%nat)
  | FINISHED => false
  | ph => (length (community_cards g) =? board_size ph)%nat
  end &&
  (deck_needs (current_phase g) <=? length (deck g))%nat.

Lemma status_test s p : has_status s p = true ↔ Player.status p = s.
Proof. apply bool_decide_eq_true. Qed.

Lemma guarded_test (s : PlayerStatus) p (P : Prop) (b : bool) :
  negb (has_status s p) || b = true → (b = true → P) → Player.status p = s → P.
Proof.
  intros H HP Hs%status_test. rewrite Hs in H. by apply HP.
Qed.

Lemma hand_ok_check_sound g : hand_ok_check g = true → hand_ok g.
Proof.
  unfold hand_ok_check. intros H.
  repeat match goal with H : _ && _ = true |- _ => apply andb_true_iff in H as [H ?] end.
  rename H into Hs, H5 into Hp, H4 into Hpot, H3 into Hnd, H2 into Hv, H1 into Hb, H0 into Hd.
  split.
  - apply bool_decide_eq_true in Hs. intros i p Hi.
    assert ((Player.id <$> players g) !! i = Some (Player.id p)) as E
      by by rewrite list_lookup_fmap, Hi.
    rewrite <- Hs, list_lookup_imap, Hi in E. by injection E.
  - apply Forall_forall. intros p Hin%list_elem_of_In.
    rewrite forallb_forall in Hp. specialize (Hp p Hin).
    repeat match goal with H : _ && _ = true |- _ => apply andb_true_iff in H as [H ?] end.
    zbool. split; [split|by apply Nat.eqb_eq].
    + done.
    + lia.
    + eapply guarded_test; [eassumption|apply Z.ltb_lt].
    + eapply guarded_test; [eassumption|apply Z.eqb_eq].
    + eapply guarded_test; [eassumption|]. intros [? ?]%andb_true_iff. by zbool.
  - by apply Z.eqb_eq.
  - apply NoDup_submseteq; [by apply bool_decide_eq_true in Hnd|]. intros c Hc%list_elem_of_In.
    rewrite forallb_forall in Hv. specialize (Hv c Hc). apply andb_true_iff in Hv as [? ?].
    zbool. apply elem_of_full_deck. split; lia.
  - unfold board_ok. destruct (current_phase g); try by apply Nat.eqb_eq.
    + apply andb_true_iff in Hb as [H1 [H2|H2]%orb_true_iff]; split;
        [by apply Nat.leb_le|left; by apply Nat.leb_le|by apply Nat.leb_le|right; by apply Nat.eqb_eq].
    + done.
  - by apply Nat.leb_le.
Qed.

(** ** Tables and hands *)

Definition seats (stacks : list Z) : list player :=
  imap (λ i c, Player.new RandomPlayer i (u "CPU" ++ str_of_nat i) c) stacks.

(** A table with the given stacks, blinds 10 and 20, the button at seat 0 *)
Definition table (stacks : list Z) : t :=
  new id 10 20 1000 <| players := seats stacks |>.

(** The state after a computation that succeeds *)
Definition after {A} (m : M t A) (g : t) : t := (m g).2.

(** A list of actions in turn order: the acting player is always the one on turn. *)
Fixpoint play (acts : list (pystr * Z)) (g : t) : t :=
  match acts with
  | [] => g
  | (a, x) :: acts =>
      play acts (process_player_action (current_player_index g) a x g).2
  end.

Definition call : pystr * Z := (u "call", 0).
Definition check : pystr * Z := (u "check", 0).
Definition fold : pystr * Z := (u "fold", 0).
Definition shove : pystr * Z := (u "all_in", 0).
Definition raise_by (x : Z) : pystr * Z := (u "raise", x).

(** Three players with 500 chips each; the hand is dealt from an unshuffled deck. *)
Definition table3 : t := table [500; 500; 500].
Definition opened : t := after (start_new_hand id) table3.
Definition limped : t := play [call; call; check] opened.
Definition flopped : t := after advance_to_next_phase limped.

Lemma table3_ready : table_ready table3.
Proof.
  split; [|repeat constructor; done|simpl; lia].
  intros [|[|[|]]] p; intros [= <-]; done.
Qed.

Lemma opened_eq : start_new_hand id table3 = (Ok tt, opened).
Proof. vm_compute. reflexivity. Qed.

(** A step of a concrete hand: the action on turn is accepted. *)
Lemma play_step a x acts g :
  (process_player_action (current_player_index g) a x g).1 = true →
  hand_run (process_player_action (current_player_index g) a x g).2 (play acts (process_player_action (current_player_index g) a x g).2) →
  hand_run g (play ((a, x) :: acts) g).
Proof.
  intros E H. eapply rtc_l; [|exact H].
  apply (step_action _ _ (current_player_index g) a x).
  destruct (process_player_action _ _ _ _) as [b g']. cbn in *. by subst.
Qed.

Fixpoint all_accepted (acts : list (pystr * Z)) (g : t) : bool :=
  match acts with
  | [] => true
  | (a, x) :: acts =>
      let r := process_player_action (current_player_index g) a x g in
      r.1 && all_accepted acts r.2
  end.

Lemma play_run acts g : all_accepted acts g = true → hand_run g (play acts g).
Proof.
  revert g. induction acts as [|[a x] acts IH]; intros g H; [done|].
  apply andb_true_iff in H as [H1 H2]. apply play_step; [done|]. by apply IH.
Qed.

Lemma phase_run g : is_Ok (advance_to_next_phase g).1 → hand_run g (after advance_to_next_phase g).
Proof.
  intros [b H]. apply rtc_once, (step_phase _ _ b). unfold after.
  destruct (advance_to_next_phase g). cbn in *. by subst.
Qed.

(** The round ends without the other two players when the first to act folds. *)
Definition early : t := play [fold] flopped.

(** After the flop the betting round ends as soon as the first player to act
    folds: two players who have not acted on the flop are still in the hand. *)
Theorem first_fold_closes_round :
  hand_run opened flopped ∧ betting_round_complete flopped = false ∧
  process_player_action (current_player_index flopped) (u "fold") 0 flopped = (true, early) ∧
  betting_round_complete early = true ∧
  length (filter (λ p, Player.status p = ACTIVE) (players early)) = 2%nat ∧
  current_bet early = 0 ∧
  action_history early = action_history flopped ++ [u "Player 2 folded"].
Proof.
  split.
  - trans limped; [apply play_run|apply phase_run]; vm_compute; [reflexivity|by eexists].
  - split_and!; vm_compute; reflexivity.
Qed.

(** ** A big blind of fewer chips than the small blind *)

(** Seat 0 posts its last 5 chips as the big blind, seat 2 the small blind of 10. *)
Definition short_table : t := after (start_new_hand id) (table [5; 500; 500]).
Definition stuck : t := play [call] short_table.

Definition stuck_players : list player := Eval vm_compute in players stuck.

Lemma stuck_players_eq : players stuck = stuck_players.
Proof. vm_compute. reflexivity. Qed.

(** Everybody still able to act has been asked, over and over. *)
Definition stuck_inv (g : t) : Prop :=
  players g = stuck_players ∧ current_bet g = 5 ∧ betting_round_complete g = false ∧
  (current_player_index g = 1 ∨ current_player_index g = 2)%nat.

Lemma stuck_step g :
  stuck_inv g →
  ∃ g', process_player_action (current_player_index g) (u "check") 0 g = (true, g') ∧ stuck_inv g'.
Proof.
  intros (Hp & Hb & Hc & Hi).
  assert (∃ p, find_player (current_player_index g) g = Some (current_player_index g, p) ∧
    Player.status p = ACTIVE ∧ 5 <= Player.current_bet p) as (p & F & A & B).
  { unfold find_player. rewrite Hp.
    destruct Hi as [-> | ->]; eexists; (split; [reflexivity|split; [reflexivity|cbn; lia]]). }
  unfold process_player_action. rewrite bool_decide_eq_true_2, F by done. cbn [negb].
  unfold has_status at 1. rewrite A, bool_decide_eq_true_2 by done. cbn [negb].
  unfold execute_action. action_tests.
  destruct (Z.ltb_spec (Player.current_bet p) (current_bet g)); [lia|].
  eexists. split; [reflexivity|].
  match goal with |- context [if_hand_recorded ?f ?h] =>
    destruct (if_hand_recorded_frame f h) as [d ->] end.
  match goal with |- context [advance_to_next_player ?h] => set (g1 := h) end.
  assert (players g1 = stuck_players ∧ current_bet g1 = 5 ∧ betting_round_complete g1 = false ∧
    current_player_index g1 = current_player_index g) as (Hp1 & Hb1 & Hc1 & Hi1) by done.
  clearbody g1. clear F A B.
  assert (∃ i, advance_to_next_player g1 = g1 <| current_player_index := i |> ∧
    (i = 1 ∨ i = 2)%nat) as (i & -> & Hi').
  { unfold advance_to_next_player, seat_is. rewrite Hp1, Hi1.
    destruct Hi as [-> | ->]; eexists; split; [reflexivity|auto|reflexivity|auto]. }
  unfold check_betting_round_complete, stuck_inv. cbv zeta.
  change (players (g1 <| current_player_index := i |>)) with (players g1).
  change (current_bet (g1 <| current_player_index := i |>)) with (current_bet g1).
  rewrite Hp1, Hb1. cbn. done.
Qed.


(** ** Raises *)

(** Seat 1, first to act, has 45 chips; the blinds are 10 and 20. *)
Definition low_table : t := after (start_new_hand id) (table [500; 45; 500]).

(** The amount of a raise is not what the offer says, and it is not checked.
    The offered minimum is a total, the processed amount is added to the call, so
    that a player can be offered a raise the game rejects; and a raise by a
    negative amount is accepted and lowers the bet to match. *)
Theorem raise_amount_unchecked :
  (numbered (u "raise (min ") 40 ∈ get_available_actions 1 low_table ∧
   current_player_index low_table = 1%nat ∧
   (process_player_action 1 (u "raise") 40 low_table).1 = false) ∧
  (current_bet opened = 20 ∧ current_bet (play [raise_by (-15)] opened) = 5 ∧
   all_accepted [raise_by (-15)] opened = true).
Proof.
  split; [|by vm_compute]. split; [|by vm_compute].
  apply (bool_decide_unpack _). vm_compute. done.
Qed.

(** ** Chips that leave the game *)

(** Seat 1 raises to 100, the others are all-in for less; on the flop, where it
    is asked again, seat 1 folds. *)
Definition side_pot : t :=
  play [fold] (after advance_to_next_phase
    (play [raise_by 80; shove; shove] (after (start_new_hand id) (table [50; 500; 60])))).

Definition run_out (n : nat) (g : t) : t := Nat.iter n (after advance_to_next_phase) g.
Definition shown_down : t := after Showdown.conduct_showdown (run_out 3 side_pot).

(** Chips nobody else has matched stay in the pot when the player who put
    them in folds, and the next hand discards them: of 610 chips 570 are left. *)
Theorem unmatched_bet_is_lost :
  current_phase (run_out 3 side_pot) = SHOWDOWN ∧
  chips_of shown_down + pot shown_down = 610 ∧ pot shown_down = 40 ∧
  total_chips (after (start_new_hand id) shown_down) = 570.
Proof. vm_compute. done. Qed.

(** ** The record of the blinds *)

(** The hands and kinds of the rows of a database that record blinds *)
Definition blind_rows (d : GameHistoryDB.t) : list (nat * pystr) :=
  (λ a, (Action.hand_id a, Action.action_type a)) <$>
    filter (λ a, Action.action_type a ∈ [u "small_blind"; u "big_blind"])
      (GameHistoryDB.actions d).

Definition second_hand : t := after (start_new_hand id) opened.

(** The blinds of a hand are recorded before the hand has its row: those of
    the first hand are lost, those of the second are rows of the first. *)
Theorem blinds_recorded_in_previous_hand :
  current_hand_id opened = Some 1%nat ∧ blind_rows (db opened) = [] ∧
  current_hand_id second_hand = Some 2%nat ∧
  blind_rows (db second_hand) = [(1%nat, u "small_blind"); (1%nat, u "big_blind")].
Proof. vm_compute. done. Qed.
