(* ===== verification/Witnesses.v ===== *)
(** * Instances of the general theorems

    Each theorem with hypotheses is applied to a concrete game of [Scenario.v],
    where its hypotheses hold. *)
From stdpp Require Import strings relations.
From S2P Require Import Prelude Py Json GameModels PlayerModels Evaluator EvaluatorProps.
From S2P Require Import GameHistory Game GameProps HandInvariant StartHand HandProps.
From S2P Require Import ViewProps Showdown ShowdownProps Scenario StateServer ServerProps.
Import PokerGame StateServer.


(** Only seat 1 has chips. *)
Definition over_table : t := table [0; 700; 0].

Lemma start_new_hand_game_over_witness :
  ∃ g', start_new_hand id over_table = (Ok tt, g') ∧ current_phase g' = FINISHED ∧
        chips_of g' = chips_of over_table ∧ pot g' = 0.
Proof.
  apply (start_new_hand_game_over id over_table).
  - split; [|repeat constructor; done|simpl; lia].
    intros [|[|[|]]] p; intros [= <-]; done.
  - vm_compute. lia.
Defined.

Lemma opened_ok : hand_ok opened.
Proof. apply hand_ok_check_sound. vm_compute. reflexivity. Qed.

Lemma process_player_action_accepts_witness :
  (process_player_action 1 (u "raise") 40 opened).1 = true ↔
  1%nat = current_player_index opened ∧
  ∃ p, players opened !! 1%nat = Some p ∧ Player.status p = ACTIVE ∧
       legal p (u "raise") 40 opened = true.
Proof. apply (process_player_action_accepts 1 (u "raise") 40 opened), opened_ok. Defined.

Definition raised : t := play [raise_by 40] opened.

Lemma process_player_action_effect_witness :
  ∃ p p', players opened !! 1%nat = Some p ∧
    players raised = <[1%nat := p']> (players opened) ∧
    let paid := payment p (u "raise") 40 opened in
    pot raised = pot opened + paid ∧
    Player.chips p' = Player.chips p - paid ∧
    Player.current_bet p' = Player.current_bet p + paid ∧
    Player.total_bet_this_hand p' = Player.total_bet_this_hand p + paid ∧
    (0 ≤ Player.chips p → 0 ≤ paid ≤ Player.chips p) ∧
    Player.status p' = status_after (u "raise") paid (Player.chips p) ∧
    current_bet raised = bet_after (u "raise") (Player.current_bet p') opened ∧
    Player.hole_cards p' = Player.hole_cards p ∧
    deck raised = deck opened ∧ community_cards raised = community_cards opened ∧
    current_phase raised = current_phase opened ∧ dealer_button raised = dealer_button opened.
Proof.
  apply (process_player_action_effect 1 (u "raise") 40 opened raised).
  - apply opened_ok.
  - vm_compute. reflexivity.
Defined.

Lemma process_player_action_rejected_witness :
  (process_player_action 2 (u "fold") 0 opened).2 = opened.
Proof.
  apply (process_player_action_rejected 2 (u "fold") 0 opened). vm_compute. reflexivity.
Defined.

Lemma limped_ok : hand_ok limped.
Proof. apply hand_ok_check_sound. vm_compute. reflexivity. Qed.

Lemma advance_to_next_phase_correct_witness :
  ∃ b g', advance_to_next_phase limped = (Ok b, g') ∧ hand_ok g' ∧
    if negb (betting_round_complete limped) then b = false ∧ g' = limped
    else if (still_in limped <=? 1)%nat then b = true ∧ g' = limped <| current_phase := SHOWDOWN |>
    else match current_phase limped with
         | RIVER => b = true ∧ g' = limped <| current_phase := SHOWDOWN |>
         | SHOWDOWN | FINISHED => b = false ∧ g' = limped
         | ph => b = true ∧ current_phase g' = next_phase ph ∧ current_bet g' = 0 ∧
                 pot g' = pot limped ∧
                 players g' = Player.reset_for_new_betting_round <$> players limped ∧
                 ∃ burn cs, deck limped = deck g' ++ reverse cs ++ [burn] ∧
                   length cs = street_size ph ∧
                   community_cards g' = community_cards limped ++ cs
         end.
Proof. apply (advance_to_next_phase_correct limped), limped_ok. Defined.

Lemma hand_invariant_witness :
  hand_ok flopped ∧ chips_of flopped + pot flopped = chips_of table3 ∧
  pot flopped = bets_of flopped ∧
  Forall (λ p, 0 ≤ Player.chips p) (players flopped) ∧ NoDup (table_cards flopped) ∧
  board_ok flopped.
Proof.
  apply (hand_invariant id table3 opened flopped).
  - apply table3_ready.
  - done.
  - vm_compute. lia.
  - apply opened_eq.
  - trans limped; [apply play_run|apply phase_run]; vm_compute; [reflexivity|by eexists].
Defined.

Lemma betting_closes_matched_witness :
  (still_in limped ≤ 1)%nat ∨ bets_matched limped.
Proof.
  apply (betting_closes_matched 0 (u "check") 0 (play [call; call] opened) limped);
    vm_compute; reflexivity.
Defined.

Definition caller : player := default (Player.new HumanPlayer 0 [] 0) (get_player 1 opened).


(** The same table dealt from the reversed deck: only the secrets differ from
    what player 1 knows when player 1 has the same cards. *)
Definition swapped : t :=
  opened <| players ::= alter (λ p, p <| Player.hole_cards := take 2 (deck opened) |>) 2%nat |>
         <| deck ::= reverse |>.

Lemma get_llm_game_state_secret_witness :
  get_llm_game_state 1 opened = get_llm_game_state 1 swapped.
Proof. apply (get_llm_game_state_secret 1 opened swapped). vm_compute. reflexivity. Defined.

(** ** The showdown *)

(** Three players all-in for 50, 500 and 60 chips *)
Definition all_in_hand : t :=
  run_out 4 (play [shove; shove; shove] (after (start_new_hand id) (table [50; 500; 60]))).

Lemma all_in_hand_ok :
  hand_ok all_in_hand ∧ current_phase all_in_hand = SHOWDOWN ∧ (2 ≤ still_in all_in_hand)%nat.
Proof.
  split; [apply hand_ok_check_sound; vm_compute; reflexivity|].
  split; [vm_compute; reflexivity | vm_compute; lia].
Qed.

Lemma build_pot_layers_sum_witness :
  sum_by Showdown.ly_amount
    (Showdown.build_pot_layers (Showdown.contributions (players all_in_hand)))
  = pot all_in_hand.
Proof. apply (build_pot_layers_sum all_in_hand), all_in_hand_ok. Defined.

Lemma conduct_showdown_conserves_witness :
  ∃ r g', Showdown.conduct_showdown all_in_hand = (Ok r, g') ∧
    chips_of g' + pot g' = chips_of all_in_hand + pot all_in_hand ∧ 0 ≤ pot g' ∧
    sum_by po_winnings (sr_results r) = pot all_in_hand - pot g' ∧
    (top_contributor_in all_in_hand → pot g' = 0).
Proof. apply (conduct_showdown_conserves all_in_hand); apply all_in_hand_ok. Defined.

Lemma conduct_showdown_winners_witness :
  ∃ r g', Showdown.conduct_showdown all_in_hand = (Ok r, g') ∧
    ∀ i, i ∈ sr_winners r ↔
         ∃ p, p ∈ Showdown.remaining_players all_in_hand ∧ Player.id p = i ∧
              best_hand_in all_in_hand p.
Proof. apply (conduct_showdown_winners all_in_hand); apply all_in_hand_ok. Defined.

Lemma conduct_showdown_bound_witness :
  ∃ r g', Showdown.conduct_showdown all_in_hand = (Ok r, g') ∧
    Forall (λ x, ∃ p, p ∈ players all_in_hand ∧ Player.id p = po_player_id x ∧
      po_winnings x ≤ sum_by (λ q, Z.min (Player.total_bet_this_hand q)
                                         (Player.total_bet_this_hand p)) (players all_in_hand))
      (sr_results r).
Proof. apply (conduct_showdown_bound all_in_hand); apply all_in_hand_ok. Defined.

(** Seats 1 and 2 fold to the big blind of seat 0. *)
Definition walked : t := play [fold; fold] opened.
Definition survivor : player :=
  default (Player.new HumanPlayer 0 [] 0) (players walked !! 0%nat).

Lemma conduct_showdown_last_player_witness :
  ∃ r g', Showdown.conduct_showdown walked = (Ok r, g') ∧ sr_winners r = [Player.id survivor] ∧
    players g' = <[0%nat := survivor <| Player.chips := Player.chips survivor + pot walked |>]>
                   (players walked) ∧
    pot g' = pot walked.
Proof. apply (conduct_showdown_last_player walked 0 survivor); vm_compute; reflexivity. Defined.

(** The raise to 60 is shown after it, and still after the next hand began. *)
Lemma viewer_tells_last_action_witness :
  latest_action_for_player 1 raised = (u "raise", 60) ∧
  latest_action_for_player 1 (start_new_hand id raised).2 = (u "raise", 60) ∧
  latest_action_for_player 1 (advance_to_next_phase raised).2 = (u "raise", 60) ∧
  latest_action_for_player 1 (Showdown.conduct_showdown raised).2 = (u "raise", 60).
Proof.
  assert (process_player_action 1 (u "raise") 40 opened = (true, raised)) as H
    by (vm_compute; reflexivity).
  assert (shown (u "raise") opened raised = (u "raise", 60)) as S by (vm_compute; reflexivity).
  destruct (viewer_tells_last_action 1 id 1 (u "raise") 40 opened raised H) as (E & E1 & E2 & E3).
  rewrite decide_True in E by done.
  rewrite E1, E2, E3, E, S. repeat split.
Defined.
