(* ===== verification/HistoryWitnesses.v ===== *)
(** * Instances of the theorems on the history

    A hand at a table of three that is limped to the flop, one that two players decide by a
    showdown, and the file that the agent's tool then reads. *)
From stdpp Require Import strings.
From S2P Require Import Prelude Py Json JsonProps GameModels PlayerModels Evaluator GameHistory.
From S2P Require Import HistoryProps HistoryTool HistoryToolProps Game Showdown.
From S2P Require Import GameProps HandInvariant StartHand HandProps ShowdownProps Scenario HandHistory.
Import PokerGame.

Lemma table3_recorded : recorded table3.
Proof. split; [apply empty_ok|done]. Qed.

(** Two limps, a check out of turn that is refused, and the flop *)
Definition limped_calls : list call :=
  [Act 1 (u "call") 20; Act 0 (u "check") 0; Act 2 (u "call") 0; Act 0 (u "check") 0; Next].

Lemma history_of_hand_witness :
  let '(deeds, g') := play limped_calls (start_new_hand reverse table3).2 in
  ∃ i h, GameHistoryDB.get_hand_history i (db g') = Ok (Some h) ∧
    deed_of <$> GameHistoryDB.hh_actions h = deeds ∧
    GameHistoryDB.hh_community_cards h = prod_map id strs_json <$> boards (community_cards g').
Proof.
  assert (reverse Deck.full ≡ₚ Deck.full) as Hsh by apply reverse_Permutation.
  assert (2 ≤ with_chips table3)%nat as Hw by (vm_compute; lia).
  pose proof (history_of_hand reverse table3 limped_calls table3_ready Hsh Hw table3_recorded) as H.
  cbv zeta in H. destruct (play limped_calls _) as [deeds g'].
  destruct H as (_ & i & h & _ & E & _ & Ea & Eb & _). by exists i, h.
Defined.

(** Three actions are accepted, and three cards are on the board. *)
Example limped_deeds :
  let '(deeds, g') := play limped_calls (start_new_hand reverse table3).2 in
  deeds = [Deed (u "preflop") 1 (u "call") 20 50; Deed (u "preflop") 2 (u "call") 0 60;
           Deed (u "preflop") 0 (u "check") 0 60] ∧
  (boards (community_cards g')).*1 = [u "flop"].
Proof. vm_compute. done. Qed.

(** Two players are all-in, the third folds. *)
Definition shoved_calls : list call :=
  [Act 1 (u "all_in") 0; Act 2 (u "all_in") 490; Act 0 (u "fold") 0; Next; Next; Next; Next].
Definition before_showdown : t :=
  (play shoved_calls (start_new_hand reverse table3).2).2.

Lemma history_of_showdown_witness :
  ∃ r g2 i h, Showdown.conduct_showdown before_showdown = (Ok r, g2) ∧
    GameHistoryDB.get_hand_history i (db g2) = Ok (Some h) ∧ recorded g2 ∧
    Forall2 (shown_as before_showdown g2) (GameHistoryDB.hh_showdown_results h)
      (Showdown.remaining_players before_showdown).
Proof.
  assert (reverse Deck.full ≡ₚ Deck.full) as Hsh by apply reverse_Permutation.
  assert (2 ≤ with_chips table3)%nat as Hw by (vm_compute; lia).
  assert (current_phase before_showdown = SHOWDOWN) as Hp by (vm_compute; done).
  assert (2 ≤ still_in before_showdown)%nat as H2 by (vm_compute; lia).
  pose proof (history_of_showdown reverse table3 shoved_calls table3_ready Hsh Hw table3_recorded) as H.
  revert Hp H2. unfold before_showdown. destruct (play shoved_calls _) as [deeds g1].
  cbn [snd]. intros Hp H2. destruct (H Hp) as (r & g2 & i & h & E & _ & Eh & Hr & _ & _ & Hd).
  rewrite decide_True in Hd by done. exists r, g2, i, h. by destruct Hd.
Defined.

Definition game_file : HistoryTools.db_file :=
  HistoryTools.DbFile (u "db/game_history_2.sqlite3") 7 (db before_showdown).

(** A folder with an old empty file and the file of that game *)
Definition a_folder : list HistoryTools.db_file :=
  [HistoryTools.DbFile (u "db/game_history_1.sqlite3") 3 GameHistoryDB.empty;
   game_file].

Lemma before_showdown_ok : db_ok (db before_showdown).
Proof.
  assert (2 ≤ with_chips table3)%nat as Hw by (vm_compute; lia).
  destruct (start_chronicle reverse table3 table3_ready (reverse_Permutation _) Hw table3_recorded)
    as (i & row & g' & E & Hst & Hc & _).
  unfold before_showdown. rewrite E. apply (play_chronicle shoved_calls i row [] g'); [apply Hst|done].
Qed.


(** One hand is answered, with the three actions. *)
Example before_showdown_hands :
  (λ h, length (GameHistoryDB.hh_actions h)) <$> default [] (match
    GameHistoryDB.get_recent_hands 5 (db before_showdown) with Ok hs => mapM id hs | _ => None end)
  = [3%nat].
Proof. vm_compute. done. Qed.
