(* ===== verification/CliWitnesses.v ===== *)
(** * Games of the command line interface, played

    The theorems of [CliProps.v] and [AgentsProps.v] applied to concrete games,
    and two whole games run to their end. *)
From stdpp Require Import strings.
From S2P Require Import Prelude Py Json GameModels PlayerModels Evaluator EvaluatorProps.
From S2P Require Import GameHistory Game GameProps HandInvariant StartHand HandProps.
From S2P Require Import ViewProps Showdown ShowdownProps Scenario Witnesses.
From S2P Require Import Cli CliGames CliProps BettingProps AgentsProps.
Import PokerGame PokerUI AgentsConfig Games.

(** Draws that always take the same position among the options *)
Definition twice (_ : nat) : Z := 2.
Definition first_option (ws : list Z) : nat := 0.
Definition last_option (ws : list Z) : nat := length ws - 1.

Lemma fair_first : fair_draws twice first_option.
Proof. split; [unfold twice; lia|]. intros [|w ws] H; [done|]. unfold first_option. simpl. lia. Qed.

Lemma fair_last : fair_draws twice last_option.
Proof. split; [unfold twice; lia|]. intros [|w ws] H; [done|]. unfold last_option. simpl. lia. Qed.

(** The player on turn in [opened] *)
Definition first_actor : player :=
  default (Player.new RandomPlayer 0 [] 0) (players opened !! 1%nat).

Lemma first_actor_seat : players opened !! current_player_index opened = Some first_actor.
Proof. vm_compute. reflexivity. Qed.

Lemma first_actor_in : first_actor ∈ players opened.
Proof. eapply list_elem_of_lookup_2, first_actor_seat. Qed.

Definition first_view : GameState.t :=
  match get_llm_game_state 1 opened with Ok gs => gs | Raise _ => GameState.GameState 0 [] [] [] 0 0 0 0 0 0 0 [] [] [] end.

Lemma random_player_follows_offers_witness :
  ∃ d offer, RandomPlayerDecision.make_decision twice first_option first_actor first_view = Ok d ∧
    offer ∈ get_available_actions (Player.id first_actor) opened ∧
    decision_for (Player.chips first_actor) offer d.
Proof.
  apply (random_player_follows_offers twice first_option opened first_actor first_view).
  - apply fair_first.
  - apply opened_ok.
  - apply first_actor_in.
  - vm_compute. reflexivity.
  - vm_compute. reflexivity.
Defined.

Definition empty_session : session := Session (table []) [] 0 0 [].


(** The game in which everybody goes all-in is over after one hand. *)
Example all_in_game :
  let '(r, s) := run_cpu_only_game (random_decisions (λ _, twice) (λ _, last_option))
                   (λ _, reverse) (λ _, 0%nat) 10 1 100 empty_session in
  r = Ok Completed ∧ (Player.chips <$> players (game s)) = [0; 0; 0; 8000].
Proof. vm_compute. done. Qed.

Definition opened_session : session := Session opened [] 0 1 [].
Definition big_raise : decision := Decision (u "raise") 1000.
Definition overbet (_ : nat) (_ : player) (_ : GameState.t) : result decision := Ok big_raise.

Lemma auto_turn_plays_witness :
  ∃ s', auto_turn overbet first_actor opened_session = (Ok tt, s') ∧
    (if legal first_actor (d_action big_raise) (d_amount big_raise) (game opened_session)
     then process_player_action (Player.id first_actor) (d_action big_raise)
            (d_amount big_raise) (game opened_session)
     else process_player_action (Player.id first_actor) (u "fold") 0 (game opened_session))
    = (true, game s').
Proof.
  apply (auto_turn_plays overbet opened_session first_actor first_view big_raise).
  - apply opened_ok.
  - apply first_actor_seat.
  - vm_compute. reflexivity.
  - vm_compute. reflexivity.
  - reflexivity.
Defined.

Definition typed : list line := [Line (u "x"); Line (u " 3 "); Line (u "7"); CtrlC].


Lemma choose_action_accepted_witness :
  ∃ d, choose_action (get_available_actions (Player.id first_actor) opened)
         (Line (str_of_nat 2) :: typed) = (Ok d, typed) ∧
    (process_player_action (Player.id first_actor) (d_action d) (d_amount d) opened).1 = true.
Proof.
  apply (choose_action_accepted opened first_actor 1 (numbered (u "call (") 20) typed).
  - apply opened_ok.
  - apply first_actor_seat.
  - vm_compute. reflexivity.
  - vm_compute. reflexivity.
  - intros n E. unfold numbered in E. apply (f_equal (take 2)) in E. vm_compute in E. discriminate E.
Defined.

(** A person at seat 0, the first to act, and two computer players *)
Definition person : player := Player.new HumanPlayer 0 (u "You") 500.
Definition person_table : t :=
  after (start_new_hand id)
    (table [500; 500; 500] <| players ::= λ ps, person :: drop 1 ps |> <| dealer_button := 2%nat |>).
Definition person_playing : player :=
  default person (players person_table !! 0%nat).

Lemma person_table_ok : hand_ok person_table.
Proof. apply hand_ok_check_sound. vm_compute. reflexivity. Qed.

Lemma human_turn_fails_witness :
  game_turn overbet person_playing (Session person_table typed 0 1 [])
  = (Raise TypeError, Session person_table typed 0 1 []).
Proof.
  apply (human_turn_fails overbet (Session person_table typed 0 1 []) person_playing).
  - apply person_table_ok.
  - apply (list_elem_of_lookup_2 _ 0%nat). vm_compute. reflexivity.
  - vm_compute. reflexivity.
  - vm_compute. reflexivity.
Defined.

(** The whole game ends with the error when the turn is the person's. *)
Example run_game_breaks_off :
  (run_game (random_decisions (λ _, twice) (λ _, first_option)) (λ _, id) (λ _, 0%nat) 100 10
     (empty_session <| lines := [Line []; Line (u "2")] |>)).1 = Ok (Failed TypeError).
Proof. vm_compute. reflexivity. Qed.

Definition three_agents : list (pystr * nat) :=
  [(u "team1_agent", 2%nat); (u "beginner_agent", 1%nat)].

Lemma parse_agents_config_text_witness :
  parse_agents_config fallback_agents (specs_text three_agents)
  = Ok (configs_of (agents_of three_agents)).
Proof.
  apply (parse_agents_config_text fallback_agents three_agents).
  - done.
  - repeat constructor; cbn [fst snd]; try lia; try done;
      apply (bool_decide_unpack _); vm_compute; done.
  - vm_compute. lia.
Defined.

Definition small_raise (_ : nat) (_ : player) (_ : GameState.t) : result decision :=
  Ok (Decision (u "raise") 10).

Lemma hand_terminates_witness :
  ∃ s', phase_loop (auto_turn small_raise) (mret true) ((Z.to_nat 1500 + 10) * 11 + 13) 5
          opened_session = (Ok true, s') ∧
        hand_ok (game s') ∧ current_phase (game s') = SHOWDOWN.
Proof.
  apply (hand_terminates small_raise 1500 ((Z.to_nat 1500 + 10) * 11 + 13) opened_session).
  - intros k p g gs _ _ _ _. exists (Decision (u "raise") 10). split; [done|]. intros _. cbn. lia.
  - apply opened_ok.
  - intros _. exists first_actor. exact first_actor_seat.
  - vm_compute. lia.
  - vm_compute. done.
  - apply (bool_decide_unpack _). vm_compute. done.
  - apply le_n.
Defined.
