(* ===== verification/LlmWitnesses.v ===== *)
(** * Games of agents, played

    The theorems of [LlmProps.v], [AgentGames.v] and [Rules.v] applied to concrete
    answers and games, and a whole game of agents run to its end. *)
From stdpp Require Import strings relations.
From S2P Require Import Prelude Py Json JsonProps GameModels PlayerModels LlmPlayers.
From S2P Require Import Evaluator GameHistory Game GameProps HandInvariant StartHand HandProps.
From S2P Require Import Rules ViewProps Showdown ShowdownProps Scenario Witnesses.
From S2P Require Import Seating Cli CliGames CliProps LlmProps AgentsProps AgentGames CliWitnesses.
Import PokerGame AgentsConfig Games LLM.

(** A text with single quotes in place of double ones *)
Definition quoted (s : string) : pystr := (λ c, if (c =? 39)%N then 34%N else c) <$> u s.

(** The table of [three_agents] after the blinds *)
Definition agents : list pystr := agents_of three_agents.
Definition agents_opened : t := after (start_new_hand id) (agents_table id 2 agents).
Definition agent_view (i : nat) : GameState.t :=
  match get_llm_game_state i agents_opened with
  | Ok gs => gs
  | Raise _ => GameState.GameState 0 [] [] [] 0 0 0 0 0 0 0 [] [] []
  end.
Definition agent_on_turn : player :=
  default (Player.new RandomPlayer 0 [] 0)
    (players agents_opened !! current_player_index agents_opened).
Definition view : GameState.t := agent_view (current_player_index agents_opened).

Lemma agents_opened_ok : hand_ok agents_opened.
Proof. apply hand_ok_check_sound. vm_compute. reflexivity. Qed.

Lemma agent_on_turn_in : agent_on_turn ∈ players agents_opened.
Proof.
  apply (list_elem_of_lookup_2 _ (current_player_index agents_opened)). vm_compute. reflexivity.
Qed.

(** The server answers at the third poll, in the shape of its events. *)
Definition body_of (text : pystr) : result json :=
  Ok (JList [JNull; JDict [(u "content",
        JDict [(u "parts", JList [JDict [(u "text", JStr text)]])])]]).
Definition network_of (text : pystr) : network :=
  Network true (Ok JNull) (Raise RequestException)
    [(0, None); (200, None); (400, Some (Reply 200 (body_of text)))].

Definition low_raise : pystr :=
  quoted "I raise. {'action': 'RAISE', 'amount': 1.5e1, 'reasoning': 'strong'}".

Lemma network_uninterrupted text : uninterrupted (network_of text).
Proof.
  split; [done|done| |done]. intros t0 status body. unfold network_of, reply_polls.
  rewrite !elem_of_cons, elem_of_nil. intros [H|[H|[H|[]]]]; simplify_eq/=. done.
Qed.


(** The answer asks for a raise of 15; the least raise is 40. *)
Example low_raise_raised :
  (make_decision twice first_option (network_of low_raise) view agent_on_turn).1
  = Ok (Decision (u "raise") 40).
Proof. vm_compute. reflexivity. Qed.

(** A fenced answer over several lines *)
Definition fenced_object : pystr := quoted "{
  'action': 'Call',
  'amount': 5,
  'reasoning': 'pot odds'
}".
Definition fenced_answer : pystr :=
  u "{hm} " ++ u "```json" ++ 10%N :: fenced_object ++ fence_end ++ u " good luck }".


(** A strong hand that is folded *)
Definition braces : pystr := u "I hold {A, K}, so I raise".

Lemma brace_in_reasoning_folds_witness :
  parse_llm_response (JStr (u "Here: " ++ answer 2 (u "raise") 100 braces ++ u " ok"))
    view agent_on_turn
  = (Ok fold_decision,
     agent_on_turn <| Player.last_decision_reasoning := Some parse_failure |>).
Proof.
  apply (brace_in_reasoning_folds 2 (u "Here: ") (u " ok") (u "raise") 100 braces view agent_on_turn).
  - vm_compute. set_solver.
  - vm_compute. reflexivity.
  - vm_compute. set_solver.
  - vm_compute. set_solver.
  - vm_compute. discriminate.
Defined.

Definition folding : pystr := quoted "{'action': 'fold'}".


(** Three hands that everybody but the big blind folds *)
Example folding_game :
  let '(r, s) := run_agent_only_mode (agent_decisions (λ _, twice) (λ _, first_option)
                   (λ _, network_of folding)) (λ _, reverse) (λ _, 0%nat) fallback_agents 3
                   (specs_text three_agents) 100 empty_session in
  r = Ok Completed ∧ chips_of (game s) = 6000 ∧
  (hands_won ∘ snd <$> player_stats s) = [1; 1; 1].
Proof. vm_compute. done. Qed.

(** A call out of turn, a call, a raise, and a request for the flop *)
Definition out_of_turn : t := (process_player_action 2 (u "call") 0 opened).2.
Definition called : t := (process_player_action 1 (u "call") 0 out_of_turn).2.
Definition raised_by_2 : t := (process_player_action 2 (u "raise") 40 called).2.
Definition requested : t := (advance_to_next_phase raised_by_2).2.

Lemma requested_run : requests opened requested.
Proof.
  apply (rtc_l _ _ out_of_turn); [apply request_action; vm_compute; reflexivity|].
  apply (rtc_l _ _ called); [apply request_action; vm_compute; reflexivity|].
  apply (rtc_l _ _ raised_by_2); [apply request_action; vm_compute; reflexivity|].
  apply rtc_once, request_phase.
Qed.

Lemma engine_refines_rules_witness :
  rtc Rules.step (table_of opened) (table_of requested) ∧
  pot requested = Rules.pot (table_of requested).
Proof.
  apply (engine_refines_rules opened requested).
  - apply opened_ok.
  - apply requested_run.
Defined.
