(* ===== verification/LogWitnesses.v ===== *)
(** * The log viewer, on concrete logs

    The theorems of [LogProps.v] and [ViewerProps.v] applied to logs of concrete games,
    and what the viewer makes of other lines. *)
From stdpp Require Import strings relations.
From S2P Require Import Prelude Py Json GameModels PlayerModels LlmPlayers Game GameProps.
From S2P Require Import HandInvariant Scenario Witnesses LlmWitnesses.
From S2P Require Import GameLog LogViewer LogProps PromptProps ViewerProps.
Import LogRecord LogParser GameLog PokerGame.

Definition noon : pystr := u "2025-08-02 12:00:00,123".

Lemma noon_ok : timestamp_ok noon.
Proof. split_and!; vm_compute; reflexivity. Qed.

Definition record (message : string) : pystr := log_record noon (u "INFO") (u message).
Definition first_part : pystr := record "=== STARTING NEW HAND #7 ===" ++ record "Phase changed: preflop -> flop".
Definition second_part : pystr := record "Pot: 60, Current bet: 20".

Definition read_first : result (list event) * LogParser.t := parse_new_lines (Some first_part) LogParser.new.

Lemma parse_new_lines_incremental_witness :
  parse_new_lines (Some (first_part ++ second_part)) LogParser.new =
    let '(r, p2) := parse_new_lines (Some (first_part ++ second_part)) read_first.2 in
    (app (match read_first.1 with Ok es => es | Raise _ => [] end) <$> r, p2).
Proof.
  apply (parse_new_lines_incremental [] first_part second_part LogParser.new).
  - right. vm_compute. reflexivity.
  - vm_compute. reflexivity.
  - reflexivity.
  - vm_compute. reflexivity.
Defined.

Lemma viewer_reads_action_witness :
  ∃ entry bets e,
    action_history (play [raise_by 40] opened) = action_history opened ++ [entry] ∧
    log_game_state (u "AFTER ACTION") [] (play [raise_by 40] opened) !! 3%nat = Some bets ∧
    parse_lines [log_record noon (u "INFO") (action_message entry); log_record noon (u "INFO") bets]
      LogParser.new
    = (Ok [e], LogParser.new <| events ::= λ l, l ++ [e] |>
                 <| state ::= λ s, s <| gs_pot := JInt (pot (play [raise_by 40] opened)) |>
                      <| gs_current_bet := Json (JInt (current_bet (play [raise_by 40] opened))) |>
                      <| gs_last_updated := Some noon |> |>).
Proof.
  apply (viewer_reads_action 1 (u "raise") 40 opened).
  - vm_compute. reflexivity.
  - apply noon_ok.
  - apply noon_ok.
  - vm_compute. discriminate.
  - vm_compute. discriminate.
Defined.

Definition on_turn : nat := current_player_index agents_opened.


(** The line of an action as the patterns expect it, which the engine never writes *)
Example an_action_line :
  parse_action (u "ACTION_EXECUTED: Player 2 (Agent2) raises to 50")
  = Some (PLAYER_ACTION 2 (u "Agent2") (u "raises to") 50).
Proof. vm_compute. reflexivity. Qed.

Example the_engine's_line :
  action_message <$> drop 2 (action_history (play [raise_by 40] opened))
  = [u "ACTION_EXECUTED: Player 1 raised to 60"] ∧
  parse_action (u "ACTION_EXECUTED: Player 1 raised to 60") = None.
Proof. split; vm_compute; reflexivity. Qed.

(** A file that is loaded is read from its start again by the first refresh: every
    event is there twice. *)
Example loaded_file_is_read_again :
  let p := (parse_file first_part LogParser.new).2 in
  events (parse_new_lines (Some first_part) p).2 = events p ++ events p ∧ events p ≠ [].
Proof. split; [vm_compute; reflexivity|vm_compute; discriminate]. Qed.

(** The chips of an agent that other prompts have told the viewer of, and that it knew
    as a [Player], are lost when the agent's own prompt comes. *)
Example own_prompt_forgets_chips :
  let told := (extract_cards_from_json_message (full_prompt 1 (agent_view 1)) (agent_name 1)
                 LogParser.new).2 in
  let own := (extract_cards_from_json_message (full_prompt 2 (agent_view 2)) (agent_name 2) told).2 in
  chips <$> dict_get (JInt 2) (gs_players (state told)) = Some (JInt (GameState.your_chips (agent_view 2))) ∧
  chips <$> dict_get (JInt 2) (gs_players (state own)) = Some (JInt 2000) ∧
  GameState.your_chips (agent_view 2) ≠ 2000.
Proof. split_and!; [vm_compute; reflexivity..|vm_compute; discriminate]. Qed.

(** A player that says so starts a hand for the viewer: a decision is logged with its
    reasoning, and the first test is for the marker of a hand. *)
Example reasoning_starts_a_hand :
  let p := (parse_file (record "=== STARTING NEW HAND #7 ===" ++
    record "[Agent1] Successfully parsed decision: fold, 0, === STARTING NEW HAND #99")
    LogParser.new).2 in
  gs_current_hand (state p) = Some 99.
Proof. vm_compute. reflexivity. Qed.
