(* ===== verification/WindowWitnesses.v ===== *)
(** * Windows of the log viewer

    Witnesses of the theorems on the window of the log viewer, and what it does with
    particular files. *)
From stdpp Require Import strings.
From S2P Require Import Prelude Py Json Regex LogViewer LogWindow LogProps Main LogWindowProps.
From S2P Require Import LogWitnesses.
Import LogRecord LogParser LogViewerApp.

Definition a_log : pystr := Main.log_filename (u "20250101_120000") (u "ab12").
Definition a_path : pystr := log_path a_log.
Definition holding (text : pystr) : files :=
  λ path, if bool_decide (path = a_path) then Some text else None.

Definition opened_window : t := (load_log_file (holding first_part) a_path new).2.

Lemma first_part_loads : loads (holding first_part) a_path new.
Proof.
  exists first_part. split; [vm_compute; reflexivity|].
  destruct (LogParser.parse_file first_part (parser new)) as [[es|] p] eqn:E; vm_compute in E;
    [|discriminate E]. injection E as <- <-. split; [discriminate|]. eexists. vm_compute. reflexivity.
Qed.

(** The log grows, the thread reads it, and a person switches the reading off. *)
Definition followed : t :=
  happens (happens opened_window (Refresh (holding (first_part ++ second_part)))) (Toggle false).

Lemma opened_runs : runs (load_log_file (holding first_part) a_path new).2 followed.
Proof.
  unfold followed, opened_window.
  eapply (runs_action _ (Refresh (holding (first_part ++ second_part)))).
  { intros path H. assert (path = a_path) as -> by (vm_compute in H; vm_compute; congruence).
    eexists. vm_compute. reflexivity. }
  eapply (runs_action _ (Toggle false)); [exact I|]. apply runs_done.
Qed.


Lemma log_is_shown_twice_witness :
  let c := happens opened_window (Refresh (holding first_part)) in
  let d := happens c Timer in
  content <$> app_events d
    = (content <$> app_events opened_window) ++ (content <$> app_events opened_window) ∧
  event_list d = controls_of (app_events d) ∧
  length (event_list d) = (2 * length (event_list opened_window))%nat ∧
  stats_text d = stats_of (app_events opened_window).
Proof.
  apply (log_is_shown_twice (holding first_part) a_path new).
  - vm_compute. discriminate.
  - exact first_part_loads.
  - reflexivity.
  - reflexivity.
  - eexists. vm_compute. reflexivity.
  - eexists. vm_compute. reflexivity.
Defined.

Definition two_logs : list (pystr * Z) :=
  [(a_log, 2048); (Main.log_filename (u "20250102_093000") (u "0f3c"), 51712)].

Lemma newest_log_is_opened_witness :
  ∃ d t uuid rest,
    let f := Main.log_filename (d ++ u "_" ++ t) uuid in
    f ∈ two_logs.*1 ∧ stamp (d ++ u "_" ++ t) ∧
    (∀ ts' uuid', stamp ts' → Main.log_filename ts' uuid' ∈ two_logs.*1 →
       text_leb ts' (d ++ u "_" ++ t) = true) ∧
    let listed := new <| file_list ::= λ l, l ++
      FileButton (date_text d t ++ u " (" ++ size_text (dict_get_default f 0 two_logs) ++ u ")")
        (log_path f) :: rest |> in
    main (holding first_part) (Some two_logs) None new
    = load_log_file (holding first_part) (log_path f) listed.
Proof.
  apply (newest_log_is_opened (holding first_part) two_logs new).
  - discriminate.
  - repeat constructor.
    + exists (u "20250101_120000"), (u "ab12"). split; [|reflexivity].
      exists (u "20250101"), (u "120000"). split_and!; vm_compute; reflexivity.
    + exists (u "20250102_093000"), (u "0f3c"). split; [|reflexivity].
      exists (u "20250102"), (u "093000"). split_and!; vm_compute; reflexivity.
Defined.

Example file_buttons_shown :
  file_list ((load_log_files (Some two_logs)) new).2
  = [FileButton (u "2025/01/02 09:30:00 (50.5KB)") (u "logs/poker_game_20250102_093000_0f3c.log");
     FileButton (u "2025/01/01 12:00:00 (2.0KB)") (u "logs/poker_game_20250101_120000_ab12.log")].
Proof. vm_compute. reflexivity. Qed.

(** A record with a date that is none ends the thread; the records around it that were
    read with it are not shown, and what follows it is never read. *)
Definition bad_record : pystr := u "2025-13-01 12:00:00,000 - poker_game - INFO - ..." ++ [10%N].

Example bad_record_ends_thread :
  let text := first_part ++ bad_record ++ second_part in
  let a := happens opened_window (Refresh (holding text)) in
  refresh_thread a = false ∧ auto_refresh a = true ∧ needs_ui_update a = false ∧
  last_file_position (parser a) = length text ∧
  (length (event_list a) < length (controls_of (app_events a)))%nat.
Proof. split_and!; [vm_compute; reflexivity..|]. apply Nat.ltb_lt. vm_compute. reflexivity. Qed.

(** A file without events that is selected after another leaves the events of the other
    on the screen, and any file leaves the players and the hand. *)
Example empty_log_keeps_list :
  let a := (load_log_file (holding []) a_path opened_window).2 in
  app_events a = [] ∧ event_list a = event_list opened_window ∧ event_list a ≠ [] ∧
  game_status a = game_status opened_window ∧ game_status a ≠ Waiting ∧
  stats_text a = u "ハンド数: 0, 総イベント数: 0".
Proof.
  split_and!; [vm_compute; reflexivity..|vm_compute; discriminate|vm_compute; reflexivity
              |vm_compute; discriminate|vm_compute; reflexivity].
Qed.

(** The dialog with a prompt *)
Example prompt_dialog :
  overlay (happens (new <| event_list := [decision_control (u "Agent1") (u "prompt") (u "p") (u "12:00:00")
                                            (Some (u "the prompt"))] |>) (ShowReasoning 0))
  = [Dialog (u "Agent1 へのプロンプト") (u "the prompt") true].
Proof. vm_compute. reflexivity. Qed.
