(* ===== verification/UiWitnesses.v ===== *)
(** * The graphical interface, on concrete games

    The theorems of [GameUiProps.v] applied to a table with a person, and what the
    person sees of it. *)
From stdpp Require Import strings relations.
From S2P Require Import Prelude Py Json GameModels PlayerModels Game GameProps HandInvariant ViewProps.
From S2P Require Import Scenario Witnesses CliWitnesses GameUi GameUiProps.
From S2P Require Import FletGame AgentManager SetupUi CliProps FletProps SetupProps.
From S2P Require Import Showdown StateServer ViewerUi SpectatorProps.
Import PokerGame GameUI.


(** The interface of the person at seat 0, before anything is shown *)
Definition at_seat_0 : GameUI.t := GameUI.set_game person_table 0 GameUI.initialize.

Lemma persons_turn : your_turn person_table person_playing at_seat_0.
Proof.
  split; try (vm_compute; reflexivity).
  assert (current_phase person_table = PREFLOP) as -> by (vm_compute; reflexivity).
  apply (bool_decide_unpack _). reflexivity.
Qed.

Lemma offered_buttons_witness :
  ∃ s', update_action_buttons at_seat_0 = (Ok tt, s') ∧ game s' = Some person_table ∧
    Forall2 (λ offer b, action_button offer = Ok (Some b) ∧ promises person_table person_playing b)
      (get_available_actions (Player.id person_playing) person_table) (action_buttons s') ∧
    ∀ b action amount, b ∈ action_buttons s' → on_click b = Handle action amount →
      ∃ g' s'', process_player_action (Player.id person_playing) action amount person_table
          = (true, g') ∧
        handle_action action amount s' = (Ok tt, s'') ∧ game s'' = Some g' ∧
        display (Player.id person_playing) g' = Ok (shown s'') ∧
        head (action_history_column (shown s'')) =
          Some (entry_item (Player.id person_playing) (Some g') (badge_of action person_table g')).
Proof.
  apply (offered_buttons person_table person_playing at_seat_0).
  - apply person_table_ok.
  - apply persons_turn.
Defined.

(** The person calls; the call is at the top of the history. *)
Example after_a_call :
  let s := (handle_action (u "call") 20 at_seat_0).2 in
  take 2 (action_history_column (shown s))
  = [Badge (u "CALL") (u "You") (Some 20); Badge (u "BB") (u "CPU2") (Some 20)] ∧
  game_info_text (shown s) = u "🎯 ハンド #1 | 🎲 フェーズ: プリフロップ" ∧
  (seat_cards <$> seats (shown s)) !! 1%nat = Some [Back; Back].
Proof. vm_compute. done. Qed.

(** The least raise, at a stack that can pay it but not on top of the call: the dialog
    offers it, the game refuses it, and nothing is said. *)
Definition short_person : PokerGame.t :=
  person_table <| players ::= alter (λ p, p <| Player.chips := 45 |>) 0%nat |>.

Example least_raise_refused :
  let s := at_seat_0 <| game := Some short_person |> in
  let asked := (show_raise_dialog (min_raise_total short_person) s).2 in
  ShowRaiseDialog 40 ∈ on_click <$> action_buttons (update_action_buttons s).2 ∧
  (confirm_raise asked).1 = Ok tt ∧
  game (confirm_raise asked).2 = Some short_person ∧
  status_text (confirm_raise asked).2 = choose_text.
Proof.
  cbv zeta. split; [|vm_compute; done]. apply list_elem_of_lookup. exists 2%nat. vm_compute. reflexivity.
Qed.

(** ** The page of settings *)

(** The server lists two agents by their names. *)
Definition two_agents : AgentManager.answer :=
  Ok (200, Ok (JList [JStr (u "team1_agent"); JStr (u "team2_agent")])).

Lemma two_agents_texts : lists_texts two_agents.
Proof. intros url. by repeat constructor. Qed.

Definition no_files (_ : json) : bool := false.
Definition page_run (m : M SetupUI.t ()) (s : SetupUI.t) : SetupUI.t := (m s).2.
Arguments page_run : simpl never.

(** The page is opened, three players are chosen, the first of them an agent, and of
    the agents the second *)
Definition opened_page : SetupUI.t :=
  page_run (SetupUI.initialize 7 two_agents) (SetupUI.new (u "http://localhost:8001")).
Definition three_chosen : SetupUI.t := page_run (on_event no_files 7 (ChangePlayers (u "3"))) opened_page.
Definition agent_chosen : SetupUI.t :=
  page_run (on_event no_files 7 (ChangeType 0 (u "llm_api"))) three_chosen.
Definition filled_page : SetupUI.t :=
  page_run (on_event no_files 7 (ChooseAgent 0 (JStr (u "team2_agent")))) agent_chosen.

Lemma page_next e s :
  page no_files 7 s → allowed s e → page no_files 7 (page_run (on_event no_files 7 e) s).
Proof. intros Hs He. exact (page_event _ _ _ _ _ _ Hs He (surjective_pairing _)). Qed.

Lemma filled_page_ok : page no_files 7 filled_page.
Proof.
  apply page_next; [apply page_next; [apply page_next|]|].
  - exact (page_opened _ _ _ _ _ _ two_agents_texts (surjective_pairing _)).
  - done.
  - right. by left.
  - eexists. split; [vm_compute; reflexivity|]. split; [reflexivity|]. split; [reflexivity|].
    right. by left.
Qed.

Example filled_page_configs :
  (SetupUI.start_game_with_settings 7 filled_page).1
  = Ok [human_config; agent_config (u "team2_agent") (u "user-0007"); random_config].
Proof. vm_compute. reflexivity. Qed.


(** ** The cards of the agents *)

Definition listed_agents : AgentManager.t :=
  (AgentManager.fetch_agents_from_server two_agents
    (AgentManager.new (u "http://localhost:8001"))).2.
Definition shown_agents : AgentManager.t := (AgentManager.create_agent_test_section 7 listed_agents).2.
Arguments listed_agents : simpl never.
Arguments shown_agents : simpl never.

(** The server makes the session and finds it again. *)
Definition all_well : AgentManager.network :=
  AgentManager.Network (AgentManager.Reply 200) (AgentManager.Reply (200, AgentManager.Reply JNull)).

Definition second_agent : AgentManager.agent :=
  AgentManager.named_agent (u "http://localhost:8001") (JStr (u "team2_agent")) (u "team2_agent").

Lemma tested_card_shown_witness :
  ∃ s1 icon text result s2,
    AgentManager.create_agent_test_section 7 listed_agents = (Ok tt, s1) ∧
    AgentManager.visible_cards s1 = fresh_card <$> AgentManager.dynamic_agents listed_agents ∧
    AgentManager.test_agent_connection no_files 7 all_well (AgentManager.id second_agent) s1 = (Ok tt, s2) ∧
    AgentManager.visible_cards s2 =
      <[1%nat := AgentManager.Card (AgentManager.id second_agent) icon text]>
        (AgentManager.visible_cards s1) ∧
    dict_get (AgentManager.id second_agent) (AgentManager.get_test_results s2) = Some result ∧
    (icon = AgentManager.CHECK_CIRCLE ↔ AgentManager.status result = u "success").
Proof.
  apply (tested_card_shown no_files 7 all_well listed_agents 1 second_agent).
  - vm_compute. by repeat constructor.
  - apply (bool_decide_unpack _). vm_compute. exact I.
  - vm_compute. reflexivity.
Defined.

Lemma refreshed_cards_stale_witness :
  ∃ s1 s2, AgentManager.refresh_agents 7 two_agents shown_agents = (Ok tt, s1) ∧
    AgentManager.visible_cards s1 = fresh_card <$> AgentManager.dynamic_agents s1 ∧
    AgentManager.test_agent_connection no_files 7 all_well (JStr (u "team2_agent")) s1 = (Ok tt, s2) ∧
    is_Some (dict_get (JStr (u "team2_agent")) (AgentManager.get_test_results s2)) ∧
    AgentManager.visible_cards s2 = AgentManager.visible_cards s1.
Proof.
  apply (refreshed_cards_stale no_files 7 all_well two_agents shown_agents (JStr (u "team2_agent"))).
  - apply two_agents_texts.
  - eexists. vm_compute. reflexivity.
  - reflexivity.
  - apply (bool_decide_unpack _). vm_compute. exact I.
Defined.

(** The same test before and after the list is fetched again *)
Example a_test_before_and_after :
  let test := AgentManager.test_agent_connection no_files 7 all_well (JStr (u "team2_agent")) in
  let again := (AgentManager.refresh_agents 7 two_agents shown_agents).2 in
  AgentManager.status_icon <$> AgentManager.visible_cards (test shown_agents).2
  = [AgentManager.CIRCLE; AgentManager.CHECK_CIRCLE] ∧
  AgentManager.status_icon <$> AgentManager.visible_cards (test again).2
  = [AgentManager.CIRCLE; AgentManager.CIRCLE] ∧
  AgentManager.status ∘ snd <$> AgentManager.test_results (test again).2 = [u "success"].
Proof. vm_compute. done. Qed.

(** ** The page for spectators *)

Lemma spectators_see_the_table_witness :
  ∃ page, (∀ s, ViewerUI.poll (fetched (SharedState.SharedState (Some opened))) s = (Ok tt, page)) ∧
    (∀ i sc, display i opened = Ok sc →
       ViewerUI.game_info_text page = GameUI.game_info_text sc ∧
       ViewerUI.community_cards_row page = GameUI.community_cards_row sc ∧
       ViewerUI.pot_text page = GameUI.pot_text sc ∧
       ViewerUI.table_status_text page = GameUI.table_status_text sc ∧
       ViewerUI.action_history_column page = GameUI.action_history_column sc) ∧
    Forall2 (λ p seat, ∃ own, GameUI.build_seat (Player.id p) opened p = Ok own ∧ seat = seen own)
      (players opened) (ViewerUI.stack_seats page) ∧
    match last_showdown_results opened with
    | None => ViewerUI.overlay page = None
    | Some r => ∃ rows, ViewerUI.overlay page = Some rows ∧
        showdown_rows (Some opened) r =
          Ok ((inl <$> rows) ++ [inr (Button (u "次のハンドへ") ConfirmShowdown)])
    end ∧
    Forall2 (λ p card, ViewerUI.agent_name card = get_display_name p ∧
        let '(action, amount) := StateServer.latest_action_for_player (Player.id p) opened in
        ViewerUI.agent_row card = ViewerUI.agent_items action amount)
      (filter (λ p, StateServer.is_api_player p) (players opened)) (ViewerUI.llm_agents_grid page).
Proof.
  apply (spectators_see_the_table opened). vm_compute. repeat constructor; discriminate.
Defined.

(** The spectators see the cards of the person's hand that the others do not, and
    without a game that there is none yet. *)
Example spectators_see_cards :
  let page := (ViewerUI.poll (fetched (SharedState.SharedState (Some person_table))) ViewerUI.init_ui).2 in
  (λ s, length (filter (λ c, c ≠ Back) (ViewerUI.seat_cards s))) <$> ViewerUI.stack_seats page
    = [2; 2; 2]%nat ∧
  (λ s, length (filter (λ c, c ≠ Back) (GameUI.seat_cards s)))
    <$> seats (shown (update_display at_seat_0).2) = [2; 0; 0]%nat ∧
  ViewerUI.game_info_text
    (ViewerUI.poll (fetched (SharedState.SharedState None)) ViewerUI.init_ui).2
    = u "ゲーム待機中... プレイヤーUIでゲーム開始してください".
Proof. vm_compute. done. Qed.
